(* ===== verification/_CoqProject ===== *)
-Q . S2P
Prelude.v
Ordering.v
Version.v
AuditLog.v
Rbac.v
Conc.v
Session.v
Accounts.v
Sso.v
AccountFlow.v
AccountGuards.v
PasswordFlow.v
SsoFlow.v
WsTickets.v
Enrollment.v
Schema.v
Windows.v
WindowRoutes.v
Statements.v
SelfUpgrade.v
AgentClient.v
HealthChecks.v
Health.v
JobExecutor.v
WsRelay.v
Scheduler.v
JobsApi.v
Buffers.v
ApkSign.v
PkgFormats.v
RepoWorld.v
RepoIndex.v
Upgrades.v
Hosts.v
HostFlow.v
Ca.v
CaFlow.v
Settings.v
SettingsFlow.v
Pollers.v
PollerFlow.v
Scenario.v
JobSafety.v
JobFlow.v
ExecFlow.v
HealthFlow.v
CheckRules.v
RouteFlow.v
SchedFlow.v
UpgradeFlow.v
RepoSync.v
RepoWrites.v
RepoFlow.v
RepoAdmin.v
IndexFlow.v
RepoTypes.v
DiskUsage.v
PkiConfig.v
Migration.v
JobViews.v
FleetStatus.v
Reports.v
ReportFlow.v
SigningKeys.v
