(* ===== verification/Prelude.v ===== *)
(** * Linux Patch Manager: verification development (root file)

    A shallow embedding of the core of the manager (the Rust crates under
    src/crates/), with the theorems that say what it does.  This file also
    holds what all the others share: Rust results, byte strings and number
    parsing, JSON values, times, tactics and the hint database [lpm].

    ** The program

    The manager keeps a fleet of hosts patched.  A web server (pm-web) answers
    the API: sessions, accounts and roles, the inventory of hosts and groups,
    their maintenance windows and health checks, the routes that create, cancel
    and roll back patch jobs and upgrades of the agents, enrolment, certificates
    and the administration of the package repository.  A worker (pm-worker) runs
    the jobs: a scanner dispatches queued host entries to the agents on the
    hosts, polls the running ones, retries the failed ones and times out the
    stuck ones; a relay follows each agent's event stream; a scheduler creates
    and dispatches jobs in the hosts' windows; pollers keep the hosts' status and
    the results of their health checks; a synchronisation fills the repository
    from the releases on GitHub.  Server and worker share nothing but the
    PostgreSQL tables and the repository's directory; but for the audit log, the
    tables are read and written in single statements without transactions, so
    that any two handlers may interleave between two statements.

    ** How it is modelled

    - An asynchronous function is a program [prog E A] of Conc.v: a free monad
      with one node per [await] (a statement, an agent call, the clock, a file, a
      [tokio::spawn]).  The same term is run ([run]), verified alone for every
      answer of the outside ([wp], [may]), verified against interference ([safe],
      [gsafe], [emits]), bounded in what it issues ([only]), accounted for its
      resources ([lin]) and interleaved ([cstep], [interleave]).
    - A table is a [gmap] from primary keys to records, a statement a function
      on the store (one constructor per query, an [exec_..._stmt] as their
      interpreter).  Unique indexes, foreign keys, cascades and NULLs are written
      out where a statement depends on them.
    - The effects of a component have a semantics in its theorems' file: one
      where any statement may fail before or after it took effect, answers are
      arbitrary and others act in between ([concurrent], [window_world],
      [inventory_faults], [ca_world], ...), and one where the component is alone
      ([alone], [account_alone], [ca_alone], ...).
    - Times are microseconds since the epoch in [Z]; lengths, sizes and offsets
      of packages are checked 64-bit integers ([uadd], [add_u64] and the like in
      Buffers.v and RepoAdmin.v), counters of rows unbounded [Z] with their bounds
      proved where the program relies on them; strings are their bytes.
    - What is not in the repository (SHA-256, Argon2, TOTP, AES, JWT, RSA and GPG
      signatures, rcgen, hex, IP networks, RFC 3339, tar and decompressors, the
      agents, GitHub, the identity provider) is a parameter or an effect with
      arbitrary answers; no property assumes more of one than its statement says.

    ** The files

    Shared:
    - Ordering.v: orders, the stable sort, B-tree maps.  Buffers.v: byte buffers,
      UTF-8, checked arithmetic.  Conc.v: programs, their logic, interleavings.

    Jobs:
    - Schema.v, Windows.v, Statements.v: the job tables (pm-core/src/models.rs,
      migrations), the open-window condition, the SQL statements.
    - WindowRoutes.v: pm-web/src/routes/maintenance_windows.rs, with its theorems.
    - SelfUpgrade.v: the pure decisions of job_executor.rs on a self-upgrade.
    - JobExecutor.v, WsRelay.v, Scheduler.v: pm-worker/src/job_executor.rs,
      ws_relay.rs, maintenance_scheduler.rs, one definition per function, named
      after it (or after the step of it, where a long function is split).
    - JobsApi.v, JobViews.v: the routes of pm-web/src/routes/jobs.rs that change
      state, and the two that read it.
    - Upgrades.v: pm-web/src/routes/upgrades.rs; Version.v: pm-core/src/version.rs.
    - Scenario.v: the small database and the agents the witnesses run on.
    - JobSafety.v, JobFlow.v, ExecFlow.v, RouteFlow.v, SchedFlow.v, UpgradeFlow.v:
      the theorems of the job engine.

    Hosts:
    - Hosts.v, HostFlow.v: pm-web/src/routes/hosts.rs, groups.rs, discovery.rs.
    - Health.v: pm-worker/src/health_poller.rs: hysteresis, revocation-list rules,
      the row of [hosts].
    - HealthChecks.v, HealthFlow.v, CheckRules.v: pm-web/src/routes/health_checks.rs
      and pm-worker/src/health_check_poller.rs.
    - AgentClient.v: pm-agent-client (client.rs, error.rs, types.rs).
    - Enrollment.v: pm-web/src/routes/enrollment.rs and pm-core/src/db.rs.
    - Ca.v, CaFlow.v: pm-ca/src/ca.rs, pm-web/src/routes/ca.rs, [get_crl] of pki.rs.
    - Pollers.v, PollerFlow.v: pm-worker/src/health_poller.rs (the tasks around
      Health.v), patch_poller.rs, refresh_listener.rs, audit_verifier.rs.
    - PkiConfig.v: pm-web/src/routes/pki.rs and the configuration of repositories in
      enrollment.rs and models.rs.  FleetStatus.v: pm-web/src/routes/status.rs.

    Users:
    - Rbac.v: pm-auth/src/rbac.rs, the middleware: allow-list, bearer token, role.
    - Session.v: pm-auth/src/session.rs and refresh.rs: login, lock-out, rotation
      and revocation of refresh tokens.
    - Accounts.v, Sso.v: pm-web/src/routes/users.rs, auth.rs and sso.rs, and
      pm-auth/src/password.rs; AccountFlow.v, AccountGuards.v, PasswordFlow.v,
      SsoFlow.v: their theorems.
    - WsTickets.v: pm-web/src/routes/ws.rs: the origin gate and the tickets.
    - AuditLog.v: pm-core/src/audit.rs, the hash-chained audit log: writing,
      [verify_integrity], [repair_integrity], and what deleting a user does to it.
    - Settings.v, SettingsFlow.v: pm-web/src/routes/settings.rs, the key of the
      secrets and their encryption (pm-core/src/crypto.rs), the worker's mails
      (pm-worker/src/email.rs).
    - Migration.v: migrate-secrets/src/main.rs and the migration 020 around it.

    The package repository:
    - PkgFormats.v, ApkSign.v: the readers of the package formats and the
      signatures of .apk files in pm-core/src/repo_metadata.rs; RepoIndex.v: its
      generators of indexes; RepoWorld.v: disk, tables and network as effects.
    - RepoSync.v: pm-core/src/repo_sync.rs, pm-worker/src/package_sync_worker.rs.
    - RepoAdmin.v: pm-web/src/routes/repo_admin.rs.
    - SigningKeys.v: pm-core/src/gpg.rs and rsa_signing.rs, the keys at a start.
    - RepoWrites.v, RepoFlow.v, IndexFlow.v, RepoTypes.v, DiskUsage.v: theorems.

    Reports:
    - Reports.v, ReportFlow.v: pm-reports (csv.rs, pdf.rs), routes/reports.rs.

    ** What the theorems show

    - Under every interleaving of worker tasks and requests, with failing
      statements (JobSafety.v): a terminal host entry keeps its outcome
      ([terminal_outcome_frozen]), the retry counter stays within 0..3
      ([retry_counter_bounded]), the tables keep their indexes and links
      ([job_tables_wf]); but a cancelled job can be run and end as succeeded
      ([cancelled_job_resurrected]).
    - Each operation of the job engine alone, on every branch (JobFlow.v,
      ExecFlow.v, RouteFlow.v, SchedFlow.v, UpgradeFlow.v): the roll-up of a job
      refines a specification over its entries ([sync_job_status_spec]), retry and
      final failure ([handle_host_failure_spec]), the reboot gate, which lets pass
      when its query fails ([unsafe_host_never_rebooted]), the health gate ([health_gate_spec]), time-outs,
      creation at most once per window cycle ([auto_create_once_per_cycle]), the
      routes ([create_job_spec], [cancel_job_spec], [trigger_upgrade_spec]), when
      the two roll-ups of the program agree ([rollups_agree_iff]).
    - Windows: when one is open ([recurring_window_open_iff]); whatever the routes
      accept opens again, if it ends before midnight ([accepted_windows_open]), and
      what they should not accept ([window_length_unchecked]).
    - Hosts: the listing shows what its caller may see, and which requests the
      database refuses ([listing_respects_access]),
      its SQL binds the values it numbers ([placeholders_match]), reporters change
      nothing ([reporters_change_nothing]); and where access leaks
      ([operator_admits_itself], [deleted_group_opens_hosts]).
    - Health: hysteresis and revocation lists ([unreachable_after_three],
      [crl_rules]); a poller's cycle decides the gate of the executor
      ([cycle_decides_gate]); ten checks a host, one after the other, and more when
      they race ([ten_checks_per_host], [concurrent_creations_pass_limit]); the two
      implementations of a check agree ([poller_agrees_with_test]).
    - Certificates: a revoked one is on every list that a later request signs, until it expires
      ([revoked_on_every_crl]), unless its host is deleted
      ([removed_host_leaves_crl]); what a reissue leaves ([reissue_host_cert_spec]);
      the routes sign no authority ([leaf_certificates_only]).
    - Termination: the self-upgrade confirmation ([reconnect_confirm_terminates])
      and the configuration on which it does not end
      ([reconnect_zero_interval_spins]); the scan of directories
      ([scan_dir_size_total]); the readers of packages ([parsers_never_panic],
      [gzip_boundaries_safe]).
    - Audit log: written logs verify, verification binds the content up to SHA-256
      collisions, repair restores it, deleting a user breaks it
      ([written_log_verifies], [verified_logs_agree], [repair_restores_integrity],
      [user_deletion_breaks_chain]).
    - Users: login, lock-out and tokens ([login_spec], [five_failures_lock],
      [concurrent_rotations_both_succeed]); nobody raises their rights
      ([no_privilege_escalation]); a deactivated user gets no token
      ([deactivated_user_gets_no_token]); resets ([reset_password_cycle]); single
      sign-on ([sso_sign_in_correct], [code_delivered_once]); the allow-list
      ([require_auth_iff], [forwarded_address_is_claimed]).
    - One-time secrets: an enrolment bundle is sent at most once
      ([bundle_delivered_once], by the resource accounting of Conc.v); tickets
      ([ws_handler_spec], [ws_ticket_used_twice]).
    - The repository: packages read back ([deb_roundtrip], [rpm_roundtrip]), their
      indexes ([apt_metadata_spec], [pacman_database_spec], [sync_publishes_pool]),
      re-signing ([resign_replaces_signature]), no download twice
      ([resync_downloads_nothing]), well-typed rows ([package_table_typed]),
      deletion ([delete_packages_spec]).
    - Settings: what GET answers can be put back ([settings_echo]); only
      administrators change them ([settings_guarded]); the first password of the
      mail server is used and cannot be replaced ([first_password_used],
      [second_password_refused]); the allow-list ([allow_list_update]) and how a bare
      address opens it ([bare_address_opens_allow_list]); the key of the secrets
      ([key_found_again], [racing_processes_disagree]).
    - Pollers: the shown statuses are true to the agents ([shown_status_true]), a
      poll refines Health.v ([poll_refines]), what a refresh skips
      ([refresh_bypasses_hysteresis]); the dashboard's numbers fit together
      ([fleet_status_adds_up], [no_failed_check_iff_gates_open]).
    - Views of jobs: the two routes agree ([job_views_agree]), and what they show
      beyond ([detail_shows_other_hosts], [ungrouped_job_hidden]).
    - Repository configuration: it leads to an index ([configured_index_published]),
      but on Arch ([arch_database_missed]); what an enrolment computes is what a
      request is answered ([enrollment_matches_request]), though it is not sent.
    - Secrets: what a migration does on the tables there are, whatever fails
      ([migration_keeps_secrets]), and would do on others
      ([migration_with_both_columns]); when it cannot run, or loses a secret
      ([migration_fits_no_schema], [migration_may_lose_password]).
    - Signing keys: whatever starts were cut off, what is published is what signs
      ([published_keys_sign]), but see [lost_public_key_stays_lost] and
      [mismatched_pair_kept].
    - Reports: lay-out of the pages ([document_layout]), which requests are answered
      ([reports_answered]), what is listed ([vulnerability_report_spec]) and what is
      lost ([package_numbers_lost]).

    ** Bounds and fuel

    [reconnect_loop] has fuel [timeout / interval + 1] polls, which
    [reconnect_confirm_terminates] proves enough for every positive interval
    ([false] is the exhausted loop); [reconnect_from] has one unit more than a fifth
    of the timeout, as its waits are at most that many.  [parse_ar_from] and
    [gz_scan] have one unit more than the bytes of the file, each round moves on by
    one at least; [strip_zero_blocks] and the decoding of UTF-8 one per byte;
    [scan_stack] more than there are directories ([scan_dir_size_total]);
    [replace_str] more than the characters.  The decimal rendering has one unit per
    digit.  The relay's streams and polling loop are unbounded in the code and are
    modelled on every finite prefix of what they receive.  All other recursion is
    structural.

    ** Not modelled, and why

    Process set-up, TLS, timers, the loading of the configuration and the loops
    around the modelled cycles (I/O); the encodings and algorithms of GPG, RSA, TOTP
    and WebAuthn, CSV and PDF writers and the plotting of charts (libraries); the
    deletion of hosts in the job tables; the listings of users, windows and
    repository packages that are one SELECT each; tracing and the
    semaphores that only delay spawned tasks.  The advisory lock makes each writer of
    the audit log one step; its commit errors are left out.  In the repository, writes
    to the disk, downloads and signatures may fail; reading what is there, removing a
    directory and the statements on its two tables are taken to work. *)

From Stdlib Require Export ZArith Lia Ascii String.
From stdpp Require Export base tactics sorting list gmap strings.

#[global] Open Scope Z_scope.
#[global] Set Default Proof Using "Type".
#[global] Arguments String.append !_ _ : simpl nomatch.

(** ** Results

    Rust's [Result<T, E>]. *)
Inductive result (T E : Type) : Type :=
| Ok (t : T)
| Err (e : E).
Arguments Ok {T E} t.
Arguments Err {T E} e.

Definition is_ok {T E} (r : result T E) : bool :=
  match r with Ok _ => true | Err _ => false end.

Definition ok {T E} (r : result T E) : option T :=
  match r with Ok t => Some t | Err _ => None end.

Definition result_bind {A B E} (r : result A E) (f : A -> result B E) : result B E :=
  match r with Ok a => f a | Err e => Err e end.

Declare Scope lpm_scope.
Delimit Scope lpm_scope with lpm.
(** The [?] operator. *)
Notation "'let?' x ':=' r 'in' k" := (result_bind r (fun x => k))
  (at level 10, x binder, r at level 100, k at level 200) : lpm_scope.
#[global] Open Scope lpm_scope.

#[export] Instance result_eq_dec {T E} `{EqDecision T, EqDecision E} : EqDecision (result T E).
Proof. solve_decision. Defined.

(** ** Byte strings

    A Rust [str] is its UTF-8 bytes: [Stdlib]'s [string] is a list of 8-bit
    characters, and the operations below are the ones whose Rust counterparts
    work byte by byte on ASCII patterns ([split], [starts_with], [cmp], ...). *)

Fixpoint str_rev_app (s acc : string) : string :=
  match s with
  | EmptyString => acc
  | String c s' => str_rev_app s' (String c acc)
  end.
Definition str_rev (s : string) : string := str_rev_app s "".

(** [s.split(p)] for a character predicate: always at least one segment. *)
Fixpoint split_by (p : ascii -> bool) (s : string) : list string :=
  match s with
  | EmptyString => [""%string]
  | String c s' =>
      if p c then ""%string :: split_by p s'
      else match split_by p s' with
           | [] => [String c ""]
           | seg :: segs => String c seg :: segs
           end
  end.

(** [s.split_once(c)]. *)
Fixpoint split_once (c : ascii) (s : string) : option (string * string) :=
  match s with
  | EmptyString => None
  | String d s' =>
      if Ascii.eqb d c then Some (""%string, s')
      else match split_once c s' with
           | Some (a, b) => Some (String d a, b)
           | None => None
           end
  end.

(** [s.strip_prefix(p)]. *)
Fixpoint strip_prefix (p s : string) : option string :=
  match p, s with
  | EmptyString, _ => Some s
  | String a p', String b s' => if Ascii.eqb a b then strip_prefix p' s' else None
  | String _ _, EmptyString => None
  end.

Definition starts_with (p s : string) : bool :=
  match strip_prefix p s with Some _ => true | None => false end.

Definition ends_with (p s : string) : bool := starts_with (str_rev p) (str_rev s).

(** [s.contains(p)]. *)
Fixpoint str_contains (p s : string) : bool :=
  starts_with p s ||
  match s with
  | EmptyString => false
  | String _ s' => str_contains p s'
  end.

Fixpoint str_forallb (p : ascii -> bool) (s : string) : bool :=
  match s with
  | EmptyString => true
  | String c s' => p c && str_forallb p s'
  end.

Definition code (c : ascii) : Z := Z.of_N (N_of_ascii c).

Definition is_ascii_digit (c : ascii) : bool := (48 <=? code c) && (code c <=? 57).
Definition is_ascii_upper (c : ascii) : bool := (65 <=? code c) && (code c <=? 90).
Definition is_ascii_lower (c : ascii) : bool := (97 <=? code c) && (code c <=? 122).

Definition to_ascii_lower (c : ascii) : ascii :=
  if is_ascii_upper c then ascii_of_N (N_of_ascii c + 32) else c.
Fixpoint to_ascii_lowercase (s : string) : string :=
  match s with
  | EmptyString => ""%string
  | String c s' => String (to_ascii_lower c) (to_ascii_lowercase s')
  end.

(** The UTF-8 encodings of Unicode white space ([char::is_whitespace]). *)
Definition bytes (l : list N) : string := List.fold_right (fun n s => String (ascii_of_N n) s) ""%string l.
Definition white_space : list string :=
  bytes <$> ([[9]; [10]; [11]; [12]; [13]; [32]; [194; 133]; [194; 160]; [225; 154; 128];
    [226; 128; 128]; [226; 128; 129]; [226; 128; 130]; [226; 128; 131]; [226; 128; 132]; [226; 128; 133];
    [226; 128; 134]; [226; 128; 135]; [226; 128; 136]; [226; 128; 137]; [226; 128; 138]; [226; 128; 168];
    [226; 128; 169]; [226; 128; 175]; [226; 129; 159]; [227; 128; 128]]%N).

(** Drop prefixes that are in [ps], as long as there is one: at most one per byte. *)
Fixpoint strip_all (fuel : nat) (ps : list string) (s : string) : string :=
  match fuel with
  | O => s
  | S f => match head (omap (fun p => strip_prefix p s) ps) with
           | Some s' => strip_all f ps s'
           | None => s
           end
  end.
Definition trim_start_of (ps : list string) (s : string) : string := strip_all (String.length s) ps s.
Definition trim_end_of (ps : list string) (s : string) : string :=
  str_rev (trim_start_of (str_rev <$> ps) (str_rev s)).

(** [s.trim()], [s.trim_end_matches(c)]. *)
Definition trim (s : string) : string := trim_end_of white_space (trim_start_of white_space s).
Definition trim_end_matches (c : ascii) (s : string) : string := trim_end_of [String c ""] s.

(** [s.contains(char::is_whitespace)], [s.contains(c)]. *)
Definition contains_white_space (s : string) : bool := existsb (fun p => str_contains p s) white_space.
Definition contains_char (c : ascii) (s : string) : bool := negb (str_forallb (fun d => negb (Ascii.eqb d c)) s).

(** Everything before the first character that satisfies [p]. *)
Fixpoint take_until (p : ascii -> bool) (s : string) : string :=
  match s with
  | String c s' => if p c then ""%string else String c (take_until p s')
  | EmptyString => ""%string
  end.

(** [s.split_once(pat)] for a string, [s.rsplit_once(c)] for a character. *)
Fixpoint split_once_str (pat s : string) : option (string * string) :=
  match strip_prefix pat s, s with
  | Some rest, _ => Some (""%string, rest)
  | None, String c s' => match split_once_str pat s' with
                         | Some (a, b) => Some (String c a, b)
                         | None => None
                         end
  | None, EmptyString => None
  end.
Fixpoint rsplit_once (c : ascii) (s : string) : option (string * string) :=
  match s with
  | EmptyString => None
  | String d s' =>
      match rsplit_once c s' with
      | Some (a, b) => Some (String d a, b)
      | None => if Ascii.eqb d c then Some (""%string, s') else None
      end
  end.

(** Byte-wise lexicographic order: [str::cmp]. *)
Fixpoint str_cmp (a b : string) : comparison :=
  match a, b with
  | EmptyString, EmptyString => Eq
  | EmptyString, String _ _ => Lt
  | String _ _, EmptyString => Gt
  | String x a', String y b' =>
      match code x ?= code y with
      | Eq => str_cmp a' b'
      | o => o
      end
  end.

(** Decimal value of a digit string; the caller checks the digits. *)
Fixpoint digits_value (acc : Z) (s : string) : Z :=
  match s with
  | EmptyString => acc
  | String c s' => digits_value (acc * 10 + (code c - 48)) s'
  end.

(** [s.parse::<u64>()]-style parsing for an unsigned type with maximum [mx]:
    an optional leading ['+'], at least one digit, digits only, no overflow. *)
Definition parse_unsigned (mx : Z) (s : string) : option Z :=
  let ds := match strip_prefix "+" s with Some t => t | None => s end in
  match ds with
  | EmptyString => None
  | _ => if str_forallb is_ascii_digit ds then
           let v := digits_value 0 ds in if v <=? mx then Some v else None
         else None
  end.
Definition u16_max : Z := 2 ^ 16 - 1.
Definition u32_max : Z := 2 ^ 32 - 1.
Definition u64_max : Z := 2 ^ 64 - 1.
Definition parse_u64 : string -> option Z := parse_unsigned u64_max.
Definition parse_u16 : string -> option Z := parse_unsigned u16_max.

(** Decimal rendering of an integer, as [format!("{}", n)]. *)
Fixpoint dec_digits (fuel : nat) (n : Z) (acc : string) : string :=
  match fuel with
  | O => acc
  | S f =>
      let acc' := String (ascii_of_N (Z.to_N (48 + n mod 10))) acc in
      if n <? 10 then acc' else dec_digits f (n / 10) acc'
  end.
Definition dec (n : Z) : string :=
  if n <? 0 then ("-" ++ dec_digits (S (Z.to_nat (- n))) (- n) "")%string
  else dec_digits (S (Z.to_nat (Z.log2 n))) n "".

(** ** UUIDs: 128-bit values, shown as lower-case hyphenated hex. *)
Definition uuid := N.

Definition hex_digit (n : N) : ascii :=
  ascii_of_N (if (n <? 10)%N then 48 + n else 87 + n)%N.
Fixpoint hex_nibbles (k : nat) (n : N) (acc : string) : string :=
  match k with
  | O => acc
  | S k' => hex_nibbles k' (n / 16)%N (String (hex_digit (n mod 16)%N) acc)
  end.
Definition uuid_str (u : uuid) : string :=
  (hex_nibbles 8 (N.shiftr u 96) "" ++ "-" ++ hex_nibbles 4 (N.shiftr u 80) "" ++ "-" ++
   hex_nibbles 4 (N.shiftr u 64) "" ++ "-" ++ hex_nibbles 4 (N.shiftr u 48) "" ++ "-" ++
   hex_nibbles 12 u "")%string.

(** ** Time

    Timestamps and durations are microseconds, PostgreSQL's resolution. *)
Definition second_us : Z := 1000000.
Definition minute_us : Z := 60 * second_us.
Definition hour_us : Z := 60 * minute_us.
Definition day_us : Z := 24 * hour_us.

(** ** JSON values ([serde_json::Value]) as the program inspects them. *)
Inductive json : Type :=
| JNull
| JBool (b : bool)
| JNum (n : Z)
| JStr (s : string)
| JArr (l : list json)
| JObj (fields : list (string * json)).

(** [v.get(key)]: only objects have string keys. *)
Definition json_get (key : string) (v : json) : option json :=
  match v with
  | JObj fs => snd <$> List.find (fun kv => String.eqb (fst kv) key) fs
  | _ => None
  end.
(** [v.as_str()]. *)
Definition json_as_str (v : json) : option string :=
  match v with JStr s => Some s | _ => None end.
(** [serde_json::from_value::<Vec<String>>(v).ok()]. *)
Definition json_string_list (v : json) : option (list string) :=
  match v with JArr l => mapM json_as_str l | _ => None end.
(** [serde_json::from_value::<Vec<Value>>(v).ok()]. *)
Definition json_list (v : json) : option (list json) :=
  match v with JArr l => Some l | _ => None end.

(** ** Shared tactics *)

(** Case on every [match] of the goal or a hypothesis, and clean up. *)
Ltac split_matches :=
  repeat first [ progress simplify_eq/= | case_match ].

Ltac break_ands :=
  repeat match goal with H : _ /\ _ |- _ => destruct H end.

(** ** Shared lemmas *)

Lemma split_by_nonempty p s : split_by p s <> [].
Proof. destruct s as [|c s]; simpl; [done|]. destruct (p c); [done|]. by destruct (split_by p s). Qed.

Lemma strip_prefix_app p s t : strip_prefix p s = Some t <-> s = (p ++ t)%string.
Proof.
  revert s. induction p as [|a p IH]; intros s; simpl.
  - split; [intros [= ->]; done|intros ->; done].
  - destruct s as [|b s]; [split; done|].
    destruct (Ascii.eqb_spec a b) as [->|Hne].
    + rewrite IH. split; [intros ->; done|intros [= ->]; done].
    + split; [done|]. intros [= ? ?]. congruence.
Qed.

Lemma str_cmp_refl a : str_cmp a a = Eq.
Proof. induction a as [|c a IH]; simpl; [done|]. by rewrite Z.compare_refl. Qed.

Lemma code_inj x y : code x = code y -> x = y.
Proof.
  unfold code. intros H. apply N2Z.inj in H.
  by rewrite <- (ascii_N_embedding x), <- (ascii_N_embedding y), H.
Qed.

Lemma str_cmp_eq a b : str_cmp a b = Eq -> a = b.
Proof.
  revert b. induction a as [|x a IH]; intros [|y b]; simpl; try done.
  destruct (code x ?= code y) eqn:Hc; [|done|done].
  apply Z.compare_eq in Hc. intros H. f_equal; [by apply code_inj|by apply IH].
Qed.

Lemma str_cmp_antisym a b : str_cmp b a = CompOpp (str_cmp a b).
Proof.
  revert b. induction a as [|x a IH]; intros [|y b]; simpl; try done.
  rewrite (Z.compare_antisym (code x) (code y)).
  destruct (code x ?= code y); simpl; [apply IH|done|done].
Qed.

Lemma digits_value_ge acc s :
  str_forallb is_ascii_digit s = true -> 0 <= acc -> acc <= digits_value acc s.
Proof.
  revert acc. induction s as [|c s IH]; intros acc; simpl; [lia|].
  unfold is_ascii_digit at 1. rewrite !andb_true_iff, !Z.leb_le. intros [[? ?] Hs] Hacc.
  etrans; [|apply IH; [done|lia]]. lia.
Qed.

Lemma parse_unsigned_bounds mx s v : parse_unsigned mx s = Some v -> 0 <= v <= mx.
Proof.
  unfold parse_unsigned.
  set (ds := match strip_prefix "+" s with Some t => t | None => s end).
  destruct ds as [|c ds]; [done|].
  destruct (str_forallb is_ascii_digit (String c ds)) eqn:Hd; [|done].
  destruct (Z.leb_spec (digits_value 0 (String c ds)) mx); intros [= <-].
  split; [|done]. by apply (digits_value_ge 0 (String c ds)).
Qed.

(** ** Decimal numbers are read back as they were written *)

Lemma code_ascii n : 0 <= n < 256 -> code (ascii_of_N (Z.to_N n)) = n.
Proof. intros Hn. unfold code. rewrite N_ascii_embedding by lia. lia. Qed.

Lemma code_digit d : 0 <= d < 10 -> code (ascii_of_N (Z.to_N (48 + d))) = 48 + d.
Proof. intros Hd. apply code_ascii. lia. Qed.

Lemma dec_digits_value f n acc :
  0 <= n < 10 ^ Z.of_nat f -> digits_value 0 (dec_digits f n acc) = digits_value n acc.
Proof.
  revert n acc. induction f as [|f IH]; intros n acc Hn; [simpl in *; f_equal; lia|].
  cbn [dec_digits]. pose proof (Z.mod_pos_bound n 10 ltac:(lia)).
  destruct (Z.ltb_spec n 10) as [Hlt|Hge].
  - cbn [digits_value]. rewrite code_digit by lia. f_equal. rewrite Z.mod_small by lia. lia.
  - rewrite IH.
    + cbn [digits_value]. rewrite code_digit by lia. f_equal. pose proof (Z.div_mod n 10 ltac:(lia)). lia.
    + rewrite Nat2Z.inj_succ, Z.pow_succ_r in Hn by lia. split; [apply Z.div_pos; lia|].
      apply Z.div_lt_upper_bound; lia.
Qed.

Lemma dec_digits_forallb f n acc :
  0 <= n -> str_forallb is_ascii_digit acc = true -> str_forallb is_ascii_digit (dec_digits f n acc) = true.
Proof.
  revert n acc. induction f as [|f IH]; intros n acc Hn Hacc; [done|]. cbn [dec_digits].
  assert (str_forallb is_ascii_digit (String (ascii_of_N (Z.to_N (48 + n mod 10))) acc) = true) as Hd.
  { cbn [str_forallb]. rewrite Hacc, andb_true_r. unfold is_ascii_digit.
    pose proof (Z.mod_pos_bound n 10 ltac:(lia)). rewrite code_digit by lia.
    apply andb_true_iff. rewrite !Z.leb_le. lia. }
  destruct (n <? 10); [done|]. apply IH; [|done]. apply Z.div_pos; lia.
Qed.

Lemma dec_digits_nonempty f n acc : acc <> ""%string -> dec_digits f n acc <> ""%string.
Proof.
  revert n acc. induction f as [|f IH]; intros n acc Hacc; [done|]. cbn [dec_digits].
  destruct (n <? 10); [done|]. by apply IH.
Qed.

Lemma dec_digits_spec n : 0 <= n ->
  digits_value 0 (dec n) = n /\ str_forallb is_ascii_digit (dec n) = true /\ dec n <> ""%string.
Proof.
  intros Hn. unfold dec. destruct (Z.ltb_spec n 0); [lia|]. split_and!.
  - rewrite dec_digits_value; [done|]. split; [done|]. destruct (Z.eq_dec n 0) as [->|]; [done|].
    rewrite Nat2Z.inj_succ, Z2Nat.id by apply Z.log2_nonneg.
    destruct (Z.log2_spec n) as [_ Hlt]; [lia|]. eapply Z.lt_le_trans; [exact Hlt|].
    apply Z.pow_le_mono_l. pose proof (Z.log2_nonneg n). lia.
  - by apply dec_digits_forallb.
  - cbn [dec_digits]. destruct (n <? 10); [done|]. by apply dec_digits_nonempty.
Qed.

Lemma parse_unsigned_dec mx n : 0 <= n <= mx -> parse_unsigned mx (dec n) = Some n.
Proof.
  intros [Hn Hmx]. destruct (dec_digits_spec n Hn) as (Hv & Hd & Hne). unfold parse_unsigned.
  assert (strip_prefix "+" (dec n) = None) as ->.
  { destruct (dec n) as [|c s]; [done|]. cbn [strip_prefix str_forallb] in *.
    apply andb_true_iff in Hd as [Hc _]. destruct (Ascii.eqb_spec "+" c) as [<-|]; [done|done]. }
  destruct (dec n) as [|c s] eqn:Hdec; [done|]. rewrite Hd, Hv. by destruct (Z.leb_spec n mx); [|lia].
Qed.

(** ** Strings *)

Lemma split_once_none c s : str_forallb (fun d => negb (Ascii.eqb d c)) s = true -> split_once c s = None.
Proof.
  induction s as [|d s IH]; simpl; [done|]. rewrite andb_true_iff, negb_true_iff.
  intros [-> Hs]. by rewrite IH.
Qed.

Lemma str_forallb_impl (p q : ascii -> bool) s :
  (forall c, p c = true -> q c = true) -> str_forallb p s = true -> str_forallb q s = true.
Proof.
  intros Hpq. induction s as [|c s IH]; simpl; [done|]. rewrite !andb_true_iff. intros [? ?]. auto.
Qed.

Lemma str_forallb_app p a b : str_forallb p (a ++ b) = str_forallb p a && str_forallb p b.
Proof.
  induction a as [|c a IH]; [done|].
  change ((String c a ++ b)%string) with (String c (a ++ b)%string). cbn [str_forallb]. by rewrite IH, andb_assoc.
Qed.

Lemma str_app_nil_r s : (s ++ "")%string = s.
Proof. induction s as [|c s IH]; [done|]. cbn. by rewrite IH. Qed.

Lemma str_app_assoc (a b c : string) : ((a ++ b) ++ c)%string = (a ++ (b ++ c))%string.
Proof. induction a as [|x a IH]; cbn; congruence. Qed.

Lemma str_app_inj (a b c : string) : (a ++ b)%string = (a ++ c)%string -> b = c.
Proof. induction a as [|x a IH]; cbn; [done|]. intros [= H]. by apply IH. Qed.

Lemma str_length_app a b : String.length (a ++ b) = (String.length a + String.length b)%nat.
Proof. induction a as [|x a IH]; [done|]. change (S (String.length (a ++ b)) = S (String.length a + String.length b))%nat. by rewrite IH. Qed.

Lemma str_rev_app_app s acc : str_rev_app s acc = (str_rev s ++ acc)%string.
Proof.
  unfold str_rev. revert acc. induction s as [|c s IH]; intros acc; [done|]. cbn [str_rev_app].
  rewrite IH, (IH (String c "")), str_app_assoc. done.
Qed.

Lemma str_rev_cons c s : str_rev (String c s) = (str_rev s ++ String c "")%string.
Proof. unfold str_rev at 1. cbn [str_rev_app]. apply str_rev_app_app. Qed.

Lemma str_rev_concat a b : str_rev (a ++ b) = (str_rev b ++ str_rev a)%string.
Proof.
  induction a as [|c a IH]; [by rewrite str_app_nil_r|].
  change ((String c a ++ b)%string) with (String c (a ++ b)%string).
  by rewrite !str_rev_cons, IH, str_app_assoc.
Qed.

Lemma str_rev_involutive s : str_rev (str_rev s) = s.
Proof. induction s as [|c s IH]; [done|]. by rewrite str_rev_cons, str_rev_concat, IH. Qed.

Lemma str_length_rev s : String.length (str_rev s) = String.length s.
Proof. induction s as [|c s IH]; [done|]. rewrite str_rev_cons, str_length_app, IH. simpl. lia. Qed.

Create HintDb lpm.
#[export] Hint Resolve split_by_nonempty str_cmp_refl : lpm.

Lemma elem_of_concat {A} (x : A) (ls : list (list A)) : x ∈ concat ls <-> exists l, l ∈ ls /\ x ∈ l.
Proof. rewrite list_elem_of_In, in_concat. by setoid_rewrite list_elem_of_In. Qed.

Lemma submseteq_NoDup {A} (l k : list A) : l ⊆+ k -> NoDup k -> NoDup l.
Proof. intros [j Hj]%submseteq_Permutation. rewrite Hj. by intros [? _]%NoDup_app. Qed.

Lemma forallb_false {A} (f : A -> bool) l : forallb f l = false -> exists x, x ∈ l /\ f x = false.
Proof.
  induction l as [|x l IH]; cbn [forallb]; [done|]. destruct (f x) eqn:Hx; cbn [andb].
  - intros (y & Hy & Hf)%IH. exists y. by split; [right|].
  - intros _. exists x. by split; [left|].
Qed.
