(* ===== verification/Ordering.v ===== *)
(** * Orders, sorting and B-tree maps

    What the repository code uses of Rust's [Ord], [slice::sort_by] and
    [BTreeMap]: a class of total orders with instances for strings and pairs,
    the stable sort, and ordered maps as association lists in key order (the
    order in which the program iterates over them). *)

From S2P Require Import Prelude.

(** [Ord::cmp] *)
Class Ordered (K : Type) : Type := ord_cmp : K -> K -> comparison.

(** Its contract. *)
Class TotalOrder (K : Type) `{Ordered K} : Prop := {
  ord_cmp_eq : forall a b : K, ord_cmp a b = Eq <-> a = b;
  ord_cmp_antisym : forall a b : K, ord_cmp b a = CompOpp (ord_cmp a b);
  ord_cmp_trans : forall a b c : K, ord_cmp a b = Lt -> ord_cmp b c = Lt -> ord_cmp a c = Lt
}.

#[export] Instance string_ordered : Ordered string := str_cmp.

(** Tuples compare lexicographically. *)
#[export] Instance prod_ordered {A B} `{Ordered A, Ordered B} : Ordered (A * B) := fun p q =>
  match ord_cmp p.1 q.1 with Eq => ord_cmp p.2 q.2 | o => o end.

(** [v.sort_by(cmp)] is stable: equal elements keep their order.  Where [cmp] is
    a total preorder, this insertion sort is the stable sort. *)
Section Sort.
Context {A : Type} (cmp : A -> A -> comparison).

Fixpoint sort_insert (x : A) (l : list A) : list A :=
  match l with
  | [] => [x]
  | y :: l' => match cmp x y with Gt => y :: sort_insert x l' | _ => x :: l end
  end.

Definition sort_by (l : list A) : list A := List.fold_right sort_insert [] l.
End Sort.

Definition sort {K} `{Ordered K} (l : list K) : list K := sort_by ord_cmp l.

(** [BTreeMap<K, V>]: its entries in the order of their keys. *)
Definition btree (K V : Type) : Type := list (K * V).

Section BTree.
Context {K V : Type} `{Ordered K}.

Fixpoint bt_get (k : K) (m : btree K V) : option V :=
  match m with
  | [] => None
  | (k', v) :: m' => match ord_cmp k k' with Eq => Some v | _ => bt_get k m' end
  end.

Fixpoint bt_insert (k : K) (v : V) (m : btree K V) : btree K V :=
  match m with
  | [] => [(k, v)]
  | (k', v') :: m' =>
      match ord_cmp k k' with
      | Lt => (k, v) :: m
      | Eq => (k, v) :: m'
      | Gt => (k', v') :: bt_insert k v m'
      end
  end.

Definition bt_keys_lt : relation (K * V) := fun p q => ord_cmp p.1 q.1 = Lt.

(** Strictly increasing keys. *)
Definition bt_wf (m : btree K V) : Prop := StronglySorted bt_keys_lt m.
End BTree.

(** ** Strings and pairs are totally ordered *)

Lemma str_cmp_trans a b c : str_cmp a b = Lt -> str_cmp b c = Lt -> str_cmp a c = Lt.
Proof.
  revert b c. induction a as [|x a IH]; intros [|y b] [|z c]; simpl; try done.
  destruct (Z.compare_spec (code x) (code y)), (Z.compare_spec (code y) (code z)),
    (Z.compare_spec (code x) (code z)); try done; try lia. apply IH.
Qed.

#[export] Instance string_total_order : TotalOrder string.
Proof.
  split; unfold ord_cmp, string_ordered.
  - intros a b. split; [apply str_cmp_eq|intros ->; apply str_cmp_refl].
  - intros a b. apply str_cmp_antisym.
  - intros a b c. apply str_cmp_trans.
Qed.

Section OrderLemmas.
#[local] Set Default Proof Using "Type*".
Context {K : Type} `{TotalOrder K}.

Lemma ord_cmp_refl (a : K) : ord_cmp a a = Eq.
Proof. by apply ord_cmp_eq. Qed.

Lemma ord_cmp_lt_ne (a b : K) : ord_cmp a b = Lt -> a <> b.
Proof. intros Hab ->. by rewrite ord_cmp_refl in Hab. Qed.

Lemma ord_cmp_gt_lt (a b : K) : ord_cmp a b = Gt <-> ord_cmp b a = Lt.
Proof. rewrite (ord_cmp_antisym a b). by destruct (ord_cmp a b). Qed.
End OrderLemmas.

#[export] Instance prod_total_order {A B} `{TotalOrder A, TotalOrder B} : TotalOrder (A * B).
Proof.
  split; unfold ord_cmp, prod_ordered.
  - intros [a b] [a' b']; simpl. destruct (ord_cmp a a') eqn:Ha.
    + apply ord_cmp_eq in Ha as ->. rewrite ord_cmp_eq. naive_solver.
    + split; [done|]. intros [= -> _]. by rewrite ord_cmp_refl in Ha.
    + split; [done|]. intros [= -> _]. by rewrite ord_cmp_refl in Ha.
  - intros [a b] [a' b']; simpl. rewrite (ord_cmp_antisym a a'), (ord_cmp_antisym b b').
    by destruct (ord_cmp a a').
  - intros [a b] [a' b'] [a'' b'']; simpl.
    destruct (ord_cmp a a') eqn:HL1, (ord_cmp a' a'') eqn:HL2; try done.
    + apply ord_cmp_eq in HL1 as ->. apply ord_cmp_eq in HL2 as ->. rewrite ord_cmp_refl. apply ord_cmp_trans.
    + apply ord_cmp_eq in HL1 as ->. by rewrite HL2.
    + apply ord_cmp_eq in HL2 as <-. by rewrite HL1.
    + by rewrite (ord_cmp_trans _ _ _ HL1 HL2).
Qed.

(** ** Sorting *)

(** The comparison need only be an order on the elements of the list, those
    with [P]. *)
Section SortLemmas.
Context {A : Type} (cmp : A -> A -> comparison) (P : A -> Prop).
Context (cmp_total : forall x y, P x -> P y -> cmp x y = Gt -> cmp y x <> Gt)
        (cmp_trans : forall x y z, P x -> P y -> P z -> cmp x y <> Gt -> cmp y z <> Gt -> cmp x z <> Gt).

Definition not_after : relation A := fun x y => cmp x y <> Gt.

Lemma sort_insert_perm x l : sort_insert cmp x l ≡ₚ x :: l.
Proof using Type.
  induction l as [|y l IH]; simpl; [done|]. destruct (cmp x y); [done|done|].
  rewrite IH. apply Permutation_swap.
Qed.

Lemma sort_by_perm l : sort_by cmp l ≡ₚ l.
Proof using Type. induction l as [|x l IH]; simpl; [done|]. by rewrite sort_insert_perm, IH. Qed.

Lemma sort_insert_sorted x l :
  P x -> Forall P l -> StronglySorted not_after l -> StronglySorted not_after (sort_insert cmp x l).
Proof using All.
  intros Hx HP. induction 1 as [|y l Hl IH Hy]; simpl; [by repeat constructor|].
  apply Forall_cons in HP as [HPy HP]. destruct (cmp x y) eqn:Hxy.
  3:{ constructor; [by apply IH|]. rewrite sort_insert_perm. constructor; [|done]. by apply cmp_total. }
  all: constructor; [by constructor|]; constructor; [unfold not_after; congruence|].
  all: rewrite Forall_forall in *; intros z Hz; specialize (Hy z Hz); unfold not_after in *.
  all: apply (cmp_trans x y z); auto; congruence.
Qed.

Lemma sort_by_sorted l : Forall P l -> StronglySorted not_after (sort_by cmp l).
Proof using All.
  induction 1 as [|x l Hx Hl IH]; simpl; [constructor|]. apply sort_insert_sorted; [done| |done].
  change (List.fold_right (sort_insert cmp) [] l) with (sort_by cmp l). by rewrite sort_by_perm.
Qed.
End SortLemmas.

Section SortOrdered.
#[local] Set Default Proof Using "Type*".
Context {K : Type} `{TotalOrder K}.

Lemma sort_perm (l : list K) : sort l ≡ₚ l.
Proof. apply sort_by_perm. Qed.

Lemma elem_of_sort (x : K) l : x ∈ sort l <-> x ∈ l.
Proof. by rewrite sort_perm. Qed.

Lemma ord_not_after_trans (x y z : K) : ord_cmp x y <> Gt -> ord_cmp y z <> Gt -> ord_cmp x z <> Gt.
Proof.
  intros Hxy Hyz. destruct (ord_cmp x y) eqn:H1; [| |done].
  - by apply ord_cmp_eq in H1 as ->.
  - destruct (ord_cmp y z) eqn:H2; [| |done].
    + apply ord_cmp_eq in H2 as <-. congruence.
    + by rewrite (ord_cmp_trans _ _ _ H1 H2).
Qed.

Lemma ord_not_after_total (x y : K) : ord_cmp x y = Gt -> ord_cmp y x <> Gt.
Proof. rewrite (ord_cmp_antisym x y). by intros ->. Qed.

Lemma sort_sorted (l : list K) : StronglySorted (not_after ord_cmp) (sort l).
Proof.
  apply (sort_by_sorted _ (fun _ => True)); [| |by apply Forall_true].
  - intros x y _ _. apply ord_not_after_total.
  - intros x y z _ _ _. apply ord_not_after_trans.
Qed.

Lemma ord_not_after_antisymm : AntiSymm eq (not_after (A := K) ord_cmp).
Proof.
  intros x y Hxy Hyx. unfold not_after in *. destruct (ord_cmp x y) eqn:Hc; [|exfalso|done].
  - by apply ord_cmp_eq.
  - apply Hyx. by rewrite (ord_cmp_antisym x y), Hc.
Qed.

(** A sorted list is determined by its elements: the order in which a
    directory is listed does not matter once the names are sorted. *)
Lemma sorted_unique (l l' : list K) :
  l ≡ₚ l' -> StronglySorted (not_after ord_cmp) l -> StronglySorted (not_after ord_cmp) l' -> l = l'.
Proof.
  intros Hp Hl Hl'. exact (@StronglySorted_unique _ _ ord_not_after_antisymm _ _ Hl Hl' Hp).
Qed.

Lemma sort_permutation (l l' : list K) : l ≡ₚ l' -> sort l = sort l'.
Proof.
  intros Hp. apply sorted_unique; [|apply sort_sorted..]. by rewrite !sort_perm.
Qed.

Lemma sort_id (l : list K) : StronglySorted (not_after ord_cmp) l -> sort l = l.
Proof. intros Hl. apply sorted_unique; [apply sort_perm|apply sort_sorted|done]. Qed.
End SortOrdered.

(** ** B-tree maps *)

Section BTreeLemmas.
#[local] Set Default Proof Using "Type*".
Context {K V : Type} `{TotalOrder K}.
Implicit Types m : btree K V.

Lemma bt_get_none k m : Forall (fun p => ord_cmp k p.1 = Lt) m -> bt_get k m = None.
Proof. induction 1 as [|[k' v] m Hk _ IH]; simpl in *; [done|]. by rewrite Hk. Qed.

Lemma bt_get_insert k v m : bt_get k (bt_insert k v m) = Some v.
Proof.
  induction m as [|[k' v'] m IH]; simpl; [by rewrite ord_cmp_refl|].
  destruct (ord_cmp k k') eqn:Hk; simpl; [by rewrite ord_cmp_refl..|by rewrite Hk].
Qed.

Lemma bt_get_insert_ne k k' v m : k <> k' -> bt_get k (bt_insert k' v m) = bt_get k m.
Proof.
  intros Hne. assert (forall (a b : V) , match ord_cmp k k' with Eq => Some a | _ => Some b end = Some b) as Hc.
  { intros a b. destruct (ord_cmp k k') eqn:He; [|done..]. by apply ord_cmp_eq in He. }
  assert (ord_cmp k k' <> Eq) by (by rewrite ord_cmp_eq).
  induction m as [|[k2 v2] m IH]; simpl; [by destruct (ord_cmp k k')|].
  destruct (ord_cmp k' k2) eqn:H2; simpl.
  - apply ord_cmp_eq in H2 as ->. by destruct (ord_cmp k k2).
  - by destruct (ord_cmp k k').
  - by rewrite IH.
Qed.

Lemma bt_insert_forall (P : K * V -> Prop) k v m : P (k, v) -> Forall P m -> Forall P (bt_insert k v m).
Proof.
  intros Hk. induction 1 as [|[k' v'] m Hp Hm IH]; simpl; [by constructor|].
  destruct (ord_cmp k k'); by repeat constructor.
Qed.

Lemma bt_insert_wf k v m : bt_wf m -> bt_wf (bt_insert k v m).
Proof.
  induction 1 as [|[k' v'] m Hm IH Hk']; simpl; [by repeat constructor|].
  destruct (ord_cmp k k') eqn:Hk.
  - apply ord_cmp_eq in Hk as ->. by constructor.
  - constructor; [by constructor|]. constructor; [done|].
    eapply Forall_impl; [exact Hk'|]. intros [k2 v2] Hlt. unfold bt_keys_lt in *; simpl in *.
    by apply (ord_cmp_trans _ k').
  - constructor; [done|]. apply bt_insert_forall; [|done]. by apply ord_cmp_gt_lt.
Qed.

Lemma bt_get_elem k v m : bt_wf m -> bt_get k m = Some v <-> (k, v) ∈ m.
Proof.
  induction 1 as [|[k' v'] m Hm IH Hk']; simpl; [set_solver|].
  rewrite elem_of_cons. destruct (ord_cmp k k') eqn:Hk.
  - apply ord_cmp_eq in Hk as ->. split; [naive_solver|]. intros [[= ->]|Hin]; [done|].
    rewrite Forall_forall in Hk'. specialize (Hk' _ Hin). unfold bt_keys_lt in Hk'; simpl in Hk'.
    by rewrite ord_cmp_refl in Hk'.
  - rewrite IH. split; [naive_solver|]. intros [[= -> _]|]; [by rewrite ord_cmp_refl in Hk|done].
  - rewrite IH. split; [naive_solver|]. intros [[= -> _]|]; [by rewrite ord_cmp_refl in Hk|done].
Qed.

Lemma bt_wf_NoDup m : bt_wf m -> NoDup m.*1.
Proof.
  induction 1 as [|[k v] m Hm IH Hk]; [constructor|]. rewrite fmap_cons. constructor; [|done].
  intros ([k' v'] & Heq & Hin)%list_elem_of_fmap. simpl in Heq. subst k'. rewrite Forall_forall in Hk. apply Hk in Hin.
  unfold bt_keys_lt in Hin. simpl in Hin. by rewrite ord_cmp_refl in Hin.
Qed.

(** Entries are determined by what is found. *)
Lemma btree_ext m m' : bt_wf m -> bt_wf m' -> (forall k, bt_get k m = bt_get k m') -> m = m'.
Proof.
  revert m'. induction m as [|[k v] m IH]; intros m' Hm Hm' Hget.
  - destruct m' as [|[k v] m']; [done|]. specialize (Hget k). simpl in Hget. by rewrite ord_cmp_refl in Hget.
  - destruct m' as [|[k' v'] m']; [specialize (Hget k); simpl in Hget; by rewrite ord_cmp_refl in Hget|].
    apply StronglySorted_inv in Hm as [Hm Hk]. apply StronglySorted_inv in Hm' as [Hm' Hk'].
    assert (k = k') as <-.
    { pose proof (Hget k) as H1. pose proof (Hget k') as H2. simpl in H1, H2.
      rewrite ord_cmp_refl in H1, H2. rewrite (ord_cmp_antisym k k') in H2.
      destruct (ord_cmp k k') eqn:Hc; [by apply ord_cmp_eq| |]; exfalso.
      - rewrite bt_get_none in H1; [done|]. eapply Forall_impl; [exact Hk'|]. intros p Hp.
        by apply (ord_cmp_trans _ k').
      - simpl in H2. rewrite bt_get_none in H2; [done|]. eapply Forall_impl; [exact Hk|]. intros p Hp.
        apply (ord_cmp_trans _ k); [by apply ord_cmp_gt_lt|done]. }
    pose proof (Hget k) as Hv. simpl in Hv. rewrite ord_cmp_refl in Hv. injection Hv as ->. f_equal.
    apply IH; [done..|]. intros k2. specialize (Hget k2). simpl in Hget.
    destruct (ord_cmp k2 k) eqn:Hc; [|done..]. apply ord_cmp_eq in Hc as ->.
    rewrite !bt_get_none; [done|done|done].
Qed.

(** Inserting the entries of an ordered map one by one builds it. *)
Definition bt_of_list (l : list (K * V)) : btree K V := foldl (fun m p => bt_insert p.1 p.2 m) [] l.

Lemma bt_insert_last k v m : Forall (fun p => ord_cmp p.1 k = Lt) m -> bt_insert k v m = m ++ [(k, v)].
Proof.
  induction 1 as [|[k' v'] m Hk _ IH]; simpl in *; [done|].
  apply ord_cmp_gt_lt in Hk as ->. by rewrite IH.
Qed.

Lemma bt_of_list_app m l : bt_wf (m ++ l) -> foldl (fun m p => bt_insert p.1 p.2 m) m l = m ++ l.
Proof.
  revert m. induction l as [|[k v] l IH]; intros m Hm; simpl; [by rewrite app_nil_r|].
  rewrite bt_insert_last.
  - rewrite IH; [by rewrite <- (assoc_L (++))|]. by rewrite <- (assoc_L (++)).
  - apply Forall_forall. intros p Hp.
    apply (StronglySorted_app_1_elem_of _ _ _ p (k, v) Hm); [done|left].
Qed.

Lemma bt_of_list_id m : bt_wf m -> bt_of_list m = m.
Proof. intros Hm. by apply (bt_of_list_app [] m). Qed.
End BTreeLemmas.
