(* ===== verification/Version.v ===== *)
(** * Version comparison (pm-core/src/version.rs)

    The order in which the manager looks for the latest of several packages. *)

From S2P Require Import Prelude.

Definition is_separator (c : ascii) : bool :=
  Ascii.eqb c "." || Ascii.eqb c "-" || Ascii.eqb c "_" || Ascii.eqb c "+".

(** [epoch.chars().all(is_ascii_digit)] of a non-empty epoch: the epoch is dropped. *)
Definition without_epoch (version : string) : string :=
  match split_once ":" version with
  | Some (epoch, rest) =>
      if negb (String.eqb epoch "") && str_forallb is_ascii_digit epoch then rest else version
  | None => version
  end.

Definition split_version (version : string) : list string :=
  List.filter (fun s => negb (String.eqb s "")) (split_by is_separator (without_epoch version)).

(** [parts.get(i).map(String::as_str).unwrap_or("0")] *)
Definition part (parts : list string) (i : nat) : string := default "0"%string (parts !! i).

Definition compare_part (a b : string) : comparison :=
  match parse_u64 a, parse_u64 b with
  | Some x, Some y => x ?= y
  | _, _ => str_cmp a b
  end.

(** [for i in i0..i0+n]: the first part that differs decides. *)
Fixpoint compare_from (a b : list string) (i n : nat) : comparison :=
  match n with
  | O => Eq
  | S n' =>
      match compare_part (part a i) (part b i) with
      | Eq => compare_from a b (S i) n'
      | o => o
      end
  end.

Definition compare_versions (a b : string) : comparison :=
  let a_parts := split_version a in
  let b_parts := split_version b in
  compare_from a_parts b_parts 0 (Nat.max (length a_parts) (length b_parts)).

(** ** Reference: numeric versions, compared number by number *)

(** Component [i] of a version; a missing one is zero. *)
Definition component (xs : list Z) (i : nat) : Z := default 0 (xs !! i).

(** [2; 6; 10] is shown as "2.6.10". *)
Fixpoint render (xs : list Z) : string :=
  match xs with
  | [] => ""%string
  | [x] => dec x
  | x :: xs' => (dec x ++ String "." (render xs'))%string
  end.

(** ** Lemmas *)

Lemma compare_part_antisym a b : compare_part b a = CompOpp (compare_part a b).
Proof.
  unfold compare_part. destruct (parse_u64 a), (parse_u64 b); try apply str_cmp_antisym.
  apply Z.compare_antisym.
Qed.

Lemma compare_part_refl a : compare_part a a = Eq.
Proof. unfold compare_part. destruct (parse_u64 a); [apply Z.compare_refl|apply str_cmp_refl]. Qed.

Lemma compare_from_antisym a b i n : compare_from b a i n = CompOpp (compare_from a b i n).
Proof.
  revert i. induction n as [|n IH]; intros i; simpl; [done|].
  rewrite (compare_part_antisym (part a i) (part b i)).
  destruct (compare_part (part a i) (part b i)); simpl; [apply IH|done|done].
Qed.

Lemma compare_from_refl a i n : compare_from a a i n = Eq.
Proof. revert i. induction n as [|n IH]; intros i; simpl; [done|]. by rewrite compare_part_refl. Qed.

Lemma digit_not_special c : is_ascii_digit c = true -> is_separator c = false /\ Ascii.eqb c ":" = false.
Proof.
  unfold is_ascii_digit. rewrite andb_true_iff, !Z.leb_le. intros Hc. unfold is_separator.
  assert (forall d, code d < 48 \/ 57 < code d -> Ascii.eqb c d = false) as Hne.
  { intros d Hd. destruct (Ascii.eqb_spec c d) as [->|]; [lia|done]. }
  rewrite !Hne by (vm_compute; (left; reflexivity) || (right; reflexivity)). done.
Qed.

Lemma split_by_digits s : str_forallb is_ascii_digit s = true -> split_by is_separator s = [s].
Proof.
  induction s as [|c s IH]; simpl; [done|]. rewrite andb_true_iff. intros [Hc Hs].
  destruct (digit_not_special c Hc) as [-> _]. by rewrite IH.
Qed.

Lemma split_by_digits_app s t : str_forallb is_ascii_digit s = true ->
  split_by is_separator (s ++ String "." t) = s :: split_by is_separator t.
Proof.
  induction s as [|c s IH]; [done|]. cbn [str_forallb]. rewrite andb_true_iff. intros [Hc Hs].
  change ((String c s ++ String "." t)%string) with (String c (s ++ String "." t)%string). cbn [split_by].
  destruct (digit_not_special c Hc) as [-> _]. by rewrite IH.
Qed.

Lemma split_version_render xs : Forall (fun x => 0 <= x) xs -> split_version (render xs) = dec <$> xs.
Proof.
  intros Hxs.
  assert (str_forallb (fun c => negb (Ascii.eqb c ":")) (render xs) = true) as Hcol.
  { induction Hxs as [|x xs Hx Hxs IH]; [done|].
    destruct (dec_digits_spec x Hx) as (_ & Hd & _).
    assert (str_forallb (fun c => negb (Ascii.eqb c ":")) (dec x) = true) as Hdx.
    { eapply str_forallb_impl, Hd. intros c Hc. by destruct (digit_not_special c Hc) as [_ ->]. }
    destruct xs as [|y ys]; [done|]. cbn [render]. rewrite str_forallb_app, Hdx. exact IH. }
  unfold split_version, without_epoch. rewrite split_once_none by done.
  induction Hxs as [|x xs Hx Hxs IH]; [done|].
  destruct (dec_digits_spec x Hx) as (_ & Hd & Hne).
  assert (negb (String.eqb (dec x) "") = true) as Hnb by (destruct (String.eqb_spec (dec x) ""); done).
  destruct xs as [|y ys].
  - cbn [render]. rewrite split_by_digits by done. cbn [List.filter]. by rewrite Hnb.
  - cbn [render]. rewrite split_by_digits_app by done. cbn [List.filter]. rewrite Hnb. cbn [fmap list_fmap]. f_equal.
    apply IH. revert Hcol. cbn [render]. rewrite str_forallb_app, andb_true_iff. by intros [_ ?].
Qed.

Definition u64_list (xs : list Z) : Prop := Forall (fun x => 0 <= x <= u64_max) xs.

Lemma compare_part_dec x y : 0 <= x <= u64_max -> 0 <= y <= u64_max -> compare_part (dec x) (dec y) = (x ?= y).
Proof. intros Hx Hy. unfold compare_part, parse_u64. by rewrite !parse_unsigned_dec. Qed.

Lemma part_dec xs i : part (dec <$> xs) i = dec (component xs i).
Proof. unfold part, component. rewrite list_lookup_fmap. by destruct (xs !! i). Qed.

Lemma component_bounds xs i : u64_list xs -> 0 <= component xs i <= u64_max.
Proof.
  intros Hxs. unfold component. destruct (xs !! i) as [x|] eqn:Hi; simpl; [|done].
  by eapply Forall_lookup in Hxs.
Qed.

Lemma compare_from_numeric xs ys i n :
  u64_list xs -> u64_list ys ->
  match compare_from (dec <$> xs) (dec <$> ys) i n with
  | Eq => forall k, (i <= k < i + n)%nat -> component xs k = component ys k
  | Lt => exists k, (i <= k < i + n)%nat /\ component xs k < component ys k /\
            forall l, (i <= l < k)%nat -> component xs l = component ys l
  | Gt => exists k, (i <= k < i + n)%nat /\ component ys k < component xs k /\
            forall l, (i <= l < k)%nat -> component xs l = component ys l
  end.
Proof.
  intros Hxs Hys. revert i. induction n as [|n IH]; intros i; cbn [compare_from]; [intros k Hk; lia|].
  rewrite !part_dec, compare_part_dec by (by apply component_bounds).
  destruct (Z.compare_spec (component xs i) (component ys i)) as [Heq|Hlt|Hgt].
  - specialize (IH (S i)). destruct (compare_from _ _ (S i) n).
    + intros k Hk. destruct (decide (k = i)) as [->|]; [done|]. apply IH. lia.
    + destruct IH as (k & Hk & Hc & Hl). exists k. split_and!; [lia|lia|done|].
      intros l Hli. destruct (decide (l = i)) as [->|]; [done|]. apply Hl. lia.
    + destruct IH as (k & Hk & Hc & Hl). exists k. split_and!; [lia|lia|done|].
      intros l Hli. destruct (decide (l = i)) as [->|]; [done|]. apply Hl. lia.
  - exists i. split_and!; [lia|lia|done|]. intros l Hl. lia.
  - exists i. split_and!; [lia|lia|done|]. intros l Hl. lia.
Qed.

Lemma compare_numeric xs ys :
  u64_list xs -> u64_list ys ->
  match compare_versions (render xs) (render ys) with
  | Eq => forall k, component xs k = component ys k
  | Lt => exists k, component xs k < component ys k /\ forall l, (l < k)%nat -> component xs l = component ys l
  | Gt => exists k, component ys k < component xs k /\ forall l, (l < k)%nat -> component xs l = component ys l
  end.
Proof.
  intros Hxs Hys. unfold compare_versions.
  rewrite !split_version_render by (eapply Forall_impl; [eassumption|]; simpl; lia).
  pose proof (compare_from_numeric xs ys 0 (Nat.max (length (dec <$> xs)) (length (dec <$> ys))) Hxs Hys) as Hc.
  rewrite !length_fmap in *. destruct (compare_from _ _ _ _).
  - intros k. destruct (decide (k < Nat.max (length xs) (length ys))%nat) as [Hk|Hk]; [apply Hc; lia|].
    unfold component. by rewrite !lookup_ge_None_2 by lia.
  - destruct Hc as (k & _ & Hlt & Hl). exists k. split; [done|]. intros l ?. apply Hl. lia.
  - destruct Hc as (k & _ & Hlt & Hl). exists k. split; [done|]. intros l ?. apply Hl. lia.
Qed.

(** A version that is shown as dotted 64-bit numbers. *)
Definition numeric_version (v : string) : Prop := exists xs, u64_list xs /\ v = render xs.

Lemma compare_numeric_le xs ys : u64_list xs -> u64_list ys ->
  compare_versions (render xs) (render ys) <> Gt <->
  (forall k, component xs k = component ys k) \/
  (exists k, component xs k < component ys k /\ forall l, (l < k)%nat -> component xs l = component ys l).
Proof.
  intros Hxs Hys. pose proof (compare_numeric xs ys Hxs Hys) as Hc.
  destruct (compare_versions (render xs) (render ys)); [naive_solver..|].
  split; [done|]. destruct Hc as (k & Hk & Hl). intros [Heq|(k' & Hk' & Hl')]; [specialize (Heq k); lia|].
  destruct (lt_eq_lt_dec k k') as [[Hlt| ->]|Hgt]; [specialize (Hl' k Hlt)|..|specialize (Hl k' Hgt)]; lia.
Qed.

Lemma compare_numeric_trans a b c : numeric_version a -> numeric_version b -> numeric_version c ->
  compare_versions a b <> Gt -> compare_versions b c <> Gt -> compare_versions a c <> Gt.
Proof.
  intros (xs & Hxs & ->) (ys & Hys & ->) (zs & Hzs & ->). rewrite !compare_numeric_le by done.
  intros [H1|(k1 & H1 & L1)] [H2|(k2 & H2 & L2)].
  - left. intros k. by rewrite H1.
  - right. exists k2. rewrite H1. split; [done|]. intros l Hl. rewrite H1. by apply L2.
  - right. exists k1. rewrite <- H2. split; [done|]. intros l Hl. rewrite <- H2. by apply L1.
  - right. exists (Nat.min k1 k2). destruct (lt_eq_lt_dec k1 k2) as [[Hlt| ->]|Hgt].
    + rewrite Nat.min_l by lia. rewrite <- L2 by lia. split; [done|]. intros l Hl. rewrite L1 by lia. apply L2. lia.
    + rewrite Nat.min_id. split; [lia|]. intros l Hl. rewrite L1 by lia. apply L2. lia.
    + rewrite Nat.min_r by lia. rewrite L1 by lia. split; [done|]. intros l Hl. rewrite L1 by lia. apply L2. lia.
Qed.

(** ** The properties *)

(** The comparison is reflexive and antisymmetric on all strings. *)
Theorem compare_versions_antisym a b :
  compare_versions a a = Eq /\ compare_versions b a = CompOpp (compare_versions a b).
Proof.
  unfold compare_versions. split; [apply compare_from_refl|].
  rewrite Nat.max_comm. apply compare_from_antisym.
Qed.

(** On dotted numeric versions with 64-bit components the comparison is the
    numeric one: the first component that differs decides, and missing
    components are zero (so 2.6.10 is newer than 2.6.9, and equal to 2.6.10.0). *)
Theorem compare_versions_numeric xs ys :
  u64_list xs -> u64_list ys ->
  match compare_versions (render xs) (render ys) with
  | Eq => forall k, component xs k = component ys k
  | Lt => exists k, component xs k < component ys k /\ forall l, (l < k)%nat -> component xs l = component ys l
  | Gt => exists k, component ys k < component xs k /\ forall l, (l < k)%nat -> component xs l = component ys l
  end.
Proof. apply compare_numeric. Qed.

Lemma compare_versions_numeric_witness :
  compare_versions "2.6.10" "2.6.9" = Gt /\
  exists k, component [2; 6; 9] k < component [2; 6; 10] k /\
    forall l, (l < k)%nat -> component [2; 6; 10] l = component [2; 6; 9] l.
Proof.
  split; [vm_compute; reflexivity|].
  assert (u64_list [2; 6; 10] /\ u64_list [2; 6; 9]) as [H1 H2] by (repeat constructor; discriminate).
  exact (compare_versions_numeric [2; 6; 10] [2; 6; 9] H1 H2).
Defined.

(** The comparison is not an order on strings that mix numbers and letters: a
    number is compared with another number by value, and with anything else
    byte by byte, which makes a cycle. *)
Theorem compare_versions_cycle :
  compare_versions "9" "10" = Lt /\ compare_versions "10" "1a" = Lt /\ compare_versions "1a" "9" = Lt.
Proof. vm_compute. done. Qed.
