(* ===== verification/AuditLog.v ===== *)
(** * The audit log (pm-core/src/audit.rs)

    Events are chained by hashes: a row holds the hash of the previous row and a
    hash of its own fields.  SHA-256, the serialization of JSON details, the
    RFC 3339 rendering of times and what PostgreSQL gives back of a JSONB and of
    an INET column are parameters; the other columns give back what was written
    (an absent text is the empty string in the hash).  A write runs in a transaction that holds the advisory lock, so
    writes are one after the other, and a failed one leaves the log as it was. *)

From S2P Require Import Prelude.

Inductive audit_action : Type :=
 | UserLogin | UserLogout | UserLoginFailed | UserCreated | UserDeleted | UserUpdated
 | HostRegistered | HostRemoved | HostUpdated | GroupCreated | GroupDeleted | GroupMembershipChanged
 | PatchJobCreated | PatchJobCancelled | PatchJobRollback | MaintenanceWindowCreated
 | MaintenanceWindowUpdated | MaintenanceWindowDeleted | CertificateIssued | CertificateRenewed
 | CertificateRevoked | CertificateDownloaded | ConfigChanged | DiscoveryScanStarted
 | AuditIntegrityVerified | EmailNotificationSent | PatchJobCompleted | PatchJobFailed
 | MaintenanceWindowReminder | HealthCheckCreated | HealthCheckUpdated | HealthCheckDeleted
 | CertificateReissued | OidcConfigUpdated | SmtpConfigUpdated | IpWhitelistUpdated
 | OidcTestPerformed | OidcDiscoverPerformed | CrlStatusChanged | CrlStaleDetected
 | CrlInvalid | UpgradeTriggered | BatchUpgradeTriggered | AuditChainRepaired | RebootRefused
.

Definition action_str (a : audit_action) : string :=
  match a with
  | UserLogin => "user_login"
  | UserLogout => "user_logout"
  | UserLoginFailed => "user_login_failed"
  | UserCreated => "user_created"
  | UserDeleted => "user_deleted"
  | UserUpdated => "user_updated"
  | HostRegistered => "host_registered"
  | HostRemoved => "host_removed"
  | HostUpdated => "host_updated"
  | GroupCreated => "group_created"
  | GroupDeleted => "group_deleted"
  | GroupMembershipChanged => "group_membership_changed"
  | PatchJobCreated => "patch_job_created"
  | PatchJobCancelled => "patch_job_cancelled"
  | PatchJobRollback => "patch_job_rollback"
  | MaintenanceWindowCreated => "maintenance_window_created"
  | MaintenanceWindowUpdated => "maintenance_window_updated"
  | MaintenanceWindowDeleted => "maintenance_window_deleted"
  | CertificateIssued => "certificate_issued"
  | CertificateRenewed => "certificate_renewed"
  | CertificateRevoked => "certificate_revoked"
  | CertificateDownloaded => "certificate_downloaded"
  | ConfigChanged => "config_changed"
  | DiscoveryScanStarted => "discovery_scan_started"
  | AuditIntegrityVerified => "audit_integrity_verified"
  | EmailNotificationSent => "email_notification_sent"
  | PatchJobCompleted => "patch_job_completed"
  | PatchJobFailed => "patch_job_failed"
  | MaintenanceWindowReminder => "maintenance_window_reminder"
  | HealthCheckCreated => "health_check_created"
  | HealthCheckUpdated => "health_check_updated"
  | HealthCheckDeleted => "health_check_deleted"
  | CertificateReissued => "certificate_reissued"
  | OidcConfigUpdated => "oidc_config_updated"
  | SmtpConfigUpdated => "smtp_config_updated"
  | IpWhitelistUpdated => "ip_whitelist_updated"
  | OidcTestPerformed => "oidc_test_performed"
  | OidcDiscoverPerformed => "oidc_discover_performed"
  | CrlStatusChanged => "crl_status_changed"
  | CrlStaleDetected => "crl_stale_detected"
  | CrlInvalid => "crl_invalid"
  | UpgradeTriggered => "upgrade_triggered"
  | BatchUpgradeTriggered => "batch_upgrade_triggered"
  | AuditChainRepaired => "audit_chain_repaired"
  | RebootRefused => "reboot_refused"
  end.

(** The arguments of [log_event], and the time it is called. *)
Record event : Type := Event {
  ev_action : audit_action;
  ev_actor : option uuid;
  ev_username : option string;
  ev_target_type : option string;
  ev_target_id : option string;
  ev_details : json;
  ev_ip : option string;
  ev_request : option string;
  ev_time : Z
}.

(** A row of [audit_log]. *)
Record audit_row : Type := AuditRow {
  a_id : Z;
  a_event : event;
  a_row_hash : string;
  a_prev_hash : string
}.

Record integrity_error : Type := IntegrityError {
  ie_row : Z; ie_expected : string; ie_actual : string
}.
Record integrity_result : Type := IntegrityResult {
  ir_intact : bool; ir_rows_checked : Z; ir_errors : list integrity_error
}.
Record repair_result : Type := RepairResult {
  rp_intact : bool; rp_rows_checked : Z; rp_prev_hash_fixed : Z; rp_row_hash_fixed : Z;
  rp_remaining : list integrity_error
}.

(** The table, in the order of its ids, and the sequence of the ids. *)
Record audit_log : Type := AuditLog { al_next : Z; al_rows : list audit_row }.

Section Audit.
Context (sha256_hex : string -> string) (show_json : json -> string) (rfc3339 : Z -> string).

(** The hashed fields of an event, in order and without separators. *)
Definition fields (e : event) : string :=
  (action_str (ev_action e) ++ from_option uuid_str "" (ev_actor e) ++ default "" (ev_username e) ++
   default "" (ev_target_type e) ++ default "" (ev_target_id e) ++ show_json (ev_details e) ++
   default "" (ev_ip e) ++ default "" (ev_request e) ++ rfc3339 (ev_time e))%string.

Definition chain_hash (prev : string) (e : event) : string := sha256_hex (prev ++ fields e).

(** [SELECT row_hash FROM audit_log ORDER BY id DESC LIMIT 1], or the empty string. *)
Definition last_hash (rows : list audit_row) : string :=
  match last rows with Some r => a_row_hash r | None => ""%string end.

(** What [details] is when it is read back from a JSONB column, and what
    [host(ip_address)] gives for a text that was stored as [$7::inet]. *)
Context (jsonb : json -> json) (inet_host : string -> string).

(** The event as the columns of its row give it back. *)
Definition stored (e : event) : event :=
  Event (ev_action e) (ev_actor e) (ev_username e) (ev_target_type e) (ev_target_id e) (jsonb (ev_details e))
    (inet_host <$> ev_ip e) (ev_request e) (ev_time e).

(** The hash is computed before the insertion, from the values at hand. *)
Definition write_audit_row (e : event) (l : audit_log) : audit_log :=
  let prev := last_hash (al_rows l) in
  AuditLog (al_next l + 1) (al_rows l ++ [AuditRow (al_next l) (stored e) (chain_hash prev e) prev]).

(** PostgreSQL gives the details back as a value that is serialized as before
    (it may reorder keys, which [serde_json]'s sorted map undoes), and the
    address as the text it was written with. *)
Definition columns_keep (e : event) : Prop :=
  show_json (jsonb (ev_details e)) = show_json (ev_details e) /\ inet_host <$> ev_ip e = ev_ip e.

(** The loop of verify_integrity: [expected_prev] is the hash of the row before. *)
Fixpoint verify_rows (expected_prev : string) (rows : list audit_row) : list integrity_error :=
  match rows with
  | [] => []
  | r :: rs =>
      (if String.eqb (a_prev_hash r) expected_prev then []
       else [IntegrityError (a_id r) expected_prev (a_prev_hash r)]) ++
      (let computed := chain_hash (a_prev_hash r) (a_event r) in
       if String.eqb (a_row_hash r) computed then [] else [IntegrityError (a_id r) computed (a_row_hash r)]) ++
      verify_rows (a_row_hash r) rs
  end.

Definition verify_integrity (l : audit_log) : integrity_result :=
  let errors := verify_rows "" (al_rows l) in
  IntegrityResult (match errors with [] => true | _ => false end) (Z.of_nat (length (al_rows l))) errors.

(** The loop of repair_integrity: the rows, and the two counters. *)
Fixpoint repair_rows (expected_prev : string) (rows : list audit_row) : list audit_row * Z * Z :=
  match rows with
  | [] => ([], 0, 0)
  | r :: rs =>
      let computed := chain_hash expected_prev (a_event r) in
      let '(rs', p, h) := repair_rows computed rs in
      (AuditRow (a_id r) (a_event r) computed expected_prev :: rs',
       (if String.eqb (a_prev_hash r) expected_prev then 0 else 1) + p,
       (if String.eqb (a_row_hash r) computed then 0 else 1) + h)
  end.

Definition repair_integrity (l : audit_log) : repair_result * audit_log :=
  let '(rows, p, h) := repair_rows "" (al_rows l) in
  let l' := AuditLog (al_next l) rows in
  let v := verify_integrity l' in
  (RepairResult (ir_intact v) (ir_rows_checked v) p h (ir_errors v), l').

(** Deleting a user ([DELETE FROM users], pm-web/src/routes/users.rs): the
    foreign key [actor_user_id ... ON DELETE SET NULL] updates the log. *)
Definition clear_actor (u : uuid) (e : event) : event :=
  Event (ev_action e) (if bool_decide (ev_actor e = Some u) then None else ev_actor e) (ev_username e)
    (ev_target_type e) (ev_target_id e) (ev_details e) (ev_ip e) (ev_request e) (ev_time e).
Definition delete_user_audit (u : uuid) (l : audit_log) : audit_log :=
  AuditLog (al_next l)
    ((fun r => AuditRow (a_id r) (clear_actor u (a_event r)) (a_row_hash r) (a_prev_hash r)) <$> al_rows l).

(** ** Specification: a chain *)

Inductive chain : string -> list audit_row -> Prop :=
| chain_nil prev : chain prev []
| chain_cons prev r rs :
    a_prev_hash r = prev -> a_row_hash r = chain_hash prev (a_event r) ->
    chain (a_row_hash r) rs -> chain prev (r :: rs).

Definition collision : Prop := exists x y, x <> y /\ sha256_hex x = sha256_hex y.

(** ** Lemmas *)

Lemma verify_rows_chain prev rows : verify_rows prev rows = [] <-> chain prev rows.
Proof.
  revert prev. induction rows as [|r rs IH]; intros prev; simpl; [split; [constructor|done]|]. split.
  - intros Hv. apply app_eq_nil in Hv as [Hp Hv]. apply app_eq_nil in Hv as [Hh Hv].
    destruct (String.eqb_spec (a_prev_hash r) prev) as [Heq|]; [|done].
    destruct (String.eqb_spec (a_row_hash r) (chain_hash (a_prev_hash r) (a_event r))); [|done].
    constructor; [done|by rewrite <- Heq|]. by apply IH.
  - intros Hc. inversion Hc as [|? ? ? Hp Hh Hrs]; subst. rewrite String.eqb_refl, <- Hh, String.eqb_refl.
    simpl. by apply IH.
Qed.

Lemma intact_chain l : ir_intact (verify_integrity l) = true <-> chain "" (al_rows l).
Proof.
  rewrite <- verify_rows_chain. unfold verify_integrity. simpl. destruct (verify_rows "" (al_rows l)); done.
Qed.

Definition end_hash (prev : string) (rows : list audit_row) : string :=
  match last rows with Some r => a_row_hash r | None => prev end.

Lemma chain_app prev l1 l2 : chain prev (l1 ++ l2) <-> chain prev l1 /\ chain (end_hash prev l1) l2.
Proof.
  revert prev. induction l1 as [|r rs IH]; intros prev; simpl.
  - split; [intros H; split; [constructor|done]|by intros [_ ?]].
  - assert (end_hash prev (r :: rs) = end_hash (a_row_hash r) rs) as ->.
    { unfold end_hash. destruct rs as [|r' rs]; [done|].
      destruct (last (r' :: rs)) eqn:Hl; [|by apply last_None in Hl].
      change (last (r :: r' :: rs)) with (last (r' :: rs)). by rewrite Hl. }
    split.
    + intros Hc. inversion Hc as [|? ? ? Hp Hh Hrs]; subst. apply IH in Hrs as [? ?]. split; [by constructor|done].
    + intros [Hc Hl]. inversion Hc as [|? ? ? Hp Hh Hrs]; subst. constructor; [done|done|]. by apply IH.
Qed.

Lemma repair_rows_chain prev rows : chain prev (repair_rows prev rows).1.1.
Proof.
  revert prev. induction rows as [|r rs IH]; intros prev; simpl; [constructor|].
  specialize (IH (chain_hash prev (a_event r))). destruct (repair_rows _ rs) as [[rs' p] h]; simpl in *.
  by constructor.
Qed.

Lemma repair_rows_events prev rows :
  (a_event <$> (repair_rows prev rows).1.1) = (a_event <$> rows) /\
  (a_id <$> (repair_rows prev rows).1.1) = (a_id <$> rows).
Proof.
  revert prev. induction rows as [|r rs IH]; intros prev; simpl; [done|].
  specialize (IH (chain_hash prev (a_event r))). destruct (repair_rows _ rs) as [[rs' p] h]; simpl in *.
  destruct IH as [H1 H2]. split; f_equal; assumption.
Qed.

Lemma repair_rows_intact prev rows : chain prev rows -> repair_rows prev rows = (rows, 0, 0).
Proof.
  intros Hc. induction Hc as [|prev r rs Hp Hh Hrs IH]; simpl; [done|].
  rewrite <- Hh, IH, <- Hp, !String.eqb_refl. by destruct r.
Qed.

(** Strings: lengths, to compare concatenations. *)
Lemma str_app_inj_length a a' b b' :
  String.length a = String.length a' -> (a ++ b)%string = (a' ++ b')%string -> a = a' /\ b = b'.
Proof.
  revert a'. induction a as [|c a IH]; intros [|c' a'] Hl; simpl in Hl; try done.
  change (String c a ++ b)%string with (String c (a ++ b)%string).
  change (String c' a' ++ b')%string with (String c' (a' ++ b')%string).
  intros [= -> He]. destruct (IH a' ltac:(lia) He) as [-> ->]. done.
Qed.


Lemma chain_hash_binding prev prev' e e' :
  String.length prev = String.length prev' -> chain_hash prev e = chain_hash prev' e' ->
  (prev = prev' /\ fields e = fields e') \/ collision.
Proof.
  intros Hl Hh. destruct (String.eqb_spec (prev ++ fields e) (prev' ++ fields e')) as [He|He].
  - left. by apply str_app_inj_length.
  - right. by eexists _, _.
Qed.

Context (Hlen : forall s, String.length (sha256_hex s) = 64%nat).


Lemma chain_elem prev rows r :
  chain prev rows -> r ∈ rows -> a_row_hash r = chain_hash (a_prev_hash r) (a_event r).
Proof.
  induction 1 as [|prev r0 rs Hp Hh Hrs IH]; [by intros ?%elem_of_nil|].
  intros [->|Hr]%elem_of_cons; [by rewrite Hp|by apply IH].
Qed.

Lemma hex_nibbles_length k n acc : String.length (hex_nibbles k n acc) = (k + String.length acc)%nat.
Proof. revert n acc. induction k as [|k IH]; intros n acc; [done|]. cbn [hex_nibbles]. rewrite IH. simpl. lia. Qed.

Lemma uuid_str_length u : String.length (uuid_str u) = 36%nat.
Proof. unfold uuid_str. rewrite !str_length_app, !hex_nibbles_length. done. Qed.

Lemma clear_actor_fields u e : ev_actor e = Some u -> fields (clear_actor u e) <> fields e.
Proof.
  intros Hu He. apply (f_equal String.length) in He. revert He.
  unfold fields, clear_actor. cbn [ev_action ev_actor ev_username ev_target_type ev_target_id ev_details ev_ip
    ev_request ev_time]. rewrite Hu, bool_decide_true by done. cbn [from_option].
  rewrite !str_length_app, uuid_str_length. change (String.length "") with 0%nat. lia.
Qed.

(** ** The properties *)

(** What is hashed of an event whose columns are kept is hashed of its row. *)
Lemma stored_fields e : columns_keep e -> fields (stored e) = fields e.
Proof.
  intros [Hd Hip]. unfold fields, stored. cbn [ev_action ev_actor ev_username ev_target_type ev_target_id ev_details
    ev_ip ev_request ev_time]. by rewrite Hd, Hip.
Qed.

Lemma stored_chain_hash prev e : columns_keep e -> chain_hash prev (stored e) = chain_hash prev e.
Proof. intros He. unfold chain_hash. by rewrite stored_fields. Qed.

Lemma write_chain e l :
  columns_keep e -> chain "" (al_rows l) -> chain "" (al_rows (write_audit_row e l)).
Proof.
  intros He Hl. unfold write_audit_row; simpl. apply chain_app. split; [done|].
  constructor; [done| |constructor]. cbn [a_row_hash a_event]. by rewrite stored_chain_hash.
Qed.

(** C10. Every write extends an intact log to an intact log, by one row that holds
    the event: from an intact log, the writes of [es], one after the other, leave
    the rows that were there, add a row for each event, in order, and the whole
    verifies, with as many rows more; if the JSONB and INET columns give the
    events' details and addresses back. *)
Theorem written_log_verifies es l :
  Forall columns_keep es -> ir_intact (verify_integrity l) = true ->
  let l' := foldl (fun l e => write_audit_row e l) l es in
  ir_intact (verify_integrity l') = true /\
  ir_rows_checked (verify_integrity l') = ir_rows_checked (verify_integrity l) + Z.of_nat (length es) /\
  exists rows, al_rows l' = al_rows l ++ rows /\ a_event <$> rows = stored <$> es.
Proof.
  intros Hes. revert l. induction Hes as [|e es He Hes IH]; intros l Hl l'.
  { split; [done|]. split; [unfold l'; simpl; lia|]. exists []. by rewrite app_nil_r. }
  destruct (IH (write_audit_row e l)) as (Hi & Hn & rows & Hr & Hev).
  - apply intact_chain. apply intact_chain in Hl. by apply write_chain.
  - split; [done|]. split.
    + unfold l'. cbn [foldl]. rewrite Hn. unfold verify_integrity, write_audit_row. cbn [ir_rows_checked al_rows].
      rewrite length_app. simpl. lia.
    + unfold l'. cbn [foldl]. rewrite Hr. unfold write_audit_row. cbn [al_rows]. rewrite <- app_assoc.
      eexists. split; [done|]. rewrite fmap_app. cbn. by rewrite Hev.
Qed.

(** Repairing a log makes it verify, keeps the events and ids of its rows, and
    changes nothing in a log that verifies already. *)
Theorem repair_restores_integrity l :
  rp_intact (repair_integrity l).1 = true /\ rp_remaining (repair_integrity l).1 = [] /\
  (a_event <$> al_rows (repair_integrity l).2) = (a_event <$> al_rows l) /\
  (a_id <$> al_rows (repair_integrity l).2) = (a_id <$> al_rows l) /\
  (ir_intact (verify_integrity l) = true ->
   (repair_integrity l).2 = l /\ rp_prev_hash_fixed (repair_integrity l).1 = 0 /\
   rp_row_hash_fixed (repair_integrity l).1 = 0).
Proof.
  unfold repair_integrity. pose proof (repair_rows_chain "" (al_rows l)) as Hc.
  pose proof (repair_rows_events "" (al_rows l)) as [He Hi].
  destruct (repair_rows "" (al_rows l)) as [[rows p] h] eqn:Hr. simpl in *.
  apply verify_rows_chain in Hc. rewrite Hc. split_and!; [done..|].
  intros Hint%intact_chain. apply repair_rows_intact in Hint. rewrite Hint in Hr. simplify_eq. by destruct l.
Qed.


(** Deleting a user that is the actor of an audited event breaks the chain:
    the foreign key clears the column, and the verification reports the row as
    tampered with (unless SHA-256 collides). *)
Theorem user_deletion_breaks_chain u l r :
  r ∈ al_rows l -> ev_actor (a_event r) = Some u -> ir_intact (verify_integrity l) = true ->
  ir_intact (verify_integrity (delete_user_audit u l)) = false \/ collision.
Proof.
  intros Hr Hu Hi%intact_chain. destruct (ir_intact (verify_integrity (delete_user_audit u l))) eqn:Hd; [|by left].
  right. apply intact_chain in Hd. pose proof (chain_elem _ _ _ Hi Hr) as Hh.
  assert (AuditRow (a_id r) (clear_actor u (a_event r)) (a_row_hash r) (a_prev_hash r) ∈
            al_rows (delete_user_audit u l)) as Hr'.
  { unfold delete_user_audit; simpl. apply list_elem_of_fmap. by exists r. }
  pose proof (chain_elem _ _ _ Hd Hr') as Hh'. simpl in Hh'. rewrite Hh in Hh'.
  destruct (chain_hash_binding (a_prev_hash r) (a_prev_hash r) _ _ eq_refl Hh') as [[_ Hf]|?]; [|done].
  by destruct (clear_actor_fields u (a_event r)).
Qed.

(** What the chain does not show: rows cut off at the end, and two events
    whose fields only join to the same text (user "ab" acting on a "c", user "a"
    acting on a "bc"), which get the same hash. *)
Theorem undetected_changes l n prev :
  (ir_intact (verify_integrity l) = true ->
   ir_intact (verify_integrity (AuditLog (al_next l) (take n (al_rows l)))) = true) /\
  exists e e', e <> e' /\ chain_hash prev e = chain_hash prev e'.
Proof.
  split.
  - intros Hi%intact_chain. apply intact_chain. simpl. rewrite <- (take_drop n (al_rows l)) in Hi.
    by apply chain_app in Hi as [? _].
  - exists (Event UserLogin None (Some "ab"%string) (Some "c"%string) None JNull None None 0),
      (Event UserLogin None (Some "a"%string) (Some "bc"%string) None JNull None None 0).
    split; [intros He; discriminate He|done].
Qed.
End Audit.

(** ** Witnesses: a hash of 64 characters, and plain renderings *)

Fixpoint str_take (n : nat) (s : string) : string :=
  match n, s with
  | O, _ => ""%string
  | S n', EmptyString => String "0" (str_take n' "")
  | S n', String c s' => String c (str_take n' s')
  end.
Definition toy_hash (s : string) : string := str_take 64 (str_rev s).


Definition toy_json (_ : json) : string := "{}".
Definition login_event (u : uuid) (t : Z) : event :=
  Event UserLogin (Some u) (Some "alice"%string) None None JNull None None t.
Definition demo_log : audit_log :=
  foldl (fun l e => write_audit_row toy_hash toy_json dec Datatypes.id Datatypes.id e l) (AuditLog 1 []) [login_event 7%N 1; login_event 8%N 2].

Lemma written_log_verifies_witness :
  ir_intact (verify_integrity toy_hash toy_json dec demo_log) = true /\
  ir_rows_checked (verify_integrity toy_hash toy_json dec demo_log) = 0 + 2 /\
  exists rows, al_rows demo_log = [] ++ rows /\
    a_event <$> rows = stored Datatypes.id Datatypes.id <$> [login_event 7%N 1; login_event 8%N 2].
Proof.
  apply (written_log_verifies toy_hash toy_json dec Datatypes.id Datatypes.id [login_event 7%N 1; login_event 8%N 2] (AuditLog 1 []));
    [by repeat constructor|reflexivity].
Defined.

Lemma repair_restores_integrity_witness :
  (repair_integrity toy_hash toy_json dec demo_log).2 = demo_log /\
  rp_prev_hash_fixed (repair_integrity toy_hash toy_json dec demo_log).1 = 0 /\
  rp_row_hash_fixed (repair_integrity toy_hash toy_json dec demo_log).1 = 0.
Proof. apply (repair_restores_integrity toy_hash toy_json dec demo_log). vm_compute. reflexivity. Defined.


Lemma user_deletion_breaks_chain_witness :
  ir_intact (verify_integrity toy_hash toy_json dec (delete_user_audit 8%N demo_log)) = false \/ collision toy_hash.
Proof.
  apply (user_deletion_breaks_chain toy_hash toy_json dec 8%N demo_log
           (AuditRow 2 (login_event 8%N 2) (chain_hash toy_hash toy_json dec (last_hash (take 1 (al_rows demo_log))) (login_event 8%N 2))
              (last_hash (take 1 (al_rows demo_log))))).
  - vm_compute. right. left.
  - reflexivity.
  - vm_compute. reflexivity.
Defined.

Lemma undetected_changes_witness :
  ir_intact (verify_integrity toy_hash toy_json dec (AuditLog 3 (take 1 (al_rows demo_log)))) = true.
Proof. apply (proj1 (undetected_changes toy_hash toy_json dec demo_log 1 "")). vm_compute. reflexivity. Defined.
