(* ===== verification/Rbac.v ===== *)
(** * Authentication and roles (pm-auth/src/rbac.rs)

    The middleware every API request goes through: the IP allow-list, the bearer
    token, the role.  Addresses, networks and their parsers (the crates [ipnet]
    and [std::net]) and the validation of a token's signature are parameters; a
    header whose value is not visible ASCII counts as absent ([to_str] fails). *)

From S2P Require Import Prelude.

Inductive user_role : Type := Admin | Operator | Reporter.

Definition role_from_str (s : string) : option user_role :=
  if String.eqb s "admin" then Some Admin
  else if String.eqb s "operator" then Some Operator
  else if String.eqb s "reporter" then Some Reporter
  else None.

Definition role_str (r : user_role) : string :=
  match r with Admin => "admin" | Operator => "operator" | Reporter => "reporter" end.

Definition is_admin (r : user_role) : bool := match r with Admin => true | _ => false end.
Definition can_write (r : user_role) : bool := match r with Admin | Operator => true | _ => false end.

(** [AuthUser]; the claims it also carries are not read again. *)
Record auth_user : Type := AuthUser { au_id : uuid; au_username : string; au_role : user_role }.

(** HTTP status and machine-readable code of an error answer. *)
Record api_err : Type := ApiErr { ae_status : Z; ae_code : string }.

#[export] Instance api_err_eq_dec : EqDecision api_err.
Proof. solve_decision. Defined.

Definition unauthorized : api_err := ApiErr 401 "unauthorized".
Definition forbidden : api_err := ApiErr 403 "forbidden".
Definition forbidden_ip : api_err := ApiErr 403 "forbidden_ip".

(** The claims of an access token that are used, as decoded. *)
Record access_claims : Type := AccessClaims { ac_sub : string; ac_role : string; ac_username : string }.

Inductive jwt_error : Type := JwtExpired | JwtOther (msg : string).

(** The request headers that are read. *)
Record headers : Type := Headers { hd_authorization : option string; hd_forwarded_for : option string }.

Definition extract_bearer_token (h : headers) : option string :=
  s ← hd_authorization h; strip_prefix "Bearer " s.

Section Rbac.
Context {ip net : Type} (contains : net -> ip -> bool) (parse_ip : string -> option ip)
  (parse_net : string -> option net) (parse_uuid : string -> option uuid).

Record auth_config : Type := AuthConfig {
  ac_verify_key : string;
  ac_ip_whitelist : list net;
  ac_trusted_proxies : list net
}.

(** Entries that do not parse are dropped ([filter_map(... .ok())]). *)
Definition parse_nets (entries : list string) : list net := omap parse_net entries.

Definition new_config (key : string) (whitelist proxies : list string) : auth_config :=
  AuthConfig key (parse_nets whitelist) (parse_nets proxies).

Definition is_ip_allowed (cfg : auth_config) (a : ip) : bool :=
  match ac_ip_whitelist cfg with
  | [] => true
  | nets => existsb (fun n => contains n a) nets
  end.

Definition update_ip_whitelist (entries : list string) (cfg : auth_config) : auth_config :=
  AuthConfig (ac_verify_key cfg) (parse_nets entries) (ac_trusted_proxies cfg).

Definition update_trusted_proxies (entries : list string) (cfg : auth_config) : auth_config :=
  AuthConfig (ac_verify_key cfg) (ac_ip_whitelist cfg) (parse_nets entries).

(** The leftmost entry of [X-Forwarded-For]. *)
Definition leftmost_forwarded (xff : string) : option ip :=
  match split_by (Ascii.eqb ",") xff with
  | s :: _ => parse_ip (trim s)
  | [] => None
  end.

Definition resolve_client_ip (h : headers) (peer : option ip) (trusted : list net) : option ip :=
  match peer with
  | None => None
  | Some peer_ip =>
      if existsb (fun n => contains n peer_ip) trusted then
        match hd_forwarded_for h with
        | Some xff => match leftmost_forwarded xff with Some a => Some a | None => Some peer_ip end
        | None => Some peer_ip
        end
      else Some peer_ip
  end.

(** The allow-list part of [require_auth]. *)
Definition check_ip (cfg : auth_config) (h : headers) (peer : option ip) : result unit api_err :=
  match ac_ip_whitelist cfg with
  | [] => Ok tt
  | _ =>
      match resolve_client_ip h peer (ac_trusted_proxies cfg) with
      | None => Err forbidden_ip
      | Some a => if is_ip_allowed cfg a then Ok tt else Err forbidden_ip
      end
  end.

(** [validate_access_token token key], at the time of the request. *)
Context (validate_access_token : string -> string -> result access_claims jwt_error).

(** The user the request goes on with, or the answer that refuses it. *)
Definition require_auth (cfg : auth_config) (h : headers) (peer : option ip) : result auth_user api_err :=
  let? _ := check_ip cfg h peer in
  match extract_bearer_token h with
  | None => Err unauthorized
  | Some token =>
      match validate_access_token token (ac_verify_key cfg) with
      | Err _ => Err unauthorized
      | Ok claims =>
          match role_from_str (ac_role claims) with
          | None => Err unauthorized
          | Some role =>
              match parse_uuid (ac_sub claims) with
              | None => Err unauthorized
              | Some id => Ok (AuthUser id (ac_username claims) role)
              end
          end
      end
  end.

Definition require_admin (user : option auth_user) : result auth_user api_err :=
  match user with
  | None => Err unauthorized
  | Some u => if is_admin (au_role u) then Ok u else Err forbidden
  end.

(** ** Lemmas *)

Lemma role_roundtrip r s : role_from_str s = Some r <-> s = role_str r.
Proof.
  unfold role_from_str. split.
  - destruct (String.eqb_spec s "admin") as [->|]; [by intros [= <-]|].
    destruct (String.eqb_spec s "operator") as [->|]; [by intros [= <-]|].
    destruct (String.eqb_spec s "reporter") as [->|]; [by intros [= <-]|]. done.
  - intros ->. by destruct r.
Qed.

Lemma resolve_untrusted h p trusted :
  existsb (fun n => contains n p) trusted = false -> resolve_client_ip h (Some p) trusted = Some p.
Proof. unfold resolve_client_ip. by intros ->. Qed.

Lemma check_ip_ok cfg h peer :
  check_ip cfg h peer = Ok tt <->
  ac_ip_whitelist cfg = [] \/
  exists a, resolve_client_ip h peer (ac_trusted_proxies cfg) = Some a /\
    exists n, n ∈ ac_ip_whitelist cfg /\ contains n a = true.
Proof.
  unfold check_ip, is_ip_allowed. destruct (ac_ip_whitelist cfg) as [|n0 nets]; [split; [by left|done]|].
  destruct (resolve_client_ip h peer (ac_trusted_proxies cfg)) as [a|].
  - destruct (existsb (fun n => contains n a) (n0 :: nets)) eqn:He.
    + split; [|done]. intros _. right. exists a. split; [done|]. apply List.existsb_exists in He as (n & Hn & Hc).
      exists n. split; [by apply list_elem_of_In|done].
    + split; [done|]. intros [?|(a' & [= <-] & n & Hn & Hc)]; [done|].
      assert (existsb (fun n => contains n a) (n0 :: nets) = true); [|congruence].
      apply List.existsb_exists. exists n. split; [by apply list_elem_of_In|done].
  - split; [done|]. by intros [?|(a & ? & _)].
Qed.

(** ** The properties *)

(** A request passes the authentication exactly when the allow-list is empty or
    contains the resolved client address, and the bearer token is valid and
    names a role and a user; the user it goes on with is the token's. *)
Theorem require_auth_iff cfg h peer u :
  require_auth cfg h peer = Ok u <->
  (ac_ip_whitelist cfg = [] \/
   exists a, resolve_client_ip h peer (ac_trusted_proxies cfg) = Some a /\
     exists n, n ∈ ac_ip_whitelist cfg /\ contains n a = true) /\
  exists token claims, hd_authorization h = Some ("Bearer " ++ token)%string /\
    validate_access_token token (ac_verify_key cfg) = Ok claims /\
    ac_role claims = role_str (au_role u) /\ parse_uuid (ac_sub claims) = Some (au_id u) /\
    au_username u = ac_username claims.
Proof.
  rewrite <- check_ip_ok. unfold require_auth. destruct (check_ip cfg h peer) as [[]|e]; cbn [result_bind];
    [|split; [done|by intros [? _]]].
  unfold extract_bearer_token. destruct (hd_authorization h) as [s|]; cbn [mbind option_bind].
  2:{ split; [done|]. by intros (_ & token & claims & ? & _). }
  destruct (strip_prefix "Bearer " s) as [token|] eqn:Hs.
  2:{ split; [done|]. intros (_ & token & claims & He & _).
      assert (strip_prefix "Bearer " s = Some token) by (apply strip_prefix_app; congruence). congruence. }
  assert (forall t, Some s = Some ("Bearer " ++ t)%string <-> t = token) as Htok.
  { intros t. split; [|intros ->; f_equal; by apply strip_prefix_app].
    intros He. assert (strip_prefix "Bearer " s = Some t) by (apply strip_prefix_app; congruence). congruence. }
  split.
  - destruct (validate_access_token token (ac_verify_key cfg)) as [claims|] eqn:Hv; [|done].
    destruct (role_from_str (ac_role claims)) as [role|] eqn:Hr; [|done].
    destruct (parse_uuid (ac_sub claims)) as [id|] eqn:Hp; [|done]. intros [= <-]. split; [done|].
    exists token, claims. split_and!; [by apply Htok|done| |done|done]. by apply role_roundtrip.
  - intros (_ & t & claims & ->%Htok & -> & Hr & -> & Hn). apply role_roundtrip in Hr. rewrite Hr.
    destruct u; simpl in *. by subst.
Qed.

(** Without a socket address a non-empty allow-list refuses everything, and a
    peer that is not a trusted proxy is judged by its own address, whatever it
    claims in [X-Forwarded-For]. *)
Theorem allow_list_fails_closed cfg h1 h2 p :
  ac_ip_whitelist cfg <> [] ->
  require_auth cfg h1 None = Err forbidden_ip /\
  (existsb (fun n => contains n p) (ac_trusted_proxies cfg) = false ->
   is_ip_allowed cfg p = false -> require_auth cfg h2 (Some p) = Err forbidden_ip).
Proof.
  intros Hne. unfold require_auth, check_ip. split.
  - by destruct (ac_ip_whitelist cfg).
  - intros Ht Ha. rewrite resolve_untrusted by done. rewrite Ha. by destruct (ac_ip_whitelist cfg).
Qed.

(** Behind a trusted proxy the address is whatever the client wrote leftmost in
    [X-Forwarded-For]: a proxy that appends the real address does not keep a
    client from naming an allowed one. *)
Theorem forwarded_address_is_claimed cfg auth p claimed rest a :
  existsb (fun n => contains n p) (ac_trusted_proxies cfg) = true ->
  str_forallb (fun c => negb (Ascii.eqb "," c)) claimed = true -> parse_ip (trim claimed) = Some a ->
  is_ip_allowed cfg a = true ->
  check_ip cfg (Headers auth (Some (claimed ++ String "," rest)%string)) (Some p) = Ok tt.
Proof.
  intros Ht Hc Hp Ha. unfold check_ip, resolve_client_ip. rewrite Ht. cbn [hd_forwarded_for].
  unfold leftmost_forwarded.
  assert (split_by (Ascii.eqb ",") (claimed ++ String "," rest) = claimed :: split_by (Ascii.eqb ",") rest) as ->.
  { clear -Hc. induction claimed as [|c s IH]; [done|]. cbn [str_forallb] in Hc.
    apply andb_true_iff in Hc as [Hc Hs]. apply negb_true_iff in Hc.
    change ((String c s ++ String "," rest)%string) with (String c (s ++ String "," rest)%string).
    cbn [split_by]. by rewrite Hc, IH. }
  rewrite Hp, Ha. by destruct (ac_ip_whitelist cfg).
Qed.

(** Entries that do not parse are dropped, and an allow-list none of whose
    entries parses allows every address. *)
Theorem unparsable_allow_list_allows_all entries cfg h peer :
  Forall (fun s => parse_net s = None) entries ->
  check_ip (update_ip_whitelist entries cfg) h peer = Ok tt.
Proof.
  intros Hall. unfold check_ip, update_ip_whitelist, parse_nets. cbn [ac_ip_whitelist].
  assert (omap parse_net entries = []) as ->; [|done].
  induction Hall as [|s entries Hs Hall IH]; simpl; [done|]. by rewrite Hs.
Qed.
End Rbac.

(** ** Witnesses: addresses are numbers, a network is a range *)

Definition demo_contains (n : Z * Z) (a : Z) : bool := (n.1 <=? a) && (a <=? n.2).
Definition demo_parse_ip : string -> option Z := parse_u64.
Definition demo_parse_net (s : string) : option (Z * Z) :=
  ab ← split_once "/" s; x ← parse_u64 ab.1; y ← parse_u64 ab.2; Some (x, y).
Definition demo_auth_config : auth_config := AuthConfig (net := Z * Z) "key" [(10, 20)] [(100, 200)].

Lemma allow_list_fails_closed_witness :
  require_auth demo_contains demo_parse_ip (fun _ => None) (fun _ _ => Err JwtExpired) demo_auth_config
    (Headers None (Some "15"%string)) (Some 5) = Err forbidden_ip.
Proof.
  apply (allow_list_fails_closed demo_contains demo_parse_ip (fun _ => None) (fun _ _ => Err JwtExpired)
           demo_auth_config (Headers None None) (Headers None (Some "15"%string)) 5);
    [discriminate|reflexivity|reflexivity].
Defined.

Lemma forwarded_address_is_claimed_witness :
  check_ip demo_contains demo_parse_ip demo_auth_config (Headers None (Some "15, 5"%string)) (Some 150) = Ok tt.
Proof.
  apply (forwarded_address_is_claimed demo_contains demo_parse_ip demo_auth_config None 150 "15" " 5" 15);
    vm_compute; reflexivity.
Defined.

Lemma unparsable_allow_list_allows_all_witness :
  check_ip demo_contains demo_parse_ip
    (update_ip_whitelist demo_parse_net ["10.0.0.0"%string; "typo"%string] demo_auth_config) (Headers None None) None = Ok tt.
Proof.
  apply (unparsable_allow_list_allows_all demo_contains demo_parse_ip demo_parse_net).
  repeat constructor.
Defined.
