(* ===== verification/Conc.v ===== *)
(** * Effectful programs, their Hoare logic and their interleavings

    The worker tasks and the web handlers are asynchronous functions: between
    two [await]s of a task any other task may run.  A handler is modelled as a
    free monad over its effects (one node per [await]: an SQL statement, an
    agent call, a clock reading, a [tokio::spawn]), so that the same term is

    - run by a deterministic handler ([run]), which the witnesses evaluate;
    - reasoned about by a weakest precondition ([wp]) over every answer the
      database, the agents and the clock may give;
    - interleaved with any number of other tasks, one effect at a time
      ([cstep]), where an invariant that each task keeps while assuming it of
      the others ([safe]) holds in every reachable configuration. *)

From S2P Require Import Prelude.

Inductive prog (E : Type -> Type) (A : Type) : Type :=
| Ret (a : A)
| Vis {X : Type} (e : E X) (k : X -> prog E A).
Arguments Ret {E A} a.
Arguments Vis {E A X} e k.

Fixpoint bind {E A B} (p : prog E A) (f : A -> prog E B) : prog E B :=
  match p with
  | Ret a => f a
  | Vis e k => Vis e (fun x => bind (k x) f)
  end.

Definition trigger {E X} (e : E X) : prog E X := Vis e Ret.

Notation "'let!' x ':=' p 'in' q" := (bind p (fun x => q))
  (at level 10, x binder, p at level 100, q at level 200) : lpm_scope.
Notation "p ';;' q" := (bind p (fun _ => q))
  (at level 100, q at level 200, right associativity) : lpm_scope.

(** The [?] operator on the result of a program. *)
Definition bind_ok {E A B Er} (p : prog E (result A Er)) (f : A -> prog E (result B Er))
    : prog E (result B Er) :=
  bind p (fun r => match r with Ok a => f a | Err e => Ret (Err e) end).
Notation "'let!?' x ':=' p 'in' q" := (bind_ok p (fun x => q))
  (at level 10, x binder, p at level 100, q at level 200) : lpm_scope.

(** [for x in xs { body(x) }] for a body whose early exits are [continue]. *)
Fixpoint for_each {E A} (xs : list A) (body : A -> prog E unit) : prog E unit :=
  match xs with
  | [] => Ret tt
  | x :: xs' => bind (body x) (fun _ => for_each xs' body)
  end.

(** What an effect may answer and do: [exec e s x s'] says that in state [s]
    the effect [e] may answer [x] and leave the state [s']. *)
Class EffectSem (E : Type -> Type) (St : Type) :=
  exec : forall X : Type, E X -> St -> X -> St -> Prop.
Arguments exec {E St _ X} e s x s'.

(** ** Deterministic runs *)

Fixpoint run {E W A} (h : forall X, E X -> W -> X * W) (p : prog E A) (w : W) : A * W :=
  match p with
  | Ret a => (a, w)
  | Vis e k => let '(x, w') := h _ e w in run h (k x) w'
  end.

Section Logic.
Context {E : Type -> Type} {St : Type} `{EffectSem E St}.

(** ** Weakest preconditions over all answers *)
Fixpoint wp {A} (p : prog E A) (Q : A -> St -> Prop) (s : St) : Prop :=
  match p with
  | Ret a => Q a s
  | Vis e k => forall x s', exec e s x s' -> wp (k x) Q s'
  end.

(** [may p Q s]: [p] may end so that [Q] holds. *)
Fixpoint may {A} (p : prog E A) (Q : A -> St -> Prop) (s : St) : Prop :=
  match p with
  | Ret a => Q a s
  | Vis e k => exists x s', exec e s x s' /\ may (k x) Q s'
  end.

(** [emits G p s]: every effect of [p], run from [s], satisfies [G] in the state
    in which it is issued. *)
Fixpoint emits {A} (G : forall X, E X -> St -> Prop) (p : prog E A) (s : St) : Prop :=
  match p with
  | Ret _ => True
  | Vis e k => G _ e s /\ forall x s', exec e s x s' -> emits G (k x) s'
  end.

(** ** Safety under interference

    [safe P p]: whenever [P] holds before an effect of [p] (other tasks may
    have run since the previous one), it holds after it. *)
Fixpoint safe {A} (P : St -> Prop) (p : prog E A) : Prop :=
  match p with
  | Ret _ => True
  | Vis e k => forall s x s', P s -> exec e s x s' -> P s' /\ safe P (k x)
  end.

(** [gsafe G I p]: [p] keeps [I] while it holds, and issues only effects that
    [G] allows. *)
Fixpoint gsafe {A} (G : forall X, E X -> Prop) (I : St -> Prop) (p : prog E A) : Prop :=
  match p with
  | Ret _ => True
  | Vis e k => G _ e /\ forall s x s', I s -> exec e s x s' -> I s' /\ gsafe G I (k x)
  end.

(** The same, with what holds of the result while other tasks keep [I], too. *)
Fixpoint gpost {A} (G : forall X, E X -> Prop) (I : St -> Prop) (p : prog E A) (Q : A -> Prop) : Prop :=
  match p with
  | Ret a => Q a
  | Vis e k => G _ e /\ forall s x s', I s -> exec e s x s' -> I s' /\ gpost G I (k x) Q
  end.

(** ** Interleavings

    A configuration is the shared state and the running tasks.  A step runs
    one effect of one task, or starts a task that the environment (a request,
    a timer, a notification) may start at any time. *)
Context {R : Type} (spawned : forall X, E X -> list (prog E R)) (entry : prog E R -> Prop).

Inductive cstep : St * list (prog E R) -> St * list (prog E R) -> Prop :=
| cstep_effect s s' ts1 ts2 X (e : E X) (k : X -> prog E R) x :
    exec e s x s' ->
    cstep (s, ts1 ++ Vis e k :: ts2) (s', ts1 ++ k x :: ts2 ++ spawned X e)
| cstep_start s ts p :
    entry p -> cstep (s, ts) (s, ts ++ [p]).

(** A schedule: the index of the task that runs next, at each step.  The
    handler [h] fixes what the effects answer and do. *)
Context (h : forall X, E X -> St -> X * St).

Definition sched_step (i : nat) (c : St * list (prog E R)) : option (St * list (prog E R)) :=
  match c.2 !! i with
  | Some (Vis e k) =>
      let '(x, s') := h _ e c.1 in Some (s', take i c.2 ++ k x :: drop (S i) c.2 ++ spawned _ e)
  | _ => None
  end.

Fixpoint interleave (sched : list nat) (c : St * list (prog E R)) : option (St * list (prog E R)) :=
  match sched with
  | [] => Some c
  | i :: sched' => c' ← sched_step i c; interleave sched' c'
  end.

(** ** The rules of the logic *)

Lemma wp_mono {A} (p : prog E A) (Q Q' : A -> St -> Prop) s :
  (forall a t, Q a t -> Q' a t) -> wp p Q s -> wp p Q' s.
Proof. intros HQ. revert s. induction p as [a|X e k IH]; simpl; eauto. Qed.

Lemma wp_may {A} (p : prog E A) (Q Q' : A -> St -> Prop) s : wp p Q s -> may p Q' s -> exists a t, Q a t /\ Q' a t.
Proof.
  revert s. induction p as [a|X e k IH]; intros s; simpl; [by exists a, s|].
  intros Hw (x & s' & Hx & Hm). by apply (IH x s'); [apply Hw|].
Qed.

Lemma wp_bind {A B} (p : prog E A) (f : A -> prog E B) Q s :
  wp (bind p f) Q s <-> wp p (fun a t => wp (f a) Q t) s.
Proof.
  revert s. induction p as [a|X e k IH]; intros s; simpl; [done|].
  split; intros Hk x s' Hx; apply IH; auto.
Qed.

Lemma gsafe_bind {A B} G I (p : prog E A) (f : A -> prog E B) :
  gsafe G I p -> (forall a, gsafe G I (f a)) -> gsafe G I (bind p f).
Proof.
  intros Hp Hf. induction p as [a|X e k IH]; simpl in *; [apply Hf|].
  destruct Hp as [HG Hk]. split; [done|]. intros s x s' Hs Hx.
  destruct (Hk s x s' Hs Hx) as [HP Hg]. split; [done|]. by apply IH.
Qed.

Lemma gsafe_mono {A} (G G' : forall X, E X -> Prop) I (p : prog E A) :
  (forall X (e : E X), G X e -> G' X e) -> gsafe G I p -> gsafe G' I p.
Proof.
  intros HG. induction p as [a|X e k IH]; simpl; [done|]. intros [He Hk]. split; [by apply HG|].
  intros s x s' Hs Hx. destruct (Hk s x s' Hs Hx) as [Hs' Hg]. split; [done|by apply IH].
Qed.

Lemma gsafe_bind_effect {A X} (G : forall X, E X -> Prop) I (e : E X) (f : X -> prog E A) :
  G _ e -> (forall s x s', I s -> exec e s x s' -> I s' /\ gsafe G I (f x)) -> gsafe G I (bind (trigger e) f).
Proof. done. Qed.

Lemma gpost_gsafe {A} G I (p : prog E A) Q : gpost G I p Q -> gsafe G I p.
Proof.
  induction p as [a|X e k IH]; simpl; [done|]. intros [He Hk]. split; [done|]. intros s x s' Hs Hx.
  destruct (Hk s x s' Hs Hx). split; [done|by apply IH].
Qed.

Lemma gsafe_gpost {A} G I (p : prog E A) : gsafe G I p -> gpost G I p (fun _ => True).
Proof.
  induction p as [a|X e k IH]; simpl; [done|]. intros [He Hk]. split; [done|]. intros s x s' Hs Hx.
  destruct (Hk s x s' Hs Hx). split; [done|by apply IH].
Qed.

Lemma gpost_mono {A} G I (p : prog E A) (Q Q' : A -> Prop) : (forall a, Q a -> Q' a) -> gpost G I p Q -> gpost G I p Q'.
Proof.
  intros HQ. induction p as [a|X e k IH]; simpl; [auto|]. intros [He Hk]. split; [done|]. intros s x s' Hs Hx.
  destruct (Hk s x s' Hs Hx). split; [done|by apply IH].
Qed.

Lemma gpost_bind {A B} G I (p : prog E A) (f : A -> prog E B) Q P :
  gpost G I p Q -> (forall a, Q a -> gpost G I (f a) P) -> gpost G I (bind p f) P.
Proof.
  intros Hp Hf. induction p as [a|X e k IH]; simpl in *; [by apply Hf|]. destruct Hp as [He Hk]. split; [done|].
  intros s x s' Hs Hx. destruct (Hk s x s' Hs Hx). split; [done|by apply IH].
Qed.

(** The effects that [G] allows keep [I]. *)
Definition keeps (G : forall X, E X -> Prop) (I : St -> Prop) : Prop :=
  forall X (e : E X) s x s', G X e -> I s -> exec e s x s' -> I s'.

Lemma gpost_trigger {X} G I (e : E X) (Q : X -> Prop) :
  keeps G I -> G _ e -> (forall s x s', I s -> exec e s x s' -> Q x) -> gpost G I (trigger e) Q.
Proof. intros HI He HQ. split; [done|]. intros s x s' Hs Hx. split; [by eapply HI|by eapply HQ]. Qed.

Lemma gsafe_for_each {A} G I (xs : list A) body :
  (forall x, gsafe G I (body x)) -> gsafe G I (for_each xs body).
Proof. intros Hb. induction xs as [|x xs IH]; simpl; [done|]. apply gsafe_bind; auto. Qed.

Lemma gsafe_emits {A} (G : forall X, E X -> Prop) I (p : prog E A) s :
  gsafe G I p -> I s -> emits (fun X e _ => G X e) p s.
Proof.
  revert s. induction p as [a|X e k IH]; intros s Hp Hs; simpl in *; [done|].
  destruct Hp as [HG Hk]. split; [done|]. intros x s' Hx. destruct (Hk s x s' Hs Hx). by apply IH.
Qed.

Lemma wp_conj {A} (p : prog E A) (Q Q' : A -> St -> Prop) s :
  wp p Q s -> wp p Q' s -> wp p (fun a t => Q a t /\ Q' a t) s.
Proof. revert s. induction p as [a|X e k IH]; intros s; simpl; [done|]. intros H1 H2 x s' Hx. apply IH; auto. Qed.

Lemma emits_bind {A B} (G : forall X, E X -> St -> Prop) (p : prog E A) (f : A -> prog E B) s :
  emits G p s -> wp p (fun a t => emits G (f a) t) s -> emits G (bind p f) s.
Proof.
  revert s. induction p as [a|X e k IH]; intros s; simpl; [done|].
  intros [HG Hk] Hf. split; [done|]. intros x s' Hx. apply IH; auto.
Qed.

(** What the effects that a program issues keep, it keeps. *)
Lemma emits_invariant {A} (G : forall X, E X -> St -> Prop) (J : St -> Prop) (p : prog E A) s :
  (forall X (e : E X) t x t', G X e t -> J t -> exec e t x t' -> J t') ->
  emits G p s -> J s -> wp p (fun _ t => J t) s.
Proof.
  intros HJ. revert s. induction p as [a|X e k IH]; intros s; simpl; [done|].
  intros [HG Hk] Hs x s' Hx. apply IH; [by apply Hk|by eapply HJ].
Qed.

(** One answer, many conclusions. *)
Lemma wp_all {A X} (p : prog E A) (Q : X -> A -> St -> Prop) s :
  (forall x, wp p (Q x) s) -> wp p (fun a t => forall x, Q x a t) s.
Proof. revert s. induction p as [a|Y e k IH]; intros s; simpl; [done|]. intros H1 y s' Hy. apply IH. intros x. by apply H1. Qed.

Lemma wp_impl {A} (p : prog E A) (P : Prop) (Q : A -> St -> Prop) s :
  (P -> wp p Q s) -> wp p (fun a t => P -> Q a t) s.
Proof. revert s. induction p as [a|Y e k IH]; intros s; simpl; [done|]. intros H1 y s' Hy. apply IH. intros HP. by apply H1. Qed.

Lemma wp_true {A} (p : prog E A) (Q : A -> St -> Prop) s : (forall a t, Q a t) -> wp p Q s.
Proof. intros HQ. revert s. induction p as [a|X e k IH]; simpl; eauto. Qed.

Lemma safe_bind {A B} P (p : prog E A) (f : A -> prog E B) :
  safe P p -> (forall a, safe P (f a)) -> safe P (bind p f).
Proof.
  intros Hp Hf. induction p as [a|X e k IH]; simpl in *; [apply Hf|].
  intros s x s' Hs Hx. destruct (Hp s x s' Hs Hx) as [HP Hk]. split; [done|]. by apply IH.
Qed.

(** The continuation of an effect may use what its answer says. *)
Lemma safe_bind_effect {A X} P (e : E X) (f : X -> prog E A) :
  (forall s x s', P s -> exec e s x s' -> P s' /\ safe P (f x)) -> safe P (bind (trigger e) f).
Proof. done. Qed.

Lemma safe_for_each {A} P (xs : list A) body :
  (forall x, x ∈ xs -> safe P (body x)) -> safe P (for_each xs body).
Proof.
  induction xs as [|x xs IH]; intros Hb; simpl; [done|].
  apply safe_bind; [apply Hb; set_solver|]. intros _. apply IH. set_solver.
Qed.

(** A safe task keeps its invariant also when it runs alone. *)
Lemma safe_wp {A} P (p : prog E A) s : safe P p -> P s -> wp p (fun _ t => P t) s.
Proof.
  revert s. induction p as [a|X e k IH]; intros s Hp Hs; simpl in *; [done|].
  intros x s' Hx. destruct (Hp s x s' Hs Hx). by apply IH.
Qed.

Lemma cstep_safe P c c' :
  (forall X (e : E X), Forall (safe P) (spawned X e)) ->
  (forall p, entry p -> safe P p) ->
  cstep c c' -> P c.1 -> Forall (safe P) c.2 -> P c'.1 /\ Forall (safe P) c'.2.
Proof.
  intros Hsp Hen Hst. destruct Hst as [s s' ts1 ts2 X e k x Hx|s ts p Hp]; simpl; intros HP Hts.
  - rewrite !Forall_app, !Forall_cons, Forall_app in *. destruct Hts as (H1 & Hk & H2).
    destruct (Hk s x s' HP Hx) as [HP' Hkx]. naive_solver.
  - rewrite Forall_app, Forall_singleton. auto.
Qed.

Theorem invariant_reachable P c c' :
  (forall X (e : E X), Forall (safe P) (spawned X e)) ->
  (forall p, entry p -> safe P p) ->
  rtc cstep c c' -> P c.1 -> Forall (safe P) c.2 -> P c'.1.
Proof.
  intros Hsp Hen Hr. induction Hr as [c|c1 c2 c3 Hst _ IH]; [done|].
  intros HP Hts. destruct (cstep_safe P _ _ Hsp Hen Hst HP Hts). by apply IH.
Qed.

(** Tasks that keep [I] and issue what [G] allows keep doing so, in every
    interleaving, if so do the tasks that allowed effects spawn. *)
Lemma gsafe_reachable_spawn G (P : St -> Prop) c c' :
  (forall X (e : E X), G X e -> Forall (gsafe G P) (spawned X e)) ->
  (forall p, entry p -> gsafe G P p) ->
  rtc cstep c c' -> P c.1 -> Forall (gsafe G P) c.2 -> P c'.1 /\ Forall (gsafe G P) c'.2.
Proof.
  intros Hsp Hen Hr. induction Hr as [c|c1 c2 c3 Hst _ IH]; [done|]. intros HP Hts.
  enough (P c2.1 /\ Forall (gsafe G P) c2.2) as [? ?] by by apply IH.
  clear IH. destruct Hst as [s s' ts1 ts2 X e k x Hx|s ts p Hp]; simpl in *.
  - rewrite !Forall_app, !Forall_cons, Forall_app in *. destruct Hts as (H1 & [HG Hk] & H2).
    destruct (Hk s x s' HP Hx) as [HP' Hkx]. specialize (Hsp X e HG). naive_solver.
  - rewrite Forall_app, Forall_singleton. auto.
Qed.

Lemma gsafe_reachable G (P : St -> Prop) c c' :
  (forall X (e : E X), Forall (gsafe G P) (spawned X e)) ->
  (forall p, entry p -> gsafe G P p) ->
  rtc cstep c c' -> P c.1 -> Forall (gsafe G P) c.2 -> P c'.1 /\ Forall (gsafe G P) c'.2.
Proof. intros Hsp. apply gsafe_reachable_spawn. intros. apply Hsp. Qed.

(** A schedule's run is one of the interleavings. *)
Lemma interleave_reachable sched c c' :
  (forall X (e : E X) s, exec e s (h X e s).1 (h X e s).2) ->
  interleave sched c = Some c' -> rtc cstep c c'.
Proof.
  intros Hh. revert c. induction sched as [|i sched IH]; intros [s ts]; simpl; [by intros [= ->]|].
  unfold sched_step; simpl. destruct (ts !! i) as [[|X e k]|] eqn:Hi; simpl; try done.
  specialize (Hh X e s). destruct (h X e s) as [x s']; simpl in *. intros Hrun.
  eapply rtc_l; [|by apply IH].
  rewrite <- (take_drop_middle ts i _ Hi) at 1. by apply cstep_effect.
Qed.

(** Where no effect spawns a task, their number stays. *)
Lemma interleave_length sched c c' :
  (forall X (e : E X), spawned X e = []) -> interleave sched c = Some c' -> length c'.2 = length c.2.
Proof.
  intros Hno. revert c. induction sched as [|i sched IH]; intros [s ts]; simpl; [by intros [= <-]|].
  unfold sched_step; simpl. destruct (ts !! i) as [[|X e k]|] eqn:Hi; simpl; try done.
  destruct (h X e s) as [x s']. intros Hrun. rewrite (IH _ Hrun). unfold snd. rewrite Hno, app_nil_r, length_app, length_cons, length_take, length_drop.
  assert (forall n i, (i < n)%nat -> (Nat.min i n + S (n - S i))%nat = n) as Hn by lia. by eapply Hn, lookup_lt_Some.
Qed.

Lemma starts_reachable s ps ts :
  Forall entry ps -> rtc cstep (s, ts) (s, ts ++ ps).
Proof.
  intros Hps. revert ts. induction Hps as [|p ps Hp _ IH]; intros ts; [by rewrite app_nil_r|].
  eapply rtc_l; [by apply (cstep_start s ts p)|].
  rewrite (cons_middle p ts ps), (assoc_L (++)). apply IH.
Qed.

(** ** Runs are one of the behaviours *)
Lemma run_wp {W A} (hw : forall X, E X -> W -> X * W) (st : W -> St) (p : prog E A) Q w :
  (forall X (e : E X) v, exec e (st v) (hw X e v).1 (st (hw X e v).2)) ->
  wp p Q (st w) -> Q (run hw p w).1 (st (run hw p w).2).
Proof.
  intros Hh. revert w. induction p as [a|X e k IH]; intros w Hp; simpl in *; [done|].
  specialize (Hh X e w). destruct (hw X e w) as [x w'] eqn:Heq. apply IH, Hp. exact Hh.
Qed.

Lemma run_may {A} (hw : forall X, E X -> St -> X * St) (p : prog E A) (Q : A -> St -> Prop) s :
  (forall X (e : E X) t, exec e t (hw X e t).1 (hw X e t).2) -> Q (run hw p s).1 (run hw p s).2 -> may p Q s.
Proof.
  intros Hh. revert s. induction p as [a|X e k IH]; intros s Hp; simpl in *; [done|].
  exists (hw X e s).1, (hw X e s).2. split; [apply Hh|]. apply IH. by destruct (hw X e s).
Qed.

Lemma run_bind {W A B} (hw : forall X, E X -> W -> X * W) (p : prog E A) (f : A -> prog E B) w :
  run hw (bind p f) w = let '(a, w') := run hw p w in run hw (f a) w'.
Proof.
  revert w. induction p as [a|X e k IH]; intros w; simpl; [done|].
  destruct (hw X e w). apply IH.
Qed.
End Logic.

(** ** What a program may issue

    [only G p]: every effect of [p] satisfies [G], whatever is answered. *)
Fixpoint only {E A} (G : forall X, E X -> Prop) (p : prog E A) : Prop :=
  match p with
  | Ret _ => True
  | Vis e k => G _ e /\ forall x, only G (k x)
  end.

Section Only.
Context {E : Type -> Type} (G : forall X, E X -> Prop).

Lemma only_ret {A} (a : A) : only G (Ret a).
Proof. done. Qed.
Lemma only_trigger {X} (e : E X) : G _ e -> only G (trigger e).
Proof. done. Qed.
Lemma only_bind {A B} (p : prog E A) (f : A -> prog E B) : only G p -> (forall a, only G (f a)) -> only G (bind p f).
Proof.
  intros Hp Hf. induction p as [a|X e k IH]; simpl in *; [apply Hf|]. destruct Hp as [He Hk]. split; [done|]. intros x. by apply IH.
Qed.
Lemma only_bind_ok {A B Er} (p : prog E (result A Er)) (f : A -> prog E (result B Er)) :
  only G p -> (forall a, only G (f a)) -> only G (bind_ok p f).
Proof. intros Hp Hf. apply only_bind; [done|]. by intros [a|e]. Qed.

Lemma only_emits {St} `{EffectSem E St} {A} (p : prog E A) s : only G p -> emits (fun X e _ => G X e) p s.
Proof. revert s. induction p as [a|X e k IH]; intros s; simpl; [done|]. intros [He Hk]. split; [done|]. intros x s' _. by apply IH. Qed.

(** What the effects that a program may issue keep, it keeps. *)
Lemma only_invariant {St} `{EffectSem E St} {A} (J : St -> Prop) (p : prog E A) s :
  (forall X (e : E X) t x t', G X e -> J t -> exec e t x t' -> J t') -> only G p -> J s -> wp p (fun _ t => J t) s.
Proof. intros HJ Hp. apply (emits_invariant (fun X e _ => G X e)); [done|]. by apply only_emits. Qed.

Lemma only_gsafe {St} `{EffectSem E St} (I : St -> Prop) {A} (p : prog E A) : keeps G I -> only G p -> gsafe G I p.
Proof.
  intros HI. induction p as [a|X e k IH]; simpl; [done|]. intros [He Hk]. split; [done|]. intros s x s' Hs Hx.
  split; [by eapply HI|by apply IH].
Qed.

Lemma only_gpost {St} `{EffectSem E St} (I : St -> Prop) {A} (p : prog E A) : keeps G I -> only G p -> gpost G I p (fun _ => True).
Proof. intros HI Hp. by apply gsafe_gpost, only_gsafe. Qed.
End Only.

Lemma only_mono {E A} (G G' : forall X, E X -> Prop) (p : prog E A) :
  (forall X (e : E X), G X e -> G' X e) -> only G p -> only G' p.
Proof. intros HG. induction p as [a|X e k IH]; simpl; [done|]. intros [He Hk]. split; [by apply HG|]. intros x. by apply IH. Qed.

Lemma only_conj {E A} (G G' : forall X, E X -> Prop) (p : prog E A) :
  only G p -> only G' p -> only (fun X e => G X e /\ G' X e) p.
Proof. induction p as [a|X e k IH]; simpl; [done|]. intros [He Hk] [He' Hk']. split; [done|]. intros x. by apply IH. Qed.

(** What holds of all answers holds of those of a world that answers less. *)
Lemma wp_refines {E St A} (M M' : EffectSem E St) (p : prog E A) Q s :
  (forall X (e : E X) s x s', M' X e s x s' -> M X e s x s') -> @wp E St M _ p Q s -> @wp E St M' _ p Q s.
Proof. intros HM. revert s. induction p as [a|X e k IH]; simpl; [done|]. intros s Hk x s' Hx. apply IH, Hk, HM, Hx. Qed.

Create HintDb only.

(** The effects of a program, one after the other; what a called function issues
    is in the hints. *)
Ltac only_step :=
  match goal with
  | |- only _ (Ret _) => apply only_ret
  | |- only _ (trigger _) => apply only_trigger; try solve [exact I | auto with only]
  | |- only _ (bind _ _) => apply only_bind; [|intros ?]
  | |- only _ (bind_ok _ _) => apply only_bind_ok; [|intros ?]
  | |- only _ (match ?x with _ => _ end) => destruct x
  end.
Ltac only_auto := repeat (cbv zeta; first [progress auto with only | only_step]).

(** ** Resources

    What a task may hold and hand on: an effect spends resources when it is
    issued and gains others with its answer.  [lin own p Q]: from the resources
    [own], [p] pays for each of its effects, and [Q] holds of what is left and
    of the result.  Where the store keeps a [valid] account of all resources, a
    frame rule per effect gives the account of every reachable configuration. *)
Section Resources.
Context {E : Type -> Type} {St Res : Type} `{EffectSem E St}.
Context (spend : forall X, E X -> list Res) (gain : forall X, E X -> X -> list Res).

Fixpoint lin {A} (own : list Res) (p : prog E A) (Q : list Res -> A -> Prop) : Prop :=
  match p with
  | Ret a => Q own a
  | Vis e k => exists rest, spend _ e ++ rest ⊆+ own /\ forall x, lin (gain _ e x ++ rest) (k x) Q
  end.

Lemma lin_mono {A} own (p : prog E A) (Q Q' : list Res -> A -> Prop) :
  (forall o a, Q o a -> Q' o a) -> lin own p Q -> lin own p Q'.
Proof.
  intros HQ. revert own. induction p as [a|X e k IH]; intros own; simpl; [auto|].
  intros (rest & Hr & Hk). exists rest. split; [done|]. intros x. by apply IH.
Qed.

Lemma lin_bind {A B} own (p : prog E A) (f : A -> prog E B) Q :
  lin own p (fun o a => lin o (f a) Q) -> lin own (bind p f) Q.
Proof.
  revert own. induction p as [a|X e k IH]; intros own; simpl; [done|].
  intros (rest & Hr & Hk). exists rest. split; [done|]. intros x. apply IH, Hk.
Qed.

(** An effect that neither spends nor gains. *)
Lemma lin_pure_effect {A X} own (e : E X) (k : X -> prog E A) Q :
  spend _ e = [] -> (forall x, gain _ e x = []) -> (forall x, lin own (k x) Q) -> lin own (Vis e k) Q.
Proof. intros Hs Hg Hk. exists own. rewrite Hs. split; [done|]. intros x. rewrite Hg. apply Hk. Qed.

Context {R : Type} (entry : prog E R -> Prop) (final : R -> list Res) (valid : St -> list Res -> Prop).
Context (valid_sub : forall s r r', r' ⊆+ r -> valid s r -> valid s r')
  (frame : forall X (e : E X) s x s' rest,
     exec e s x s' -> valid s (spend _ e ++ rest) -> valid s' (gain _ e x ++ rest))
  (entry_lin : forall p, entry p -> lin [] p (fun o a => final a ⊆+ o)).

(** Every task owns what it still needs, and the account is valid. *)
Definition accounted (c : St * list (prog E R)) : Prop :=
  exists owns, Forall2 (fun o p => lin o p (fun o' a => final a ⊆+ o')) owns c.2 /\ valid c.1 (concat owns).

Lemma cstep_accounted c c' :
  cstep (fun _ _ => []) entry c c' -> accounted c -> accounted c'.
Proof using valid_sub frame entry_lin.
  intros Hst (owns & Hall & Hv). destruct Hst as [s s' ts1 ts2 X e k x Hx|s ts p Hp]; simpl in *.
  - apply Forall2_app_inv_r in Hall as (o1 & o2' & H1 & H2 & ->). apply Forall2_cons_inv_r in H2 as (o & o2 & Hk & H2 & ->).
    destruct Hk as (rest & Hr & Hk). exists (o1 ++ (gain _ e x ++ rest) :: o2). simpl. split.
    + rewrite app_nil_r. apply Forall2_app; [done|]. constructor; [apply Hk|done].
    + eapply valid_sub; [|apply (frame _ e s x s' (rest ++ concat o1 ++ concat o2) Hx)].
      * rewrite concat_app. simpl. solve_submseteq.
      * eapply valid_sub; [|exact Hv]. rewrite concat_app. simpl. rewrite (app_assoc (spend _ e)).
        trans (o ++ concat o1 ++ concat o2); [by apply submseteq_app|solve_submseteq].
  - exists (owns ++ [[]]). split; [|by rewrite concat_app, app_nil_r].
    apply Forall2_app; [done|]. constructor; [by apply entry_lin|done].
Qed.

Theorem accounted_reachable c c' :
  rtc (cstep (fun _ _ => []) entry) c c' -> accounted c -> accounted c'.
Proof using valid_sub frame entry_lin. intros Hr. induction Hr; eauto using cstep_accounted. Qed.

(** The results of the finished tasks are paid for. *)
Definition results (ts : list (prog E R)) : list Res :=
  concat ((fun p => match p with Ret a => final a | Vis _ _ => [] end) <$> ts).

Lemma accounted_results c : accounted c -> valid c.1 (results c.2).
Proof using valid_sub.
  intros (owns & Hall & Hv). eapply valid_sub; [|exact Hv]. clear Hv. unfold results.
  induction Hall as [|o p owns ts Ho _ IH]; [done|]. simpl. apply submseteq_app; [|done].
  destruct p; [done|apply submseteq_nil_l].
Qed.
End Resources.
