(* ===== verification/Session.v ===== *)
(** * Sessions: login, lock-out and refresh tokens (pm-auth/src/session.rs, refresh.rs)

    Argon2, the decryption of TOTP secrets, the TOTP check, SHA-256 and the
    signing of access tokens are parameters or effects; the tables [users] and
    [refresh_tokens] are maps. *)

From S2P Require Import Prelude Conc.

(** ** Data *)

Inductive session_err : Type :=
| InvalidCredentials | AccountDisabled | PasswordResetRequired | MfaRequired | InvalidMfaCode
| AccountLocked | Jwt (msg : string) | RefreshInvalid | RefreshExpired | RefreshDatabase (msg : string) | Database (msg : string)
| Internal (msg : string).

(** [DbUser]; [u_local] is [auth_provider = 'local']. *)
Record db_user : Type := DbUser {
  u_username : string;
  u_role : string;
  u_local : bool;
  u_password_hash : option string;
  u_totp_secret : option (string * string);
  u_mfa_enabled : bool;
  u_is_active : bool;
  u_force_password_reset : bool;
  u_failed_login_attempts : Z;
  u_locked_until : option Z;
  u_last_login_at : option Z
}.

(** [refresh_tokens] *)
Record stored_token : Type := StoredToken {
  rt_user : uuid; rt_hash : string; rt_expires_at : Z; rt_revoked : bool
}.

Record session_db : Type := SessionDb {
  s_now : Z; s_users : gmap uuid db_user; s_tokens : gmap uuid stored_token
}.

Record login_request : Type := LoginRequest {
  lr_username : string; lr_password : string; lr_totp_code : option string
}.
Record login_response : Type := LoginResponse {
  ls_access_token : string; ls_refresh_token : string; ls_user : uuid
}.

Definition with_attempts (n : Z) (locked : option Z) (u : db_user) : db_user :=
  DbUser (u_username u) (u_role u) (u_local u) (u_password_hash u) (u_totp_secret u) (u_mfa_enabled u)
    (u_is_active u) (u_force_password_reset u) n locked (u_last_login_at u).
Definition logged_in (now : Z) (u : db_user) : db_user :=
  DbUser (u_username u) (u_role u) (u_local u) (u_password_hash u) (u_totp_secret u) (u_mfa_enabled u)
    (u_is_active u) (u_force_password_reset u) 0 None (Some now).
Definition revoked (t : stored_token) : stored_token :=
  StoredToken (rt_user t) (rt_hash t) (rt_expires_at t) true.

(** ** Statements and effects *)

Inductive session_stmt : Type -> Type :=
| SelLocalUser (username : string) : session_stmt (option (uuid * db_user))
| SelUserById (id : uuid) : session_stmt (option db_user)
| UpdAttempts (id : uuid) (n : Z) (locked : option Z) : session_stmt unit
| UpdAttemptsOnly (id : uuid) (n : Z) : session_stmt unit
| UpdLoggedIn (id : uuid) (now : Z) : session_stmt unit
| InsToken (user : uuid) (hash : string) (expires_at : Z) : session_stmt unit
| SelToken (hash : string) : session_stmt (option (uuid * stored_token))
| UpdRevoke (id : uuid) : session_stmt unit
| UpdRevokeHash (hash : string) : session_stmt unit
| UpdRevokeAll (user : uuid) : session_stmt Z.

Definition set_users (m : gmap uuid db_user) (d : session_db) : session_db := SessionDb (s_now d) m (s_tokens d).
Definition set_tokens (m : gmap uuid stored_token) (d : session_db) : session_db := SessionDb (s_now d) (s_users d) m.
Definition at_time (t : Z) (d : session_db) : session_db := SessionDb t (s_users d) (s_tokens d).

(** The row a [fetch_optional] on a unique column finds. *)
Definition find_row {A} (g : A -> bool) (m : gmap uuid A) : option (uuid * A) :=
  List.find (fun kv => g kv.2) (map_to_list m).

Definition revoke_all (user : uuid) (m : gmap uuid stored_token) : Z * gmap uuid stored_token :=
  let g t := bool_decide (rt_user t = user) && negb (rt_revoked t) in
  (Z.of_nat (length (List.filter (fun kv => g kv.2) (map_to_list m))),
   (fun t => if g t then revoked t else t) <$> m).

(** [token_hash] is unique and [user_id] references a user. *)
Definition ins_token (user : uuid) (hash : string) (expires : Z) (d : session_db) : result unit string * session_db :=
  match find_row (fun t => String.eqb (rt_hash t) hash) (s_tokens d), s_users d !! user with
  | Some _, _ => (Err "duplicate key value violates unique constraint"%string, d)
  | None, None => (Err "insert violates foreign key constraint"%string, d)
  | None, Some _ =>
      (Ok tt, set_tokens (<[fresh (dom (s_tokens d)) := StoredToken user hash expires false]> (s_tokens d)) d)
  end.

Definition exec_session_stmt {X} (q : session_stmt X) (d : session_db) : result X string * session_db :=
  match q in session_stmt Y return result Y string * session_db with
  | SelLocalUser name =>
      (Ok (find_row (fun u => String.eqb (u_username u) name && u_local u) (s_users d)), d)
  | SelUserById id => (Ok (s_users d !! id), d)
  | UpdAttempts id n locked => (Ok tt, set_users (alter (with_attempts n locked) id (s_users d)) d)
  | UpdAttemptsOnly id n =>
      (Ok tt, set_users (alter (fun u => with_attempts n (u_locked_until u) u) id (s_users d)) d)
  | UpdLoggedIn id now => (Ok tt, set_users (alter (logged_in now) id (s_users d)) d)
  | InsToken user hash expires => ins_token user hash expires d
  | SelToken hash => (Ok (find_row (fun t => String.eqb (rt_hash t) hash) (s_tokens d)), d)
  | UpdRevoke id => (Ok tt, set_tokens (alter revoked id (s_tokens d)) d)
  | UpdRevokeHash hash =>
      (Ok tt, set_tokens ((fun t => if String.eqb (rt_hash t) hash then revoked t else t) <$> s_tokens d) d)
  | UpdRevokeAll user => let '(n, m) := revoke_all user (s_tokens d) in (Ok n, set_tokens m d)
  end.

Inductive session_eff : Type -> Type :=
| SSql {X} (q : session_stmt X) : session_eff (result X string)
| SNow : session_eff Z
| RandomToken : session_eff string
| IssueAccessToken (user : uuid) (username role : string) : session_eff (result string string).

(** A failing statement is an error of session.rs or of refresh.rs. *)
Definition sql_as {X} (err : string -> session_err) (q : session_stmt X) : prog session_eff (result X session_err) :=
  let! r := trigger (SSql q) in
  Ret (match r with Ok x => Ok x | Err m => Err (err m) end).
Abbreviation ssql := (sql_as Database).
Abbreviation rsql := (sql_as RefreshDatabase).

Definition snow {Er} : prog session_eff (result Z Er) := let! t := trigger SNow in Ret (Ok t).

Definition issue_access_token (user : uuid) (username role : string) : prog session_eff (result string session_err) :=
  let! r := trigger (IssueAccessToken user username role) in
  Ret (match r with Ok t => Ok t | Err m => Err (Jwt m) end).

Definition lockout_us : Z := 30 * minute_us.
Definition inactivity_us : Z := 1 * hour_us.

Section Session.
(** Argon2's verification ([unwrap_or(false)]), the decryption of a TOTP
    secret, the check of a code, and SHA-256 in hex. *)
Context (password_ok : string -> string -> bool) (decrypt : string * string -> result string string)
  (totp_ok : string -> string -> string -> bool) (sha256_hex : string -> string).

(** ** refresh.rs *)

Definition issue (user : uuid) : prog session_eff (result string session_err) :=
  let! token := trigger RandomToken in
  let!? now := snow in
  let!? _ := rsql (InsToken user (sha256_hex token) (now + inactivity_us)) in
  Ret (Ok token).

Definition rotate (raw_token : string) : prog session_eff (result (string * uuid) session_err) :=
  let hash := sha256_hex raw_token in
  let!? now := snow in
  let!? row := rsql (SelToken hash) in
  match row with
  | None => Ret (Err RefreshInvalid)
  | Some (id, stored) =>
      if rt_revoked stored then Ret (Err RefreshInvalid)
      else if rt_expires_at stored <? now then Ret (Err RefreshExpired)
      else
        let!? _ := rsql (UpdRevoke id) in
        let!? token := issue (rt_user stored) in
        Ret (Ok (token, rt_user stored))
  end.

Definition revoke_all_for_user (user : uuid) : prog session_eff (result Z session_err) := rsql (UpdRevokeAll user).

Definition revoke (raw_token : string) : prog session_eff (result unit session_err) :=
  rsql (UpdRevokeHash (sha256_hex raw_token)).

(** ** session.rs *)

(** Step 2a: refuse while locked; reset the counters of an expired lock. *)
Definition check_lock (id : uuid) (user : db_user) : prog session_eff (result unit session_err) :=
  match u_locked_until user with
  | None => Ret (Ok tt)
  | Some until =>
      let!? now := snow in
      if now <? until then Ret (Err AccountLocked)
      else ssql (UpdAttempts id 0 None)
  end.

(** The failure branch of step 2: [user] is the row read at the start. *)
Definition wrong_password (id : uuid) (user : db_user) : prog session_eff (result login_response session_err) :=
  let new_attempts := u_failed_login_attempts user + 1 in
  if 5 <=? new_attempts then
    let!? now := snow in
    let!? _ := ssql (UpdAttempts id new_attempts (Some (now + lockout_us))) in
    Ret (Err InvalidCredentials)
  else
    let!? _ := ssql (UpdAttemptsOnly id new_attempts) in
    Ret (Err InvalidCredentials).

(** Step 4: the second factor. *)
Definition check_mfa (req : login_request) (user : db_user) : result unit session_err :=
  if u_mfa_enabled user then
    match lr_totp_code req with
    | None => Err MfaRequired
    | Some code =>
        let? secret :=
          match u_totp_secret user with
          | Some enc => match decrypt enc with Ok s => Ok s | Err m => Err (Internal m) end
          | None => Ok ""%string
          end in
        if totp_ok (u_username user) secret code then Ok tt else Err InvalidMfaCode
    end
  else Ok tt.

Definition login (req : login_request) : prog session_eff (result login_response session_err) :=
  let!? row := ssql (SelLocalUser (lr_username req)) in
  match row with
  | None => Ret (Err InvalidCredentials)
  | Some (id, user) =>
      let!? _ := check_lock id user in
      if negb (password_ok (lr_password req) (default "" (u_password_hash user))) then wrong_password id user
      else if negb (u_is_active user) then Ret (Err AccountDisabled)
      else if u_force_password_reset user then Ret (Err PasswordResetRequired)
      else
        let!? _ := Ret (check_mfa req user) in
        let!? access := issue_access_token id (u_username user) (u_role user) in
        let!? refresh := issue id in
        let!? now := snow in
        let!? _ := ssql (UpdLoggedIn id now) in
        Ret (Ok (LoginResponse access refresh id))
  end.

Definition refresh_session (raw_token : string) : prog session_eff (result login_response session_err) :=
  let!? new := rotate raw_token in
  let!? row := ssql (SelUserById new.2) in
  match row with
  | None => Ret (Err (Database "no rows returned"))
  | Some user =>
      if negb (u_is_active user) then
        let! _ := revoke_all_for_user new.2 in Ret (Err AccountDisabled)
      else
        let!? access := issue_access_token new.2 (u_username user) (u_role user) in
        Ret (Ok (LoginResponse access new.1 new.2))
  end.

Definition logout (raw_token : string) : prog session_eff (result unit session_err) := revoke raw_token.
Definition force_logout (user : uuid) : prog session_eff (result Z session_err) := revoke_all_for_user user.
End Session.

(** ** A session that runs alone, on a database that answers: only time passes *)
Definition session_alone : EffectSem session_eff session_db := fun X e s x s' =>
  exists t, s_now s <= t /\
    match e in session_eff Y return Y -> Prop with
    | SSql q => fun x => x = (exec_session_stmt q (at_time t s)).1 /\ s' = (exec_session_stmt q (at_time t s)).2
    | SNow => fun n => n = t /\ s' = at_time t s
    | _ => fun _ => s' = at_time t s
    end x.

(** ** Reference definitions *)

Definition same_session (d d' : session_db) : Prop := s_users d' = s_users d /\ s_tokens d' = s_tokens d.

Definition locked_at (now : Z) (u : db_user) : bool :=
  match u_locked_until u with Some until => now <? until | None => false end.

(** The row after the lock check let a login through: an expired lock is gone. *)
Definition unlocked (id : uuid) (u : db_user) (m : gmap uuid db_user) : gmap uuid db_user :=
  match u_locked_until u with Some _ => alter (with_attempts 0 None) id m | None => m end.

(** The user a login names. *)
Definition local_user (d : session_db) (name : string) : option (uuid * db_user) :=
  find_row (fun u => String.eqb (u_username u) name && u_local u) (s_users d).

Section Reference.
Context (password_ok : string -> string -> bool) (decrypt : string * string -> result string string)
  (totp_ok : string -> string -> string -> bool) (sha256_hex : string -> string).

Definition login_outcome (req : login_request) (d d' : session_db) (res : result login_response session_err) : Prop :=
  match local_user d (lr_username req) with
  | None => res = Err InvalidCredentials /\ same_session d d'
  | Some (id, u) =>
      exists now, s_now d <= now /\
      if locked_at now u then res = Err AccountLocked /\ same_session d d'
      else if negb (password_ok (lr_password req) (default ""%string (u_password_hash u))) then
        res = Err InvalidCredentials /\ s_tokens d' = s_tokens d /\
        exists t, now <= t <= s_now d' /\
          s_users d' = alter (with_attempts (u_failed_login_attempts u + 1)
                                (if 5 <=? u_failed_login_attempts u + 1 then Some (t + lockout_us) else None))
                         id (s_users d)
      else if negb (u_is_active u) then
        res = Err AccountDisabled /\ s_users d' = unlocked id u (s_users d) /\ s_tokens d' = s_tokens d
      else if u_force_password_reset u then
        res = Err PasswordResetRequired /\ s_users d' = unlocked id u (s_users d) /\ s_tokens d' = s_tokens d
      else match check_mfa decrypt totp_ok req u with
           | Err e => res = Err e /\ s_users d' = unlocked id u (s_users d) /\ s_tokens d' = s_tokens d
           | Ok _ =>
               (exists m, res = Err (Jwt m) /\ s_users d' = unlocked id u (s_users d) /\ s_tokens d' = s_tokens d) \/
               (exists m, res = Err (RefreshDatabase m) /\ s_users d' = unlocked id u (s_users d) /\ s_tokens d' = s_tokens d) \/
               (exists access token t t', now <= t /\ now <= t' /\
                  res = Ok (LoginResponse access token id) /\
                  s_users d' = alter (logged_in t') id (s_users d) /\
                  s_tokens d' = <[fresh (dom (s_tokens d)) :=
                                    StoredToken id (sha256_hex token) (t + inactivity_us) false]> (s_tokens d))
           end
  end.
End Reference.

(** ** Lemmas *)

Abbreviation swp := (@wp session_eff session_db session_alone _).

Lemma swp_sql {X B} err (q : session_stmt X) (f : X -> prog session_eff (result B session_err)) Q d :
  (forall t, s_now d <= t ->
     match (exec_session_stmt q (at_time t d)).1 with
     | Ok x => swp (f x) Q (exec_session_stmt q (at_time t d)).2
     | Err m => Q (Err (err m)) (exec_session_stmt q (at_time t d)).2
     end) ->
  swp (bind_ok (sql_as err q) f) Q d.
Proof.
  intros Hq x s' (t & Ht & -> & ->). specialize (Hq t Ht). by destruct (exec_session_stmt q (at_time t d)) as [[x|m] s'].
Qed.

Lemma swp_sql_last {X} err (q : session_stmt X) (Q : result X session_err -> session_db -> Prop) d :
  (forall t, s_now d <= t ->
     Q (match (exec_session_stmt q (at_time t d)).1 with Ok x => Ok x | Err m => Err (err m) end)
       (exec_session_stmt q (at_time t d)).2) ->
  swp (sql_as err q) Q d.
Proof. intros Hq x s' (t & Ht & -> & ->). by apply Hq. Qed.

Lemma swp_now {B} (f : Z -> prog session_eff (result B session_err)) Q d :
  (forall t, s_now d <= t -> swp (f t) Q (at_time t d)) -> swp (bind_ok snow f) Q d.
Proof. intros Hq x s' (t & Ht & -> & ->). by apply Hq. Qed.

Lemma swp_token {B} (f : string -> prog session_eff (result B session_err)) Q d :
  (forall token t, s_now d <= t -> swp (f token) Q (at_time t d)) -> swp (bind (trigger RandomToken) f) Q d.
Proof. intros Hq x s' (t & Ht & ->). by apply Hq. Qed.

Lemma swp_access {B} id name role (f : string -> prog session_eff (result B session_err)) Q d :
  (forall t, s_now d <= t -> (forall access, swp (f access) Q (at_time t d)) /\
     (forall m, Q (Err (Jwt m)) (at_time t d))) ->
  swp (bind_ok (issue_access_token id name role) f) Q d.
Proof. intros Hq x s' (t & Ht & ->). destruct (Hq t Ht) as [H1 H2]. destruct x; [apply H1|apply H2]. Qed.

Lemma swp_bind_ok {A B} (p : prog session_eff (result A session_err)) (f : A -> prog session_eff (result B session_err)) Q d :
  swp p (fun r t => match r with Ok a => swp (f a) Q t | Err e => Q (Err e) t end) d -> swp (bind_ok p f) Q d.
Proof. intros Hp. apply wp_bind. eapply wp_mono; [|exact Hp]. intros [a|e] t; done. Qed.

Lemma swp_mono {A} (p : prog session_eff A) (Q Q' : A -> session_db -> Prop) d :
  swp p Q d -> (forall a t, Q a t -> Q' a t) -> swp p Q' d.
Proof. intros Hp HQ. by eapply wp_mono. Qed.

Lemma find_row_Some {A} (g : A -> bool) m k r : find_row g m = Some (k, r) -> m !! k = Some r /\ g r = true.
Proof.
  unfold find_row. intros Hf. apply List.find_some in Hf as [Hin Hg]. split; [|done].
  by apply elem_of_map_to_list, list_elem_of_In.
Qed.

Lemma alter_unlocked f id u m :
  (forall x, f (with_attempts 0 None x) = f x) -> alter f id (unlocked id u m) = alter f id m.
Proof.
  intros Hf. unfold unlocked. destruct (u_locked_until u); [|done].
  apply map_eq. intros k. destruct (decide (k = id)) as [->|Hne].
  - rewrite !lookup_alter_eq. destruct (m !! id); simpl; [by rewrite Hf|done].
  - by rewrite !lookup_alter_ne.
Qed.

Section LoginLemmas.
Context (password_ok : string -> string -> bool) (decrypt : string * string -> result string string)
  (totp_ok : string -> string -> string -> bool) (sha256_hex : string -> string).

Lemma check_lock_ok id u d Q :
  (forall now t, s_now d <= now <= t ->
     (locked_at now u = true -> Q (Err AccountLocked) (at_time now d)) /\
     (locked_at now u = false ->
      Q (Ok tt) (SessionDb t (unlocked id u (s_users d)) (s_tokens d)))) ->
  swp (check_lock id u) Q d.
Proof.
  intros HQ. unfold check_lock, locked_at, unlocked in *. destruct (u_locked_until u) as [until|] eqn:Hl.
  - apply swp_now. intros now Hn. destruct (Z.ltb_spec now until) as [Hlt|Hge].
    + destruct (HQ now now ltac:(lia)) as [H1 _]. apply H1. by apply Z.ltb_lt.
    + apply swp_sql_last. intros t Ht. simpl in *. destruct (HQ now t ltac:(lia)) as [_ H2].
      apply H2. by apply Z.ltb_ge.
  - destruct (HQ (s_now d) (s_now d) ltac:(lia)) as [_ H2]. destruct d. by apply H2.
Qed.

Lemma login_ok req d :
  swp (login password_ok decrypt totp_ok sha256_hex req)
    (fun res d' => login_outcome password_ok decrypt totp_ok sha256_hex req d d' res) d.
Proof.
  unfold login, login_outcome, local_user. apply swp_sql. intros t0 Ht0. cbn [exec_session_stmt fst snd s_users at_time].
  destruct (find_row _ (s_users d)) as [[id u]|] eqn:Hu; [|by split].
  apply find_row_Some in Hu as [Hid Hname].
  apply swp_bind_ok, check_lock_ok. intros now t Hnow. simpl in Hnow. split; intros Hlock.
  { exists now. split; [lia|]. rewrite Hlock. by split. }
  destruct (password_ok _ _) eqn:Hpw; cbn [negb].
  2:{ unfold wrong_password. cbn zeta. destruct (Z.leb_spec 5 (u_failed_login_attempts u + 1)) as [H5|H5].
    - apply swp_now. intros t1 Ht1. apply swp_sql. intros t2 Ht2. cbn. simpl in *. exists now. split; [lia|].
      rewrite Hlock. split; [done|]. split; [done|]. exists t1. split; [lia|].
      by apply alter_unlocked.
    - apply swp_sql. intros t2 Ht2. cbn. simpl in *. exists now. split; [lia|].
      rewrite Hlock. split; [done|]. split; [done|]. exists t2. split; [lia|].
      apply map_eq. intros k.
      destruct (decide (k = id)) as [->|Hne]; [|unfold unlocked; destruct (u_locked_until u); by rewrite !lookup_alter_ne].
      unfold unlocked. destruct (u_locked_until u) eqn:Hl; rewrite !lookup_alter_eq, Hid; simpl; [done|].
      unfold with_attempts; simpl. by rewrite Hl. }
  destruct (u_is_active u) eqn:Hact; cbn [negb].
  2:{ exists now. split; [lia|]. rewrite Hlock; simpl. by split_and!. }
  destruct (u_force_password_reset u) eqn:Hforce.
  { exists now. split; [lia|]. rewrite Hlock; simpl. by split_and!. }
  destruct (check_mfa decrypt totp_ok req u) as [[]|e] eqn:Hmfa; cbn [bind_ok bind].
  2:{ exists now. split; [lia|]. rewrite Hlock; simpl. by split_and!. }
  apply swp_access. intros t1 Ht1. split.
  2:{ intros m. exists now. split; [lia|]. rewrite Hlock; simpl. left. exists m. by split_and!. }
  intros access. apply swp_bind_ok. unfold issue. apply swp_token. intros token t2 Ht2.
  apply swp_now. intros t3 Ht3. apply swp_sql. intros t4 Ht4. cbn [exec_session_stmt].
  unfold ins_token. cbn [at_time s_tokens s_users].
  destruct (find_row _ (s_tokens d)); cbn [fst snd].
  { exists now. split; [lia|]. rewrite Hlock; simpl. right. left. eexists. by split_and!. }
  destruct (unlocked id u (s_users d) !! id); cbn [fst snd wp].
  2:{ exists now. split; [lia|]. rewrite Hlock; simpl. right. left. eexists. by split_and!. }
  apply swp_now. intros t5 Ht5. apply swp_sql. intros t6 Ht6. cbn [exec_session_stmt fst snd wp]. simpl in *.
  exists now. split; [lia|]. rewrite Hlock; simpl. right. right. exists access, token, t3, t5. split_and!; [lia|lia|done| |done].
  by apply alter_unlocked.
Qed.
End LoginLemmas.

(** The only local user of a name (usernames are unique). *)
Definition sole_user (d : session_db) (name : string) (id : uuid) (u : db_user) : Prop :=
  s_users d !! id = Some u /\ u_username u = name /\ u_local u = true /\
  forall id' u', s_users d !! id' = Some u' -> u_username u' = name -> u_local u' = true -> id' = id.

Lemma sole_local_user d name id u : sole_user d name id u -> local_user d name = Some (id, u).
Proof.
  intros (Hid & Hn & Hl & Hu). unfold local_user.
  destruct (find_row _ (s_users d)) as [[id' u']|] eqn:Hf.
  - apply find_row_Some in Hf as [Hid' [Hn' Hl']%andb_true_iff]. apply String.eqb_eq in Hn'.
    pose proof (Hu id' u' Hid' Hn' Hl') as ->. by simplify_eq.
  - exfalso. unfold find_row in Hf.
    assert (List.In (id, u) (map_to_list (s_users d))) as Hin by by apply list_elem_of_In, elem_of_map_to_list.
    apply (List.find_none _ _ Hf) in Hin. simpl in Hin. by rewrite Hn, String.eqb_refl, Hl in Hin.
Qed.

Lemma sole_user_alter d d' name id u n locked :
  sole_user d name id u -> s_users d' = alter (with_attempts n locked) id (s_users d) ->
  sole_user d' name id (with_attempts n locked u).
Proof.
  intros (Hid & Hn & Hl & Hu) Hd'. unfold sole_user. rewrite Hd'. split_and!; [|done|done|].
  - by rewrite lookup_alter_eq, Hid.
  - intros id' u' Hid' Hn' Hl'. destruct (decide (id' = id)) as [|Hne]; [done|].
    rewrite lookup_alter_ne in Hid' by done. by apply (Hu id' u').
Qed.

Section Lockout.
Context (password_ok : string -> string -> bool) (decrypt : string * string -> result string string)
  (totp_ok : string -> string -> string -> bool) (sha256_hex : string -> string).

(** Several logins, one after the other. *)
Fixpoint logins (reqs : list login_request) : prog session_eff unit :=
  match reqs with
  | [] => Ret tt
  | req :: reqs' => bind (login password_ok decrypt totp_ok sha256_hex req) (fun _ => logins reqs')
  end.

(** A request with a wrong password for the user [u] of the name. *)
Definition wrong_for (name : string) (u : db_user) (req : login_request) : Prop :=
  lr_username req = name /\ password_ok (lr_password req) (default ""%string (u_password_hash u)) = false.

Lemma wrong_login_ok name id u req d :
  sole_user d name id u -> wrong_for name u req ->
  swp (login password_ok decrypt totp_ok sha256_hex req)
    (fun res d' => (exists now, s_now d <= now /\ locked_at now u = true /\ res = Err AccountLocked /\ same_session d d') \/
       (res = Err InvalidCredentials /\ exists t, s_now d <= t <= s_now d' /\
        sole_user d' name id
          (with_attempts (u_failed_login_attempts u + 1)
             (if 5 <=? u_failed_login_attempts u + 1 then Some (t + lockout_us) else None) u))) d.
Proof.
  intros Hs [Hn Hw]. eapply swp_mono; [apply login_ok|]. intros res d' Hout. unfold login_outcome in Hout.
  rewrite Hn, (sole_local_user _ _ _ _ Hs), Hw in Hout. destruct Hout as (now & Hnow & Hout).
  destruct (locked_at now u) eqn:Hl; [left; exists now; tauto|]. simpl in Hout. right.
  destruct Hout as (-> & _ & t & Ht & Hd'). split; [done|]. exists t. split; [lia|]. by eapply sole_user_alter.
Qed.

Lemma wrong_logins_ok name id u reqs d :
  Forall (wrong_for name u) reqs -> sole_user d name id u -> u_locked_until u = None ->
  0 <= u_failed_login_attempts u -> u_failed_login_attempts u + Z.of_nat (length reqs) < 5 ->
  swp (logins reqs)
    (fun _ d' => s_now d <= s_now d' /\ sole_user d' name id
       (with_attempts (u_failed_login_attempts u + Z.of_nat (length reqs)) None u)) d.
Proof.
  intros Hreqs. revert u d Hreqs. induction reqs as [|req reqs IH]; intros u d Hreqs Hs Hlock H0 Hn.
  - cbn. split; [lia|]. rewrite Z.add_0_r. destruct u; simpl in *. by subst.
  - inversion Hreqs as [|? ? Hw Hws]; subst. cbn [logins length] in *. apply wp_bind.
    eapply swp_mono; [by apply (wrong_login_ok name id u)|]. cbn beta.
    intros res d1 [(now & _ & Hl & _)|(_ & t & Ht & Hs1)]; [unfold locked_at in Hl; by rewrite Hlock in Hl|].
    destruct (Z.leb_spec 5 (u_failed_login_attempts u + 1)); [lia|].
    eapply swp_mono; [apply (IH (with_attempts (u_failed_login_attempts u + 1) None u) d1)|].
    + eapply Forall_impl; [exact Hws|]. intros r [? ?]. by split.
    + exact Hs1.
    + done.
    + simpl. lia.
    + simpl. lia.
    + cbn beta. intros _ d2 [Hle Hs2]. split; [lia|]. simpl in Hs2.
      replace (u_failed_login_attempts u + Z.of_nat (S (length reqs)))
        with (u_failed_login_attempts u + 1 + Z.of_nat (length reqs)) by lia. done.
Qed.

(** Five wrong passwords in a row lock an account. *)
Lemma five_failures_ok name id u r1 r2 r3 r4 r5 d :
  Forall (wrong_for name u) [r1; r2; r3; r4; r5] -> sole_user d name id u -> u_locked_until u = None ->
  u_failed_login_attempts u = 0 ->
  swp (logins [r1; r2; r3; r4; r5])
    (fun _ d' => exists t, s_now d <= t <= s_now d' /\ sole_user d' name id (with_attempts 5 (Some (t + lockout_us)) u)) d.
Proof.
  intros Hreqs Hs Hlock H0. change [r1; r2; r3; r4; r5] with ([r1; r2; r3; r4] ++ [r5]).
  assert (forall a b d Q, swp (logins a) (fun _ d1 => swp (logins b) Q d1) d -> swp (logins (a ++ b)) Q d) as Happ.
  { intros a b. induction a as [|x a IHa]; intros d0 Q Hq; [done|]. cbn [app logins] in *.
    apply wp_bind. apply (proj1 (wp_bind _ _ _ _)) in Hq. eapply swp_mono; [exact Hq|]. intros r d1. apply IHa. }
  apply Happ. inversion Hreqs as [|? ? W1 HA]; inversion HA as [|? ? W2 HB]; inversion HB as [|? ? W3 HC];
    inversion HC as [|? ? W4 HD]; inversion HD as [|? ? W5 _]; subst.
  eapply swp_mono; [apply (wrong_logins_ok name id u [r1; r2; r3; r4] d); [by repeat apply Forall_cons_2|done|done|lia|simpl; lia]|].
  cbn beta. rewrite H0. intros _ d1 [Hle Hs1]. change (0 + Z.of_nat (length [r1; r2; r3; r4])) with 4 in Hs1. apply wp_bind.
  eapply swp_mono; [eapply (wrong_login_ok name id (with_attempts 4 None u) r5 d1 Hs1)|].
  - destruct W5. by split.
  - cbn beta. intros res d2 [(now & _ & Hl & _)|(_ & t & Ht & Hs2)]; [done|]. simpl in *. exists t. split; [lia|done].
Qed.
End Lockout.

(** ** Refresh tokens *)

(** The only stored token of a hash ([token_hash] is unique). *)
Definition sole_token (d : session_db) (hash : string) (id : uuid) (st : stored_token) : Prop :=
  s_tokens d !! id = Some st /\ rt_hash st = hash /\
  forall id' st', s_tokens d !! id' = Some st' -> rt_hash st' = hash -> id' = id.

Lemma sole_token_found d hash id st :
  sole_token d hash id st -> find_row (fun t => String.eqb (rt_hash t) hash) (s_tokens d) = Some (id, st).
Proof.
  intros (Hid & Hh & Hu). destruct (find_row _ (s_tokens d)) as [[id' st']|] eqn:Hf.
  - apply find_row_Some in Hf as [Hid' Hh']. apply String.eqb_eq in Hh'.
    pose proof (Hu id' st' Hid' Hh') as ->. by simplify_eq.
  - exfalso. unfold find_row in Hf.
    assert (List.In (id, st) (map_to_list (s_tokens d))) as Hin by by apply list_elem_of_In, elem_of_map_to_list.
    apply (List.find_none _ _ Hf) in Hin. simpl in Hin. by rewrite Hh, String.eqb_refl in Hin.
Qed.

Section RefreshLemmas.
Context (sha256_hex : string -> string).

Lemma rotate_ok raw id st d :
  sole_token d (sha256_hex raw) id st ->
  swp (rotate sha256_hex raw)
    (fun res d' => s_users d' = s_users d /\ exists now, s_now d <= now /\
       if rt_revoked st then res = Err RefreshInvalid /\ s_tokens d' = s_tokens d
       else if rt_expires_at st <? now then res = Err RefreshExpired /\ s_tokens d' = s_tokens d
       else (exists m, res = Err (RefreshDatabase m) /\ s_tokens d' = alter revoked id (s_tokens d)) \/
            exists token t, now <= t /\ res = Ok (token, rt_user st) /\ sha256_hex token <> sha256_hex raw /\
              s_tokens d' = <[fresh (dom (alter revoked id (s_tokens d))) :=
                                StoredToken (rt_user st) (sha256_hex token) (t + inactivity_us) false]>
                              (alter revoked id (s_tokens d))) d.
Proof.
  intros Hs. unfold rotate. apply swp_now. intros now Hn. apply swp_sql. intros t1 Ht1.
  cbn [exec_session_stmt fst snd s_tokens at_time]. rewrite (sole_token_found _ _ _ _ Hs).
  destruct (rt_revoked st); [split; [done|]; by exists now|].
  destruct (rt_expires_at st <? now) eqn:He; [split; [done|]; exists now; rewrite He; by split_and!|].
  apply swp_sql. intros t2 Ht2. apply swp_bind_ok. unfold issue. apply swp_token. intros token t3 Ht3.
  apply swp_now. intros t4 Ht4. apply swp_sql. intros t5 Ht5. cbn [exec_session_stmt].
  unfold ins_token. cbn [at_time s_tokens s_users fst snd set_tokens].
  destruct (find_row _ (alter revoked id (s_tokens d))) as [|] eqn:Hf; cbn [fst snd].
  { split; [done|]. exists now. rewrite He. split; [done|]. left. by eexists. }
  destruct (s_users d !! rt_user st); cbn [fst snd wp].
  2:{ split; [done|]. exists now. rewrite He. split; [done|]. left. by eexists. }
  simpl in *. split; [done|]. exists now. rewrite He. split; [lia|]. right. exists token, t4.
  split_and!; [lia|done| |done]. intros Heq. rewrite Heq in Hf. destruct Hs as (Hid & Hh & _).
  unfold find_row in Hf.
  assert (List.In (id, revoked st) (map_to_list (alter revoked id (s_tokens d)))) as Hin.
  { apply list_elem_of_In, elem_of_map_to_list. by rewrite lookup_alter_eq, Hid. }
  apply (List.find_none _ _ Hf) in Hin. simpl in Hin. by rewrite Hh, String.eqb_refl in Hin.
Qed.

Lemma revoked_idem t : revoked (revoked t) = revoked t.
Proof. done. Qed.

(** The tokens after one was revoked and another was added. *)
Lemma sole_token_revoked d d' hash id st new :
  sole_token d hash id st -> rt_hash new <> hash ->
  s_tokens d' = <[fresh (dom (alter revoked id (s_tokens d))) := new]> (alter revoked id (s_tokens d)) ->
  sole_token d' hash id (revoked st).
Proof.
  intros (Hid & Hh & Hu) Hnew Hd'. set (k := fresh (dom (alter revoked id (s_tokens d)))) in *.
  assert (alter revoked id (s_tokens d) !! k = None) as Hk by apply not_elem_of_dom, is_fresh.
  assert (k <> id) as Hne by (intros ->; by rewrite lookup_alter_eq, Hid in Hk).
  unfold sole_token. rewrite Hd'. split_and!.
  - by rewrite lookup_insert_ne, lookup_alter_eq, Hid by done.
  - done.
  - intros id' st' Hid' Hh'. destruct (decide (id' = k)) as [->|Hnk].
    + rewrite lookup_insert_eq in Hid'. simplify_eq.
    + rewrite lookup_insert_ne in Hid' by done. destruct (decide (id' = id)) as [|Hni]; [done|].
      rewrite lookup_alter_ne in Hid' by done. by eapply Hu.
Qed.

(** Presenting one token twice, one after the other. *)
Definition rotate_twice (raw : string) : prog session_eff (result (string * uuid) session_err * result (string * uuid) session_err) :=
  let! r1 := rotate sha256_hex raw in
  let! r2 := rotate sha256_hex raw in
  Ret (r1, r2).

Lemma rotate_twice_ok raw id st d :
  sole_token d (sha256_hex raw) id st ->
  swp (rotate_twice raw)
    (fun r _ => match r with (Ok _, r2) => r2 = Err RefreshInvalid | (Err _, _) => True end) d.
Proof.
  intros Hs. unfold rotate_twice. apply wp_bind. eapply swp_mono; [by apply (rotate_ok raw id st)|].
  cbn beta. intros r1 d1 (Husers & now & Hnow & Hcase).
  destruct r1 as [[token user]|e]; [|by apply wp_bind, wp_true; intros r2 d2].
  destruct (rt_revoked st); [by destruct Hcase|]. destruct (rt_expires_at st <? now); [by destruct Hcase|].
  destruct Hcase as [(m & ? & _)|(tk & t & _ & Heq & Hne & Htok)]; [done|]. simplify_eq.
  apply wp_bind. eapply swp_mono.
  - apply (rotate_ok raw id (revoked st)). by eapply sole_token_revoked; [done| |exact Htok].
  - cbn beta. simpl. by intros r2 d2 (_ & now2 & _ & -> & _).
Qed.

Lemma revoke_all_lookup user m k :
  (revoke_all user m).2 !! k =
    (fun t => if bool_decide (rt_user t = user) && negb (rt_revoked t) then revoked t else t) <$> m !! k.
Proof. unfold revoke_all; simpl. apply lookup_fmap. Qed.

(** A forced logout, then the use of a token. *)
Definition logout_then_rotate (user : uuid) (raw : string)
    : prog session_eff (result Z session_err * result (string * uuid) session_err) :=
  let! r1 := force_logout user in
  let! r2 := rotate sha256_hex raw in
  Ret (r1, r2).

Lemma force_logout_ok user raw id st d :
  sole_token d (sha256_hex raw) id st -> rt_user st = user ->
  swp (logout_then_rotate user raw)
    (fun r d' => r.2 = Err RefreshInvalid /\ s_users d' = s_users d /\
       forall k t, s_tokens d' !! k = Some t -> rt_user t = user -> rt_revoked t = true) d.
Proof.
  intros (Hid & Hh & Hu) Huser. unfold logout_then_rotate, force_logout, revoke_all_for_user.
  apply wp_bind, swp_sql_last. intros t Ht. cbn [exec_session_stmt at_time s_tokens].
  pose proof (revoke_all_lookup user (s_tokens d)) as Hl.
  destruct (revoke_all user (s_tokens d)) as [n m] eqn:Hra. cbn [fst snd] in *.
  assert (exists st', sole_token (SessionDb t (s_users d) m) (sha256_hex raw) id st' /\ rt_revoked st' = true) as (st' & Hs' & Hr').
  { exists (if bool_decide (rt_user st = user) && negb (rt_revoked st) then revoked st else st).
    rewrite bool_decide_true by done. split; [|simpl; by destruct (rt_revoked st) eqn:He].
    unfold sole_token; simpl. split_and!.
    - rewrite Hl, Hid. simpl. by rewrite bool_decide_true.
    - by destruct (negb (rt_revoked st)).
    - intros k t' Hk Hk'. rewrite Hl in Hk. destruct (s_tokens d !! k) as [t0|] eqn:H0; simplify_eq/=.
      apply (Hu k t0 H0). by destruct (bool_decide _ && _). }
  apply wp_bind. eapply swp_mono; [by apply (rotate_ok raw id st')|].
  cbn beta. rewrite Hr'. simpl. intros r2 d2 (Hus & now & _ & -> & Htok). split_and!; [done|done|].
  intros k t' Hk Hk'. rewrite Htok in Hk. simpl in Hk. rewrite Hl in Hk.
  destruct (s_tokens d !! k) as [t0|] eqn:H0; [|done]. simpl in Hk. injection Hk as <-.
  destruct (bool_decide_reflect (rt_user t0 = user)) as [Heq|Hne]; simpl in *.
  - destruct (rt_revoked t0) eqn:Hx; simpl in *; done.
  - done.
Qed.
End RefreshLemmas.

(** ** A concrete session store *)

Definition user_a : uuid := 7%N.
Definition demo_session_user (attempts : Z) (locked : option Z) : db_user :=
  DbUser "alice" "operator" true (Some "hash of secret"%string) None false true false attempts locked None.
Definition demo_sessions (attempts : Z) (locked : option Z) : session_db :=
  SessionDb (12 * hour_us) {[user_a := demo_session_user attempts locked]}
    {[70%N := StoredToken user_a "token" (13 * hour_us) false]}.
Definition demo_password_ok (pw hash : string) : bool := String.eqb ("hash of " ++ pw) hash.
Definition demo_decrypt (_ : string * string) : result string string := Ok ""%string.
Definition demo_totp_ok (_ _ _ : string) : bool := true.
Definition plain (s : string) : string := s.

(** A deterministic store: fresh tokens are numbered. *)
Definition session_world (X : Type) (e : session_eff X) (d : session_db) : X * session_db :=
  match e in session_eff Y return Y * session_db with
  | SSql q => exec_session_stmt q d
  | SNow => (s_now d, d)
  | RandomToken => (("token" ++ dec (Z.of_nat (size (s_tokens d))))%string, d)
  | IssueAccessToken _ _ _ => (Ok "jwt"%string, d)
  end.

Lemma session_world_alone X (e : session_eff X) s :
  @exec _ _ session_alone X e s (session_world X e s).1 (session_world X e s).2.
Proof. exists (s_now s). split; [lia|]. destruct s, e; simpl; done. Qed.

Lemma demo_sole_user attempts locked :
  sole_user (demo_sessions attempts locked) "alice" user_a (demo_session_user attempts locked).
Proof.
  split_and!; [reflexivity|reflexivity|reflexivity|]. intros id' u'. simpl.
  rewrite lookup_singleton_Some. by intros [<- _].
Qed.

Lemma demo_sole_token attempts locked :
  sole_token (demo_sessions attempts locked) "token" 70%N (StoredToken user_a "token" (13 * hour_us) false).
Proof.
  split_and!; [reflexivity|reflexivity|]. intros id' st'. simpl. rewrite lookup_singleton_Some. by intros [<- _].
Qed.

(** ** The properties *)

(** C12. The login, on every branch: unknown user, locked account, wrong password
    (the counter, and a lock of 30 minutes from the fifth failure on), disabled
    account, forced reset, second factor, and success, which clears the
    counter and stores exactly one new token that expires in an hour.  A wrong
    second factor changes no counter. *)
Theorem login_spec password_ok decrypt totp_ok sha256_hex req d :
  swp (login password_ok decrypt totp_ok sha256_hex req)
    (fun res d' => login_outcome password_ok decrypt totp_ok sha256_hex req d d' res) d.
Proof. apply login_ok. Qed.

(** Five wrong passwords in a row lock an account for half an hour. *)
Theorem five_failures_lock password_ok decrypt totp_ok sha256_hex name id u r1 r2 r3 r4 r5 d :
  Forall (wrong_for password_ok name u) [r1; r2; r3; r4; r5] -> sole_user d name id u ->
  u_locked_until u = None -> u_failed_login_attempts u = 0 ->
  swp (logins password_ok decrypt totp_ok sha256_hex [r1; r2; r3; r4; r5])
    (fun _ d' => exists t, s_now d <= t <= s_now d' /\ sole_user d' name id (with_attempts 5 (Some (t + lockout_us)) u)) d.
Proof. apply five_failures_ok. Qed.

Definition bad_request : login_request := LoginRequest "alice" "guess" None.

Lemma five_failures_lock_witness :
  swp (logins demo_password_ok demo_decrypt demo_totp_ok plain [bad_request; bad_request; bad_request; bad_request; bad_request])
    (fun _ d' => exists t, 12 * hour_us <= t <= s_now d' /\
       sole_user d' "alice" user_a (with_attempts 5 (Some (t + lockout_us)) (demo_session_user 0 None)))
    (demo_sessions 0 None).
Proof.
  apply (five_failures_lock demo_password_ok demo_decrypt demo_totp_ok plain "alice" user_a (demo_session_user 0 None)
           bad_request bad_request bad_request bad_request bad_request (demo_sessions 0 None)).
  - repeat apply Forall_cons_2; try apply Forall_nil_2; split; reflexivity.
  - apply demo_sole_user.
  - reflexivity.
  - reflexivity.
Defined.

(** After a lock the fifth-failure rule has no second chance: the counter that
    the expired lock leaves in the row that was read is not reset before it is
    incremented, so one wrong password locks the account again. *)
Theorem expired_lock_relocks password_ok decrypt totp_ok sha256_hex name id u req d :
  sole_user d name id u -> wrong_for password_ok name u req -> 5 <= u_failed_login_attempts u ->
  swp (login password_ok decrypt totp_ok sha256_hex req)
    (fun res d' => res = Err AccountLocked \/
       exists t, s_now d <= t <= s_now d' /\
         sole_user d' name id (with_attempts (u_failed_login_attempts u + 1) (Some (t + lockout_us)) u)) d.
Proof.
  intros Hs Hw H5. eapply swp_mono; [by apply (wrong_login_ok password_ok decrypt totp_ok sha256_hex name id u)|].
  cbn beta. intros res d' [(now & _ & _ & -> & _)|(_ & t & Ht & Hs')]; [by left|right].
  rewrite (proj2 (Z.leb_le 5 (u_failed_login_attempts u + 1))) in Hs' by lia. by exists t.
Qed.

Lemma expired_lock_relocks_witness :
  swp (login demo_password_ok demo_decrypt demo_totp_ok plain bad_request)
    (fun res d' => res = Err AccountLocked \/
       exists t, 12 * hour_us <= t <= s_now d' /\
         sole_user d' "alice" user_a (with_attempts 6 (Some (t + lockout_us)) (demo_session_user 5 (Some (11 * hour_us)))))
    (demo_sessions 5 (Some (11 * hour_us))).
Proof.
  apply (expired_lock_relocks demo_password_ok demo_decrypt demo_totp_ok plain "alice" user_a
           (demo_session_user 5 (Some (11 * hour_us))) bad_request (demo_sessions 5 (Some (11 * hour_us)))).
  - apply demo_sole_user.
  - split; reflexivity.
  - vm_compute; discriminate.
Defined.

(** A refresh token is good for one use: presented again after it was rotated,
    it is refused. *)
Theorem rotated_token_refused sha256_hex raw id st d :
  sole_token d (sha256_hex raw) id st ->
  swp (rotate_twice sha256_hex raw)
    (fun r _ => match r with (Ok _, r2) => r2 = Err RefreshInvalid | (Err _, _) => True end) d.
Proof. apply rotate_twice_ok. Qed.

Lemma rotated_token_refused_witness :
  swp (rotate_twice plain "token")
    (fun r _ => match r with (Ok _, r2) => r2 = Err RefreshInvalid | (Err _, _) => True end) (demo_sessions 0 None) /\
  (run session_world (rotate_twice plain "token") (demo_sessions 0 None)).1 =
    (Ok ("token1"%string, user_a), Err RefreshInvalid).
Proof.
  split; [|vm_compute; reflexivity].
  apply (rotated_token_refused plain "token" 70%N (StoredToken user_a "token" (13 * hour_us) false)).
  apply demo_sole_token.
Defined.

(** But the check and the revocation are two statements: two requests that
    present one token at the same time can both get a new one. *)
Theorem concurrent_rotations_both_succeed :
  exists d' t1 t2, t1 <> t2 /\
    rtc (@cstep session_eff session_db session_alone _ (fun _ _ => []) (fun _ => False))
      (demo_sessions 0 None, [rotate plain "token"; rotate plain "token"])
      (d', [Ret (Ok (t1, user_a)); Ret (Ok (t2, user_a))]).
Proof.
  eexists _, "token1"%string, "token2"%string. split; [discriminate|].
  eapply (@interleave_reachable session_eff session_db session_alone _ _ _ session_world
            [0; 0; 1; 1; 0; 0; 0; 0; 1; 1; 1; 1]%nat); [apply session_world_alone|].
  vm_compute. reflexivity.
Qed.

(** A forced logout revokes every token of the user: none of them can be
    exchanged for a session afterwards. *)
Theorem force_logout_revokes_all sha256_hex user raw id st d :
  sole_token d (sha256_hex raw) id st -> rt_user st = user ->
  swp (logout_then_rotate sha256_hex user raw)
    (fun r d' => r.2 = Err RefreshInvalid /\ s_users d' = s_users d /\
       forall k t, s_tokens d' !! k = Some t -> rt_user t = user -> rt_revoked t = true) d.
Proof. apply force_logout_ok. Qed.

Lemma force_logout_revokes_all_witness :
  swp (logout_then_rotate plain user_a "token")
    (fun r d' => r.2 = Err RefreshInvalid /\ s_users d' = s_users (demo_sessions 0 None) /\
       forall k t, s_tokens d' !! k = Some t -> rt_user t = user_a -> rt_revoked t = true) (demo_sessions 0 None).
Proof.
  apply (force_logout_revokes_all plain user_a "token" 70%N (StoredToken user_a "token" (13 * hour_us) false)).
  - apply demo_sole_token.
  - reflexivity.
Defined.
