(* ===== verification/Accounts.v ===== *)
(** * User accounts (pm-web/src/routes/users.rs, auth.rs; pm-auth/src/password.rs)

    The routes that create, change and delete users, their passwords and second
    factors, on top of the sessions of Session.v.  Argon2's hashing, the TOTP
    check and the encryption of secrets are effects; the store has the columns of
    [users] that Session.v reads and, besides, those of [profile]. *)

From S2P Require Import Prelude Rbac Conc Session.

(** ** Data *)

(** The columns of [users] that only these routes and the SSO routes use. *)
Record profile : Type := Profile {
  pf_email : string; pf_display_name : string; pf_provider : string;
  pf_azure_oid : option string; pf_oidc_sub : option string
}.

(** [DbUserForSso] *)
Record sso_user : Type := SsoUser {
  su_id : uuid; su_username : string; su_display_name : string; su_role : string;
  su_is_active : bool; su_mfa_enabled : bool
}.

(** [SsoSession] and [SsoHandoff]; of the user object, the fields. *)
Record sso_session : Type := SsoSession { ss_code_verifier : string; ss_created_at : Z }.
Record sso_handoff : Type := SsoHandoff {
  ho_access_token : string; ho_raw_refresh : string; ho_user : sso_user; ho_provider : string;
  ho_access_ttl : Z; ho_expires_at : Z
}.

(** [OidcConfig], [OidcDiscovery], [OidcCache], [IdTokenClaims] *)
Record oidc_config : Type := OidcConfig {
  oc_enabled : bool; oc_provider_type : string; oc_display_name : string; oc_discovery_url : string;
  oc_client_id : string; oc_client_secret : option (string * string); oc_redirect_uri : string; oc_scopes : string
}.
Record oidc_discovery : Type := OidcDiscovery {
  od_issuer : string; od_authorization_endpoint : string; od_token_endpoint : string; od_jwks_uri : string;
  od_userinfo_endpoint : option string; od_fetched_at : Z
}.
Record oidc_cache : Type := OidcCache {
  ca_discovery : option oidc_discovery; ca_jwks : option json; ca_jwks_fetched_at : option Z
}.
Record id_token_claims : Type := IdTokenClaims {
  ic_email : option string; ic_name : option string; ic_sub : option string; ic_oid : option string;
  ic_preferred_username : option string
}.

(** The database and the maps of the server's memory. *)
Record account_db : Type := AccountDb {
  ad_session : session_db;
  ad_profiles : gmap uuid profile;
  ad_sso_sessions : gmap string sso_session;
  ad_handoffs : gmap string sso_handoff;
  ad_cache : oidc_cache;
  ad_oidc : option oidc_config
}.

Definition with_session (s : session_db) (d : account_db) : account_db :=
  AccountDb s (ad_profiles d) (ad_sso_sessions d) (ad_handoffs d) (ad_cache d) (ad_oidc d).
Definition with_profiles (m : gmap uuid profile) (d : account_db) : account_db :=
  AccountDb (ad_session d) m (ad_sso_sessions d) (ad_handoffs d) (ad_cache d) (ad_oidc d).
Definition with_sso_sessions (m : gmap string sso_session) (d : account_db) : account_db :=
  AccountDb (ad_session d) (ad_profiles d) m (ad_handoffs d) (ad_cache d) (ad_oidc d).
Definition with_handoffs (m : gmap string sso_handoff) (d : account_db) : account_db :=
  AccountDb (ad_session d) (ad_profiles d) (ad_sso_sessions d) m (ad_cache d) (ad_oidc d).
Definition with_cache (c : oidc_cache) (d : account_db) : account_db :=
  AccountDb (ad_session d) (ad_profiles d) (ad_sso_sessions d) (ad_handoffs d) c (ad_oidc d).
Definition ad_users (d : account_db) : gmap uuid db_user := s_users (ad_session d).
Definition with_users (m : gmap uuid db_user) (d : account_db) : account_db := with_session (set_users m (ad_session d)) d.

(** The updates of a row. *)
Definition with_role_active_reset (role : option string) (active reset : option bool) (u : db_user) : db_user :=
  DbUser (u_username u) (default (u_role u) role) (u_local u) (u_password_hash u) (u_totp_secret u) (u_mfa_enabled u)
    (default (u_is_active u) active) (default (u_force_password_reset u) reset) (u_failed_login_attempts u)
    (u_locked_until u) (u_last_login_at u).
Definition with_password (hash : string) (reset : bool) (u : db_user) : db_user :=
  DbUser (u_username u) (u_role u) (u_local u) (Some hash) (u_totp_secret u) (u_mfa_enabled u) (u_is_active u) reset
    (u_failed_login_attempts u) (u_locked_until u) (u_last_login_at u).
Definition with_totp (secret : option (string * string)) (u : db_user) : db_user :=
  DbUser (u_username u) (u_role u) (u_local u) (u_password_hash u) secret (bool_decide (is_Some secret)) (u_is_active u)
    (u_force_password_reset u) (u_failed_login_attempts u) (u_locked_until u) (u_last_login_at u).
Definition with_provider (local : bool) (u : db_user) : db_user :=
  DbUser (u_username u) (u_role u) local (u_password_hash u) (u_totp_secret u) (u_mfa_enabled u) (u_is_active u)
    (u_force_password_reset u) (u_failed_login_attempts u) (u_locked_until u) (u_last_login_at u).
Definition with_last_login (now : Z) (u : db_user) : db_user :=
  DbUser (u_username u) (u_role u) (u_local u) (u_password_hash u) (u_totp_secret u) (u_mfa_enabled u) (u_is_active u)
    (u_force_password_reset u) (u_failed_login_attempts u) (u_locked_until u) (Some now).

Definition with_contact (display_name email : option string) (p : profile) : profile :=
  Profile (default (pf_email p) email) (default (pf_display_name p) display_name) (pf_provider p) (pf_azure_oid p) (pf_oidc_sub p).

(** [COALESCE(x, $n)] *)
Definition coalesce_to {A} (x y : option A) : option A := match x with Some _ => x | None => y end.
Definition with_subject (oid sub : option string) (p : profile) : profile :=
  Profile (pf_email p) (pf_display_name p) (pf_provider p) (coalesce_to (pf_azure_oid p) oid) (coalesce_to (pf_oidc_sub p) sub).
Definition linked_to (provider : string) (oid sub : option string) (p : profile) : profile :=
  with_subject oid sub (Profile (pf_email p) (pf_display_name p) provider (pf_azure_oid p) (pf_oidc_sub p)).

(** ** Statements and effects *)

Inductive account_stmt : Type -> Type :=
| InsUser (username display_name email role hash : string) : account_stmt uuid
| UpdUser (id : uuid) (display_name email role : option string) (active reset : option bool) : account_stmt Z
| DelUser (id : uuid) : account_stmt Z
| SelUser (id : uuid) : account_stmt (option (db_user * profile))
| SelHash (id : uuid) : account_stmt (option (option string))
| SelUserExists (id : uuid) : account_stmt bool
| UpdPassword (id : uuid) (hash : string) (reset : bool) : account_stmt Z
| SelLocalHash (username : string) : account_stmt (option (uuid * option string * bool))
| UpdForcedPassword (id : uuid) (hash : string) : account_stmt Z
| UpdTotp (id : uuid) (secret : option (string * string)) : account_stmt Z
| SelSsoUser (email : string) (provider : option string) : account_stmt (option sso_user)
| UpdLink (id : uuid) (provider : string) (oid sub : option string) : account_stmt Z
| InsSsoUser (username display_name email provider : string) (oid sub : option string) : account_stmt uuid
| UpdSsoLogin (id : uuid) (oid sub : option string) : account_stmt Z
| SelOidcConfig : account_stmt (option oidc_config).

(** The unique columns of [users]. *)
Definition taken (username email : option string) (except : option uuid) (d : account_db) : bool :=
  existsb (fun kv => negb (bool_decide (Some kv.1 = except)) && bool_decide (Some (u_username kv.2) = username))
          (map_to_list (ad_users d)) ||
  existsb (fun kv => negb (bool_decide (Some kv.1 = except)) && bool_decide (Some (pf_email kv.2) = email))
          (map_to_list (ad_profiles d)).
Definition oid_taken (oid : option string) (except : option uuid) (d : account_db) : bool :=
  bool_decide (is_Some oid) &&
  existsb (fun kv => negb (bool_decide (Some kv.1 = except)) && bool_decide (pf_azure_oid kv.2 = oid)) (map_to_list (ad_profiles d)).
Definition unique_violation : string := "duplicate key value violates unique constraint".

Definition sso_view (id : uuid) (u : db_user) (p : profile) : sso_user :=
  SsoUser id (u_username u) (pf_display_name p) (u_role u) (u_is_active u) (u_mfa_enabled u).

(** The subject of the provider is only set where there is none. *)
Definition oid_conflict (id : uuid) (oid : option string) (d : account_db) : bool :=
  match ad_profiles d !! id with
  | Some p => bool_decide (pf_azure_oid p = None) && oid_taken oid (Some id) d
  | None => false
  end.

(** A change of one row of [users]: the number of rows. *)
Definition on_user (id : uuid) (f : db_user -> db_user) (g : profile -> profile) (d : account_db) : result Z string * account_db :=
  (Ok (if bool_decide (is_Some (ad_users d !! id)) then 1 else 0),
   with_users (alter f id (ad_users d)) (with_profiles (alter g id (ad_profiles d)) d)).

Definition add_user (u : db_user) (p : profile) (d : account_db) : result uuid string * account_db :=
  if taken (Some (u_username u)) (Some (pf_email p)) None d || oid_taken (pf_azure_oid p) None d then (Err unique_violation, d)
  else
    let id := fresh (dom (ad_users d) ∪ dom (ad_profiles d)) in
    (Ok id, with_users (<[id := u]> (ad_users d)) (with_profiles (<[id := p]> (ad_profiles d)) d)).

(** The tokens of a deleted user go with the row (ON DELETE CASCADE). *)
Definition del_user (id : uuid) (d : account_db) : result Z string * account_db :=
  (Ok (if bool_decide (is_Some (ad_users d !! id)) then 1 else 0),
   with_session (SessionDb (s_now (ad_session d)) (delete id (ad_users d))
                   (filter (fun kt => rt_user kt.2 <> id) (s_tokens (ad_session d))))
     (with_profiles (delete id (ad_profiles d)) d)).

(** The rows with an e-mail address, of one provider or of any. *)
Definition sel_sso_user (email : string) (provider : option string) (d : account_db) : option sso_user :=
  '(id, p) ← find_row (fun p => String.eqb (pf_email p) email && match provider with Some x => String.eqb (pf_provider p) x | None => true end)
              (ad_profiles d);
  u ← ad_users d !! id;
  Some (sso_view id u p).

Definition exec_account_stmt {X} (q : account_stmt X) (d : account_db) : result X string * account_db :=
  match q in account_stmt Y return result Y string * account_db with
  | InsUser username display_name email role hash =>
      add_user (DbUser username role true (Some hash) None false true false 0 None None)
               (Profile email display_name "local" None None) d
  | UpdUser id display_name email role active reset =>
      if bool_decide (is_Some email) && taken None email (Some id) d && bool_decide (is_Some (ad_users d !! id))
      then (Err unique_violation, d)
      else on_user id (with_role_active_reset role active reset) (with_contact display_name email) d
  | DelUser id => del_user id d
  | SelUser id => (Ok (u ← ad_users d !! id; p ← ad_profiles d !! id; Some (u, p)), d)
  | SelHash id => (Ok (u_password_hash <$> ad_users d !! id), d)
  | SelUserExists id => (Ok (bool_decide (is_Some (ad_users d !! id))), d)
  | UpdPassword id hash reset => on_user id (with_password hash reset) (fun p => p) d
  | SelLocalHash name =>
      (Ok ((fun kv => (kv.1, u_password_hash kv.2, u_force_password_reset kv.2)) <$>
           find_row (fun u => String.eqb (u_username u) name && u_local u) (ad_users d)), d)
  | UpdForcedPassword id hash => on_user id (fun u => with_attempts 0 None (with_password hash false u)) (fun p => p) d
  | UpdTotp id secret => on_user id (with_totp secret) (fun p => p) d
  | SelSsoUser email provider => (Ok (sel_sso_user email provider d), d)
  | UpdLink id provider oid sub =>
      if oid_conflict id oid d then (Err unique_violation, d)
      else on_user id (with_provider (String.eqb provider "local")) (linked_to provider oid sub) d
  | InsSsoUser username display_name email provider oid sub =>
      add_user (DbUser username "reporter" (String.eqb provider "local") None None false true false 0 None None)
               (Profile email display_name provider oid sub) d
  | UpdSsoLogin id oid sub =>
      if oid_conflict id oid d then (Err unique_violation, d)
      else on_user id (with_last_login (s_now (ad_session d))) (with_subject oid sub) d
  | SelOidcConfig => (Ok (ad_oidc d), d)
  end.

(** [form] parameters in their order; the status of an answer, the status as text,
    and the id_token of the parsed body. *)
Inductive account_eff : Type -> Type :=
| Sess {X} (e : session_eff X) : account_eff X
| AccSql {X} (q : account_stmt X) : account_eff (result X string)
| HashPassword (password : string) : account_eff (result string string)
| GenerateTotp (username : string) : account_eff (result (string * string) string)
| CheckTotp (username secret code : string) : account_eff (result bool string)
| LoadKey : account_eff (result unit string)
| EncryptSecret (secret : string) : account_eff (result (string * string) string)
| DecryptSecret (secret : string * string) : account_eff (result string string)
| UserEvent (action : string) (target : uuid) : account_eff unit
(** The server's maps; the clock is [SNow]. *)
| SsoInsert (state : string) (s : sso_session) : account_eff unit
| SsoRemove (state : string) : account_eff (option sso_session)
| HandoffInsert (code : string) (h : sso_handoff) : account_eff unit
| HandoffRemove (code : string) : account_eff (option sso_handoff)
| PurgeSso (cutoff : Z) : account_eff unit
| PurgeHandoffs (now : Z) : account_eff unit
| ReadCache : account_eff oidc_cache
| WriteDiscovery (d : oidc_discovery) : account_eff unit
| WriteJwks (jwks : json) (at_ : Z) : account_eff unit
(** The identity provider, random strings, tokens. *)
| HttpClient : account_eff (result unit string)
| GetJson (url : string) : account_eff (result json string)
| PostForm (url : string) (form : list (string * string)) : account_eff (result (Z * string * result (option string) string) string)
| RandomCode : account_eff string
| NewUuid : account_eff string
| TokenKid (token : string) : account_eff (result (option string) string)
| DecodeToken (token n e issuer audience : string) : account_eff (result id_token_claims string).

Fixpoint sess_part {A} (p : prog session_eff A) : prog account_eff A :=
  match p with
  | Ret a => Ret a
  | Vis e k => Vis (Sess e) (fun x => sess_part (k x))
  end.

Definition err_forbidden_role : api_err := ApiErr 403 "forbidden".
Definition err_user_not_found : api_err := ApiErr 404 "not_found".
Definition err_user_internal : api_err := ApiErr 500 "internal_error".

(** The error of an effect ends the request with an answer. *)
Definition or_err {A B} (e : api_err) (p : prog account_eff (result A string)) (f : A -> prog account_eff (result B api_err))
    : prog account_eff (result B api_err) :=
  let! r := p in match r with Ok a => f a | Err _ => Ret (Err e) end.
Definition acc_sql {X} (q : account_stmt X) : prog account_eff (result X string) := trigger (AccSql q).

(** ** Passwords *)

Definition is_ascii_uppercase (c : ascii) : bool := (65 <=? code c) && (code c <=? 90).
Definition is_ascii_lowercase (c : ascii) : bool := (97 <=? code c) && (code c <=? 122).
Definition special_chars : string := "!@#$%^&*()_+-=[]{}|;:,.<>?".
Definition str_any (p : ascii -> bool) (s : string) : bool := negb (str_forallb (fun c => negb (p c)) s).

(** [password.len()] counts bytes. *)
Definition validate_password_strength (password : string) : result unit string :=
  if (String.length password <? 8)%nat then Err "Password must be at least 8 characters"%string
  else if negb (str_any is_ascii_uppercase password) then Err "Password must contain at least one uppercase letter"%string
  else if negb (str_any is_ascii_lowercase password) then Err "Password must contain at least one lowercase letter"%string
  else if negb (str_any is_ascii_digit password) then Err "Password must contain at least one digit"%string
  else if negb (str_any (fun c => contains_char c special_chars) password)
  then Err "Password must contain at least one special character (!@#$%^&*()_+-=[]{}|;:,.<>?)"%string
  else Ok tt.

(** The check and the hash of a new password. *)
Definition hash_new {B} (password : string) (f : string -> prog account_eff (result B api_err)) : prog account_eff (result B api_err) :=
  match validate_password_strength password with
  | Err _ => Ret (Err (ApiErr 400 "weak_password"))
  | Ok _ => or_err err_user_internal (trigger (HashPassword password)) f
  end.

(** ** users.rs *)

Record create_user_request : Type := CreateUserRequest {
  cu_username : string; cu_display_name : option string; cu_email : string; cu_role : string; cu_password : string
}.
Record update_user_request : Type := UpdateUserRequest {
  up_display_name : option string; up_email : option string; up_role : option string;
  up_is_active : option bool; up_force_password_reset : option bool
}.

(** Unknown roles are operators.  (No other letter has the lower case of a letter
    of "admin" or "reporter".) *)
Definition requested_role (role : string) : string :=
  let r := to_ascii_lowercase role in
  if String.eqb r "admin" then "admin" else if String.eqb r "reporter" then "reporter" else "operator".

Definition create_user (auth : auth_user) (req : create_user_request) : prog account_eff (result uuid api_err) :=
  if negb (is_admin (au_role auth)) then Ret (Err err_forbidden_role)
  else
    hash_new (cu_password req) (fun hash =>
    or_err (ApiErr 409 "conflict")
      (acc_sql (InsUser (cu_username req) (default (cu_username req) (cu_display_name req)) (cu_email req)
                  (requested_role (cu_role req)) hash)) (fun id =>
    trigger (UserEvent "user_created" id) ;;
    Ret (Ok id))).

Definition get_user (auth : auth_user) (id : uuid) : prog account_eff (result (db_user * profile) api_err) :=
  if negb (is_admin (au_role auth)) && negb (bool_decide (au_id auth = id)) then Ret (Err err_forbidden_role)
  else
    or_err err_user_internal (acc_sql (SelUser id)) (fun row =>
    Ret (match row with Some u => Ok u | None => Err err_user_not_found end)).

(** An update of one row answers 404 if there is none; then the audit entry. *)
Definition update_row (q : account_stmt Z) (action : string) (id : uuid) : prog account_eff (result unit api_err) :=
  or_err err_user_internal (acc_sql q) (fun rows =>
  if rows =? 0 then Ret (Err err_user_not_found)
  else trigger (UserEvent action id) ;; Ret (Ok tt)).

Definition update_user (auth : auth_user) (id : uuid) (req : update_user_request) : prog account_eff (result unit api_err) :=
  if negb (is_admin (au_role auth)) && negb (bool_decide (au_id auth = id)) then Ret (Err err_forbidden_role)
  else if (bool_decide (is_Some (up_role req)) || bool_decide (is_Some (up_is_active req)) ||
           bool_decide (is_Some (up_force_password_reset req))) && negb (is_admin (au_role auth))
  then Ret (Err err_forbidden_role)
  else
    update_row (UpdUser id (up_display_name req) (up_email req) (requested_role <$> up_role req) (up_is_active req)
                  (up_force_password_reset req)) "user_updated" id.

Definition delete_user (auth : auth_user) (id : uuid) : prog account_eff (result unit api_err) :=
  if negb (is_admin (au_role auth)) then Ret (Err err_forbidden_role)
  else if bool_decide (au_id auth = id) then Ret (Err (ApiErr 400 "bad_request"))
  else update_row (DelUser id) "user_deleted" id.

Definition revoke_user_sessions (auth : auth_user) (id : uuid) : prog account_eff (result Z api_err) :=
  if negb (is_admin (au_role auth)) then Ret (Err err_forbidden_role)
  else
    let! r := sess_part (force_logout id) in
    Ret (match r with Ok n => Ok n | Err _ => Err err_user_internal end).

Section Accounts.
Context (password_ok : string -> string -> bool) (decrypt : string * string -> result string string)
  (totp_ok : string -> string -> string -> bool) (sha256_hex : string -> string).

(** The password of the caller: the stored hash, if there is one, must verify. *)
Definition confirm_password {B} (id : uuid) (password : string) (f : prog account_eff (result B api_err)) : prog account_eff (result B api_err) :=
  or_err err_user_internal (acc_sql (SelHash id)) (fun row =>
  if password_ok password (default "" (mjoin row)) then f else Ret (Err (ApiErr 400 "invalid_password"))).

Definition change_own_password (auth : auth_user) (current new : string) : prog account_eff (result unit api_err) :=
  confirm_password (au_id auth) current
    (hash_new new (fun hash =>
     or_err err_user_internal (acc_sql (UpdPassword (au_id auth) hash false)) (fun _ =>
     trigger (UserEvent "password_change" (au_id auth)) ;;
     Ret (Ok tt)))).

Definition admin_reset_password (auth : auth_user) (id : uuid) (new : string) (reset : bool) : prog account_eff (result unit api_err) :=
  if negb (is_admin (au_role auth)) then Ret (Err err_forbidden_role)
  else
    or_err err_user_internal (acc_sql (SelUserExists id)) (fun exists_ =>
    if negb (exists_ : bool) then Ret (Err err_user_not_found)
    else
      hash_new new (fun hash =>
      or_err err_user_internal (acc_sql (UpdPassword id hash reset)) (fun _ =>
      trigger (UserEvent "admin_password_reset" id) ;;
      Ret (Ok tt)))).

Definition admin_disable_mfa (auth : auth_user) (id : uuid) : prog account_eff (result unit api_err) :=
  if negb (is_admin (au_role auth)) then Ret (Err err_forbidden_role)
  else update_row (UpdTotp id None) "admin_mfa_disabled" id.

(** ** auth.rs *)

(** The answers to the errors of a login and of a refresh. *)
Definition login_error (e : session_err) : api_err :=
  match e with
  | InvalidCredentials | InvalidMfaCode => ApiErr 401 "invalid_credentials"
  | MfaRequired => ApiErr 401 "mfa_required"
  | AccountDisabled => ApiErr 403 "account_disabled"
  | PasswordResetRequired => ApiErr 403 "password_reset_required"
  | AccountLocked => ApiErr 423 "account_locked"
  | _ => err_user_internal
  end.
Definition refresh_error (e : session_err) : api_err :=
  match e with
  | RefreshInvalid | RefreshExpired | RefreshDatabase _ => ApiErr 401 "invalid_refresh_token"
  | AccountDisabled => ApiErr 403 "account_disabled"
  | _ => err_user_internal
  end.
Definition answer {A} (f : session_err -> api_err) (p : prog session_eff (result A session_err)) : prog account_eff (result A api_err) :=
  let! r := sess_part p in Ret (match r with Ok a => Ok a | Err e => Err (f e) end).

Definition login_handler (req : login_request) : prog account_eff (result login_response api_err) :=
  answer login_error (login password_ok decrypt totp_ok sha256_hex req).
Definition refresh_handler (raw_token : string) : prog account_eff (result login_response api_err) :=
  answer refresh_error (refresh_session sha256_hex raw_token).
Definition logout_handler (raw_token : string) : prog account_eff (result unit api_err) :=
  answer (fun _ => err_user_internal) (logout sha256_hex raw_token).

(** A public route: the user name and the current password are the credential. *)
Definition force_change_password_handler (username current new : string) : prog account_eff (result unit api_err) :=
  match validate_password_strength new with
  | Err _ => Ret (Err (ApiErr 400 "weak_password"))
  | Ok _ =>
      or_err err_user_internal (acc_sql (SelLocalHash username)) (fun row =>
      match row with
      | None => Ret (Err (ApiErr 401 "invalid_credentials"))
      | Some (id, hash, _) =>
          if negb (password_ok current (default "" hash)) then Ret (Err (ApiErr 401 "invalid_credentials"))
          else
            or_err err_user_internal (trigger (HashPassword new)) (fun new_hash =>
            or_err err_user_internal (acc_sql (UpdForcedPassword id new_hash)) (fun _ =>
            Ret (Ok tt)))
      end)
  end.

Definition mfa_setup_handler (auth : auth_user) : prog account_eff (result (string * string) api_err) :=
  or_err err_user_internal (trigger (GenerateTotp (au_username auth))) (fun setup => Ret (Ok setup)).

Definition mfa_verify_handler (auth : auth_user) (secret code : string) : prog account_eff (result unit api_err) :=
  or_err err_user_internal (trigger (CheckTotp (au_username auth) secret code)) (fun valid =>
  if negb (valid : bool) then Ret (Err (ApiErr 400 "invalid_code"))
  else
    or_err err_user_internal (trigger LoadKey) (fun _ =>
    or_err err_user_internal (trigger (EncryptSecret secret)) (fun enc =>
    or_err err_user_internal (acc_sql (UpdTotp (au_id auth) (Some enc))) (fun _ => Ret (Ok tt))))).

Definition disable_mfa (auth : auth_user) (password : string) : prog account_eff (result unit api_err) :=
  confirm_password (au_id auth) password
    (or_err err_user_internal (acc_sql (UpdTotp (au_id auth) None)) (fun _ => Ret (Ok tt))).
End Accounts.
