(* ===== verification/Sso.v ===== *)
(** * Single sign-on (pm-web/src/routes/sso.rs)

    The OpenID Connect login: the redirect to the provider with PKCE, the
    callback that turns the provider's claims into a user and a session, and the
    one-time codes with which the browser fetches the tokens.  The provider, the
    verification of the signature of its tokens, SHA-256 and URL encoding are
    effects or parameters. *)

From S2P Require Import Prelude Rbac Conc Session Accounts.

Definition HANDOFF_TTL_US : Z := 60 * second_us.
Definition SSO_SESSION_TTL_US : Z := 10 * minute_us.
Definition JWKS_CACHE_TTL_SECS : Z := 3600.
Definition DISCOVERY_CACHE_TTL_SECS : Z := 3600.

(** [signed_duration_since(then).num_seconds()] *)
Definition elapsed_secs (now then_ : Z) : Z := Z.quot (now - then_) second_us.

Definition clock : prog account_eff Z := trigger (Sess SNow).

(** ** The configuration *)

Definition default_oidc_config : oidc_config :=
  OidcConfig false "azure" "Azure AD" "" "" None "" "openid profile email".

Definition load_oidc_config : prog account_eff (result oidc_config api_err) :=
  or_err err_user_internal (acc_sql SelOidcConfig) (fun row => Ret (Ok (default default_oidc_config row))).

(** Whether SSO is on, and the name of the button. *)
Definition sso_config : prog account_eff (bool * string) :=
  let! r := load_oidc_config in
  Ret (match r with
       | Ok config => (oc_enabled config, if String.eqb (oc_display_name config) "" then "SSO" else oc_display_name config)
       | Err _ => (false, "SSO")
       end)%string.

(** An absent secret is that of a public client. *)
Definition decrypt_client_secret (config : oidc_config) : prog account_eff (result string string) :=
  match oc_client_secret config with
  | Some enc => trigger (DecryptSecret enc)
  | None => Ret (Ok ""%string)
  end.

(** ** Discovery and keys *)

Definition doc_str (key : string) (doc : json) : string := default ""%string (json_get key doc ≫= json_as_str).

Definition discovery_of (doc : json) (now : Z) : oidc_discovery :=
  OidcDiscovery (doc_str "issuer" doc) (doc_str "authorization_endpoint" doc) (doc_str "token_endpoint" doc)
    (doc_str "jwks_uri" doc) (json_get "userinfo_endpoint" doc ≫= json_as_str) now.

(** The cached document, while it is fresh. *)
Definition cached_discovery : prog account_eff (option oidc_discovery) :=
  let! cache := trigger ReadCache in
  match ca_discovery cache with
  | Some disc =>
      let! now := clock in
      Ret (if elapsed_secs now (od_fetched_at disc) <? DISCOVERY_CACHE_TTL_SECS then Some disc else None)
  | None => Ret None
  end.

Definition fetch_discovery : prog account_eff (result oidc_discovery string) :=
  let! config := load_oidc_config in
  match config with
  | Err _ => Ret (Err "Failed to load OIDC config"%string)
  | Ok config =>
      let! cached := cached_discovery in
      match cached with
      | Some disc => Ret (Ok disc)
      | None =>
          let!? _ := trigger HttpClient in
          let!? doc := trigger (GetJson (oc_discovery_url config)) in
          let! now := clock in
          let discovery := discovery_of doc now in
          trigger (WriteDiscovery discovery) ;;
          Ret (Ok discovery)
      end
  end.

(** The keys that are cached and not older than the TTL. *)
Definition cached_jwks : prog account_eff (option json) :=
  let! cache := trigger ReadCache in
  match ca_jwks cache, ca_jwks_fetched_at cache with
  | Some jwks, Some fetched =>
      let! now := clock in
      Ret (if JWKS_CACHE_TTL_SECS <? elapsed_secs now fetched then None else Some jwks)
  | _, _ => Ret None
  end.

Definition provider_keys (discovery : oidc_discovery) : prog account_eff (result json string) :=
  let! cached := cached_jwks in
  match cached with
  | Some jwks => Ret (Ok jwks)
  | None =>
      let!? _ := trigger HttpClient in
      let!? jwks := trigger (GetJson (od_jwks_uri discovery)) in
      let! now := clock in
      trigger (WriteJwks jwks now) ;;
      Ret (Ok jwks)
  end.

(** The modulus and exponent of the key [kid]. *)
Definition rsa_components (jwks : json) (kid : string) : result (string * string) string :=
  match json_get "keys" jwks with
  | None => Err "JWKS response missing 'keys' array"%string
  | Some (JArr keys_) =>
      match List.find (fun k => bool_decide (json_get "kid" k ≫= json_as_str = Some kid)) keys_ with
      | None => Err ("No matching JWK found for kid: " ++ kid)%string
      | Some jwk =>
          match json_get "n" jwk ≫= json_as_str, json_get "e" jwk ≫= json_as_str with
          | Some n, Some e => Ok (n, e)
          | None, _ => Err "JWK missing 'n' (modulus) field"%string
          | _, None => Err "JWK missing 'e' (exponent) field"%string
          end
      end
  | Some _ => Err "JWKS 'keys' is not an array"%string
  end.

(** The claims of a token that is signed by the provider for this client. *)
Definition verify_id_token (token : string) (config : oidc_config) (discovery : oidc_discovery)
    : prog account_eff (result id_token_claims string) :=
  let!? kid := trigger (TokenKid token) in
  match kid with
  | None => Ret (Err "JWT header missing 'kid' field"%string)
  | Some kid =>
      let!? jwks := provider_keys discovery in
      match rsa_components jwks kid with
      | Err m => Ret (Err m)
      | Ok (n, e) => trigger (DecodeToken token n e (od_issuer discovery) (oc_client_id config))
      end
  end.

Section Sso.
Context (urlencode : string -> string) (challenge_of : string -> string) (sha256_hex : string -> string)
  (callback_url : string) (access_ttl : Z).

(** ** The redirect to the provider *)

Definition authorization_url (discovery : oidc_discovery) (config : oidc_config) (code_verifier state_token : string) : string :=
  (od_authorization_endpoint discovery ++ "?client_id=" ++ urlencode (oc_client_id config) ++
   "&response_type=code&redirect_uri=" ++ urlencode (oc_redirect_uri config) ++ "&scope=" ++ urlencode (oc_scopes config) ++
   "&code_challenge=" ++ challenge_of code_verifier ++ "&code_challenge_method=S256&state=" ++ state_token)%string.

Definition sso_login : prog account_eff (result string api_err) :=
  let!? config := load_oidc_config in
  if negb (oc_enabled config) then Ret (Err err_forbidden_role)
  else if String.eqb (oc_discovery_url config) "" then Ret (Err err_forbidden_role)
  else
    or_err err_user_internal fetch_discovery (fun discovery =>
    let! code_verifier := trigger RandomCode in
    let! state_token := trigger NewUuid in
    let! now := clock in
    trigger (SsoInsert state_token (SsoSession code_verifier now)) ;;
    Ret (Ok (authorization_url discovery config code_verifier state_token))).

(** ** The callback *)

Record callback_params : Type := CallbackParams {
  cp_code : option string; cp_state : option string; cp_error : option string; cp_error_description : option string
}.

Definition error_redirect (code message : string) : string :=
  (callback_url ++ "?error=" ++ urlencode code ++ "&error_description=" ++ urlencode message)%string.

(** An error of an effect becomes a redirect with a code and a message. *)
Definition or_redirect {A B Er} (code : string) (message : Er -> string) (p : prog account_eff (result A Er))
    (f : A -> prog account_eff (result B string)) : prog account_eff (result B string) :=
  let! r := p in match r with Ok a => f a | Err e => Ret (Err (error_redirect code (message e))) end.
Definition msg {Er} (m : string) (_ : Er) : string := m.

Definition token_form (code : string) (config : oidc_config) (code_verifier client_secret : string) : list (string * string) :=
  [("grant_type", "authorization_code"); ("code", code); ("redirect_uri", oc_redirect_uri config);
   ("client_id", oc_client_id config); ("code_verifier", code_verifier)]%string ++
  (if String.eqb client_secret "" then [] else [("client_secret"%string, client_secret)]).

(** From the code of the provider to the claims of its token. *)
Definition exchange_code (code code_verifier : string) : prog account_eff (result (oidc_config * id_token_claims) string) :=
  or_redirect "internal_error" (msg "Failed to load OIDC config") load_oidc_config (fun config =>
  or_redirect "internal_error" (msg "Failed to fetch OIDC discovery") fetch_discovery (fun discovery =>
  or_redirect "internal_error" (msg "HTTP client error") (trigger HttpClient) (fun _ =>
  or_redirect "internal_error" (msg "Failed to load encryption key") (trigger LoadKey) (fun _ =>
  or_redirect "internal_error" (msg "Failed to decrypt client_secret") (decrypt_client_secret config) (fun client_secret =>
  or_redirect "sso_error" (fun e => "Token exchange failed: " ++ e)%string
    (trigger (PostForm (od_token_endpoint discovery) (token_form code config code_verifier client_secret))) (fun resp =>
  let '(status, shown, id_token) := resp in
  if negb ((200 <=? status) && (status <? 300)) then Ret (Err (error_redirect "sso_error" ("Token exchange failed: HTTP " ++ shown)))
  else
    or_redirect "internal_error" (msg "Failed to parse token response") (Ret id_token) (fun id_token =>
    match id_token with
    | None => Ret (Err (error_redirect "sso_error" "No id_token in response"))
    | Some token =>
        or_redirect "internal_error" (msg "Failed to verify id_token") (verify_id_token token config discovery) (fun claims =>
        Ret (Ok (config, claims)))
    end))))))).

(** Who the provider says the user is. *)
Record identity : Type := Identity {
  id_email : string; id_name : string; id_username : string; id_azure_oid : string; id_subject : string; id_provider : string
}.
Definition provider_of (config : oidc_config) : string :=
  if String.eqb (oc_provider_type config) "keycloak" then "keycloak"
  else if String.eqb (oc_provider_type config) "azure" then "azure_sso" else "oidc".

Definition identity_of (config : oidc_config) (claims : id_token_claims) : result identity string :=
  let email := default ""%string (ic_email claims) in
  let sub := default ""%string (ic_sub claims) in
  let oid := default ""%string (ic_oid claims) in
  let subject := if negb (String.eqb sub "") then sub else oid in
  if String.eqb subject "" then Err (error_redirect "sso_error" "Missing subject identifier in id_token")
  else if String.eqb email "" then Err (error_redirect "sso_error" "Missing email in id_token")
  else Ok (Identity email (default ""%string (ic_name claims)) (default email (ic_preferred_username claims)) oid subject
             (provider_of config)).

Definition non_empty (s : string) : option string := if String.eqb s "" then None else Some s.

(** The user of an identity: of this provider, or with this e-mail address (which
    is then linked to the provider), or a new one. *)
Definition sso_account (i : identity) : prog account_eff (result sso_user string) :=
  let oid := non_empty (id_azure_oid i) in
  let sub := non_empty (id_subject i) in
  let disabled := Ret (Err (error_redirect "account_disabled" "Account is disabled")) in
  or_redirect "internal_error" (msg "Database error") (acc_sql (SelSsoUser (id_email i) (Some (id_provider i)))) (fun user_opt =>
  match user_opt with
  | Some u => if negb (su_is_active u) then disabled else Ret (Ok u)
  | None =>
      or_redirect "internal_error" (msg "Database error") (acc_sql (SelSsoUser (id_email i) None)) (fun existing =>
      match existing with
      | Some u =>
          if negb (su_is_active u) then disabled
          else
            or_redirect "internal_error" (msg "Failed to link SSO account") (acc_sql (UpdLink (su_id u) (id_provider i) oid sub)) (fun _ =>
            trigger (UserEvent "user_created" (su_id u)) ;;
            Ret (Ok (SsoUser (su_id u) (su_username u) (if String.eqb (id_name i) "" then su_display_name u else id_name i)
                       (su_role u) (su_is_active u) (su_mfa_enabled u))))
      | None =>
          or_redirect "internal_error" (msg "Failed to create user")
            (acc_sql (InsSsoUser (id_username i) (id_name i) (id_email i) (id_provider i) oid sub)) (fun id =>
          trigger (UserEvent "user_created" id) ;;
          Ret (Ok (SsoUser id (id_username i) (id_name i) "reporter" true false)))
      end)
  end).

(** The tokens of the user, behind a one-time code. *)
Definition open_session (i : identity) (user : sso_user) : prog account_eff (result string string) :=
  or_redirect "internal_error" (msg "Database error")
    (acc_sql (UpdSsoLogin (su_id user) (non_empty (id_azure_oid i)) (non_empty (id_subject i)))) (fun _ =>
  or_redirect "internal_error" (msg "Token issuance failed")
    (sess_part (issue_access_token (su_id user) (su_username user) (su_role user))) (fun access_token =>
  or_redirect "internal_error" (msg "Refresh token issuance failed") (sess_part (issue sha256_hex (su_id user))) (fun raw_refresh =>
  trigger (UserEvent "user_login" (su_id user)) ;;
  let! handoff_code := trigger RandomCode in
  let! now := clock in
  trigger (HandoffInsert handoff_code
             (SsoHandoff access_token raw_refresh user (id_provider i) access_ttl (now + HANDOFF_TTL_US))) ;;
  Ret (Ok (callback_url ++ "?handoff=" ++ handoff_code)%string)))).

Definition sso_callback (params : callback_params) : prog account_eff (result string string) :=
  match cp_error params, cp_code params, cp_state params with
  | Some error, _, _ =>
      Ret (Err (error_redirect "sso_error"
                  ("OIDC provider error: " ++ error ++ " - " ++ default "" (cp_error_description params))))
  | None, None, _ => Ret (Err (error_redirect "bad_request" "Missing authorization code"))
  | None, Some _, None => Ret (Err (error_redirect "bad_request" "Missing state parameter"))
  | None, Some code, Some state_token =>
      let! session := trigger (SsoRemove state_token) in
      match session with
      | None => Ret (Err (error_redirect "bad_request" "Invalid or expired state token"))
      | Some session =>
          let!? cc := exchange_code code (ss_code_verifier session) in
          match identity_of cc.1 cc.2 with
          | Err redirect => Ret (Err redirect)
          | Ok i =>
              let!? user := sso_account i in
              open_session i user
          end
      end
  end.

(** ** The one-time codes *)

Definition invalid_handoff : api_err := ApiErr 400 "invalid_handoff".

Definition sso_handoff_exchange (code : string) : prog account_eff (result sso_handoff api_err) :=
  let! removed := trigger (HandoffRemove code) in
  match removed with
  | None => Ret (Err invalid_handoff)
  | Some handoff =>
      let! now := clock in
      Ret (if ho_expires_at handoff <=? now then Err invalid_handoff else Ok handoff)
  end.

(** The clean-ups of main.rs, every minute. *)
Definition purge_sso_sessions : prog account_eff unit :=
  let! now := clock in trigger (PurgeSso (now - SSO_SESSION_TTL_US)).
Definition purge_handoffs : prog account_eff unit :=
  let! now := clock in trigger (PurgeHandoffs now).
End Sso.
