(* ===== verification/AccountFlow.v ===== *)
(** * Accounts and sessions: theorems

    What the requests of the account, session and SSO routes may do to the users,
    whoever sends them: rights, credentials, deactivated accounts and the one-time
    codes of a single sign-on. *)

From S2P Require Import Prelude Rbac Conc Session Accounts Sso.

(** ** The requests *)

Inductive web_request : Type :=
| RqLogin (req : login_request) | RqRefresh (raw_token : string) | RqLogout (raw_token : string)
| RqForceChange (username current new : string)
| RqCreate (req : create_user_request) | RqGet (id : uuid) | RqUpdate (id : uuid) (req : update_user_request)
| RqDelete (id : uuid) | RqRevoke (id : uuid) | RqChangeOwn (current new : string)
| RqReset (id : uuid) (new : string) (reset : bool) | RqDisableUserMfa (id : uuid)
| RqMfaSetup | RqMfaVerify (secret code : string) | RqDisableMfa (password : string)
| RqSsoConfig | RqSsoLogin | RqSsoCallback (params : callback_params) | RqHandoff (code : string)
| RqPurge.

Definition discarded {A} (p : prog account_eff A) : prog account_eff unit := p ;; Ret tt.

(** Argon2, AES, TOTP, SHA-256, URL encoding and the configuration. *)
Record account_libs : Type := AccountLibs {
  al_password_ok : string -> string -> bool;
  al_decrypt : string * string -> result string string;
  al_totp_ok : string -> string -> string -> bool;
  al_sha256_hex : string -> string;
  al_urlencode : string -> string;
  al_challenge : string -> string;
  al_callback_url : string;
  al_access_ttl : Z
}.

Section Serve.
Context (L : account_libs).

(** The handler of a request, sent with the token of [auth] (the public routes
    ignore it), or one of the periodic clean-ups. *)
Definition serve (auth : auth_user) (rq : web_request) : prog account_eff unit :=
  let pw := al_password_ok L in
  match rq with
  | RqLogin req => discarded (login_handler pw (al_decrypt L) (al_totp_ok L) (al_sha256_hex L) req)
  | RqRefresh t => discarded (refresh_handler (al_sha256_hex L) t)
  | RqLogout t => discarded (logout_handler (al_sha256_hex L) t)
  | RqForceChange u c n => discarded (force_change_password_handler pw u c n)
  | RqCreate req => discarded (create_user auth req)
  | RqGet id => discarded (get_user auth id)
  | RqUpdate id req => discarded (update_user auth id req)
  | RqDelete id => discarded (delete_user auth id)
  | RqRevoke id => discarded (revoke_user_sessions auth id)
  | RqChangeOwn c n => discarded (change_own_password pw auth c n)
  | RqReset id n r => discarded (admin_reset_password auth id n r)
  | RqDisableUserMfa id => discarded (admin_disable_mfa auth id)
  | RqMfaSetup => discarded (mfa_setup_handler auth)
  | RqMfaVerify s c => discarded (mfa_verify_handler auth s c)
  | RqDisableMfa p => discarded (disable_mfa pw auth p)
  | RqSsoConfig => discarded sso_config
  | RqSsoLogin => discarded (sso_login (al_urlencode L) (al_challenge L))
  | RqSsoCallback ps => discarded (sso_callback (al_urlencode L) (al_sha256_hex L) (al_callback_url L) (al_access_ttl L) ps)
  | RqHandoff c => discarded (sso_handoff_exchange c)
  | RqPurge => purge_sso_sessions ;; purge_handoffs
  end.
End Serve.

(** ** The meaning of the effects

    Statements succeed or report a violated constraint; the provider, the random
    generators and the libraries answer anything.  A hash that Argon2 makes of a
    password verifies it. *)
Definition account_alone (password_ok : string -> string -> bool) : EffectSem account_eff account_db := fun X e s x s' =>
  match e in account_eff Y return Y -> Prop with
  | Sess e => fun x => exists d', session_alone _ e (ad_session s) x d' /\ s' = with_session d' s
  | AccSql q => fun x => x = (exec_account_stmt q s).1 /\ s' = (exec_account_stmt q s).2
  | HashPassword pw => fun x => s' = s /\ forall h, x = Ok h -> password_ok pw h = true
  | SsoInsert state v => fun _ => s' = with_sso_sessions (<[state := v]> (ad_sso_sessions s)) s
  | SsoRemove state => fun x => x = ad_sso_sessions s !! state /\ s' = with_sso_sessions (delete state (ad_sso_sessions s)) s
  | HandoffInsert code h => fun _ => s' = with_handoffs (<[code := h]> (ad_handoffs s)) s
  | HandoffRemove code => fun x => x = ad_handoffs s !! code /\ s' = with_handoffs (delete code (ad_handoffs s)) s
  | PurgeSso cutoff => fun _ => s' = with_sso_sessions (filter (fun kv => cutoff < ss_created_at kv.2) (ad_sso_sessions s)) s
  | PurgeHandoffs now => fun _ => s' = with_handoffs (filter (fun kv => now < ho_expires_at kv.2) (ad_handoffs s)) s
  | ReadCache => fun x => x = ad_cache s /\ s' = s
  | WriteDiscovery disc => fun _ => s' = with_cache (OidcCache (Some disc) (ca_jwks (ad_cache s)) (ca_jwks_fetched_at (ad_cache s))) s
  | WriteJwks jwks t => fun _ => s' = with_cache (OidcCache (ca_discovery (ad_cache s)) (Some jwks) (Some t)) s
  | _ => fun _ => s' = s
  end x.

(** ** Rights and credentials *)

Definition same_rights (u u' : db_user) : Prop :=
  u_username u' = u_username u /\ u_role u' = u_role u /\ u_is_active u' = u_is_active u.
Definition same_credentials (u u' : db_user) : Prop :=
  u_password_hash u' = u_password_hash u /\ u_totp_secret u' = u_totp_secret u /\ u_mfa_enabled u' = u_mfa_enabled u.

(** A public request that knows the password of the user. *)
Definition is_force_change (rq : web_request) : Prop := match rq with RqForceChange _ _ _ => True | _ => False end.
Definition names_password (password_ok : string -> string -> bool) (u : db_user) (rq : web_request) : Prop :=
  match rq with
  | RqForceChange name current _ => name = u_username u /\ password_ok current (default ""%string (u_password_hash u)) = true
  | _ => False
  end.

#[export] Instance is_force_change_dec rq : Decision (is_force_change rq).
Proof. destruct rq; solve_decision. Defined.
#[export] Instance names_password_dec password_ok u rq : Decision (names_password password_ok u rq).
Proof. destruct rq; solve_decision. Defined.

#[export] Instance same_rights_preorder : PreOrder same_rights.
Proof. split; [intros u; by split_and!|]. intros u1 u2 u3 (H1 & H2 & H3) (H4 & H5 & H6). split_and!; congruence. Qed.
#[export] Instance same_credentials_preorder : PreOrder same_credentials.
Proof. split; [intros u; by split_and!|]. intros u1 u2 u3 (H1 & H2 & H3) (H4 & H5 & H6). split_and!; congruence. Qed.

(** *** Effects that a caller without the admin role may cause *)

Definition unprivileged (own : uuid) (X : Type) (e : account_eff X) : Prop :=
  match e with
  | AccSql (InsUser _ _ _ _ _) | AccSql (DelUser _) => False
  | AccSql (UpdUser id _ _ role active reset) => id = own /\ role = None /\ active = None /\ reset = None
  | AccSql (UpdPassword id _ _) | AccSql (UpdTotp id _) => id = own
  | _ => True
  end.

(** Only the public change of a password may change one that is not the caller's. *)
Definition forces (X : Type) (e : account_eff X) : Prop :=
  match e with AccSql (UpdForcedPassword _ _) => True | _ => False end.
Definition allowed (own : uuid) (may_force : Prop) (X : Type) (e : account_eff X) : Prop :=
  unprivileged own X e /\ (forces X e -> may_force).

Section Unprivileged.
Context (L : account_libs) (auth : auth_user).
Context (not_admin : is_admin (au_role auth) = false).

Lemma sess_unprivileged F {A} (p : prog session_eff A) : only (allowed (au_id auth) F) (sess_part p).
Proof using Type. induction p as [a|X e k IH]; simpl; [done|]. split; [by split|]. apply IH. Qed.

#[local] Hint Extern 1 (allowed _ _ _ _) => split; cbn [unprivileged forces]; solve [auto | by intros []] : only.
#[local] Hint Resolve sess_unprivileged : only.

Ltac unprivileged_auto := unfold confirm_password, hash_new, update_row; unfold or_err, or_redirect, acc_sql, clock, answer; only_auto.

Lemma sso_unprivileged F ps :
  only (allowed (au_id auth) F) (sso_callback (al_urlencode L) (al_sha256_hex L) (al_callback_url L) (al_access_ttl L) ps).
Proof using Type.
  assert (only (allowed (au_id auth) F) fetch_discovery) as Hd
    by (unfold fetch_discovery, load_oidc_config, cached_discovery; unprivileged_auto).
  assert (forall d, only (allowed (au_id auth) F) (provider_keys d)) as Hk
    by (intros d; unfold provider_keys, cached_jwks; unprivileged_auto).
  assert (forall t c d, only (allowed (au_id auth) F) (verify_id_token t c d)) as Hv
    by (intros t c d; unfold verify_id_token; unprivileged_auto).
  unfold sso_callback, exchange_code, load_oidc_config, decrypt_client_secret, sso_account, open_session. unprivileged_auto.
Qed.

Lemma serve_unprivileged rq : only (allowed (au_id auth) (is_force_change rq)) (serve L auth rq).
Proof using not_admin.
  destruct rq; cbn [serve]; cbn [is_force_change]; unfold discarded.
  all: try (apply only_bind; [|done]).
  all: unfold create_user, get_user, update_user, delete_user, revoke_user_sessions, admin_reset_password, admin_disable_mfa,
         login_handler, refresh_handler, logout_handler, force_change_password_handler, change_own_password, mfa_setup_handler,
         mfa_verify_handler, disable_mfa, sso_config, sso_login, fetch_discovery, cached_discovery, load_oidc_config,
         sso_handoff_exchange, purge_sso_sessions, purge_handoffs; rewrite ?not_admin; cbn [negb andb].
  all: try apply sso_unprivileged.
  all: try solve [unprivileged_auto].
  destruct (bool_decide (au_id auth = id)) eqn:Hown; cbn [negb]; [|done]. apply bool_decide_eq_true in Hown as ->.
  destruct req as [name email role active reset].
  cbn [up_role up_is_active up_force_password_reset up_display_name up_email].
  destruct (_ || _ || _) eqn:Hnone; cbn [andb]; [done|]. apply orb_false_iff in Hnone as [[Hr Ha]%orb_false_iff Hf].
  apply bool_decide_eq_false, eq_None_not_Some in Hr, Ha, Hf. subst. cbn [fmap option_fmap option_map]. unprivileged_auto.
Qed.
End Unprivileged.

(** *** What such effects do to a user *)

Lemma on_user_answer id f g d : (on_user id f g d).1 = Ok (if bool_decide (is_Some (ad_users d !! id)) then 1 else 0).
Proof. done. Qed.

Lemma on_user_lookup id f g d k : ad_users (on_user id f g d).2 !! k = if bool_decide (k = id) then f <$> ad_users d !! k else ad_users d !! k.
Proof.
  unfold on_user, ad_users, with_users, with_session, set_users. simpl.
  destruct (decide (k = id)) as [->|Hne]; [by rewrite bool_decide_true, lookup_alter_eq|by rewrite bool_decide_false, lookup_alter_ne].
Qed.

Lemma add_user_lookup u p d k : ad_users (add_user u p d).2 !! k = ad_users d !! k \/
  (ad_users d !! k = None /\ ad_users (add_user u p d).2 !! k = Some u).
Proof.
  unfold add_user. destruct (_ || _); [by left|]. set (id := fresh _). change (ad_users (snd _)) with (<[id := u]> (ad_users d)).
  destruct (decide (k = id)) as [->|Hne]; [right|left; by rewrite lookup_insert_ne].
  rewrite lookup_insert_eq. split; [|done]. apply not_elem_of_dom. intros Hin.
  apply (is_fresh (dom (ad_users d) ∪ dom (ad_profiles d))). by apply elem_of_union_l.
Qed.

(** The row of user [k] before and after: the rights stay, and so do the
    credentials unless [k] is the caller or the password was [forced]. *)
Definition user_step (own : uuid) (forced : Prop) (k : uuid) (o o' : option db_user) : Prop :=
  match o, o' with
  | Some u, Some u' => same_rights u u' /\ (k <> own -> ~ forced -> same_credentials u u')
  | None, Some u' => u_role u' = "reporter"%string
  | None, None => True
  | Some _, None => False
  end.

Lemma user_step_refl own forced k o : user_step own forced k o o.
Proof. destruct o as [u|]; [|done]. split; [done|]. by intros _ _. Qed.

Lemma user_step_map own forced k k' (f : db_user -> db_user) (o : option db_user) :
  (forall u, same_rights u (f u)) -> (k' <> own -> ~ forced -> forall u, same_credentials u (f u)) ->
  user_step own forced k o (if bool_decide (k = k') then f <$> o else o).
Proof.
  intros Hr Hc. case_bool_decide as Hk; [|apply user_step_refl]. subst k'. destruct o as [u|]; [|done].
  split; [apply Hr|]. intros H1 H2. by apply Hc.
Qed.

Lemma alter_as_if (f : db_user -> db_user) k' (m : gmap uuid db_user) k :
  alter f k' m !! k = if bool_decide (k = k') then f <$> m !! k else m !! k.
Proof.
  destruct (decide (k = k')) as [->|Hne]; [by rewrite bool_decide_true, lookup_alter_eq|by rewrite bool_decide_false, lookup_alter_ne].
Qed.

Lemma session_user_step own forced X (e : session_eff X) s x s' k :
  session_alone _ e s x s' -> user_step own forced k (s_users s !! k) (s_users s' !! k).
Proof.
  intros (t & _ & He). destruct e as [Y q| | |].
  2: destruct He as [_ ->]; apply user_step_refl.
  2,3: cbv beta iota in He; subst s'; apply user_step_refl.
  destruct He as [_ ->]. destruct q; cbn [exec_session_stmt snd]; try apply user_step_refl.
  1-3: cbn [set_users s_users]; rewrite alter_as_if; apply user_step_map; by intros; split_and!.
  unfold ins_token. repeat case_match; apply user_step_refl.
Qed.

Lemma effect_user_step password_ok own X (e : account_eff X) d x d' k :
  unprivileged own X e -> account_alone password_ok _ e d x d' ->
  user_step own (forces X e) k (ad_users d !! k) (ad_users d' !! k).
Proof.
  intros Hg He. destruct e as [Y e|Y q| | | | | | | | | | | | | | | | | | | | | | |]; cbn [account_alone] in He.
  all: repeat match goal with H : _ /\ _ |- _ => destruct H end; subst; try apply user_step_refl.
  - destruct He as (s' & Hs & ->). by apply (session_user_step own (forces _ (Sess e)) _ _ _ _ _ k Hs).
  - destruct q; simpl in Hg; cbn [exec_account_stmt snd]; try done; try apply user_step_refl.
    all: try (case_match; [apply user_step_refl|]).
    all: try (rewrite on_user_lookup; apply user_step_map; [by intros; split_and!|]).
    all: try (intros Hne Hf u; by split_and!).
    + destruct Hg as (-> & -> & -> & ->). rewrite on_user_lookup. apply user_step_map; [by intros; split_and!|done].
    + destruct (add_user_lookup (DbUser username "reporter" (String.eqb provider "local") None None false true false 0 None None)
        (Profile email display_name provider oid sub) d k) as [->|[-> ->]]; [apply user_step_refl|done].
Qed.

Lemma user_step_weaken own (F F' : Prop) k o o' : (~ F' -> k <> own -> ~ F) ->
  user_step own F k o o' -> user_step own F' k o o'.
Proof. intros HF. destruct o, o'; simpl; try done. intros [Hr Hc]. split; [done|]. intros Hk Hf'. apply Hc; auto. Qed.

Lemma user_step_trans own (F F' : Prop) k o1 o2 o3 : (k <> own -> ~ F -> ~ F') ->
  user_step own F k o1 o2 -> user_step own F' k o2 o3 -> user_step own F k o1 o3.
Proof.
  intros HF. destruct o1 as [u1|], o2 as [u2|], o3 as [u3|]; simpl; try done.
  - intros [R1 C1] [R2 C2]. split; [by etrans|]. intros Hk Hf. etrans; [by apply C1|]. apply C2; auto.
  - intros Hr [(_ & -> & _) _]. done.
Qed.

(** *** Requests and their sequences *)

Section Rights.
Context (L : account_libs).

Abbreviation awp := (@wp account_eff account_db (account_alone (al_password_ok L)) _).

Lemma allowed_steps {A} own F (p : prog account_eff A) d k : only (allowed own F) p ->
  awp p (fun _ d' => user_step own F k (ad_users d !! k) (ad_users d' !! k)) d.
Proof.
  intros Hp. apply (@only_invariant _ _ _ (account_alone (al_password_ok L)) _
    (fun d' => user_step own F k (ad_users d !! k) (ad_users d' !! k)) p d) in Hp; [done| |apply user_step_refl].
  intros X e t x t' [Hu Hf] Ht He. eapply user_step_trans; [|exact Ht|by eapply effect_user_step]. auto.
Qed.

(** A changed password was named with the current one. *)
Lemma force_change_step name current new d k u :
  ad_users d !! k = Some u -> ~ names_password (al_password_ok L) u (RqForceChange name current new) ->
  awp (force_change_password_handler (al_password_ok L) name current new)
    (fun _ d' => ad_users d' !! k = Some u) d.
Proof.
  intros Hk Hno. unfold force_change_password_handler. destruct (validate_password_strength new); [|done].
  unfold or_err, acc_sql. intros x d1 [-> ->]. cbn [exec_account_stmt fst snd bind].
  destruct (find_row _ (ad_users d)) as [[id u']|] eqn:Hf; cbn [fmap option_fmap option_map fst snd]; [|done].
  apply find_row_Some in Hf as [Hid [Hn _]%andb_true_iff]. apply String.eqb_eq in Hn.
  destruct (al_password_ok L current (default ""%string (u_password_hash u'))) eqn:Hpw; cbn [negb]; [|done].
  intros h d1 [-> _]. destruct h as [hash|e]; [|done]. intros y d2 [-> ->]. cbn [bind wp exec_account_stmt snd fst].
  rewrite on_user_answer. cbn [wp]. rewrite on_user_lookup, bool_decide_false; [done|]. intros ->. rewrite Hk in Hid. simplify_eq. by apply Hno.
Qed.

Lemma serve_step auth rq d k : is_admin (au_role auth) = false ->
  awp (serve L auth rq) (fun _ d' => user_step (au_id auth)
    (exists u, ad_users d !! k = Some u /\ names_password (al_password_ok L) u rq) k (ad_users d !! k) (ad_users d' !! k)) d.
Proof.
  intros Hadm. pose proof (serve_unprivileged L auth Hadm rq) as Hs. apply (allowed_steps _ _ _ d k) in Hs.
  destruct (decide (is_force_change rq)) as [Hrq|Hrq].
  2:{ eapply wp_mono; [|exact Hs]. intros a d'. by apply user_step_weaken. }
  destruct (ad_users d !! k) as [u|] eqn:Hk.
  2:{ eapply wp_mono; [|exact Hs]. intros a d' Hd'. cbv beta in *. by destruct (ad_users d' !! k). }
  destruct (decide (names_password (al_password_ok L) u rq)) as [Hn|Hn].
  - eapply wp_mono; [|exact Hs]. intros a d'. apply user_step_weaken. intros HF _ _. apply HF. by exists u.
  - destruct rq; try done. cbn [serve discarded]. apply wp_bind. eapply wp_mono; [|by apply force_change_step].
    intros a d' Hd'. cbv beta in Hd'. cbn [wp]. rewrite Hd'. apply user_step_refl.
Qed.

Lemma serve_steps auth rqs d k : is_admin (au_role auth) = false ->
  awp (for_each rqs (serve L auth)) (fun _ d' => user_step (au_id auth)
    (exists u rq, ad_users d !! k = Some u /\ rq ∈ rqs /\ names_password (al_password_ok L) u rq) k
    (ad_users d !! k) (ad_users d' !! k)) d.
Proof.
  intros Hadm. revert d. induction rqs as [|rq rqs IH]; intros d; cbn [for_each]; [apply user_step_refl|].
  apply wp_bind. eapply wp_mono; [|by apply (serve_step auth rq d k)]. intros a d1 H1. eapply wp_mono; [|apply IH].
  intros b d2 H2. cbv beta in *. destruct (ad_users d !! k) as [u|] eqn:Hk, (ad_users d1 !! k) as [u1|] eqn:Hk1; try done.
  - eapply (user_step_trans _ _ _ _ _ (Some u1)); [|eapply user_step_weaken; [|exact H1]|exact H2].
    + intros Hne HF (u1' & rq' & [= <-] & Hin & Hn). destruct H1 as [(Hname & _) Hc]. apply HF.
      exists u, rq'. split; [done|]. split; [by right|].
      assert (same_credentials u u1) as (Hh & _ & _).
      { apply Hc; [done|]. intros (u' & [= <-] & Hn'). apply HF. exists u, rq. split; [done|]. split; [by left|done]. }
      destruct rq'; try done. simpl in *. by rewrite <- Hname, <- Hh.
    + intros HF _ (u' & [= <-] & Hn'). apply HF. exists u, rq. split; [done|]. split; [by left|done].
  - destruct (ad_users d2 !! k) as [u2|]; [|done]. destruct H2 as [(_ & Hrole & _) _]. simpl in *. congruence.
Qed.

(** C14. A caller without the admin role, and anonymous requests, whatever they send:
    every user stays, with its name, role and active flag; an account that comes
    into being is a reporter's; and the password and second factor of another
    user stay as they are unless a request names that user's current password. *)
Theorem no_privilege_escalation auth rqs d : is_admin (au_role auth) = false ->
  awp (for_each rqs (serve L auth)) (fun _ d' =>
    (forall id u, ad_users d !! id = Some u -> exists u', ad_users d' !! id = Some u' /\ same_rights u u' /\
       (id <> au_id auth -> (forall rq, rq ∈ rqs -> ~ names_password (al_password_ok L) u rq) -> same_credentials u u')) /\
    (forall id u', ad_users d !! id = None -> ad_users d' !! id = Some u' -> u_role u' = "reporter"%string)) d.
Proof.
  intros Hadm.
  assert (forall k, awp (for_each rqs (serve L auth)) (fun _ d' => user_step (au_id auth)
            (exists u rq, ad_users d !! k = Some u /\ rq ∈ rqs /\ names_password (al_password_ok L) u rq) k
            (ad_users d !! k) (ad_users d' !! k)) d) as Hall.
  { intros k. by apply serve_steps. }
  apply wp_all in Hall. eapply wp_mono; [|exact Hall]. intros a d' Hd'. cbv beta in Hd'. split.
  - intros id u Hid. specialize (Hd' id). rewrite Hid in Hd'. destruct (ad_users d' !! id) as [u'|]; [|done].
    destruct Hd' as [Hr Hc]. exists u'. split; [done|]. split; [done|]. intros Hne Hno. apply Hc; [done|].
    intros (u1 & rq & [= <-] & Hin & Hn). by apply (Hno rq).
  - intros id u' Hid Hid'. specialize (Hd' id). by rewrite Hid, Hid' in Hd'.
Qed.
End Rights.

(** ** A concrete server *)

(** A deterministic server: the provider answers by [get], [post] and [decode];
    random strings are numbered. *)
Definition account_world (get : string -> json) (post : option string) (claims : id_token_claims)
    (X : Type) (e : account_eff X) (d : account_db) : X * account_db :=
  match e in account_eff Y return Y * account_db with
  | Sess e => let r := session_world _ e (ad_session d) in (r.1, with_session r.2 d)
  | AccSql q => exec_account_stmt q d
  | HashPassword pw => (Ok ("hash of " ++ pw)%string, d)
  | GenerateTotp _ => (Ok ("secret", "uri")%string, d)
  | CheckTotp _ _ _ => (Ok true, d)
  | LoadKey => (Ok tt, d)
  | EncryptSecret s => (Ok (s, "nonce"%string), d)
  | DecryptSecret s => (Ok s.1, d)
  | UserEvent _ _ => (tt, d)
  | SsoInsert state v => (tt, with_sso_sessions (<[state := v]> (ad_sso_sessions d)) d)
  | SsoRemove state => (ad_sso_sessions d !! state, with_sso_sessions (delete state (ad_sso_sessions d)) d)
  | HandoffInsert code h => (tt, with_handoffs (<[code := h]> (ad_handoffs d)) d)
  | HandoffRemove code => (ad_handoffs d !! code, with_handoffs (delete code (ad_handoffs d)) d)
  | PurgeSso cutoff => (tt, with_sso_sessions (filter (fun kv => cutoff < ss_created_at kv.2) (ad_sso_sessions d)) d)
  | PurgeHandoffs now => (tt, with_handoffs (filter (fun kv => now < ho_expires_at kv.2) (ad_handoffs d)) d)
  | ReadCache => (ad_cache d, d)
  | WriteDiscovery disc => (tt, with_cache (OidcCache (Some disc) (ca_jwks (ad_cache d)) (ca_jwks_fetched_at (ad_cache d))) d)
  | WriteJwks jwks t => (tt, with_cache (OidcCache (ca_discovery (ad_cache d)) (Some jwks) (Some t)) d)
  | HttpClient => (Ok tt, d)
  | GetJson url => (Ok (get url), d)
  | PostForm _ _ => (Ok (200, "200 OK"%string, Ok post), d)
  | RandomCode => (("code" ++ dec (Z.of_nat (size (ad_handoffs d))))%string, d)
  | NewUuid => (("state" ++ dec (Z.of_nat (size (ad_sso_sessions d))))%string, d)
  | TokenKid _ => (Ok (Some "kid"%string), d)
  | DecodeToken _ _ _ _ _ => (Ok claims, d)
  end.

Lemma account_world_alone get post claims X (e : account_eff X) d :
  (forall pw, demo_password_ok pw ("hash of " ++ pw) = true) ->
  account_alone demo_password_ok X e d (account_world get post claims X e d).1 (account_world get post claims X e d).2.
Proof.
  intros Hpw. destruct e; try done; cbn [account_alone account_world fst snd].
  - exists (session_world _ e (ad_session d)).2. split; [apply session_world_alone|done].
  - split; [done|]. by intros h [= <-].
Qed.

Definition demo_libs : account_libs :=
  AccountLibs demo_password_ok (fun s => Ok s.1) demo_totp_ok plain plain plain "/login" 900.
Definition no_claims : id_token_claims := IdTokenClaims None None None None None.
Definition quiet_world := account_world (fun _ => JNull) None no_claims.

Definition admin_id : uuid := 1%N.
Definition demo_admin : auth_user := AuthUser admin_id "root" Admin.
Definition demo_operator : auth_user := AuthUser user_a "alice" Operator.
Definition admin_row : db_user :=
  DbUser "root" "admin" true (Some "hash of Adm1n!pw"%string) None false true false 0 None None.
Definition demo_accounts : account_db :=
  AccountDb (SessionDb (12 * hour_us) {[user_a := demo_session_user 0 None; admin_id := admin_row]} ∅)
    {[user_a := Profile "alice@example.com" "Alice" "local" None None; admin_id := Profile "root@example.com" "Root" "local" None None]}
    ∅ ∅ (OidcCache None None None) None.

(** The operator asks for more rights, forces a wrong password and changes her own. *)
Definition demo_requests : list web_request :=
  [RqUpdate user_a (UpdateUserRequest None None (Some "admin"%string) None None);
   RqForceChange "root" "guess" "N3w!passw"; RqChangeOwn "secret" "N3w!passw"; RqDelete admin_id].

Lemma no_privilege_escalation_witness :
  @wp account_eff account_db (account_alone demo_password_ok) _ (for_each demo_requests (serve demo_libs demo_operator)) (fun _ d' =>
    (forall id u, ad_users demo_accounts !! id = Some u -> exists u', ad_users d' !! id = Some u' /\ same_rights u u' /\
       (id <> user_a -> (forall rq, rq ∈ demo_requests -> ~ names_password demo_password_ok u rq) -> same_credentials u u')) /\
    (forall id u', ad_users demo_accounts !! id = None -> ad_users d' !! id = Some u' -> u_role u' = "reporter"%string)) demo_accounts /\
  (u_password_hash <$> ad_users (run quiet_world (for_each demo_requests (serve demo_libs demo_operator)) demo_accounts).2 !! user_a) =
    Some (Some "hash of N3w!passw"%string).
Proof.
  split; [|vm_compute; reflexivity].
  apply (no_privilege_escalation demo_libs demo_operator demo_requests demo_accounts). reflexivity.
Defined.
