(* ===== verification/AccountGuards.v ===== *)
(** * Deactivated accounts, one-time codes and password resets: theorems

    A deactivated user gets no access token from any request; a password that an
    administrator sets may have to be changed before it opens a session; the code
    of a single sign-on delivers its tokens once. *)

From S2P Require Import Prelude Rbac Conc Session Accounts Sso AccountFlow.

(** ** Deactivated accounts *)

(** The row of the user is there and not active. *)
Definition deactivated (k : uuid) (d : account_db) : Prop := exists u, ad_users d !! k = Some u /\ u_is_active u = false.

(** An access token for the user. *)
Definition signs_for (k : uuid) (X : Type) (e : account_eff X) : Prop :=
  match e with Sess (IssueAccessToken user _ _) => user = k | _ => False end.
Definition next_effect (P : forall X, account_eff X -> Prop) {A} (p : prog account_eff A) : Prop :=
  match p with Ret _ => False | Vis e _ => P _ e end.

(** A request of someone who is not an administrator, or a clean-up. *)
Definition ordinary_request (L : account_libs) (p : prog account_eff unit) : Prop :=
  exists auth rq, is_admin (au_role auth) = false /\ p = serve L auth rq.

(** *** Logins and refreshes *)

Definition session_deactivated (k : uuid) (s : session_db) : Prop := exists u, s_users s !! k = Some u /\ u_is_active u = false.
Definition session_unsigned (k : uuid) (X : Type) (e : session_eff X) : Prop :=
  match e with IssueAccessToken user _ _ => user <> k | _ => True end.
#[local] Hint Extern 1 (session_unsigned _ _ _) => cbn [session_unsigned]; auto : only.
Ltac unsigned_auto := unfold snow, sql_as, issue_access_token; only_auto.

Section SessionSigning.
Context (k : uuid).
#[local] Existing Instance session_alone.

Lemma session_keeps : keeps (session_unsigned k) (session_deactivated k).
Proof using Type.
  intros X e s x s' _ (u & Hk & Ha) Hx. apply (session_user_step k True _ _ _ _ _ k) in Hx. rewrite Hk in Hx.
  unfold session_deactivated. destruct (s_users s' !! k) as [u'|]; [|done]. destruct Hx as [(_ & _ & Hact) _].
  exists u'. split; [done|congruence].
Qed.

(** A found row that is not active is the user's own. *)
Lemma login_unsigned pw de tt_ sha req :
  gpost (session_unsigned k) (session_deactivated k) (login pw de tt_ sha req) (fun _ => True).
Proof using Type.
  unfold login. unfold bind_ok at 1, sql_as at 1.
  apply (gpost_bind _ _ _ _ (fun r => forall id u, r = Ok (Some (id, u)) -> u_is_active u = true -> id <> k)).
  { apply (gpost_bind _ _ _ _ (fun r => forall id u, r = Ok (Some (id, u)) -> u_is_active u = true -> id <> k)).
    { apply gpost_trigger; [apply session_keeps|done|]. intros s x s' (u' & Hk & Ha) (t & _ & -> & _) id u [= Hf] Hact ->.
      apply find_row_Some in Hf as [Hid _]. simpl in Hid. congruence. }
    intros [x|m]; [|by intros]. intros Hx id u [= ->]. by apply Hx. }
  intros [[[id u]|]|e] Hrow; try done. 
  assert (u_is_active u = true -> id <> k) as Hne by by apply (Hrow id u).
  apply only_gpost; [apply session_keeps|]. destruct (u_is_active u); cbn [negb].
  - specialize (Hne eq_refl). unfold check_lock, wrong_password, issue. unsigned_auto.
  - unfold check_lock, wrong_password. unsigned_auto.
Qed.

(** The user of a rotated token is read again. *)
Lemma refresh_unsigned sha raw :
  gpost (session_unsigned k) (session_deactivated k) (refresh_session sha raw) (fun _ => True).
Proof using Type.
  unfold refresh_session. unfold bind_ok at 1. apply (gpost_bind _ _ _ _ (fun _ => True)).
  { apply only_gpost; [apply session_keeps|]. unfold rotate, issue. unsigned_auto. }
  intros [new|e] _; [|done]. unfold bind_ok at 1, sql_as at 1.
  apply (gpost_bind _ _ _ _ (fun r => forall u, r = Ok (Some u) -> u_is_active u = true -> new.2 <> k)).
  { apply (gpost_bind _ _ _ _ (fun r => forall u, r = Ok (Some u) -> u_is_active u = true -> new.2 <> k)).
    { apply gpost_trigger; [apply session_keeps|done|]. intros s x s' (u' & Hk & Ha) (t & _ & -> & _) u [= Hf] Hact <-.
      simpl in Hf. congruence. }
    intros [x|m]; [|by intros]. intros Hx u [= ->]. by apply Hx. }
  intros [[u|]|e] Hrow; try done. assert (u_is_active u = true -> new.2 <> k) as Hne by by apply Hrow.
  apply only_gpost; [apply session_keeps|]. destruct (u_is_active u); cbn [negb].
  - specialize (Hne eq_refl). unsigned_auto.
  - unfold revoke_all_for_user. unsigned_auto.
Qed.
End SessionSigning.

Section Deactivated.
Context (L : account_libs) (auth : auth_user) (k : uuid).

#[local] Instance deactivated_sem : EffectSem account_eff account_db := account_alone (al_password_ok L).

(** Signs nothing for [k]; changes rights of nobody. *)
Definition unsigned (X : Type) (e : account_eff X) : Prop := ~ signs_for k X e.
Definition harmless (X : Type) (e : account_eff X) : Prop := unprivileged (au_id auth) X e /\ unsigned X e.
(** Signs nothing at all. *)
Definition signless (X : Type) (e : account_eff X) : Prop :=
  match e with Sess (IssueAccessToken _ _ _) => False | _ => True end.

Lemma harmless_keeps : keeps harmless (deactivated k).
Proof using Type.
  intros X e s x s' [Hu _] (u & Hk & Ha) Hx. apply (effect_user_step _ _ _ _ _ _ _ k Hu) in Hx. rewrite Hk in Hx.
  unfold deactivated. destruct (ad_users s' !! k) as [u'|]; [|done]. destruct Hx as [(_ & _ & Hact) _].
  exists u'. split; [done|congruence].
Qed.

Abbreviation guarded := (gsafe harmless (deactivated k)).
Abbreviation gives p Q := (gpost harmless (deactivated k) p Q).

Lemma signless_unsigned X (e : account_eff X) : signless X e -> unsigned X e.
Proof using Type. intros He Hs. destruct e as [Y e| | | | | | | | | | | | | | | | | | | | | | | |]; [destruct e|..]; done. Qed.

#[local] Existing Instance session_alone.
Lemma sess_gpost {A} (p : prog session_eff A) Q :
  gpost (session_unsigned k) (session_deactivated k) p Q -> gives (sess_part p) Q.
Proof using Type.
  induction p as [a|X e kont IH]; [done|]. intros [He Hk]. cbn [sess_part]. split.
  - split; [done|]. destruct e; unfold unsigned; simpl; auto.
  - intros s x s' Hs (d' & Hx & ->). destruct (Hk _ x d' Hs Hx) as [Hs' Hg]. split; [done|]. by apply IH.
Qed.


Lemma only_guards {A} (p : prog account_eff A) :
  only (fun X e => exists F, allowed (au_id auth) F X e) p -> only signless p -> gives p (fun _ => True).
Proof using Type.
  intros H1 H2. apply only_gpost; [apply harmless_keeps|]. eapply only_mono; [|apply (only_conj _ _ _ H1 H2)].
  intros X e [[F [Hu _]] Hs]. split; [done|by apply signless_unsigned].
Qed.

(** *** The callback of a single sign-on *)

Lemma gives_redirect {A B Er} code (m : Er -> string) (p : prog account_eff (result A Er)) (f : A -> prog account_eff (result B string))
    (Q : A -> Prop) (P : result B string -> Prop) :
  gives p (fun r => forall a, r = Ok a -> Q a) -> (forall a, Q a -> gives (f a) P) -> (forall e, P (Err e)) ->
  gives (or_redirect (al_urlencode L) (al_callback_url L) code m p f) P.
Proof using Type.
  intros Hp Hf He. unfold or_redirect. apply (gpost_bind _ _ _ _ _ _ Hp). intros [a|e] Ha; [by apply Hf, Ha|]. apply He.
Qed.

Lemma gives_redirect_any {A B Er} code (m : Er -> string) (p : prog account_eff (result A Er)) (f : A -> prog account_eff (result B string))
    (P : result B string -> Prop) :
  gives p (fun _ => True) -> (forall a, gives (f a) P) -> (forall e, P (Err e)) ->
  gives (or_redirect (al_urlencode L) (al_callback_url L) code m p f) P.
Proof using Type. intros Hp Hf He. eapply (gives_redirect _ _ _ _ (fun _ => True)); [by eapply gpost_mono; [|exact Hp]|auto|done]. Qed.

#[local] Hint Extern 1 (signless _ _) => exact I : only.
#[local] Hint Extern 1 (exists F, allowed _ F _ _) => exists True; split; [cbn [unprivileged]; auto|auto] : only.
#[local] Hint Resolve sess_unprivileged : only.

Ltac guards_auto := unfold or_err, or_redirect, acc_sql, clock, answer; only_auto.

Lemma gives_only_sql {X} (q : account_stmt X) (Q : X -> Prop) :
  unprivileged (au_id auth) _ (AccSql q) ->
  (forall d x, deactivated k d -> (exec_account_stmt q d).1 = Ok x -> Q x) ->
  gives (acc_sql q) (fun r => forall x, r = Ok x -> Q x).
Proof using Type.
  intros Hu HQ. apply gpost_trigger; [apply harmless_keeps|split; [done|intros []]|]. intros s x s' Hs [Hx _] y Hy. apply (HQ s y Hs). congruence.
Qed.

Lemma sel_sso_user_active email provider d u :
  deactivated k d -> sel_sso_user email provider d = Some u -> su_is_active u = true -> su_id u <> k.
Proof using Type.
  intros (u' & Hk & Ha) Hs Hact Hid. unfold sel_sso_user in Hs. destruct (find_row _ _) as [[id p]|]; [|done]. cbn [mbind option_bind] in Hs.
  destruct (ad_users d !! id) as [v|] eqn:Hv; [|done]. cbn in Hs. injection Hs as <-. simpl in *. congruence.
Qed.

Lemma add_user_new u p d id : deactivated k d -> (add_user u p d).1 = Ok id -> id <> k.
Proof using Type.
  intros (u' & Hk & _). unfold add_user. destruct (_ || _); [done|]. cbn [fst]. intros [= <-] Hf.
  apply (is_fresh (dom (ad_users d) ∪ dom (ad_profiles d))). rewrite Hf. apply elem_of_union_l. by apply elem_of_dom_2 in Hk.
Qed.

(** The user whom a callback logs in is another one. *)
Lemma sso_account_guarded i :
  gives (sso_account (al_urlencode L) (al_callback_url L) i) (fun r => forall u, r = Ok u -> su_id u <> k).
Proof using Type.
  unfold sso_account.
  assert (forall provider, gives (acc_sql (SelSsoUser (id_email i) provider))
            (fun r => forall o, r = Ok o -> forall u, o = Some u -> su_is_active u = true -> su_id u <> k)) as Hsel.
  { intros provider. apply gives_only_sql; [done|]. intros d o Hd [= Ho] u -> Hact. by eapply sel_sso_user_active. }
  eapply gives_redirect; [apply Hsel| |done]. intros [u|] Hu.
  { destruct (su_is_active u) eqn:Ha; cbn [negb]; [|done]. intros v [= <-]. by apply (Hu u). }
  eapply gives_redirect; [apply Hsel| |done]. intros [u|] Hu'.
  - destruct (su_is_active u) eqn:Ha; cbn [negb]; [|done]. apply gives_redirect_any; [|intros n|done].
    + apply only_guards; guards_auto.
    + apply (gpost_bind _ _ _ _ (fun _ => True)); [apply only_guards; guards_auto|]. intros _ _ v [= <-]. by apply (Hu' u).
  - eapply (gives_redirect _ _ _ _ (fun id => id <> k)); [|intros id Hid|done].
    + apply gives_only_sql; [done|]. intros d id Hd Hid. by eapply add_user_new.
    + apply (gpost_bind _ _ _ _ (fun _ => True)); [apply only_guards; guards_auto|]. intros _ _ v [= <-]. done.
Qed.

Lemma open_session_guarded i user : su_id user <> k ->
  gives (open_session (al_urlencode L) (al_sha256_hex L) (al_callback_url L) (al_access_ttl L) i user) (fun _ => True).
Proof using Type.
  intros Hne. unfold open_session.
  apply gives_redirect_any; [apply only_guards; guards_auto|intros n|done].
  apply gives_redirect_any; [|intros access|done].
  { apply sess_gpost, only_gpost; [apply session_keeps|]. unsigned_auto. }
  apply gives_redirect_any; [|intros raw|done].
  { apply sess_gpost, only_gpost; [apply session_keeps|]. unfold issue. unsigned_auto. }
  apply only_guards; guards_auto.
Qed.

(** *** All requests *)

Lemma sso_callback_guarded ps :
  gives (sso_callback (al_urlencode L) (al_sha256_hex L) (al_callback_url L) (al_access_ttl L) ps) (fun _ => True).
Proof using Type.
  unfold sso_callback. destruct (cp_error ps); [done|]. destruct (cp_code ps) as [code|]; [|done].
  destruct (cp_state ps) as [state|]; [|done].
  apply (gpost_bind _ _ _ _ (fun _ => True)); [apply only_guards; guards_auto|]. intros [session|] _; [|done].
  unfold bind_ok at 1. apply (gpost_bind _ _ _ _ (fun _ => True)).
  { apply only_guards; unfold exchange_code, load_oidc_config, fetch_discovery, cached_discovery, decrypt_client_secret,
      verify_id_token, provider_keys, cached_jwks, load_oidc_config; guards_auto. }
  intros [cc|e] _; [|done]. destruct (identity_of _ _ _ _) as [i|e]; [|done].
  unfold bind_ok. apply (gpost_bind _ _ _ _ _ _ (sso_account_guarded i)).
  intros [user|e] Hu; [|done]. by apply open_session_guarded, Hu.
Qed.

Lemma answer_guarded {A} f (p : prog session_eff (result A session_err)) :
  gpost (session_unsigned k) (session_deactivated k) p (fun _ => True) -> gives (discarded (answer f p)) (fun _ => True).
Proof using Type.
  intros Hp. unfold discarded, answer. apply (gpost_bind _ _ _ _ (fun _ => True)); [|done].
  apply (gpost_bind _ _ _ _ (fun _ => True)); [by apply sess_gpost|done].
Qed.

Lemma revoke_guarded id : gives (discarded (revoke_user_sessions auth id)) (fun _ => True).
Proof using Type.
  unfold discarded, revoke_user_sessions. apply (gpost_bind _ _ _ _ (fun _ => True)); [|done]. destruct (negb _); [done|].
  apply (gpost_bind _ _ _ _ (fun _ => True)); [|done].
  apply sess_gpost, only_gpost; [apply session_keeps|]. unfold force_logout, revoke_all_for_user. unsigned_auto.
Qed.

(** The requests that neither log in nor refresh. *)
Lemma serve_signless rq :
  match rq with RqLogin _ | RqRefresh _ | RqLogout _ | RqRevoke _ | RqSsoCallback _ => True | _ => only signless (serve L auth rq) end.
Proof using Type.
  destruct rq; try done; cbn [serve]; unfold discarded, create_user, get_user, update_user, delete_user, admin_reset_password,
    admin_disable_mfa, force_change_password_handler, change_own_password, mfa_setup_handler, mfa_verify_handler, disable_mfa,
    sso_config, sso_login, fetch_discovery, cached_discovery, load_oidc_config, sso_handoff_exchange, purge_sso_sessions,
    purge_handoffs, confirm_password, hash_new, update_row; guards_auto.
Qed.

Lemma serve_guarded rq : is_admin (au_role auth) = false -> gives (serve L auth rq) (fun _ => True).
Proof using Type.
  intros Hadm. pose proof (serve_unprivileged L auth Hadm rq) as Hu. pose proof (serve_signless rq) as Hs.
  assert (only signless (serve L auth rq) -> gives (serve L auth rq) (fun _ => True)) as Hrest.
  { intros H1. apply only_guards; [|done]. eapply only_mono; [|exact Hu]. intros X e He. by eexists. }
  destruct rq; try (by apply Hrest); clear.
  - apply answer_guarded, login_unsigned.
  - apply answer_guarded, refresh_unsigned.
  - apply revoke_guarded.
  - unfold serve, discarded. apply (gpost_bind _ _ _ _ (fun _ => True)); [apply sso_callback_guarded|done].
Qed.
End Deactivated.

(** *** The theorem *)

Lemma request_signs_nothing L k p : ordinary_request L p ->
  @gsafe account_eff account_db (account_alone (al_password_ok L)) _ (unsigned k) (deactivated k) p.
Proof.
  intros (auth & rq & Hadm & ->). apply (@gsafe_mono _ _ (account_alone (al_password_ok L)) _ (harmless auth k)); [by intros X e [_ He]|].
  eapply gpost_gsafe. by apply serve_guarded.
Qed.

Lemma on_user_deactivates id u role reset g d : ad_users d !! id = Some u ->
  deactivated id (on_user id (with_role_active_reset role (Some false) reset) g d).2.
Proof.
  intros Hu. exists (with_role_active_reset role (Some false) reset u). split; [|done].
  by rewrite on_user_lookup, bool_decide_true, Hu.
Qed.

(** C15. Once an administrator has deactivated a user, no request of anyone else opens
    the account again: in every interleaving of requests that start after the
    answer (logins, refreshes, single sign-ons and all others), the user stays
    deactivated and no request is ever about to sign an access token for it. *)
Theorem deactivated_user_gets_no_token L admin id req d :
  up_is_active req = Some false ->
  @wp account_eff account_db (account_alone (al_password_ok L)) _ (update_user admin id req) (fun r d' => r = Ok tt ->
    forall d'' ts, rtc (@cstep account_eff account_db (account_alone (al_password_ok L)) _ (fun _ _ => []) (ordinary_request L)) (d', []) (d'', ts) ->
      deactivated id d'' /\ Forall (fun p => ~ next_effect (signs_for id) p) ts) d.
Proof.
  intros Hreq. unfold update_user. destruct (negb _ && negb _); [done|]. destruct (_ && negb _); [done|].
  unfold update_row, or_err, acc_sql. intros x d1 [-> ->]. cbn [bind wp exec_account_stmt].
  destruct (_ && _ && _); [done|]. rewrite on_user_answer. destruct (ad_users d !! id) as [u|] eqn:Hu; [|done].
  rewrite bool_decide_true by done. cbn [Z.eqb wp bind trigger]. intros [] d2 ->. cbn [wp]. intros _ d'' ts Hr.
  rewrite Hreq in Hr.
  eapply (@gsafe_reachable account_eff account_db (account_alone (al_password_ok L)) _ (fun _ _ => []) (ordinary_request L)
    (unsigned id) (deactivated id)) in Hr as [Hd Hts]; [|done|by apply request_signs_nothing|by eapply on_user_deactivates|done].
  split; [done|]. eapply Forall_impl; [exact Hts|]. intros [a|X e kont]; [by intros _ []|]. by intros [He _].
Qed.

Definition deactivate : update_user_request := UpdateUserRequest None None None (Some false) None.

Lemma deactivated_user_gets_no_token_witness :
  @wp account_eff account_db (account_alone demo_password_ok) _ (update_user demo_admin user_a deactivate) (fun r d' => r = Ok tt ->
    forall d'' ts, rtc (@cstep account_eff account_db (account_alone demo_password_ok) _ (fun _ _ => []) (ordinary_request demo_libs)) (d', []) (d'', ts) ->
      deactivated user_a d'' /\ Forall (fun p => ~ next_effect (signs_for user_a) p) ts) demo_accounts /\
  (run quiet_world (update_user demo_admin user_a deactivate) demo_accounts).1 = Ok tt.
Proof.
  split; [|vm_compute; reflexivity].
  apply (deactivated_user_gets_no_token demo_libs demo_admin user_a deactivate demo_accounts). reflexivity.
Defined.
