(* ===== verification/PasswordFlow.v ===== *)
(** * Passwords that administrators set: theorems

    A password that an administrator sets with the reset flag opens no session: it
    is refused until its user has replaced it, and the new one is then accepted. *)

From S2P Require Import Prelude Rbac Conc Session Accounts Sso AccountFlow.

Section Password.
Context (password_ok : string -> string -> bool) (decrypt : string * string -> result string string)
  (totp_ok : string -> string -> string -> bool) (sha256_hex : string -> string).

Abbreviation awp := (@wp account_eff account_db (account_alone password_ok) _).

(** ** Sessions inside requests *)

Lemma awp_sess {A} (p : prog session_eff A) Q d :
  swp p Q (ad_session d) -> awp (sess_part p) (fun a d' => exists s', d' = with_session s' d /\ Q a s') d.
Proof.
  revert d. induction p as [a|X e k IH]; intros d Hp; [exists (ad_session d); by destruct d|].
  cbn [sess_part wp]. intros x d1 (s1 & Hx & ->). eapply wp_mono; [|apply IH, (Hp x s1 Hx)].
  by intros a d' (s' & -> & HQ); exists s'.
Qed.

Lemma awp_answer {A} f (p : prog session_eff (result A session_err)) (Q : result A api_err -> account_db -> Prop) d :
  swp p (fun r s' => Q (match r with Ok a => Ok a | Err e => Err (f e) end) (with_session s' d)) (ad_session d) ->
  awp (answer f p) Q d.
Proof. intros Hp. apply wp_bind. eapply wp_mono; [|apply awp_sess, Hp]. by intros a d' (s' & -> & HQ). Qed.

Lemma sole_user_on_user d name id u f g :
  u_username (f u) = u_username u -> u_local (f u) = u_local u ->
  sole_user (ad_session d) name id u -> sole_user (ad_session (on_user id f g d).2) name id (f u).
Proof.
  intros Hfn Hfl (Hid & Hn & Hl & Huniq). unfold sole_user. change (s_users (ad_session ?x)) with (ad_users x) in *.
  rewrite on_user_lookup, bool_decide_true, Hid by done. split_and!; [done|congruence|congruence|].
  intros id' u' Hid'. rewrite on_user_lookup in Hid'. case_bool_decide; [done|]. by apply Huniq.
Qed.

Lemma sole_user_users s s' name id u : s_users s' = s_users s -> sole_user s name id u -> sole_user s' name id u.
Proof. unfold sole_user. by intros ->. Qed.

(** ** Logins with a known password *)

(** An unlocked account and its password. *)
Definition ready (d : account_db) (name : string) (id : uuid) (u : db_user) (password : string) : Prop :=
  sole_user (ad_session d) name id u /\ u_locked_until u = None /\ u_is_active u = true /\
  password_ok password (default ""%string (u_password_hash u)) = true.

Lemma login_pending req d id u :
  ready d (lr_username req) id u (lr_password req) -> u_force_password_reset u = true ->
  awp (login_handler password_ok decrypt totp_ok sha256_hex req)
    (fun r d' => r = Err (ApiErr 403 "password_reset_required") /\ ready d' (lr_username req) id u (lr_password req)) d.
Proof.
  intros (Hs & Hlock & Hact & Hpw) Hreset. apply awp_answer. eapply swp_mono; [apply login_ok|].
  intros r s' Hout. unfold login_outcome in Hout. rewrite (sole_local_user _ _ _ _ Hs) in Hout.
  destruct Hout as (now & _ & Hout). unfold locked_at, unlocked in Hout. rewrite Hlock, Hpw, Hact, Hreset in Hout. cbn [negb] in Hout.
  destruct Hout as (-> & Hu & _). split; [done|]. split_and!; [|done|done|done]. by eapply sole_user_users.
Qed.

Lemma login_ready req d id u :
  ready d (lr_username req) id u (lr_password req) -> u_force_password_reset u = false -> u_mfa_enabled u = false ->
  awp (login_handler password_ok decrypt totp_ok sha256_hex req)
    (fun r d' => match r with Ok resp => ls_user resp = id | Err e => e = err_user_internal end) d.
Proof.
  intros (Hs & Hlock & Hact & Hpw) Hreset Hmfa. apply awp_answer. eapply swp_mono; [apply login_ok|].
  intros r s' Hout. unfold login_outcome in Hout. rewrite (sole_local_user _ _ _ _ Hs) in Hout.
  destruct Hout as (now & _ & Hout). unfold locked_at in Hout. rewrite Hlock, Hpw, Hact, Hreset in Hout. cbn [negb] in Hout.
  unfold check_mfa in Hout. rewrite Hmfa in Hout.
  destruct Hout as [(m & -> & _)|[(m & -> & _)|(access & token & t & t' & _ & _ & -> & _)]]; done.
Qed.

(** ** The two changes of the password *)

Lemma reset_ok auth id new d u : ad_users d !! id = Some u ->
  awp (admin_reset_password auth id new true) (fun r d' => r = Ok tt ->
    exists h, password_ok new h = true /\ d' = (on_user id (with_password h true) (fun p => p) d).2) d.
Proof.
  intros Hu. unfold admin_reset_password. destruct (negb _); [done|]. unfold or_err, acc_sql.
  intros x d1 [-> ->]. cbn [bind wp exec_account_stmt fst snd]. rewrite bool_decide_true by done. cbn [negb].
  unfold hash_new. destruct (validate_password_strength new); [|done]. unfold or_err.
  intros h d1 [-> Hh]. destruct h as [h|e]; [|done]. intros y d2 [-> ->]. cbn [bind wp exec_account_stmt].
  rewrite on_user_answer. intros [] d3 -> _. exists h. split; [by apply Hh|done].
Qed.

Lemma force_change_ok name current new d id u : sole_user (ad_session d) name id u ->
  password_ok current (default ""%string (u_password_hash u)) = true ->
  awp (force_change_password_handler password_ok name current new) (fun r d' => r = Ok tt ->
    exists h, password_ok new h = true /\
      d' = (on_user id (fun u => with_attempts 0 None (with_password h false u)) (fun p => p) d).2) d.
Proof.
  intros Hs Hpw. unfold force_change_password_handler. destruct (validate_password_strength new); [|done].
  unfold or_err, acc_sql. intros x d1 [-> ->]. cbn [bind wp exec_account_stmt fst snd].
  pose proof (sole_local_user _ _ _ _ Hs) as Hf. unfold local_user in Hf. unfold ad_users. rewrite Hf.
  cbn [fmap option_fmap option_map fst snd]. rewrite Hpw. cbn [negb].
  intros h d1 [-> Hh]. destruct h as [h|e]; [|done]. intros y d2 [-> ->]. cbn [bind wp exec_account_stmt].
  rewrite on_user_answer. intros _. exists h. split; [by apply Hh|done].
Qed.

(** The public change of a password keeps no count of wrong guesses and asks no
    lock: a wrong password changes nothing, whatever state the account is in. *)
Theorem force_change_counts_no_failure name current new d id u : sole_user (ad_session d) name id u ->
  password_ok current (default ""%string (u_password_hash u)) = false ->
  awp (force_change_password_handler password_ok name current new) (fun r d' => d' = d /\
    r = Err (match validate_password_strength new with Err _ => ApiErr 400 "weak_password" | Ok _ => ApiErr 401 "invalid_credentials" end)) d.
Proof.
  intros Hs Hpw. unfold force_change_password_handler. destruct (validate_password_strength new); [|done].
  unfold or_err, acc_sql. intros x d1 [-> ->]. cbn [bind wp exec_account_stmt fst snd].
  pose proof (sole_local_user _ _ _ _ Hs) as Hf. unfold local_user in Hf. unfold ad_users. rewrite Hf.
  cbn [fmap option_fmap option_map fst snd]. by rewrite Hpw.
Qed.

(** ** The cycle *)

(** An administrator sets a password; the user tries it, replaces it, and logs in. *)
Definition reset_cycle (admin : auth_user) (id : uuid) (name temp new : string)
    : prog account_eff (result unit api_err * result login_response api_err * result unit api_err * result login_response api_err) :=
  let! r1 := admin_reset_password admin id temp true in
  let! r2 := login_handler password_ok decrypt totp_ok sha256_hex (LoginRequest name temp None) in
  let! r3 := force_change_password_handler password_ok name temp new in
  let! r4 := login_handler password_ok decrypt totp_ok sha256_hex (LoginRequest name new None) in
  Ret (r1, r2, r3, r4).

(** After an administrator's reset of an active, unlocked account without a second
    factor, the password that was set is answered with password_reset_required;
    once the user has replaced it, the new one logs that user in (or the server
    fails for a reason of its own). *)
Theorem reset_password_cycle admin id u name temp new d :
  sole_user (ad_session d) name id u -> u_locked_until u = None -> u_is_active u = true -> u_mfa_enabled u = false ->
  awp (reset_cycle admin id name temp new) (fun rs _ => let '(r1, r2, r3, r4) := rs in
    r1 = Ok tt -> r2 = Err (ApiErr 403 "password_reset_required") /\
    (r3 = Ok tt -> match r4 with Ok resp => ls_user resp = id | Err e => e = err_user_internal end)) d.
Proof.
  intros Hs Hlock Hact Hmfa. unfold reset_cycle. apply wp_bind.
  eapply wp_mono; [|apply (reset_ok admin id temp d u), Hs]. intros r1 d1 H1. cbv beta in H1.
  destruct r1 as [[]|e1]; [|by repeat (apply wp_bind, wp_true; intros ? ?)].
  destruct (H1 eq_refl) as (h1 & Hh1 & ->). clear H1.
  pose proof (sole_user_on_user d name id u (with_password h1 true) (fun p => p) eq_refl eq_refl Hs) as Hs1.
  apply wp_bind. eapply wp_mono; [|apply (login_pending (LoginRequest name temp None) _ id (with_password h1 true u)); [by split_and!|done]].
  intros r2 d2 [-> (Hs2 & _ & _ & Hpw2)]. cbn [lr_username lr_password] in *.
  apply wp_bind. eapply wp_mono; [|by apply (force_change_ok name temp new d2 id _ Hs2)]. intros r3 d3 H3. cbv beta in H3.
  destruct r3 as [[]|e3]; [|by apply wp_bind, wp_true].
  destruct (H3 eq_refl) as (h2 & Hh2 & ->). clear H3.
  apply wp_bind. eapply wp_mono; [|apply (login_ready (LoginRequest name new None) _ id
    (with_attempts 0 None (with_password h2 false (with_password h1 true u)))); [split_and!; try done|done|done]].
  - intros r4 d4 H4. by split.
  - by apply (sole_user_on_user d2 name id (with_password h1 true u)
      (fun u => with_attempts 0 None (with_password h2 false u)) (fun p => p)).
Qed.
End Password.

Lemma demo_sole_account : sole_user (ad_session demo_accounts) "alice" user_a (demo_session_user 0 None).
Proof.
  split_and!; [reflexivity|reflexivity|reflexivity|]. intros id' u'. simpl.
  rewrite lookup_insert_Some, lookup_singleton_Some. intros [[<- _]|[_ [_ <-]]]; [done|]. by intros [= ].
Qed.

Lemma reset_password_cycle_witness :
  @wp account_eff account_db (account_alone demo_password_ok) _
    (reset_cycle demo_password_ok demo_decrypt demo_totp_ok plain demo_admin user_a "alice" "T3mp!pass" "N3w!passw") (fun rs _ =>
    let '(r1, r2, r3, r4) := rs in
    r1 = Ok tt -> r2 = Err (ApiErr 403 "password_reset_required") /\
    (r3 = Ok tt -> match r4 with Ok resp => ls_user resp = user_a | Err e => e = err_user_internal end)) demo_accounts /\
  (run quiet_world (reset_cycle demo_password_ok demo_decrypt demo_totp_ok plain demo_admin user_a "alice" "T3mp!pass" "N3w!passw")
     demo_accounts).1 =
    (Ok tt, Err (ApiErr 403 "password_reset_required"), Ok tt, Ok (LoginResponse "jwt" "token0" user_a)).
Proof.
  split; [|vm_compute; reflexivity].
  apply (reset_password_cycle demo_password_ok demo_decrypt demo_totp_ok plain demo_admin user_a (demo_session_user 0 None)).
  - apply demo_sole_account.
  - reflexivity.
  - reflexivity.
  - reflexivity.
Defined.
