(* ===== verification/SsoFlow.v ===== *)
(** * Single sign-on: theorems

    Whom a callback logs in, what it stores, and that a one-time code delivers
    its tokens once. *)

From S2P Require Import Prelude Rbac Conc Session Accounts Sso AccountFlow PasswordFlow.

(** ** What an e-mail address selects *)

Lemma sel_sso_user_Some email provider d su : sel_sso_user email provider d = Some su ->
  exists u p, ad_users d !! su_id su = Some u /\ ad_profiles d !! su_id su = Some p /\
    pf_email p = email /\ match provider with Some x => pf_provider p = x | None => True end /\ su = sso_view (su_id su) u p.
Proof.
  unfold sel_sso_user. destruct (find_row _ _) as [[id p]|] eqn:Hf; [|done]. cbn [mbind option_bind].
  apply find_row_Some in Hf as [Hid [He Hp]%andb_true_iff]. apply String.eqb_eq in He.
  destruct (ad_users d !! id) as [u|] eqn:Hu; [|done]. cbn. intros [= <-]. exists u, p. simpl. split_and!; try done.
  destruct provider; [by apply String.eqb_eq|done].
Qed.

Lemma on_user_profile id f g d k : ad_profiles (on_user id f g d).2 !! k = if bool_decide (k = id) then g <$> ad_profiles d !! k else ad_profiles d !! k.
Proof.
  unfold on_user, with_users, with_session. cbn [snd ad_profiles with_profiles].
  destruct (decide (k = id)) as [->|Hne]; [by rewrite bool_decide_true, lookup_alter_eq|by rewrite bool_decide_false, lookup_alter_ne].
Qed.

(** The access tokens that are issued are related to the user they are issued for
    ([grants id name role token]: the token's claims name the user and role). *)
Definition signing (password_ok : string -> string -> bool) (grants : uuid -> string -> string -> string -> Prop) :
    EffectSem account_eff account_db := fun X e s x s' =>
  account_alone password_ok X e s x s' /\
  match e in account_eff Y return Y -> Prop with
  | Sess e' =>
      match e' in session_eff Z return Z -> Prop with
      | IssueAccessToken id name role => fun x => forall token, x = Ok token -> grants id name role token
      | _ => fun _ => True
      end
  | _ => fun _ => True
  end x.

Section SignIn.
Context (L : account_libs).

Abbreviation awp := (@wp account_eff account_db (account_alone (al_password_ok L)) _).
Abbreviation account_of := (sso_account (al_urlencode L) (al_callback_url L)).
Abbreviation session_of := (open_session (al_urlencode L) (al_sha256_hex L) (al_callback_url L) (al_access_ttl L)).

(** The database has an active user, of the provider, with the e-mail address of
    the identity; the user object has the name and role of the row. *)
Definition signs_in (i : identity) (user : sso_user) (d : account_db) : Prop :=
  exists u p, ad_users d !! su_id user = Some u /\ ad_profiles d !! su_id user = Some p /\
    pf_email p = id_email i /\ pf_provider p = id_provider i /\
    u_is_active u = true /\ u_username u = su_username user /\ u_role u = su_role user.

(** ** The user of an identity *)

Definition sso_error (code message : string) : string := error_redirect (al_urlencode L) (al_callback_url L) code message.

(** The reference: what the tables say of the identity. *)
Definition sso_account_outcome (i : identity) (d d' : account_db) (r : result sso_user string) : Prop :=
  let disabled := r = Err (sso_error "account_disabled" "Account is disabled") /\ d' = d in
  match sel_sso_user (id_email i) (Some (id_provider i)) d, sel_sso_user (id_email i) None d with
  | Some u, _ => if su_is_active u then r = Ok u /\ d' = d else disabled
  | None, Some u =>
      if su_is_active u then
        (r = Err (sso_error "internal_error" "Failed to link SSO account") /\ d' = d) \/
        ((exists v, r = Ok v /\ su_id v = su_id u /\ su_role v = su_role u) /\
         d' = (on_user (su_id u) (with_provider (String.eqb (id_provider i) "local"))
                 (linked_to (id_provider i) (non_empty (id_azure_oid i)) (non_empty (id_subject i))) d).2)
      else disabled
  | None, None =>
      (r = Err (sso_error "internal_error" "Failed to create user") /\ d' = d) \/
      (exists v, r = Ok v /\ ad_users d !! su_id v = None /\ su_role v = "reporter"%string /\ su_is_active v = true /\
         dom (ad_users d') = {[su_id v]} ∪ dom (ad_users d))
  end.

Lemma add_user_Ok u p d id : (add_user u p d).1 = Ok id ->
  ad_users d !! id = None /\ (add_user u p d).2 = with_users (<[id := u]> (ad_users d)) (with_profiles (<[id := p]> (ad_profiles d)) d).
Proof.
  unfold add_user. destruct (_ || _); [done|]. cbn [fst snd]. set (k := fresh _). intros [= <-]. split; [|done].
  apply not_elem_of_dom. intros Hin. apply (is_fresh (dom (ad_users d) ∪ dom (ad_profiles d))). by apply elem_of_union_l.
Qed.

Lemma add_user_Err u p d e : (add_user u p d).1 = Err e -> (add_user u p d).2 = d.
Proof. unfold add_user. by destruct (_ || _). Qed.

Lemma upd_link_answer id provider oid sub d : exec_account_stmt (UpdLink id provider oid sub) d =
  if oid_conflict id oid d then (Err unique_violation, d)
  else on_user id (with_provider (String.eqb provider "local")) (linked_to provider oid sub) d.
Proof. done. Qed.

Lemma sso_account_ok i d :
  awp (account_of i) (fun r d' => sso_account_outcome i d d' r /\
    ad_handoffs d' = ad_handoffs d /\ forall user, r = Ok user -> signs_in i user d') d.
Proof.
  unfold sso_account, sso_account_outcome, or_redirect, acc_sql. intros x d1 [-> ->]. cbn [bind wp exec_account_stmt fst snd].
  destruct (sel_sso_user (id_email i) (Some (id_provider i)) d) as [su|] eqn:H1.
  { destruct (su_is_active su) eqn:Ha; cbn [negb wp]; [|done]. split; [done|]. split; [done|]. intros user [= <-].
    destruct (sel_sso_user_Some _ _ _ _ H1) as (u & p & Hu & Hp & He & Hpr & Hsu). exists u, p. rewrite Hsu in Ha |- *. by split_and!. }
  intros x d1 [-> ->]. cbn [bind wp exec_account_stmt fst snd].
  destruct (sel_sso_user (id_email i) None d) as [su|] eqn:H2.
  - destruct (su_is_active su) eqn:Ha; cbn [negb wp]; [|done].
    intros x d1 [-> ->]. rewrite upd_link_answer. destruct (oid_conflict _ _ _).
    { cbn [bind wp fst snd]. split; [by left|]. done. }
    rewrite on_user_answer. cbn [bind]. intros [] d2 ->. cbn [wp]. split_and!; [|done|].
    + right. split; [|done]. by eexists.
    + intros user [= <-]. destruct (sel_sso_user_Some _ _ _ _ H2) as (u & p & Hu & Hp & He & _ & Hsu).
      exists (with_provider (String.eqb (id_provider i) "local") u), (linked_to (id_provider i) (non_empty (id_azure_oid i)) (non_empty (id_subject i)) p).
      cbn [su_id]. rewrite on_user_lookup, on_user_profile, bool_decide_true, Hu, Hp by done. rewrite Hsu in Ha |- *. by split_and!.
  - intros x d1 [-> ->]. cbn [exec_account_stmt]. set (row := DbUser _ _ _ _ _ _ _ _ _ _ _). set (prof := Profile _ _ _ _ _).
    destruct (add_user row prof d) as [[id|e] d2] eqn:Hadd; cbn [fst snd bind wp].
    + destruct (add_user_Ok row prof d id) as [Hnew Hd2]; [by rewrite Hadd|]. rewrite Hadd in Hd2. cbn [snd] in Hd2.
      intros [] d3 ->. cbn [wp]. rewrite Hd2. split_and!; [|done|].
      * right. eexists. split_and!; [done|done|done|done|]. unfold ad_users, with_users. simpl. by rewrite dom_insert_L.
      * intros user [= <-]. exists row, prof. unfold ad_users, with_users. simpl. rewrite !lookup_insert_eq. by split_and!.
    + pose proof (add_user_Err row prof d e) as Hd2. rewrite Hadd in Hd2. cbn [fst snd] in Hd2. rewrite Hd2 by done. split; [by left|done].
Qed.
(** ** The session of an identity *)

Lemma signs_in_same i user d d' : ad_users d' = ad_users d -> ad_profiles d' = ad_profiles d -> signs_in i user d -> signs_in i user d'.
Proof using Type. unfold signs_in. by intros -> ->. Qed.

Lemma issue_access_same id name role s : swp (issue_access_token id name role) (fun _ s' => same_session s s') s.
Proof using Type. intros x s' (t & _ & ->). by destruct x; split. Qed.

Lemma issue_stores sha user s : swp (issue sha user) (fun r s' => s_users s' = s_users s /\
  forall raw, r = Ok raw -> exists k t, s_tokens s' !! k = Some (StoredToken user (sha raw) t false)) s.
Proof using Type.
  unfold issue. apply swp_token. intros token t1 _. apply swp_now. intros t2 _. apply swp_sql. intros t3 _.
  cbn [exec_session_stmt]. unfold ins_token. cbn [at_time s_tokens s_users].
  destruct (find_row _ _); [by split|]. destruct (s_users s !! user); [|by split]. cbn [fst snd wp]. split; [done|].
  intros raw [= <-]. eexists _, _. simpl. by rewrite lookup_insert_eq.
Qed.

Section Granted.
Context (grants : uuid -> string -> string -> string -> Prop).
Abbreviation gwp := (@wp account_eff account_db (signing (al_password_ok L) grants) _).

Lemma awp_gwp {A} (p : prog account_eff A) Q d : awp p Q d -> gwp p Q d.
Proof using Type. apply wp_refines. by intros X e s x s' [H _]. Qed.

(** What an answer to the browser promises: a fresh code under which the tokens of
    an active user of this provider and e-mail address wait, the access token
    issued for that user's id, name and role, the refresh token among those that
    are stored. *)
Definition promises (i : identity) (d d' : account_db) (url : string) : Prop :=
  exists code h k t, url = (al_callback_url L ++ "?handoff=" ++ code)%string /\
    ad_handoffs d' = <[code := h]> (ad_handoffs d) /\ signs_in i (ho_user h) d' /\ ho_provider h = id_provider i /\
    grants (su_id (ho_user h)) (su_username (ho_user h)) (su_role (ho_user h)) (ho_access_token h) /\
    s_tokens (ad_session d') !! k = Some (StoredToken (su_id (ho_user h)) (al_sha256_hex L (ho_raw_refresh h)) t false) /\
    ho_expires_at h = s_now (ad_session d') + HANDOFF_TTL_US.

Lemma granted_access id name role d :
  gwp (sess_part (issue_access_token id name role)) (fun r d' =>
    (exists s', d' = with_session s' d /\ same_session (ad_session d) s') /\
    forall token, r = Ok token -> grants id name role token) d.
Proof using Type.
  intros x d' [(s' & (t & _ & ->) & ->) Hg]. destruct x as [token|e]; (split; [by eexists|]); intros tk Htk; [|done].
  injection Htk as <-. by apply Hg.
Qed.

Lemma open_session_ok i user d : signs_in i user d ->
  gwp (session_of i user) (fun r d' => match r with Ok url => promises i d d' url | Err _ => ad_handoffs d' = ad_handoffs d end) d.
Proof using Type.
  intros Hin. unfold open_session, or_redirect, acc_sql. intros x d1 [[-> ->] _]. cbn [exec_account_stmt].
  destruct (oid_conflict _ _ _); [done|]. rewrite on_user_answer. set (d1 := (on_user _ _ _ d).2). cbn [bind].
  assert (signs_in i user d1) as Hin1.
  { destruct Hin as (u & p & Hu & Hp & He & Hpr & Ha & Hn & Hr). unfold d1.
    eexists _, _. rewrite on_user_lookup, on_user_profile, bool_decide_true, Hu, Hp by done. by split_and!. }
  assert (ad_handoffs d1 = ad_handoffs d) as Hh1 by done. clearbody d1.
  apply wp_bind. eapply wp_mono; [|apply granted_access]. intros access d2 [(s2 & -> & Hs2 & _) Hgr].
  destruct access as [access|e]; [|done]. specialize (Hgr access eq_refl).
  apply wp_bind. eapply wp_mono; [|apply awp_gwp, awp_sess, issue_stores]. intros raw d3 (s3 & -> & Hs3 & Htok).
  destruct raw as [raw|e]; [|done]. destruct (Htok raw eq_refl) as (k & t & Hk). cbn [bind].
  intros [] d4 [-> _]. cbn [wp bind trigger]. intros code d4 [-> _]. cbn [bind].
  intros now d4 [(s4 & (t4 & _ & -> & ->) & ->) _]. cbn [wp bind].
  intros [] d5 [-> _]. cbn [wp]. eexists code, (SsoHandoff access raw user (id_provider i) (al_access_ttl L) (t4 + HANDOFF_TTL_US)), k, t.
  cbn [ho_user ho_provider ho_raw_refresh ho_expires_at ho_access_token]. split_and!; [done| | |done|done| |done].
  - cbn. by rewrite Hh1.
  - eapply (signs_in_same i user d1); [|done|done]. unfold ad_users. cbn. rewrite Hs3. cbn. by rewrite Hs2.
  - done.
Qed.
End Granted.

(** A callback, from the identity on. *)
Definition sign_in (i : identity) : prog account_eff (result string string) :=
  let!? user := account_of i in session_of i user.

(** C16. Whoever comes back from the provider is logged in as an active user that has
    the e-mail address and the provider of the verified identity; the access
    token is one that was issued for that user's id, name and role, and the
    refresh token one that is stored for that user; the tokens wait under a code
    for a minute, and no other answer leaves any behind. *)
Theorem sso_sign_in_correct grants i d :
  @wp account_eff account_db (signing (al_password_ok L) grants) _ (sign_in i)
    (fun r d' => match r with Ok url => promises grants i d d' url | Err _ => ad_handoffs d' = ad_handoffs d end) d.
Proof using Type.
  unfold sign_in. apply wp_bind. eapply wp_mono; [|apply awp_gwp, sso_account_ok]. intros r d1 (_ & Hh & Hin).
  destruct r as [user|e]; [|done]. eapply wp_mono; [|by apply open_session_ok, Hin].
  intros [url|e] d2; [|congruence]. intros (code & h & k & t & -> & Hd2 & Hrest). exists code, h, k, t. by rewrite Hd2, Hh.
Qed.

(** The user of an identity, on every branch: the one of this provider with the
    e-mail address; else the one with the address, who is then linked to the
    provider; else a new reporter.  A deactivated user is refused. *)
Theorem sso_account_spec i d : awp (account_of i) (fun r d' => sso_account_outcome i d d' r) d.
Proof using Type. eapply wp_mono; [|apply sso_account_ok]. by intros r d' [Hr _]. Qed.

(** ** State tokens *)

Abbreviation callback := (sso_callback (al_urlencode L) (al_sha256_hex L) (al_callback_url L) (al_access_ttl L)).

Definition no_insert (X : Type) (e : account_eff X) : Prop := match e with SsoInsert _ _ => False | _ => True end.

Lemma no_insert_keeps state X (e : account_eff X) d x d' : no_insert X e -> ad_sso_sessions d !! state = None ->
  account_alone (al_password_ok L) X e d x d' -> ad_sso_sessions d' !! state = None.
Proof using Type.
  intros Hn Hd He. destruct e as [Y e|Y q| | | | | | | | | | | | | | | | | | | | | | |]; cbn [account_alone] in He; try done.
  all: repeat match goal with H : _ /\ _ |- _ => destruct H end; subst; try done.
  - destruct He as (s' & _ & ->). done.
  - destruct q; cbn [exec_account_stmt snd]; try done; unfold add_user; by repeat case_match.
  - cbn. rewrite lookup_delete_None. by right.
  - cbn. apply map_lookup_filter_None. by left.
Qed.

#[local] Hint Extern 1 (no_insert _ _) => exact I : only.

Lemma sess_no_insert {A} (p : prog session_eff A) : only no_insert (sess_part p).
Proof using Type. induction p as [a|X e k IH]; simpl; [done|]. split; [done|]. apply IH. Qed.
#[local] Hint Resolve sess_no_insert : only.

Lemma callback_after_state code v :
  only no_insert (let!? cc := exchange_code (al_urlencode L) (al_callback_url L) code v in
    match identity_of (al_urlencode L) (al_callback_url L) cc.1 cc.2 with
    | Err redirect => Ret (Err redirect)
    | Ok i => let!? user := account_of i in session_of i user
    end).
Proof using Type.
  unfold exchange_code, decrypt_client_secret, verify_id_token, provider_keys, cached_jwks, fetch_discovery, cached_discovery,
    load_oidc_config, sso_account, open_session, or_redirect, or_err, acc_sql, clock. only_auto.
Qed.

(** A callback consumes its state token: whatever the first answer is, the same
    request again is refused, and nothing changes. *)
Theorem callback_replay_refused ps code state d :
  cp_error ps = None -> cp_code ps = Some code -> cp_state ps = Some state ->
  awp (callback ps) (fun _ d1 => awp (callback ps) (fun r d2 => d2 = d1 /\
    r = Err (sso_error "bad_request" "Invalid or expired state token")) d1) d.
Proof using Type.
  intros He Hc Hs.
  assert (forall d1, ad_sso_sessions d1 !! state = None -> awp (callback ps) (fun r d2 => d2 = d1 /\
    r = Err (sso_error "bad_request" "Invalid or expired state token")) d1) as Hrefused.
  { intros d1 Hd1. unfold sso_callback. rewrite He, Hc, Hs. intros x d2 [-> ->]. rewrite Hd1. cbn [bind wp]. split; [|done].
    unfold with_sso_sessions. rewrite delete_id by done. by destruct d1. }
  enough (awp (callback ps) (fun _ d1 => ad_sso_sessions d1 !! state = None) d) as Hd.
  { eapply wp_mono; [|exact Hd]. intros r1 d1. apply Hrefused. }
  unfold sso_callback. rewrite He, Hc, Hs. intros x d1 [-> ->]. cbn [bind].
  assert (ad_sso_sessions (with_sso_sessions (delete state (ad_sso_sessions d)) d) !! state = None) as H1 by (cbn; apply lookup_delete_eq).
  destruct (ad_sso_sessions d !! state) as [v|]; [|done].
  apply (@only_invariant _ no_insert _ (account_alone (al_password_ok L)) _ (fun d => ad_sso_sessions d !! state = None));
    [|apply callback_after_state|done].
  intros X e t y t' Hn Ht Hx. by eapply no_insert_keeps.
Qed.
End SignIn.

(** ** One-time codes

    The codes are 32 random bytes: the server never draws one twice.  The state
    keeps those that were drawn. *)
Definition account_unique (password_ok : string -> string -> bool) : EffectSem account_eff (account_db * gset string) := fun X e s x s' =>
  account_alone password_ok X e s.1 x s'.1 /\
  match e in account_eff Y return Y -> Prop with
  | RandomCode => fun code => (code ∉ s.2) /\ s'.2 = {[code]} ∪ s.2
  | _ => fun _ => s'.2 = s.2
  end x.

(** Resources: the codes that a task has drawn and not stored, or taken out. *)
Definition code_spend (X : Type) (e : account_eff X) : list string := match e with HandoffInsert code _ => [code] | _ => [] end.
Definition code_gain (X : Type) (e : account_eff X) : X -> list string :=
  match e in account_eff Y return Y -> list string with
  | RandomCode => fun code => [code]
  | HandoffRemove code => fun h => match h with Some _ => [code] | None => [] end
  | _ => fun _ => []
  end.
Definition code_valid (s : account_db * gset string) (r : list string) : Prop :=
  NoDup r /\ (forall c, c ∈ r -> c ∈ s.2 /\ ad_handoffs s.1 !! c = None) /\ dom (ad_handoffs s.1) ⊆ s.2.

Lemma code_valid_sub s r r' : r' ⊆+ r -> code_valid s r -> code_valid s r'.
Proof.
  intros Hr (Hn & Hc & Hd). split_and!; [by eapply submseteq_NoDup| |done]. intros c Hin. apply Hc. by eapply elem_of_submseteq.
Qed.

Lemma code_valid_same s s' r : ad_handoffs s'.1 = ad_handoffs s.1 -> s'.2 = s.2 -> code_valid s r -> code_valid s' r.
Proof. unfold code_valid. by intros -> ->. Qed.

Section Codes.
Context (L : account_libs).

(** An effect that neither stores nor takes out nor draws a code. *)
Lemma code_other_frame X (e : account_eff X) s x s' :
  match e with HandoffInsert _ _ | HandoffRemove _ | PurgeHandoffs _ => True
  | _ => account_alone (al_password_ok L) X e s x s' -> ad_handoffs s' = ad_handoffs s end.
Proof using Type.
  destruct e as [Y e|Y q| | | | | | | | | | | | | | | | | | | | | | |]; try done; cbn [account_alone].
  3-22: intros He; repeat match goal with H : _ /\ _ |- _ => destruct H end; by subst.
  - by intros (d' & _ & ->).
  - intros [_ ->]. destruct q; cbn [exec_account_stmt snd]; try done; unfold add_user; by repeat case_match.
Qed.

Lemma code_insert_frame d d' u code h rest : d' = with_handoffs (<[code := h]> (ad_handoffs d)) d ->
  code_valid (d, u) (code :: rest) -> code_valid (d', u) rest.
Proof using Type.
  intros -> (Hn & Hc & Hd). apply NoDup_cons in Hn as [Hnin Hn]. split_and!; [done| |].
  - intros c Hin. pose proof (Hc c ltac:(by apply elem_of_cons; right)) as [H1 H2]. split; [done|]. cbn.
    rewrite lookup_insert_ne; [done|]. by intros ->.
  - cbn in *. rewrite dom_insert. destruct (Hc code) as [H1 _]; [by left|]. set_solver.
Qed.

Lemma code_remove_frame d u code rest : code_valid (d, u) rest ->
  code_valid (with_handoffs (delete code (ad_handoffs d)) d, u)
    (match ad_handoffs d !! code with Some _ => [code] | None => [] end ++ rest).
Proof using Type.
  intros (Hn & Hc & Hd). cbn [fst snd] in *. destruct (ad_handoffs d !! code) as [h|] eqn:Hh; cbn [app].
  - split_and!; cbn.
    + apply NoDup_cons. split; [|done]. intros Hin. destruct (Hc _ Hin). congruence.
    + intros c [->|Hin]%elem_of_cons; [split; [apply Hd; by apply elem_of_dom|apply lookup_delete_eq]|].
      destruct (Hc c Hin) as [H1 H2]. split; [done|]. rewrite lookup_delete_None. by right.
    + rewrite dom_delete. set_solver.
  - split_and!; cbn; [done| |rewrite dom_delete; set_solver]. intros c Hin. rewrite delete_id by done. by apply Hc.
Qed.

Lemma code_purge_frame d u (P : string * sso_handoff -> Prop) `{forall kv, Decision (P kv)} rest : code_valid (d, u) rest ->
  code_valid (with_handoffs (filter P (ad_handoffs d)) d, u) rest.
Proof using Type.
  intros (Hn & Hc & Hd). split_and!; [done| |].
  - intros c Hin. destruct (Hc c Hin) as [H1 H2]. split; [done|]. cbn. apply map_lookup_filter_None. by left.
  - cbn in *. trans (dom (ad_handoffs d)); [|done]. apply dom_filter_subseteq.
Qed.

Lemma code_draw_frame d u code rest : (code ∉ u) -> code_valid (d, u) rest -> code_valid (d, {[code]} ∪ u) (code :: rest).
Proof using Type.
  intros Hnew (Hn & Hc & Hd). cbn [fst snd] in *. split_and!; cbn.
  - apply NoDup_cons. split; [|done]. intros Hin. by destruct (Hc _ Hin).
  - intros c [->|Hin]%elem_of_cons.
    + split; [set_solver|]. apply not_elem_of_dom. set_solver.
    + pose proof (Hc c Hin) as []. split; [set_solver|done].
  - set_solver.
Qed.

Lemma code_frame X (e : account_eff X) s x s' rest :
  account_unique (al_password_ok L) X e s x s' -> code_valid s (code_spend X e ++ rest) -> code_valid s' (code_gain X e x ++ rest).
Proof using Type.
  destruct s as [d u], s' as [d' u']. intros [He Hu] Hv. cbn [fst snd] in *. pose proof (code_other_frame X e d x d') as Ho.
  destruct e; cbn [code_spend code_gain app] in *; try (subst u'; eapply (code_valid_same (d, u)); [by apply Ho|done|done]).
  - subst u'. by eapply code_insert_frame.
  - destruct He as [-> ->]. subst u'. by apply code_remove_frame.
  - cbn in He. subst. by apply code_purge_frame.
  - destruct Hu as [Hnew ->]. cbn in He. subst d'. by apply code_draw_frame.
Qed.

(** *** Each request pays for the codes it stores *)

Abbreviation pays own p Q := (lin code_spend code_gain own p Q).

(** Stores no tokens. *)
Definition stores_none (X : Type) (e : account_eff X) : Prop := match e with HandoffInsert _ _ => False | _ => True end.
#[local] Hint Extern 1 (stores_none _ _) => exact I : only.

Lemma stores_none_pays {A} (p : prog account_eff A) own : only stores_none p -> pays own p (fun o _ => own ⊆+ o).
Proof using Type.
  revert own. induction p as [a|X e k IH]; intros own; simpl; [done|]. intros [He Hk]. exists own. split.
  { by destruct e. }
  intros x. eapply lin_mono; [|apply IH, Hk]. intros o a Ho. trans (code_gain X e x ++ own); [|done]. by apply submseteq_inserts_l.
Qed.

Lemma sess_stores_none {A} (p : prog session_eff A) : only stores_none (sess_part p).
Proof using Type. induction p as [a|X e k IH]; simpl; [done|]. split; [done|]. apply IH. Qed.
#[local] Hint Resolve sess_stores_none : only.

Ltac stores_none_auto := unfold or_redirect, or_err, acc_sql, clock, answer; only_auto.

Lemma bind_stores_none_pays {A B} own (p : prog account_eff A) (f : A -> prog account_eff B) :
  only stores_none p -> (forall a o, pays o (f a) (fun _ _ => True)) -> pays own (bind p f) (fun _ _ => True).
Proof using Type. intros Hp Hf. apply lin_bind. eapply lin_mono; [|by apply stores_none_pays]. intros o a _. apply Hf. Qed.

Lemma open_session_pays i user own :
  pays own (open_session (al_urlencode L) (al_sha256_hex L) (al_callback_url L) (al_access_ttl L) i user) (fun _ _ => True).
Proof using Type.
  unfold open_session, or_redirect.
  apply bind_stores_none_pays; [stores_none_auto|]. intros [n|e] o; [|done].
  apply bind_stores_none_pays; [stores_none_auto|]. intros [access|e] o1; [|done].
  apply bind_stores_none_pays; [stores_none_auto|]. intros [raw|e] o2; [|done].
  apply bind_stores_none_pays; [stores_none_auto|]. intros [] o3.
  exists o3. split; [done|]. intros code. exists (code :: o3). split; [done|]. intros now.
  exists o3. split; [done|]. by intros [].
Qed.

Lemma callback_pays ps own :
  pays own (sso_callback (al_urlencode L) (al_sha256_hex L) (al_callback_url L) (al_access_ttl L) ps) (fun _ _ => True).
Proof using Type.
  unfold sso_callback. destruct (cp_error ps); [done|]. destruct (cp_code ps) as [code|]; [|done].
  destruct (cp_state ps) as [state|]; [|done].
  apply bind_stores_none_pays; [stores_none_auto|]. intros [v|] o; [|done].
  apply bind_stores_none_pays.
  { unfold exchange_code, decrypt_client_secret, verify_id_token, provider_keys, cached_jwks, fetch_discovery, cached_discovery,
      load_oidc_config. stores_none_auto. }
  intros [cc|e] o1; [|done]. destruct (identity_of _ _ _ _) as [i|e]; [|done].
  apply bind_stores_none_pays; [unfold sso_account; stores_none_auto|]. intros [user|e] o2; [|done]. apply open_session_pays.
Qed.

Lemma serve_pays auth rq own : pays own (serve L auth rq) (fun _ _ => True).
Proof using Type.
  destruct rq; cbn [serve]; unfold discarded.
  all: try solve [apply bind_stores_none_pays; [|done]; stores_none_auto;
    unfold create_user, get_user, update_user, delete_user, revoke_user_sessions, admin_reset_password, admin_disable_mfa,
      force_change_password_handler, change_own_password, mfa_setup_handler, mfa_verify_handler, disable_mfa, sso_config, sso_login,
      fetch_discovery, cached_discovery, load_oidc_config, sso_handoff_exchange, confirm_password, hash_new, update_row;
    unfold login_handler, refresh_handler, logout_handler; stores_none_auto].
  - apply lin_bind. eapply lin_mono; [|apply callback_pays]. done.
  - apply bind_stores_none_pays; [unfold purge_sso_sessions; stores_none_auto|]. intros a o.
    eapply lin_mono; [|apply stores_none_pays; unfold purge_handoffs; stores_none_auto]. done.
Qed.
End Codes.

(** *** The theorem *)

(** A request for the tokens of a code: the code, if they are sent. *)
Definition deliver (code : string) : prog account_eff (option string) :=
  let! r := sso_handoff_exchange code in Ret (match r with Ok _ => Some code | Err _ => None end).

(** Any request, with any token, may run at any time. *)
Inductive sso_entry (L : account_libs) : prog account_eff (option string) -> Prop :=
| entry_deliver code : sso_entry L (deliver code)
| entry_request auth rq : sso_entry L (serve L auth rq ;; Ret None).

Definition delivered_codes (ts : list (prog account_eff (option string))) : list string :=
  omap (fun p => match p with Ret code => code | Vis _ _ => None end) ts.

Lemma sso_entry_pays L p : sso_entry L p -> lin code_spend code_gain [] p (fun o a => option_list a ⊆+ o).
Proof.
  intros [code|auth rq].
  - exists []. split; [done|]. intros [h|]; [|apply submseteq_nil_l]. exists [code]. split; [done|]. intros now. cbn [code_gain app lin bind].
    destruct (ho_expires_at h <=? now); [apply submseteq_nil_l|done].
  - apply lin_bind. eapply lin_mono; [|apply serve_pays]. intros o a _. apply submseteq_nil_l.
Qed.

(** C17. However logins, callbacks, exchanges, clean-ups and all other requests
    interleave, the tokens behind a one-time code are sent at most once. *)
Theorem code_delivered_once L d used d' used' ts :
  dom (ad_handoffs d) ⊆ used ->
  rtc (@cstep _ _ (account_unique (al_password_ok L)) _ (fun _ _ => []) (sso_entry L)) ((d, used), []) ((d', used'), ts) ->
  NoDup (delivered_codes ts) /\ forall code, code ∈ delivered_codes ts -> ad_handoffs d' !! code = None.
Proof.
  intros Hd Hr.
  assert (code_valid (d', used') (results (fun a => option_list a) ts)) as (Hn & Hc & _).
  { apply (accounted_results code_spend code_gain _ code_valid code_valid_sub ((d', used'), ts)).
    eapply (accounted_reachable code_spend code_gain (sso_entry L) _ code_valid code_valid_sub (code_frame L) (sso_entry_pays L)); [exact Hr|].
    exists []. split; [constructor|]. split_and!; [constructor| |done]. intros c Hin. by apply elem_of_nil in Hin. }
  assert (results (fun a => option_list a) ts = delivered_codes ts) as <-.
  { unfold results, delivered_codes. clear. induction ts as [|p ts IH]; [done|]. cbn [fmap list_fmap concat]. rewrite IH. by destruct p as [[]|]. }
  split; [done|]. intros code Hin. by destruct (Hc code Hin).
Qed.

(** ** A concrete sign-on *)

Definition demo_oidc : oidc_config :=
  OidcConfig true "azure" "Azure AD" "discovery" "client" None "callback" "openid profile email".
Definition demo_provider (url : string) : json :=
  if String.eqb url "discovery" then
    JObj [("issuer", JStr "idp"); ("authorization_endpoint", JStr "idp/auth"); ("token_endpoint", JStr "idp/token"); ("jwks_uri", JStr "jwks")]%string
  else JObj [("keys", JArr [JObj [("kid", JStr "kid"); ("n", JStr "n"); ("e", JStr "e")]])]%string.
Definition alice_claims : id_token_claims :=
  IdTokenClaims (Some "alice@example.com") (Some "Alice") (Some "sub-1") (Some "oid-1") None.
Definition sso_world := account_world demo_provider (Some "token"%string) alice_claims.
Definition sso_accounts : account_db :=
  AccountDb (ad_session demo_accounts) (ad_profiles demo_accounts) ∅ ∅ (OidcCache None None None) (Some demo_oidc).
Definition demo_params : callback_params := CallbackParams (Some "authcode"%string) (Some "state0"%string) None None.
Definition demo_callback := sso_callback plain plain "/login" 900 demo_params.

(** Login, callback, the same callback again, and the code twice. *)
Definition demo_sign_on :=
  let! r1 := sso_login plain plain in
  let! r2 := demo_callback in
  let! r3 := demo_callback in
  let! r4 := deliver "code0" in
  let! r5 := deliver "code0" in
  Ret (r1, r2, r3, r4, r5).

Example demo_sign_on_run :
  (run sso_world demo_sign_on sso_accounts).1 =
    (Ok "idp/auth?client_id=client&response_type=code&redirect_uri=callback&scope=openid profile email&code_challenge=code0&code_challenge_method=S256&state=state0"%string,
     Ok "/login?handoff=code0"%string,
     Err "/login?error=bad_request&error_description=Invalid or expired state token"%string, Some "code0"%string, None).
Proof. vm_compute. reflexivity. Qed.

Lemma callback_replay_refused_witness :
  @wp account_eff account_db (account_alone demo_password_ok) _ demo_callback (fun _ d1 =>
    @wp account_eff account_db (account_alone demo_password_ok) _ demo_callback (fun r d2 => d2 = d1 /\
      r = Err "/login?error=bad_request&error_description=Invalid or expired state token"%string) d1) sso_accounts.
Proof.
  exact (callback_replay_refused demo_libs demo_params "authcode" "state0" sso_accounts eq_refl eq_refl eq_refl).
Defined.

Lemma code_delivered_once_witness :
  (forall d' used' ts, rtc (@cstep _ _ (account_unique demo_password_ok) _ (fun _ _ => []) (sso_entry demo_libs)) ((sso_accounts, ∅), []) ((d', used'), ts) ->
    NoDup (delivered_codes ts) /\ forall code, code ∈ delivered_codes ts -> ad_handoffs d' !! code = None) /\
  (run sso_world demo_sign_on sso_accounts).1.1.2 = Some "code0"%string.
Proof.
  split; [|vm_compute; reflexivity]. intros d' used' ts.
  apply (code_delivered_once demo_libs sso_accounts ∅ d' used' ts). vm_compute. by intros x Hx.
Defined.
