(* ===== verification/WsTickets.v ===== *)
(** * WebSocket tickets (pm-web/src/routes/ws.rs)

    The browser's WebSocket is authenticated by a one-time ticket and guarded by
    an allow-list of origins.  The tickets are an in-memory [DashMap] shared by
    the handlers and a purge task; each access to it is one effect. *)

From S2P Require Import Prelude Conc Rbac.

(** ** Origins *)

Record origin : Type := Origin { og_scheme : string; og_host : string; og_port : option Z }.

Definition default_port (scheme : string) : option Z :=
  if String.eqb scheme "https" then Some 443
  else if String.eqb scheme "http" then Some 80
  else None.

Definition canonical (o : origin) : string :=
  match og_port o with
  | Some p =>
      if bool_decide (default_port (og_scheme o) = Some p) then (og_scheme o ++ "://" ++ og_host o)%string
      else (og_scheme o ++ "://" ++ og_host o ++ ":" ++ dec p)%string
  | None => (og_scheme o ++ "://" ++ og_host o)%string
  end.

Definition is_authority_end (c : ascii) : bool :=
  Ascii.eqb c "/" || Ascii.eqb c "?" || Ascii.eqb c "#".

(** Host and port of a non-empty authority. *)
Definition split_authority (authority : string) : option (string * option string) :=
  match rsplit_once ":" authority with
  | Some (h, p) => if contains_char ":" h then None else Some (h, Some p)
  | None => Some (authority, None)
  end.

Definition parse_origin_header (value : string) : option origin :=
  let s := trim_end_matches "/" (trim value) in
  if String.eqb s "" then None
  else
    '(scheme, rest) ← split_once_str "://" s;
    let scheme := to_ascii_lowercase scheme in
    if negb (String.eqb scheme "http") && negb (String.eqb scheme "https") then None
    else
      let authority := take_until is_authority_end rest in
      if String.eqb authority "" then None
      else
        '(host, port_str) ← split_authority authority;
        let host := trim host in
        if String.eqb host "" || contains_white_space host || contains_char ":" host then None
        else
          match port_str with
          | Some p => n ← parse_u16 p; Some (Origin scheme (to_ascii_lowercase host) (Some n))
          | None => Some (Origin scheme (to_ascii_lowercase host) None)
          end.

Definition is_origin_allowed (o : origin) (allowlist : list string) : bool :=
  match allowlist with
  | [] => false
  | _ =>
      existsb (fun entry =>
        match parse_origin_header entry with
        | Some parsed => String.eqb (canonical parsed) (canonical o)
        | None => false
        end) allowlist
  end.

Definition forbidden_origin : api_err := ApiErr 403 "forbidden_origin".

(** [header]: absent, or its bytes with whether they are visible ASCII
    ([to_str] succeeds). *)
Definition check_origin (header : option (option string)) (allowlist : list string) : result unit api_err :=
  match header with
  | None => Err forbidden_origin
  | Some None => Err forbidden_origin
  | Some (Some raw) =>
      match parse_origin_header raw with
      | None => Err forbidden_origin
      | Some o => if is_origin_allowed o allowlist then Ok tt else Err forbidden_origin
      end
  end.

(** ** The ticket store *)

Record ws_ticket : Type := WsTicket { wt_user : uuid; wt_role : string; wt_expires_at : Z }.

Record ws_store : Type := WsStore { ws_clock : Z; ws_map : gmap string ws_ticket }.

Inductive ws_eff : Type -> Type :=
| WNow : ws_eff Z
| WUlid : ws_eff string
| WInsert (key : string) (t : ws_ticket) : ws_eff unit
| WGet (key : string) : ws_eff (option ws_ticket)
| WRemove (key : string) : ws_eff (option ws_ticket)
| WRetainAfter (now : Z) : ws_eff unit.

Definition create_ticket_handler (auth : auth_user) : prog ws_eff (result string api_err) :=
  let! ticket_id := trigger WUlid in
  let! now := trigger WNow in
  trigger (WInsert ticket_id (WsTicket (au_id auth) (role_str (au_role auth)) (now + 60 * second_us))) ;;
  Ret (Ok ticket_id).

Definition invalid_ticket : api_err := ApiErr 401 "invalid_ticket".
Definition ticket_expired : api_err := ApiErr 401 "ticket_expired".

(** The ticket the socket is opened for, or the refusal. *)
Definition ws_handler (allowlist : list string) (header : option (option string)) (ticket : string)
    : prog ws_eff (result ws_ticket api_err) :=
  match check_origin header allowlist with
  | Err e => Ret (Err e)
  | Ok _ =>
      let! entry := trigger (WGet ticket) in
      match entry with
      | None => Ret (Err invalid_ticket)
      | Some t =>
          let! now := trigger WNow in
          if wt_expires_at t <? now then trigger (WRemove ticket) ;; Ret (Err ticket_expired)
          else trigger (WRemove ticket) ;; Ret (Ok t)
      end
  end.

(** One tick of the purge task (pm-web/src/main.rs). *)
Definition purge_tickets : prog ws_eff unit :=
  let! now := trigger WNow in trigger (WRetainAfter now).

(** Time passes; the map answers. *)
Definition ws_exec : EffectSem ws_eff ws_store := fun X e s x s' =>
  exists t, ws_clock s <= t /\
    match e in ws_eff Y return Y -> Prop with
    | WNow => fun n => n = t /\ s' = WsStore t (ws_map s)
    | WUlid => fun k => ws_map s !! k = None /\ s' = WsStore t (ws_map s)
    | WInsert k v => fun _ => s' = WsStore t (<[k := v]> (ws_map s))
    | WGet k => fun v => v = ws_map s !! k /\ s' = WsStore t (ws_map s)
    | WRemove k => fun v => v = ws_map s !! k /\ s' = WsStore t (delete k (ws_map s))
    | WRetainAfter now => fun _ => s' = WsStore t (filter (fun kv => now < wt_expires_at kv.2) (ws_map s))
    end x.

(** ** Reference: when two origins are the same *)

Definition effective_port (o : origin) : option Z :=
  match og_port o with Some p => Some p | None => default_port (og_scheme o) end.

Definition same_origin (a b : origin) : Prop :=
  og_scheme a = og_scheme b /\ og_host a = og_host b /\ effective_port a = effective_port b.

(** The origin of a request is on the list. *)
Definition origin_listed (header : option (option string)) (allowlist : list string) : Prop :=
  match header with
  | Some (Some raw) =>
      exists o entry o', parse_origin_header raw = Some o /\ entry ∈ allowlist /\
        parse_origin_header entry = Some o' /\ same_origin o' o
  | _ => False
  end.

(** ** Lemmas *)

(** What the parser guarantees. *)
Definition origin_ok (o : origin) : Prop :=
  (og_scheme o = "http"%string \/ og_scheme o = "https"%string) /\ contains_char ":" (og_host o) = false /\
  forall p, og_port o = Some p -> 0 <= p.

Lemma to_ascii_lower_colon c : Ascii.eqb (to_ascii_lower c) ":" = Ascii.eqb c ":".
Proof. destruct c as [[] [] [] [] [] [] [] []]; reflexivity. Qed.

Lemma contains_colon_lower s : contains_char ":" (to_ascii_lowercase s) = contains_char ":" s.
Proof.
  unfold contains_char. f_equal. induction s as [|c s IH]; [done|]. cbn [to_ascii_lowercase str_forallb].
  by rewrite to_ascii_lower_colon, IH.
Qed.

Lemma parse_origin_ok v o : parse_origin_header v = Some o -> origin_ok o.
Proof.
  unfold parse_origin_header. case_match; [done|]. destruct (split_once_str _ _) as [[scheme rest]|]; [|done].
  cbn [mbind option_bind]. destruct (negb _ && negb _) eqn:Hs; [done|]. case_match; [done|].
  destruct (split_authority _) as [[host port]|]; [|done]. cbn [mbind option_bind].
  destruct (_ || _) eqn:Hh; [done|]. rewrite !orb_false_iff in Hh. destruct Hh as [_ Hh].
  assert (to_ascii_lowercase scheme = "http" \/ to_ascii_lowercase scheme = "https")%string as Hsch.
  { destruct (String.eqb_spec (to_ascii_lowercase scheme) "http"); [by left|].
    destruct (String.eqb_spec (to_ascii_lowercase scheme) "https"); [by right|done]. }
  assert (contains_char ":" (to_ascii_lowercase (trim host)) = false) as Hc by (by rewrite contains_colon_lower).
  destruct port as [p|].
  - destruct (parse_u16 p) as [n|] eqn:Hn; simpl; [|done]. intros [= <-]. split_and!; simpl; [done|done|].
    intros ? [= <-]. apply parse_unsigned_bounds in Hn. lia.
  - intros [= <-]. by split_and!.
Qed.

(** The port as [canonical] shows it. *)
Definition port_suffix (o : origin) : string :=
  match og_port o with
  | Some p => if bool_decide (default_port (og_scheme o) = Some p) then ""%string else String ":" (dec p)
  | None => ""%string
  end.

Lemma canonical_suffix o : canonical o = (og_scheme o ++ "://" ++ (og_host o ++ port_suffix o))%string.
Proof.
  unfold canonical, port_suffix. destruct (og_port o); [|by rewrite str_app_nil_r].
  case_bool_decide; [by rewrite str_app_nil_r|done].
Qed.

Lemma dec_inj n m : 0 <= n -> 0 <= m -> dec n = dec m -> n = m.
Proof.
  intros Hn Hm He. pose proof (parse_unsigned_dec (n + m) n) as H1. pose proof (parse_unsigned_dec (n + m) m) as H2.
  rewrite He in H1. rewrite H1 in H2 by lia. assert (Some n = Some m) as [= ->] by (apply H2; lia). done.
Qed.

(** Hosts without a colon end where the port starts. *)
Definition is_suffix (s : string) : Prop := s = ""%string \/ exists t, s = String ":" t.

Lemma host_suffix_inj h h' s s' :
  contains_char ":" h = false -> contains_char ":" h' = false -> is_suffix s -> is_suffix s' ->
  (h ++ s)%string = (h' ++ s')%string -> h = h' /\ s = s'.
Proof.
  unfold contains_char. rewrite !negb_false_iff. intros Hh. revert h'.
  induction h as [|c h IH]; intros [|c' h'] Hh' Hs Hs' He; simpl in *; [done| | |].
  - destruct Hs as [->|[t ->]]; [done|]. injection He as <- _. by rewrite Ascii.eqb_refl in Hh'.
  - destruct Hs' as [->|[t ->]]; [done|]. injection He as -> _. by rewrite Ascii.eqb_refl in Hh.
  - apply andb_true_iff in Hh as [_ Hh], Hh' as [_ Hh']. injection He as -> He.
    destruct (IH Hh h' Hh' Hs Hs' He) as [-> ->]. done.
Qed.

Lemma port_suffix_is_suffix o : is_suffix (port_suffix o).
Proof. unfold port_suffix, is_suffix. repeat case_match; eauto. Qed.

Lemma port_suffix_inj a b :
  origin_ok a -> origin_ok b -> og_scheme a = og_scheme b ->
  (port_suffix a = port_suffix b <-> effective_port a = effective_port b).
Proof.
  intros (Hsa & _ & Ha) (_ & _ & Hb) Hs. unfold port_suffix, effective_port. rewrite <- Hs.
  assert (exists d, default_port (og_scheme a) = Some d) as [d ->] by (destruct Hsa as [-> | ->]; by eexists).
  destruct (og_port a) as [p|] eqn:Hp, (og_port b) as [q|] eqn:Hq; repeat case_bool_decide; simplify_eq;
    try (split; congruence).
  split; [|congruence]. intros [= He]. f_equal. apply dec_inj; eauto.
Qed.

Lemma canonical_inj a b : origin_ok a -> origin_ok b -> (canonical a = canonical b <-> same_origin a b).
Proof.
  intros Ha Hb. rewrite !canonical_suffix. unfold same_origin. pose proof (port_suffix_inj a b Ha Hb) as Hp.
  pose proof (port_suffix_is_suffix a). pose proof (port_suffix_is_suffix b).
  destruct Ha as (Hsa & Hha & _), Hb as (Hsb & Hhb & _). split.
  - intros He. assert (og_scheme a = og_scheme b /\ (og_host a ++ port_suffix a = og_host b ++ port_suffix b)%string)
      as [Hs He'] 
      by (destruct Hsa as [Ea|Ea], Hsb as [Eb|Eb]; rewrite Ea, Eb in *; first [by injection He | discriminate]).
    apply host_suffix_inj in He' as [Hh He']; [|done..]. split_and!; [done|done|]. by apply Hp.
  - intros (Hs & Hh & He). apply Hp in He; [|done]. by rewrite Hs, Hh, He.
Qed.

Lemma is_origin_allowed_iff o allowlist :
  origin_ok o ->
  is_origin_allowed o allowlist = true <->
  exists entry o', entry ∈ allowlist /\ parse_origin_header entry = Some o' /\ same_origin o' o.
Proof.
  intros Ho. unfold is_origin_allowed. destruct allowlist as [|e0 l].
  { split; [done|]. intros (e & o' & He%elem_of_nil & _). done. }
  rewrite List.existsb_exists. setoid_rewrite <- list_elem_of_In. split.
  - intros (e & He & Hm). exists e. destruct (parse_origin_header e) as [o'|] eqn:Hpe; [|done].
    exists o'. split_and!; [done|done|]. apply canonical_inj; [by eapply parse_origin_ok|done|by apply String.eqb_eq].
  - intros (e & o' & He & Hpe & Hm). exists e. split; [done|]. rewrite Hpe. apply String.eqb_eq.
    apply canonical_inj; [by eapply parse_origin_ok|done|done].
Qed.

Lemma check_origin_ok header allowlist :
  (origin_listed header allowlist /\ check_origin header allowlist = Ok tt) \/
  (~ origin_listed header allowlist /\ check_origin header allowlist = Err forbidden_origin).
Proof.
  destruct header as [[raw|]|]; [|by right; split; [intros []|]..]. unfold check_origin, origin_listed.
  destruct (parse_origin_header raw) as [o|] eqn:Hraw; [|by right; split; [intros (? & ? & ? & ? & _)|]].
  pose proof (is_origin_allowed_iff o allowlist (parse_origin_ok _ _ Hraw)) as Hall.
  destruct (is_origin_allowed o allowlist); [left|right]; (split; [|done]).
  - destruct (proj1 Hall eq_refl) as (e & o' & ?). eauto 10.
  - intros (o1 & e & o' & [= <-] & He). assert (false = true) by (apply Hall; eauto). done.
Qed.

(** ** The properties *)

(** The handler on every branch: a request whose origin is not on the list is
    refused and leaves the ticket in place; a listed one consumes the ticket it
    names, and is served exactly when there is one and it has not expired.
    Listed means: the same scheme, host and effective port as an entry. *)
Theorem ws_handler_spec allowlist header ticket s :
  @wp ws_eff ws_store ws_exec _ (ws_handler allowlist header ticket)
    (fun r s' =>
       (~ origin_listed header allowlist /\ r = Err forbidden_origin /\ s' = s) \/
       (origin_listed header allowlist /\ exists now, ws_clock s <= now /\
          ws_map s' = delete ticket (ws_map s) /\
          r = match ws_map s !! ticket with
              | None => Err invalid_ticket
              | Some t => if wt_expires_at t <? now then Err ticket_expired else Ok t
              end)) s.
Proof.
  unfold ws_handler. destruct (check_origin_ok header allowlist) as [[Hl ->]|[Hl ->]]; [|by left].
  simpl. intros entry s1 (t1 & Ht1 & -> & ->). destruct (ws_map s !! ticket) as [t|] eqn:Hm.
  - simpl. intros now s2 (t2 & Ht2 & -> & ->). destruct (wt_expires_at t <? t2) eqn:He; simpl;
      intros _ s3 (t3 & Ht3 & _ & ->); right; (split; [done|]); exists t2; rewrite He; simpl in *; split_and!; try done; lia.
  - right. split; [done|]. exists t1. simpl. split_and!; [done| |done]. by rewrite delete_id.
Qed.

(** ** Two requests with one ticket *)

Definition demo_tickets : ws_store := WsStore 0 {[ "t1"%string := WsTicket 7%N "admin" 60 ]}.
Definition demo_handler : prog ws_eff (result ws_ticket api_err) :=
  ws_handler ["https://app.example.com"%string] (Some (Some "https://app.example.com:443"%string)) "t1".

Definition ws_world (X : Type) (e : ws_eff X) (s : ws_store) : X * ws_store :=
  match e in ws_eff Y return Y * ws_store with
  | WNow => (ws_clock s, s)
  | WUlid => (fresh (dom (ws_map s)), s)
  | WInsert k v => (tt, WsStore (ws_clock s) (<[k := v]> (ws_map s)))
  | WGet k => (ws_map s !! k, s)
  | WRemove k => (ws_map s !! k, WsStore (ws_clock s) (delete k (ws_map s)))
  | WRetainAfter now => (tt, WsStore (ws_clock s) (filter (fun kv => now < wt_expires_at kv.2) (ws_map s)))
  end.

Lemma ws_world_exec X (e : ws_eff X) s : ws_exec X e s (ws_world X e s).1 (ws_world X e s).2.
Proof.
  destruct s as [t m]. exists t. simpl. split; [lia|]. destruct e; simpl; try done.
  split; [apply not_elem_of_dom, is_fresh|done].
Qed.

(** The look-up and the removal are two accesses: two requests that present one
    ticket at the same time are both served. *)
Theorem ws_ticket_used_twice :
  exists s' t, rtc (@cstep ws_eff ws_store ws_exec _ (fun _ _ => []) (fun _ => False))
    (demo_tickets, [demo_handler; demo_handler]) (s', [Ret (Ok t); Ret (Ok t)]).
Proof.
  eexists _, (WsTicket 7%N "admin" 60).
  eapply (@interleave_reachable ws_eff ws_store ws_exec _ _ _ ws_world [0; 0; 1; 1; 0; 1]%nat); [apply ws_world_exec|].
  vm_compute. reflexivity.
Qed.
