(* ===== verification/Enrollment.v ===== *)
(** * Host enrolment (pm-web/src/routes/enrollment.rs, pm-core/src/db.rs)

    A host asks to be enrolled and polls with the token it got; an admin approves
    or denies; an approved host fetches its certificate and private key once.
    The requests and hosts are tables, the approved bundles an in-memory
    [DashMap].  SHA-256, the normal form of an [inet] and the certificate
    authority are parameters or effects.  The package-repository part of a bundle
    is computed but never sent, and is left out. *)

From S2P Require Import Prelude Conc Rbac.

(** ** Data *)

Record enrollment_request : Type := EnrollmentRequest {
  er_machine_id : string;
  er_fqdn : string;
  er_ip : string;
  er_os_details : json;
  er_polling_token : string;
  er_hostname : option string;
  er_expires_at : Z
}.
Record create_enrollment : Type := CreateEnrollment {
  ce_machine_id : string; ce_fqdn : string; ce_ip : string; ce_os_details : json; ce_hostname : option string
}.
Record enrolled_host : Type := EnrolledHost {
  eh_fqdn : string; eh_ip : string; eh_os_family : option string; eh_os_name : option string;
  eh_arch : option string; eh_display_name : string
}.
(** What of an [IssuedCert] reaches the agent. *)
Record issued_cert : Type := IssuedCert { ic_server_cert : string; ic_server_key : string; ic_ca_root : string }.

Record pki_bundle : Type := PkiBundle {
  pki_ca_crt : string; pki_ca_chain : string; pki_server_crt : string; pki_server_key : string; pki_crl : string
}.
Record approved_entry : Type := ApprovedEntry { ae_pki : pki_bundle; ae_approved_at : Z; ae_ttl : Z }.

Definition enrollment_bundle_ttl_us : Z := 600 * second_us.
Definition is_expired (now : Z) (e : approved_entry) : bool := ae_approved_at e + ae_ttl e <? now.

Inductive enrollment_status : Type := EsPending | EsApproved (pki : pki_bundle) | EsDenied | EsNotFound.

(** The tables, the certificates handed out so far, and the cache. *)
Record enroll_store : Type := EnrollStore {
  en_now : Z;
  en_requests : gmap uuid enrollment_request;
  en_hosts : gmap uuid enrolled_host;
  en_issued : list (uuid * issued_cert);
  en_approved : gmap string approved_entry
}.

(** ** Statements and effects *)

Inductive enr_stmt : Type -> Type :=
| InsRequest (r : create_enrollment) (token_hash : string) : enr_stmt unit
| SelRequests : enr_stmt (list (uuid * enrollment_request))
| SelCollision (fqdn ip : string) : enr_stmt (option uuid)
| InsEnrolledHost (id : uuid) (h : enrolled_host) : enr_stmt unit
| DelRequest (id : uuid) : enr_stmt Z.

Inductive enr_eff : Type -> Type :=
| EnrSql {X} (q : enr_stmt X) : enr_eff (result X string)
| EnrNow : enr_eff Z
| PollingToken : enr_eff string
| IssueClientCert (id : uuid) (fqdn ip : string) : enr_eff (result issued_cert string)
| GenerateCrl : enr_eff (result string string)
| CacheInsert (key : string) (e : approved_entry) : enr_eff unit
| CacheRemove (key : string) : enr_eff (option approved_entry)
| CachePurge : enr_eff unit.

Section Enrollment.
(** SHA-256 in hex; the normal form of a text that [inet] accepts. *)
Context (sha256_hex : string -> string) (inet : string -> option string).

Definition with_requests (m : gmap uuid enrollment_request) (d : enroll_store) : enroll_store :=
  EnrollStore (en_now d) m (en_hosts d) (en_issued d) (en_approved d).

(** [machine_id] and [polling_token] are unique; a request lives for a day. *)
Definition ins_request (r : create_enrollment) (token_hash : string) (d : enroll_store)
    : result unit string * enroll_store :=
  match inet (ce_ip r) with
  | None => (Err "invalid input syntax for type inet"%string, d)
  | Some ip =>
      if existsb (fun kr => String.eqb (er_machine_id kr.2) (ce_machine_id r) ||
                            String.eqb (er_polling_token kr.2) token_hash) (map_to_list (en_requests d))
      then (Err "duplicate key value violates unique constraint"%string, d)
      else
        let id := fresh (dom (en_requests d) ∪ dom (en_hosts d)) in
        (Ok tt, with_requests
                  (<[id := EnrollmentRequest (ce_machine_id r) (ce_fqdn r) ip (ce_os_details r) token_hash
                             (ce_hostname r) (en_now d + 24 * hour_us)]> (en_requests d)) d)
  end.

(** [WHERE fqdn = $1 OR ip_address = $2::inet] *)
Definition collides (fqdn ip : string) (h : enrolled_host) : bool :=
  String.eqb (eh_fqdn h) fqdn || String.eqb (eh_ip h) ip.

Definition sel_collision (fqdn ip : string) (d : enroll_store) : option uuid :=
  fst <$> List.find (fun kh => collides fqdn ip kh.2) (map_to_list (en_hosts d)).

(** The primary key, and [UNIQUE (fqdn, ip_address)]. *)
Definition ins_enrolled_host (id : uuid) (h : enrolled_host) (d : enroll_store) : result unit string * enroll_store :=
  if bool_decide (is_Some (en_hosts d !! id)) ||
     existsb (fun kh => String.eqb (eh_fqdn kh.2) (eh_fqdn h) && String.eqb (eh_ip kh.2) (eh_ip h))
       (map_to_list (en_hosts d))
  then (Err "duplicate key value violates unique constraint"%string, d)
  else (Ok tt, EnrollStore (en_now d) (en_requests d) (<[id := h]> (en_hosts d)) (en_issued d) (en_approved d)).

(** [polling_token] and [id] are unique, so the order of the requests does not
    matter to a look-up by one of them. *)
Definition exec_enr_stmt {X} (q : enr_stmt X) (d : enroll_store) : result X string * enroll_store :=
  match q in enr_stmt Y return result Y string * enroll_store with
  | InsRequest r h => ins_request r h d
  | SelRequests => (Ok (map_to_list (en_requests d)), d)
  | SelCollision fqdn ip => (Ok (sel_collision fqdn ip d), d)
  | InsEnrolledHost id h => ins_enrolled_host id h d
  | DelRequest id =>
      (Ok (if bool_decide (is_Some (en_requests d !! id)) then 1 else 0), with_requests (delete id (en_requests d)) d)
  end.

(** ** The routes *)

Definition err_database : api_err := ApiErr 500 "Database error".
Definition err_certificate : api_err := ApiErr 500 "Certificate generation failed".
Definition err_collision : api_err := ApiErr 409 "Host collision detected".

Definition esql {X} (q : enr_stmt X) : prog enr_eff (result X api_err) :=
  let! r := trigger (EnrSql q) in
  Ret (match r with Ok x => Ok x | Err _ => Err err_database end).

(** Answers the polling token. *)
Definition enroll_host (payload : create_enrollment) : prog enr_eff (result string api_err) :=
  let! token := trigger PollingToken in
  let!? _ := esql (InsRequest payload (sha256_hex token)) in
  Ret (Ok token).

Definition enroll_status (token : string) : prog enr_eff (result enrollment_status api_err) :=
  let token_hash := sha256_hex token in
  let!? requests := esql SelRequests in
  match List.find (fun kr : uuid * enrollment_request => String.eqb (er_polling_token kr.2) token_hash) requests with
  | Some (_, req) =>
      let! now := trigger EnrNow in
      Ret (Ok (if er_expires_at req <? now then EsNotFound else EsPending))
  | None =>
      let! removed := trigger (CacheRemove token_hash) in
      match removed with
      | Some entry =>
          let! now := trigger EnrNow in
          Ret (Ok (if is_expired now entry then EsNotFound else EsApproved (ae_pki entry)))
      | None => Ret (Ok EsNotFound)
      end
  end.

Definition detail (key : string) (r : enrollment_request) : option string :=
  v ← json_get key (er_os_details r); json_as_str v.

(** The row of [hosts] an approved request becomes. *)
Definition host_of_request (r : enrollment_request) : enrolled_host :=
  EnrolledHost (er_fqdn r) (er_ip r) (detail "os" r)
    (match detail "name" r with
     | Some n => Some n
     | None => os ← detail "os" r; Some (trim (os ++ " " ++ default "" (detail "os_version" r)))
     end)
    (detail "architecture" r) (default (er_fqdn r) (er_hostname r)).

(** [Ok 404] when there is no such request, as the handler answers. *)
Definition approve_enrollment (auth : auth_user) (id : uuid) : prog enr_eff (result Z api_err) :=
  if negb (is_admin (au_role auth)) then Ret (Err forbidden)
  else
    let!? requests := esql SelRequests in
    match List.find (fun kr : uuid * enrollment_request => bool_decide (kr.1 = id)) requests with
    | None => Ret (Ok 404)
    | Some (_, req) =>
        let!? existing := esql (SelCollision (er_fqdn req) (er_ip req)) in
        match existing with
        | Some _ => Ret (Err err_collision)
        | None =>
            let!? _ := esql (InsEnrolledHost id (host_of_request req)) in
            let! cert := trigger (IssueClientCert id (er_fqdn req) (er_ip req)) in
            match cert with
            | Err _ => Ret (Err err_certificate)
            | Ok issued =>
                let!? _ := esql (DelRequest id) in
                let! crl := trigger GenerateCrl in
                let! now := trigger EnrNow in
                trigger (CacheInsert (er_polling_token req)
                  (ApprovedEntry
                     (PkiBundle (ic_ca_root issued) (ic_ca_root issued) (ic_server_cert issued) (ic_server_key issued)
                        (match crl with Ok pem => pem | Err _ => ""%string end))
                     now enrollment_bundle_ttl_us)) ;;
                Ret (Ok 200)
            end
        end
    end.

Definition deny_enrollment (auth : auth_user) (id : uuid) : prog enr_eff (result Z api_err) :=
  if negb (is_admin (au_role auth)) then Ret (Err forbidden)
  else let!? _ := esql (DelRequest id) in Ret (Ok 204).

(** One tick of the purge task (pm-web/src/main.rs). *)
Definition purge_approved : prog enr_eff unit := trigger CachePurge.

(** ** The meaning of the effects

    Before an effect time passes and other routes may add hosts; a statement may
    fail, applied or not, when [faulty]; the authority may refuse. *)
Definition enr_env (s s1 : enroll_store) : Prop :=
  en_now s <= en_now s1 /\ en_requests s1 = en_requests s /\ dom (en_hosts s) ⊆ dom (en_hosts s1) /\
  en_issued s1 = en_issued s /\ en_approved s1 = en_approved s.
Definition enr_clock_only (s s1 : enroll_store) : Prop :=
  exists t, en_now s <= t /\ s1 = EnrollStore t (en_requests s) (en_hosts s) (en_issued s) (en_approved s).

Definition set_approved (m : gmap string approved_entry) (s : enroll_store) : enroll_store :=
  EnrollStore (en_now s) (en_requests s) (en_hosts s) (en_issued s) m.

Definition enr_step (env : enroll_store -> enroll_store -> Prop) (faulty : Prop) (X : Type) (e : enr_eff X)
    (s : enroll_store) (x : X) (s' : enroll_store) : Prop :=
  exists s1, env s s1 /\
    match e in enr_eff Y return Y -> Prop with
    | EnrSql q => fun x =>
        (x = (exec_enr_stmt q s1).1 /\ s' = (exec_enr_stmt q s1).2) \/
        (faulty /\ exists m, x = Err m /\ (s' = s1 \/ s' = (exec_enr_stmt q s1).2))
    | EnrNow => fun t => t = en_now s1 /\ s' = s1
    | PollingToken => fun _ => s' = s1
    | IssueClientCert id _ _ => fun r =>
        match r with
        | Ok c => s' = EnrollStore (en_now s1) (en_requests s1) (en_hosts s1) ((id, c) :: en_issued s1) (en_approved s1)
        | Err _ => s' = s1
        end
    | GenerateCrl => fun _ => s' = s1
    | CacheInsert k v => fun _ => s' = set_approved (<[k := v]> (en_approved s1)) s1
    | CacheRemove k => fun v =>
        v = en_approved s1 !! k /\ s' = set_approved (delete k (en_approved s1)) s1
    | CachePurge => fun _ =>
        s' = set_approved (filter (fun kv => is_expired (en_now s1) kv.2 = false) (en_approved s1)) s1
    end x.

Definition enr_concurrent : EffectSem enr_eff enroll_store := enr_step enr_env True.
Definition enr_alone : EffectSem enr_eff enroll_store := enr_step enr_clock_only False.

(** ** The tasks, and what they answered *)

Inductive enr_answer : Type := AnStatus (r : result enrollment_status api_err) | AnOther.

Definition other {A} (p : prog enr_eff A) : prog enr_eff enr_answer := let! _ := p in Ret AnOther.

Inductive enr_entry : prog enr_eff enr_answer -> Prop :=
| entry_enroll payload : enr_entry (other (enroll_host payload))
| entry_status token : enr_entry (let! r := enroll_status token in Ret (AnStatus r))
| entry_approve auth id : enr_entry (other (approve_enrollment auth id))
| entry_deny auth id : enr_entry (other (deny_enrollment auth id))
| entry_purge : enr_entry (other purge_approved).

Definition cert_of (pki : pki_bundle) : issued_cert :=
  IssuedCert (pki_server_crt pki) (pki_server_key pki) (pki_ca_crt pki).

Definition answered (a : enr_answer) : list issued_cert :=
  match a with AnStatus (Ok (EsApproved pki)) => [cert_of pki] | _ => [] end.

(** The certificates that agents were sent. *)
Definition delivered (ts : list (prog enr_eff enr_answer)) : list issued_cert :=
  concat ((fun p => match p with Ret a => answered a | Vis _ _ => [] end) <$> ts).

(** ** Resources: the right to have a certificate issued, and a certificate in hand *)

Inductive enr_res : Type := MayIssue (id : uuid) | Cert (c : issued_cert).

Definition enr_spend (X : Type) (e : enr_eff X) : list enr_res :=
  match e with
  | IssueClientCert id _ _ => [MayIssue id]
  | CacheInsert _ v => [Cert (cert_of (ae_pki v))]
  | _ => []
  end.

Definition stmt_gain {X} (q : enr_stmt X) (x : result X string) : list enr_res :=
  match q, x with InsEnrolledHost id _, Ok _ => [MayIssue id] | _, _ => [] end.

Definition enr_gain (X : Type) (e : enr_eff X) : X -> list enr_res :=
  match e in enr_eff Y return Y -> list enr_res with
  | EnrSql q => stmt_gain q
  | IssueClientCert _ _ _ => fun r => match r with Ok c => [Cert c] | Err _ => [] end
  | CacheRemove _ => fun o => match o with Some v => [Cert (cert_of (ae_pki v))] | None => [] end
  | _ => fun _ => []
  end.

Definition rights (r : list enr_res) : list uuid := omap (fun x => match x with MayIssue id => Some id | _ => None end) r.
Definition certs (r : list enr_res) : list issued_cert := omap (fun x => match x with Cert c => Some c | _ => None end) r.
Definition cached (m : gmap string approved_entry) : list issued_cert :=
  (fun kv => cert_of (ae_pki kv.2)) <$> map_to_list m.

(** No host has two rights or certificates, each belongs to a host, and what is
    in hand or cached was issued. *)
Definition enr_valid (s : enroll_store) (r : list enr_res) : Prop :=
  NoDup (rights r ++ (en_issued s).*1) /\ (forall id, id ∈ rights r ++ (en_issued s).*1 -> id ∈ dom (en_hosts s)) /\
  certs r ++ cached (en_approved s) ⊆+ (en_issued s).*2.

Lemma omap_submseteq {A B} (f : A -> option B) l k : l ⊆+ k -> omap f l ⊆+ omap f k.
Proof.
  induction 1 as [|x l k _ IH|x y l|x l k _ IH|l k j _ IH1 _ IH2]; csimpl; [done| | | |by trans (omap f k)].
  - destruct (f x); [by constructor|done].
  - destruct (f x), (f y); try done. by constructor.
  - destruct (f x); [by constructor|done].
Qed.


Lemma enr_valid_sub s r r' : r' ⊆+ r -> enr_valid s r -> enr_valid s r'.
Proof.
  intros Hr (Hn & Hd & Hc). pose proof (omap_submseteq (fun x => match x with MayIssue id => Some id | _ => None end) _ _ Hr) as Hi.
  pose proof (omap_submseteq (fun x => match x with Cert c => Some c | _ => None end) _ _ Hr) as Hk. split_and!.
  - eapply submseteq_NoDup; [|exact Hn]. by apply submseteq_app.
  - intros id Hid. apply Hd. eapply elem_of_submseteq; [exact Hid|]. by apply submseteq_app.
  - trans (certs r ++ cached (en_approved s)); [|done]. by apply submseteq_app.
Qed.

(** What the other routes and the clock may do keeps the account. *)
Lemma enr_valid_env s s1 r :
  dom (en_hosts s) ⊆ dom (en_hosts s1) -> en_issued s1 = en_issued s ->
  cached (en_approved s1) ⊆+ cached (en_approved s) -> enr_valid s r -> enr_valid s1 r.
Proof.
  intros Hd Hi Ha (Hn & Hh & Hc). unfold enr_valid. rewrite Hi. split_and!; [done|by intros id ?%Hh; apply Hd|].
  trans (certs r ++ cached (en_approved s)); [|done]. by apply submseteq_app.
Qed.

Lemma cached_submseteq m m' : m ⊆ m' -> cached m ⊆+ cached m'.
Proof. intros Hm. apply fmap_submseteq, map_to_list_submseteq, Hm. Qed.

Lemma cached_insert k v m : cached (<[k := v]> m) ⊆+ cert_of (ae_pki v) :: cached m.
Proof.
  unfold cached. rewrite <- insert_delete_eq. rewrite map_to_list_insert by apply lookup_delete_eq.
  simpl. apply submseteq_skip, fmap_submseteq, map_to_list_submseteq, delete_subseteq.
Qed.

Lemma cached_delete k v m : m !! k = Some v -> cert_of (ae_pki v) :: cached (delete k m) ⊆+ cached m.
Proof. intros Hk. unfold cached. by rewrite <- (map_to_list_delete m k v Hk). Qed.

(** A statement keeps the certificates and the cache; the insertion of a host
    answers [Ok] only for a new one. *)
Lemma exec_enr_stmt_keeps {X} (q : enr_stmt X) d :
  let d' := (exec_enr_stmt q d).2 in
  dom (en_hosts d) ⊆ dom (en_hosts d') /\ en_issued d' = en_issued d /\ en_approved d' = en_approved d.
Proof.
  destruct q; simpl; [|done|done| |done].
  - unfold ins_request. destruct (inet _); [|done]. by case_match.
  - unfold ins_enrolled_host. case_match; [done|]. simpl. split; [|done]. rewrite dom_insert. set_solver.
Qed.

Lemma ins_enrolled_host_Ok id h d :
  (ins_enrolled_host id h d).1 = Ok tt ->
  (id ∉ dom (en_hosts d)) /\ id ∈ dom (en_hosts ((ins_enrolled_host id h d).2)).
Proof.
  unfold ins_enrolled_host. destruct (bool_decide _ || _) eqn:Hb; [done|]. intros _.
  apply orb_false_iff in Hb as [Hb _]. apply bool_decide_eq_false in Hb. split; [by rewrite elem_of_dom|].
  simpl. rewrite dom_insert. set_solver.
Qed.

Lemma stmt_frame {X} (q : enr_stmt X) d x d' r :
  (x = (exec_enr_stmt q d).1 /\ d' = (exec_enr_stmt q d).2) \/
  (True /\ exists m, x = Err m /\ (d' = d \/ d' = (exec_enr_stmt q d).2)) ->
  enr_valid d r -> enr_valid d' (stmt_gain q x ++ r).
Proof.
  pose proof (exec_enr_stmt_keeps q d) as (Hd & Hi & Ha). intros Hx Hv.
  assert (enr_valid d' r) as Hv'.
  { eapply enr_valid_env; [| | |exact Hv]; destruct Hx as [[_ ->]|(_ & m & _ & [-> | ->])]; rewrite ?Ha; done. }
  destruct q; try exact Hv'. destruct x as [[]|]; [|exact Hv']. destruct Hx as [[Hok ->]|(_ & m & ? & _)]; [|done].
  symmetry in Hok. apply ins_enrolled_host_Ok in Hok as [Hnew Hin]. simpl in Hi. destruct Hv' as (Hn & Hh & Hc).
  split_and!; [| |exact Hc].
  - csimpl. constructor; [|exact Hn]. intros Hid. apply Hnew. destruct Hv as (_ & Hh0 & _). apply Hh0. by rewrite <- Hi.
  - intros id'. csimpl. intros [->|?]%elem_of_cons; [done|]. by apply Hh.
Qed.

Lemma enr_frame X (e : enr_eff X) s x s' rest :
  enr_concurrent X e s x s' -> enr_valid s (enr_spend X e ++ rest) -> enr_valid s' (enr_gain X e x ++ rest).
Proof.
  intros (s1 & (_ & _ & Hd & Hi & Ha) & Hx) Hv.
  assert (enr_valid s1 (enr_spend X e ++ rest)) as Hv1 by (eapply enr_valid_env; [..|exact Hv]; by rewrite ?Ha).
  clear Hv Hd Hi Ha s. destruct e; simpl in *.
  - eapply stmt_frame; [exact Hx|done].
  - by destruct Hx as [_ ->].
  - by subst.
  - destruct Hv1 as (Hn & Hh & Hc). destruct x as [c|]; subst s'.
    + split_and!; csimpl in *; [by rewrite <- Permutation_middle|by setoid_rewrite <- Permutation_middle|by constructor].
    + eapply enr_valid_sub; [|by split_and!]. by apply submseteq_cons.
  - by subst.
  - destruct Hv1 as (Hn & Hh & Hc). subst s'. split_and!; [done..|]. csimpl in *. simpl.
    trans (certs rest ++ cert_of (ae_pki e) :: cached (en_approved s1)).
    + apply submseteq_app; [done|apply cached_insert].
    + by rewrite <- Permutation_middle.
  - destruct Hx as [-> ->]. destruct Hv1 as (Hn & Hh & Hc). destruct (en_approved s1 !! key) as [v|] eqn:Hk.
    + split_and!; [done..|]. csimpl. simpl. trans (certs rest ++ cached (en_approved s1)); [|done].
      trans (certs rest ++ cert_of (ae_pki v) :: cached (delete key (en_approved s1))).
      * by rewrite <- Permutation_middle.
      * apply submseteq_app; [done|by apply cached_delete].
    + eapply enr_valid_env; [..|by split_and!]; simpl; [done..|]. by rewrite delete_id.
  - subst s'. eapply enr_valid_env; [..|exact Hv1]; simpl; [done..|]. apply cached_submseteq, map_filter_subseteq.
Qed.

(** ** Each task pays for its effects *)

Lemma lin_sql {X B} own (q : enr_stmt X) (f : X -> prog enr_eff (result B api_err)) Q :
  (forall x, lin enr_spend enr_gain (stmt_gain q (Ok x) ++ own) (f x) Q) ->
  Q own (Err err_database) ->
  lin enr_spend enr_gain own (bind_ok (esql q) f) Q.
Proof.
  intros Hf HQ. exists own. split; [simpl; reflexivity|]. intros [x|m]; simpl; [apply Hf|]. by destruct q.
Qed.

Definition pays (own : list enr_res) (p : prog enr_eff enr_answer) : Prop :=
  lin enr_spend enr_gain own p (fun o a => (Cert <$> answered a) ⊆+ o).

Lemma status_pays token : pays [] (let! r := enroll_status token in Ret (AnStatus r)).
Proof.
  apply lin_bind, lin_sql; [|apply submseteq_nil_l]. intros requests. simpl.
  destruct (List.find _ requests) as [[id req]|].
  - exists []. split; [done|]. intros now. simpl. destruct (er_expires_at req <? now); apply submseteq_nil_l.
  - exists []. split; [done|]. intros [entry|]; [|apply submseteq_nil_l].
    eexists. split; [simpl; reflexivity|]. intros now. simpl. destruct (is_expired now entry); [apply submseteq_nil_l|done].
Qed.

Lemma approve_pays auth id : pays [] (other (approve_enrollment auth id)).
Proof.
  apply lin_bind. unfold approve_enrollment. destruct (negb _); [apply submseteq_nil_l|].
  apply lin_sql; [|apply submseteq_nil_l]. intros requests. simpl.
  destruct (List.find _ requests) as [[id' req]|]; [|apply submseteq_nil_l].
  apply lin_sql; [|apply submseteq_nil_l]. intros [existing|]; [apply submseteq_nil_l|]. cbn beta iota.
  apply lin_sql; [|apply submseteq_nil_l]. intros []. simpl.
  exists []. split; [done|]. intros [issued|m]; [|apply submseteq_nil_l].
  apply lin_sql; [|apply submseteq_nil_l]. intros n. simpl.
  eexists. split; [simpl; reflexivity|]. intros crl. eexists. split; [simpl; reflexivity|]. intros now. simpl.
  exists []. split; [by destruct issued|]. intros []. apply submseteq_nil_l.
Qed.

Lemma entry_pays p : enr_entry p -> pays [] p.
Proof.
  intros [payload|token|auth id|auth id|]; [|apply status_pays|apply approve_pays| |].
  - exists []. split; [done|]. intros token. apply lin_bind, lin_sql; [intros []|]; apply submseteq_nil_l.
  - apply lin_bind. unfold deny_enrollment. destruct (negb _); [apply submseteq_nil_l|].
    apply lin_sql; [intros n|]; apply submseteq_nil_l.
  - exists []. split; [done|]. intros []. apply submseteq_nil_l.
Qed.

Lemma certs_answered ts : certs (results (fun a => Cert <$> answered a) ts) = delivered ts.
Proof.
  induction ts as [|p ts IH]; [done|]. unfold results, delivered, certs in *. cbn [fmap list_fmap concat].
  rewrite omap_app. f_equal; [|exact IH]. by destruct p as [[[[]|]|]|].
Qed.

(** ** The properties *)

(** C13. However requests, approvals, denials, polls and purges interleave, with
    failing statements and any number of concurrent polls, every certificate and
    private key that was issued is sent at most once, and every host has at most
    one issued. *)
Theorem bundle_delivered_once d d' ts :
  NoDup (en_issued d).*1 -> (forall id, id ∈ (en_issued d).*1 -> id ∈ dom (en_hosts d)) -> en_approved d = ∅ ->
  rtc (@cstep _ _ enr_concurrent _ (fun _ _ => []) enr_entry) (d, []) (d', ts) ->
  delivered ts ⊆+ (en_issued d').*2 /\ NoDup (en_issued d').*1 /\
  (forall id, id ∈ (en_issued d').*1 -> id ∈ dom (en_hosts d')).
Proof.
  intros Hn Hh Ha Hr.
  assert (enr_valid d' (results (fun a => Cert <$> answered a) ts)) as (Hn' & Hh' & Hc).
  { apply (accounted_results enr_spend enr_gain _ enr_valid enr_valid_sub (d', ts)).
    eapply (accounted_reachable enr_spend enr_gain enr_entry _ enr_valid enr_valid_sub enr_frame entry_pays); [exact Hr|].
    exists []. split; [constructor|]. split_and!; [done|done|]. simpl. rewrite Ha. unfold cached.
    rewrite map_to_list_empty. apply submseteq_nil_l. }
  rewrite certs_answered in Hc. split_and!.
  - trans (delivered ts ++ cached (en_approved d')); [|done]. by apply submseteq_inserts_r.
  - by apply NoDup_app in Hn' as (_ & _ & ?).
  - intros id Hid. apply Hh', elem_of_app. by right.
Qed.

(** ** An approval that runs alone *)

Definition ewp {A} : prog enr_eff A -> (A -> enroll_store -> Prop) -> enroll_store -> Prop :=
  @wp enr_eff enroll_store enr_alone A.

(** The tables and the cache of [d'] are those of [d] with these changes. *)
Definition enr_state (d' : enroll_store) (reqs : gmap uuid enrollment_request) (hosts : gmap uuid enrolled_host)
    (issued : list (uuid * issued_cert)) : Prop :=
  en_requests d' = reqs /\ en_hosts d' = hosts /\ en_issued d' = issued.

Lemma ewp_sql {X B} (q : enr_stmt X) (f : X -> prog enr_eff (result B api_err)) Q d :
  (forall t, en_now d <= t ->
     let '(r, d') := exec_enr_stmt q (EnrollStore t (en_requests d) (en_hosts d) (en_issued d) (en_approved d)) in
     match r with Ok x => ewp (f x) Q d' | Err _ => Q (Err err_database) d' end) ->
  ewp (bind_ok (esql q) f) Q d.
Proof.
  intros Hq x s' (s1 & (t & Ht & ->) & [[-> ->]|[[] _]]). specialize (Hq t Ht). simpl.
  destruct (exec_enr_stmt q _) as [[x|m] d']; exact Hq.
Qed.

Lemma find_request id (d : enroll_store) :
  List.find (fun kr : uuid * enrollment_request => bool_decide (kr.1 = id)) (map_to_list (en_requests d)) =
  (fun r => (id, r)) <$> en_requests d !! id.
Proof.
  destruct (List.find _ _) as [[k r]|] eqn:Hf.
  - apply List.find_some in Hf as [Hin Hk]. apply bool_decide_eq_true in Hk. simpl in Hk. subst k.
    apply list_elem_of_In, elem_of_map_to_list in Hin. by rewrite Hin.
  - destruct (en_requests d !! id) as [r|] eqn:Hr; [|done]. exfalso.
    apply elem_of_map_to_list, list_elem_of_In in Hr. apply (List.find_none _ _ Hf) in Hr.
    by rewrite bool_decide_eq_false in Hr.
Qed.

(** The collision query finds a host iff there is one. *)
Lemma sel_collision_iff fqdn ip d :
  is_Some (sel_collision fqdn ip d) <-> exists k h, en_hosts d !! k = Some h /\ collides fqdn ip h = true.
Proof.
  unfold sel_collision. destruct (List.find _ _) as [[k h]|] eqn:Hf; simpl; split; intros H.
  - apply List.find_some in Hf as [Hin Hc]. exists k, h. by apply list_elem_of_In, elem_of_map_to_list in Hin.
  - by eexists.
  - by destruct H.
  - destruct H as (k & h & Hk%elem_of_map_to_list%list_elem_of_In & Hc). apply (List.find_none _ _ Hf) in Hk. simpl in Hk. congruence.
Qed.

(** An approval of a request whose host collides with an existing one is
    refused and changes nothing. *)
Lemma approve_collision_ok auth id req d Q :
  is_admin (au_role auth) = true -> en_requests d !! id = Some req ->
  (exists k h, en_hosts d !! k = Some h /\ collides (er_fqdn req) (er_ip req) h = true) ->
  (forall d', enr_state d' (en_requests d) (en_hosts d) (en_issued d) -> Q (Err err_collision) d') ->
  ewp (approve_enrollment auth id) Q d.
Proof.
  intros Ha Hr Hc HQ. unfold approve_enrollment. rewrite Ha. cbn [negb]. apply ewp_sql. intros t Ht. cbn [exec_enr_stmt].
  rewrite find_request. cbn [en_requests]. rewrite Hr. cbn [fmap option_fmap option_map]. apply ewp_sql. intros t' Ht'. cbn [exec_enr_stmt].
  match goal with |- context [sel_collision ?f ?i ?dd] => destruct (sel_collision f i dd) as [k|] eqn:Hs end.
  - cbn. by apply HQ.
  - apply sel_collision_iff in Hc as [k Hk]. unfold sel_collision in Hs, Hk. simpl in Hs. congruence.
Qed.

(** When the authority refuses, the host is there and the request still is. *)
Lemma approve_certificate_ok auth id d :
  ewp (approve_enrollment auth id)
    (fun r d' => r = Err err_certificate ->
       exists req, en_requests d !! id = Some req /\
         enr_state d' (en_requests d) (<[id := host_of_request req]> (en_hosts d)) (en_issued d)) d.
Proof.
  unfold approve_enrollment. destruct (negb _); [done|]. apply ewp_sql. intros t Ht. cbn [exec_enr_stmt].
  rewrite find_request. cbn [en_requests]. destruct (en_requests d !! id) as [req|] eqn:Hr; cbn [fmap option_fmap option_map]; [|done].
  apply ewp_sql. intros t1 Ht1. cbn [exec_enr_stmt]. destruct (sel_collision _ _ _); [done|].
  apply ewp_sql. intros t2 Ht2. cbn [exec_enr_stmt]. unfold ins_enrolled_host. destruct (_ || _); [done|].
  intros cert s' (s1 & (t3 & Ht3 & ->) & Hs'). destruct cert as [issued|m]; simpl in Hs'; subst s'.
  - apply ewp_sql. intros t4 Ht4. cbn [exec_enr_stmt]. by intros ? ? _ ? ? _ ? ? _.
  - intros _. by exists req.
Qed.

(** Approving twice. *)
Definition approve_twice (auth1 auth2 : auth_user) (id : uuid) : prog enr_eff (result Z api_err * result Z api_err) :=
  let! r1 := approve_enrollment auth1 id in
  let! r2 := approve_enrollment auth2 id in
  Ret (r1, r2).

(** The host is inserted before its certificate is issued and not taken back:
    after a failure of the authority the request is still pending, but every
    further approval of it is refused because it collides with its own host. *)
Theorem failed_approval_blocks auth1 auth2 id d :
  is_admin (au_role auth2) = true ->
  ewp (approve_twice auth1 auth2 id)
    (fun r d' => r.1 = Err err_certificate ->
       r.2 = Err err_collision /\ is_Some (en_requests d' !! id) /\ is_Some (en_hosts d' !! id) /\
       en_issued d' = en_issued d) d.
Proof.
  intros Ha. unfold approve_twice. apply wp_bind. eapply wp_mono; [|apply approve_certificate_ok].
  cbn beta. intros r1 d1 H1. destruct (decide (r1 = Err err_certificate)) as [->|Hne].
  - destruct (H1 eq_refl) as (req & Hr & Hreq & Hhosts & Hi). apply wp_bind.
    apply (approve_collision_ok auth2 id req); [done|by rewrite Hreq| |].
    + exists id, (host_of_request req). rewrite Hhosts, lookup_insert_eq. split; [done|].
      unfold collides. simpl. by rewrite String.eqb_refl.
    + intros d' (Hd1 & Hd2 & Hd3) _. simpl. rewrite Hd1, Hd2, Hd3, Hreq, Hhosts, Hi, Hr, lookup_insert_eq. by split_and!.
  - apply wp_bind, wp_true. intros r2 d2. simpl. done.
Qed.
End Enrollment.

(** ** Witnesses *)

Definition demo_pending : enrollment_request :=
  EnrollmentRequest "machine" "a.example" "10.0.0.1" (JObj []) "token" None (24 * hour_us).
Definition demo_enrollment : enroll_store := EnrollStore 0 {[ 1%N := demo_pending ]} ∅ [] ∅.
Definition demo_admin : auth_user := AuthUser 7%N "admin" Admin.
Definition demo_cert : issued_cert := IssuedCert "crt" "key" "ca".
Definition demo_hash (s : string) : string := s.
Definition demo_inet (s : string) : option string := Some s.

Definition enr_world (X : Type) (e : enr_eff X) (s : enroll_store) : X * enroll_store :=
  match e in enr_eff Y return Y * enroll_store with
  | EnrSql q => exec_enr_stmt demo_inet q s
  | EnrNow => (en_now s, s)
  | PollingToken => ("token2"%string, s)
  | IssueClientCert id _ _ =>
      (Ok demo_cert, EnrollStore (en_now s) (en_requests s) (en_hosts s) ((id, demo_cert) :: en_issued s) (en_approved s))
  | GenerateCrl => (Ok "crl"%string, s)
  | CacheInsert k v => (tt, set_approved (<[k := v]> (en_approved s)) s)
  | CacheRemove k => (en_approved s !! k, set_approved (delete k (en_approved s)) s)
  | CachePurge => (tt, set_approved (filter (fun kv => is_expired (en_now s) kv.2 = false) (en_approved s)) s)
  end.

Lemma enr_world_concurrent X (e : enr_eff X) s :
  enr_concurrent demo_inet X e s (enr_world X e s).1 (enr_world X e s).2.
Proof.
  exists s. split; [by split_and!|]. destruct e; simpl; try done; by left.
Qed.

(** An approval, and two polls of the approved host at the same time. *)
Definition demo_tasks : list (prog enr_eff enr_answer) :=
  [other (approve_enrollment demo_admin 1%N);
   (let! r := enroll_status demo_hash "token" in Ret (AnStatus r));
   (let! r := enroll_status demo_hash "token" in Ret (AnStatus r))].
Definition demo_schedule : list nat := [0; 0; 0; 0; 0; 0; 0; 0; 1; 2; 1; 2; 1]%nat.
Definition demo_end : enroll_store * list (prog enr_eff enr_answer) :=
  default (demo_enrollment, []) (interleave (fun _ _ => []) enr_world demo_schedule (demo_enrollment, demo_tasks)).

Lemma bundle_delivered_once_witness :
  delivered demo_end.2 = [demo_cert] /\ delivered demo_end.2 ⊆+ (en_issued demo_end.1).*2.
Proof.
  split; [vm_compute; reflexivity|].
  apply (bundle_delivered_once demo_hash demo_inet demo_enrollment demo_end.1 demo_end.2).
  - apply NoDup_nil_2.
  - intros id Hid. by apply elem_of_nil in Hid.
  - reflexivity.
  - etrans; [apply (starts_reachable _ _ _ demo_tasks [])|].
    + repeat apply Forall_cons_2; [apply entry_approve|apply entry_status|apply entry_status|apply Forall_nil_2].
    + eapply (interleave_reachable _ _ enr_world demo_schedule); [apply enr_world_concurrent|].
      vm_compute. reflexivity.
Defined.

Lemma failed_approval_blocks_witness :
  ewp demo_inet (approve_twice demo_admin demo_admin 1%N)
    (fun r d' => r.1 = Err err_certificate -> r.2 = Err err_collision /\ is_Some (en_requests d' !! 1%N) /\
       is_Some (en_hosts d' !! 1%N) /\ en_issued d' = en_issued demo_enrollment) demo_enrollment.
Proof. apply failed_approval_blocks. reflexivity. Defined.
