(* ===== verification/Schema.v ===== *)
(** * The job tables

    The rows the worker and the job routes share: [patch_jobs],
    [patch_job_hosts] (one row per host of a job), [hosts],
    [maintenance_windows], [host_patch_data] and the health checks, with the
    columns the modelled statements read or write, in one store [db].  Primary
    keys are the keys of the maps; [NOW()] is the field [db_now]. *)

From S2P Require Import Prelude.

(** The SQL enum [job_status]: the Rust enum of pm-core/src/models.rs and the
    value [waiting_health_check] that migration 008 adds. *)
Inductive job_status : Type :=
| Queued | Pending | Running | Succeeded | Failed | Cancelled | WaitingHealthCheck.

#[export] Instance job_status_eq_dec : EqDecision job_status.
Proof. solve_decision. Defined.

Definition status_str (st : job_status) : string :=
  match st with
  | Queued => "queued" | Pending => "pending" | Running => "running"
  | Succeeded => "succeeded" | Failed => "failed" | Cancelled => "cancelled"
  | WaitingHealthCheck => "waiting_health_check"
  end.

(** [status NOT IN ('succeeded','failed','cancelled')], the guard of the
    updates, negated. *)
Definition terminal (st : job_status) : bool :=
  match st with Succeeded | Failed | Cancelled => true | _ => false end.

Inductive job_kind : Type := PatchApply | PatchRemove | Reboot | Rollback | SelfUpgrade.

#[export] Instance job_kind_eq_dec : EqDecision job_kind.
Proof. solve_decision. Defined.

Inductive recurrence : Type := Once | Daily | Weekly | Monthly.

#[export] Instance recurrence_eq_dec : EqDecision recurrence.
Proof. solve_decision. Defined.

(** [patch_jobs] *)
Record patch_job : Type := PatchJob {
  j_kind : job_kind;
  j_status : job_status;
  j_created_by : option uuid;
  j_parent : option uuid;
  j_window : option uuid;
  j_immediate : bool;
  j_selection : json;
  j_notes : string;
  j_auto_host : option uuid;
  j_allow_reboot : bool;
  j_reboot_delay_seconds : Z;
  j_created_at : Z;
  j_started_at : option Z;
  j_completed_at : option Z
}.

(** [patch_job_hosts] *)
Record patch_job_host : Type := PatchJobHost {
  h_job : uuid;
  h_host : uuid;
  h_status : job_status;
  h_agent_job : option string;
  h_retry_count : Z;
  h_output : string;
  h_error : option string;
  h_retry_next_at : option Z;
  h_last_error : option string;
  h_started_at : option Z;
  h_completed_at : option Z
}.

(** [hosts], the columns the worker reads for a dispatch. *)
Record host_row : Type := HostRow {
  host_ip : string;
  host_port : Z;
  host_fqdn : string;
  host_agent_version : option string;
  host_reboot_paused : bool;
  host_db_clean : bool
}.

(** [maintenance_windows] *)
Record window : Type := Window {
  w_host : uuid;
  w_recurrence : recurrence;
  w_start : Z;
  w_duration : Z;
  w_day : option Z;
  w_enabled : bool;
  w_auto_apply : bool;
  w_auto_reboot : bool;
  w_reboot_delay_minutes : Z
}.

(** [host_patch_data], unique per host (migration 006). *)
Record patch_data : Type := PatchData { pd_count : Z; pd_patches : json }.

(** A row of [host_health_checks] with the [healthy] flag of its latest row in
    [host_health_check_results], if it has any. *)
Record health_check : Type := HealthCheck {
  hc_host : uuid; hc_enabled : bool; hc_latest : option bool
}.

(** What the frontend is told through [pg_notify('job_update', ...)]. *)
Inductive notification : Type :=
| NotifyJob (job : uuid) (st : job_status) (succeeded failed total : Z)
| NotifyHost (job host : uuid) (st : job_status).

Record db : Type := Db {
  db_now : Z;
  db_jobs : gmap uuid patch_job;
  db_pjhs : gmap uuid patch_job_host;
  db_hosts : gmap uuid host_row;
  db_windows : gmap uuid window;
  db_patches : gmap uuid patch_data;
  db_checks : gmap uuid health_check;
  db_notes : list notification
}.

Definition set_jobs (m : gmap uuid patch_job) (d : db) : db :=
  Db (db_now d) m (db_pjhs d) (db_hosts d) (db_windows d) (db_patches d) (db_checks d) (db_notes d).
Definition set_pjhs (m : gmap uuid patch_job_host) (d : db) : db :=
  Db (db_now d) (db_jobs d) m (db_hosts d) (db_windows d) (db_patches d) (db_checks d) (db_notes d).
Definition set_hosts (m : gmap uuid host_row) (d : db) : db :=
  Db (db_now d) (db_jobs d) (db_pjhs d) m (db_windows d) (db_patches d) (db_checks d) (db_notes d).
Definition set_now (t : Z) (d : db) : db :=
  Db t (db_jobs d) (db_pjhs d) (db_hosts d) (db_windows d) (db_patches d) (db_checks d) (db_notes d).
Definition add_note (n : notification) (d : db) : db :=
  Db (db_now d) (db_jobs d) (db_pjhs d) (db_hosts d) (db_windows d) (db_patches d) (db_checks d)
     (n :: db_notes d).

Definition empty_db (now : Z) : db := Db now ∅ ∅ ∅ ∅ ∅ ∅ [].

(** [UPDATE ... SET f WHERE id = $1 AND g]: the new table and the number of
    affected rows (0 or 1). *)
Definition update_one {A} (id : uuid) (g : A -> bool) (f : A -> A) (m : gmap uuid A) : Z * gmap uuid A :=
  match m !! id with
  | Some r => if g r then (1, <[id := f r]> m) else (0, m)
  | None => (0, m)
  end.

(** [UPDATE ... SET f WHERE g]. *)
Definition update_where {A} (g : A -> bool) (f : A -> A) (m : gmap uuid A) : Z * gmap uuid A :=
  (Z.of_nat (length (List.filter (fun kv => g kv.2) (map_to_list m))),
   (fun r => if g r then f r else r) <$> m).

(** The rows of a table that satisfy a condition, with their keys. *)
Definition rows_where {A} (g : A -> bool) (m : gmap uuid A) : list (uuid * A) :=
  List.filter (fun kv => g kv.2) (map_to_list m).

Definition count_where {A} (g : A -> bool) (m : gmap uuid A) : Z :=
  Z.of_nat (length (rows_where g m)).

(** The host entries of a job. *)
Definition of_job (job : uuid) (r : patch_job_host) : bool := bool_decide (h_job r = job).

Definition has_status (st : job_status) (r : patch_job_host) : bool := bool_decide (h_status r = st).

(** ** Lemmas about the table operations *)

Lemma update_one_lookup {A} id g (f : A -> A) m k :
  (update_one id g f m).2 !! k =
    match m !! k with
    | Some r => Some (if bool_decide (k = id) && g r then f r else r)
    | None => None
    end.
Proof.
  unfold update_one. destruct (m !! id) as [r|] eqn:Hid; simpl.
  - destruct (g r) eqn:Hg; simpl.
    + destruct (decide (k = id)) as [->|Hne].
      * rewrite lookup_insert_eq, Hid, bool_decide_true by done. by rewrite Hg.
      * rewrite lookup_insert_ne by done. rewrite (bool_decide_false (k = id)) by done. by destruct (m !! k).
    + destruct (decide (k = id)) as [->|Hne].
      * rewrite Hid, bool_decide_true by done. by rewrite Hg.
      * rewrite (bool_decide_false (k = id)) by done. by destruct (m !! k).
  - destruct (decide (k = id)) as [->|Hne]; [by rewrite Hid|].
    rewrite (bool_decide_false (k = id)) by done. by destruct (m !! k).
Qed.

Lemma update_where_lookup {A} g (f : A -> A) m k :
  (update_where g f m).2 !! k = (fun r => if g r then f r else r) <$> m !! k.
Proof. unfold update_where; simpl. apply lookup_fmap. Qed.

Lemma rows_where_elem {A} (g : A -> bool) m k r :
  (k, r) ∈ rows_where g m <-> m !! k = Some r /\ g r = true.
Proof.
  unfold rows_where. rewrite list_elem_of_In, List.filter_In, <- list_elem_of_In, elem_of_map_to_list.
  done.
Qed.

Lemma count_where_pos {A} (g : A -> bool) m :
  0 < count_where g m <-> exists k r, m !! k = Some r /\ g r = true.
Proof.
  unfold count_where. split.
  - intros H. destruct (rows_where g m) as [|[k r] l] eqn:Hr; [simpl in H; lia|].
    exists k, r. apply rows_where_elem. rewrite Hr. set_solver.
  - intros (k & r & Hkr). apply rows_where_elem in Hkr.
    destruct (rows_where g m); [set_solver|]. simpl. lia.
Qed.

Lemma count_where_nonneg {A} (g : A -> bool) (m : gmap uuid A) : 0 <= count_where g m.
Proof. unfold count_where. lia. Qed.

Lemma count_where_le {A} (g h : A -> bool) m :
  (forall k r, m !! k = Some r -> g r = true -> h r = true) -> count_where g m <= count_where h m.
Proof.
  unfold count_where, rows_where. intros Hgh.
  assert (forall kv, kv ∈ map_to_list m -> g kv.2 = true -> h kv.2 = true) as Hl.
  { intros [k r] Hkv. apply elem_of_map_to_list in Hkv. simpl. eauto. }
  clear Hgh. induction (map_to_list m) as [|kv l IH]; simpl; [lia|].
  assert (Z.of_nat (length (List.filter (fun kv => g kv.2) l)) <=
          Z.of_nat (length (List.filter (fun kv => h kv.2) l))) by (apply IH; set_solver).
  destruct (g kv.2) eqn:Hg.
  - rewrite (Hl kv) by (set_solver). simpl. lia.
  - destruct (h kv.2); simpl; lia.
Qed.

(** Two conditions with one count, the first stronger: they select the same rows. *)
Lemma count_where_eq_all {A} (g h : A -> bool) m :
  (forall k r, m !! k = Some r -> g r = true -> h r = true) ->
  count_where g m = count_where h m ->
  forall k r, m !! k = Some r -> h r = true -> g r = true.
Proof.
  unfold count_where, rows_where. intros Hgh Heq k r Hk Hh.
  assert (forall kv, kv ∈ map_to_list m -> g kv.2 = true -> h kv.2 = true) as Hl.
  { intros [k' r'] Hkv. apply elem_of_map_to_list in Hkv. simpl. eauto. }
  assert ((k, r) ∈ map_to_list m) as Hin by by apply elem_of_map_to_list.
  clear Hgh Hk. induction (map_to_list m) as [|kv l IH]; [set_solver|].
  assert (Z.of_nat (length (List.filter (fun kv => g kv.2) l)) <=
          Z.of_nat (length (List.filter (fun kv => h kv.2) l))) as Hle.
  { clear -Hl. induction l as [|kv' l IH]; simpl; [lia|].
    assert (forall kv0, kv0 ∈ kv :: l -> g kv0.2 = true -> h kv0.2 = true) as Hl'
      by (intros ? [->|?]%elem_of_cons; apply Hl; set_solver).
    specialize (IH Hl'). destruct (g kv'.2) eqn:Hg.
    - rewrite (Hl kv') by (done || set_solver). simpl. lia.
    - destruct (h kv'.2); simpl; lia. }
  simpl in Heq. apply elem_of_cons in Hin as [<-|Hin].
  - simpl in *. rewrite Hh in Heq. destruct (g r); [done|]. simpl in Heq. lia.
  - apply IH; [|set_solver|done]. destruct (g kv.2) eqn:Hg; [rewrite (Hl kv) in Heq by (done || set_solver)|];
      [|destruct (h kv.2)]; simpl in Heq; lia.
Qed.

#[export] Hint Resolve count_where_nonneg : lpm.
