(* ===== verification/Windows.v ===== *)
(** * Maintenance windows

    When a row of [maintenance_windows] is open: the condition that the
    scheduler, the scanner and the health-check gate all use.  Times of day are
    PostgreSQL's: [timestamptz AT TIME ZONE 'UTC' :: time] is the time since
    midnight and [time + interval] wraps at 24 hours. *)

From S2P Require Import Prelude Schema.

(** ** The calendar functions of the condition *)

(** [(t AT TIME ZONE 'UTC')::time] *)
Definition time_of_day (t : Z) : Z := t mod day_us.
(** [time + interval]: the sum is taken modulo 24 hours. *)
Definition time_plus (tod d : Z) : Z := (tod + d) mod day_us.
Definition day_number (t : Z) : Z := t / day_us.
(** [EXTRACT(DOW FROM t)]: 0 is Sunday, and 1970-01-01 was a Thursday. *)
Definition day_of_week (t : Z) : Z := (day_number t + 4) mod 7.
(** [EXTRACT(DAY FROM t)]: the day of the month in the Gregorian calendar,
    computed from the number of days since 0000-03-01 in its 400-year era. *)
Definition day_of_month (t : Z) : Z :=
  let z := day_number t + 719468 in
  let doe := z - (z / 146097) * 146097 in
  let yoe := (doe - doe / 1460 + doe / 36524 - doe / 146096) / 365 in
  let doy := doe - (365 * yoe + yoe / 4 - yoe / 100) in
  let mp := (5 * doy + 2) / 153 in
  doy - (153 * mp + 2) / 5 + 1.

(** ** The window condition *)

Definition duration_us (w : window) : Z := w_duration w * minute_us.

(** The time-of-day slot of the recurring windows. *)
Definition in_daily_slot (now : Z) (w : window) : bool :=
  let tod := time_of_day now in
  let start := time_of_day (w_start w) in
  (start <=? tod) && (tod <? time_plus start (duration_us w)).

Definition window_active (now : Z) (w : window) : bool :=
  match w_recurrence w with
  | Once => (w_start w <=? now) && (now <? w_start w + duration_us w)
  | Daily => in_daily_slot now w
  | Weekly => bool_decide (w_day w = Some (day_of_week now)) && in_daily_slot now w
  | Monthly => bool_decide (w_day w = Some (day_of_month now)) && in_daily_slot now w
  end.

(** [mw.enabled = TRUE AND (...)] *)
Definition window_open (now : Z) (w : window) : bool := w_enabled w && window_active now w.

(** Start of the cycle the scheduler deduplicates in: [start_at] for a
    one-time window, [date_trunc('day', NOW()) + start_at::time] otherwise.  The
    session's time zone is UTC: sqlx sends the run-time parameter
    [TimeZone = UTC] in the start-up message of every connection it opens. *)
Definition cycle_start (now : Z) (w : window) : Z :=
  match w_recurrence w with
  | Once => w_start w
  | _ => day_number now * day_us + time_of_day (w_start w)
  end.

(** ** What the API accepts (pm-web/src/routes/maintenance_windows.rs) *)
Definition valid_recurrence_day (r : recurrence) (day : option Z) : bool :=
  match r with
  | Weekly => match day with Some d => (0 <=? d) && (d <=? 6) | None => false end
  | Monthly => match day with Some d => (1 <=? d) && (d <=? 31) | None => false end
  | _ => true
  end.

(** The specification a window is meant to meet: it is open from one of its
    daily starts for its duration, across midnight if need be. *)
Definition in_slot_spec (now : Z) (w : window) : Prop :=
  exists k, let s := k * day_us + time_of_day (w_start w) in s <= now < s + duration_us w.

(** The day of a weekly or monthly window. *)
Definition day_matches (now : Z) (w : window) : bool :=
  match w_recurrence w with
  | Weekly => bool_decide (w_day w = Some (day_of_week now))
  | Monthly => bool_decide (w_day w = Some (day_of_month now))
  | _ => true
  end.

(** ** Lemmas *)

Lemma time_of_day_bounds t : 0 <= time_of_day t < day_us.
Proof. unfold time_of_day. apply Z.mod_pos_bound. done. Qed.

Lemma time_split t : t = day_number t * day_us + time_of_day t.
Proof. unfold day_number, time_of_day. rewrite Z.mul_comm. apply Z.div_mod. done. Qed.

Lemma day_of_week_bounds t : 0 <= day_of_week t <= 6.
Proof. unfold day_of_week. assert (0 <= (day_number t + 4) mod 7 < 7) by (by apply Z.mod_pos_bound). lia. Qed.

Lemma time_plus_small tod d : 0 <= tod + d < day_us -> time_plus tod d = tod + d.
Proof. intros. unfold time_plus. by apply Z.mod_small. Qed.

Lemma time_plus_wrap tod d : day_us <= tod + d < 2 * day_us -> time_plus tod d = tod + d - day_us.
Proof.
  intros. unfold time_plus. symmetry. apply (Z.mod_unique_pos _ _ 1); lia.
Qed.

(** A window that ends before midnight: the slot is the one that is meant. *)
Lemma slot_spec_no_wrap now w :
  0 <= duration_us w -> time_of_day (w_start w) + duration_us w < day_us ->
  in_daily_slot now w = true <-> in_slot_spec now w.
Proof.
  intros Hd Hend. unfold in_daily_slot, in_slot_spec.
  pose proof (time_of_day_bounds now). pose proof (time_of_day_bounds (w_start w)).
  rewrite time_plus_small, andb_true_iff, Z.leb_le, Z.ltb_lt by lia.
  pose proof (time_split now) as Hnow. split.
  - intros [? ?]. exists (day_number now). simpl. lia.
  - intros [k Hk]. assert (k = day_number now) as -> by (unfold day_us, hour_us, minute_us, second_us in *; nia). lia.
Qed.

(** A window of at most 24 hours that reaches midnight has an empty slot. *)
Lemma slot_empty_across_midnight now w :
  duration_us w <= day_us -> day_us <= time_of_day (w_start w) + duration_us w ->
  in_daily_slot now w = false.
Proof.
  intros Hd Hend. unfold in_daily_slot.
  pose proof (time_of_day_bounds (w_start w)).
  rewrite time_plus_wrap by lia.
  destruct (Z.leb_spec (time_of_day (w_start w)) (time_of_day now)); [|done].
  destruct (Z.ltb_spec (time_of_day now) (time_of_day (w_start w) + duration_us w - day_us)); [lia|done].
Qed.

Lemma cycle_start_open now w :
  w_recurrence w <> Once -> in_daily_slot now w = true -> cycle_start now w <= now.
Proof.
  intros Hr Hs. unfold in_daily_slot in Hs. apply andb_true_iff in Hs as [Hs _].
  apply Z.leb_le in Hs. pose proof (time_split now).
  unfold cycle_start. destruct (w_recurrence w); [done|lia|lia|lia].
Qed.

(** ** The properties *)

(** C9. A recurring window whose duration is between zero and a day is open exactly
    during the slot that its start and its duration describe, on its days,
    provided that the slot ends before midnight: such a window that reaches
    midnight (22:00 for two hours or more) never opens. *)
Theorem recurring_window_open_iff now w :
  w_recurrence w <> Once -> 0 <= duration_us w <= day_us ->
  window_open now w = true <->
  w_enabled w = true /\ day_matches now w = true /\ in_slot_spec now w /\
  time_of_day (w_start w) + duration_us w < day_us.
Proof.
  intros Hr Hd.
  assert (window_open now w = w_enabled w && (day_matches now w && in_daily_slot now w)) as ->.
  { unfold window_open, window_active, day_matches. by destruct (w_recurrence w). }
  rewrite !andb_true_iff.
  destruct (Z.lt_ge_cases (time_of_day (w_start w) + duration_us w) day_us) as [Hlt|Hge].
  - rewrite slot_spec_no_wrap by lia. tauto.
  - rewrite slot_empty_across_midnight by lia. split; [by intros (_ & _ & ?)|]. intros (_ & _ & _ & ?). lia.
Qed.

Definition evening_window : window := Window 1%N Daily (22 * hour_us) 180 None true true true 0.

Lemma recurring_window_open_iff_witness :
  in_slot_spec (23 * hour_us) evening_window /\ window_open (23 * hour_us) evening_window <> true.
Proof.
  split; [exists 0; vm_compute; split; [discriminate|reflexivity]|].
  intros Ho.
  destruct (proj1 (recurring_window_open_iff (23 * hour_us) evening_window
                     ltac:(discriminate) ltac:(vm_compute; split; discriminate)) Ho) as (_ & _ & _ & Hlt).
  vm_compute in Hlt. discriminate.
Defined.

(** A one-time window is open from its start for its duration. *)
Theorem once_window_open_iff now w :
  w_recurrence w = Once ->
  window_open now w = true <-> w_enabled w = true /\ w_start w <= now < w_start w + duration_us w.
Proof.
  intros Hr. unfold window_open, window_active. rewrite Hr, !andb_true_iff, Z.leb_le, Z.ltb_lt. tauto.
Qed.

Lemma once_window_open_iff_witness :
  window_open (23 * hour_us) (Window 1%N Once (22 * hour_us) 180 None true true true 0) = true.
Proof. apply once_window_open_iff; [reflexivity|]. vm_compute. repeat split; discriminate. Defined.
