(* ===== verification/WindowRoutes.v ===== *)
(** * Administration of maintenance windows (pm-web/src/routes/maintenance_windows.rs)

    Creating, updating and deleting the windows of a host, on the tables that the
    worker reads, and what of them ever opens.  Labels are only shown and left
    out, like in the table's model. *)

From S2P Require Import Prelude Rbac Conc Schema Windows.

(** ** Statements *)

Inductive window_stmt : Type -> Type :=
| SelWindowHost (host : uuid) : window_stmt bool
| InsWindow (w : window) : window_stmt uuid
| SelWindow (id host : uuid) : window_stmt (option window)
| UpdWindow (id host : uuid) (w : window) : window_stmt window
| DelWindow (id host : uuid) : window_stmt Z.

Definition set_windows (m : gmap uuid window) (d : db) : db :=
  Db (db_now d) (db_jobs d) (db_pjhs d) (db_hosts d) m (db_patches d) (db_checks d) (db_notes d).

Definition window_of (id host : uuid) (d : db) : option window :=
  w ← db_windows d !! id; if bool_decide (w_host w = host) then Some w else None.

(** A statement and the row it gives back; [fetch_one] without a row is an error. *)
Definition exec_window_stmt {X} (q : window_stmt X) (d : db) : result X string * db :=
  match q in window_stmt Y return result Y string * db with
  | SelWindowHost host => (Ok (bool_decide (is_Some (db_hosts d !! host))), d)
  | InsWindow w =>
      if bool_decide (is_Some (db_hosts d !! w_host w)) then
        let id := fresh (dom (db_windows d)) in (Ok id, set_windows (<[id := w]> (db_windows d)) d)
      else (Err "violates foreign key constraint"%string, d)
  | SelWindow id host => (Ok (window_of id host d), d)
  | UpdWindow id host w =>
      match window_of id host d with
      | Some _ => (Ok w, set_windows (<[id := w]> (db_windows d)) d)
      | None => (Err "no rows returned"%string, d)
      end
  | DelWindow id host =>
      match window_of id host d with
      | Some _ => (Ok 1, set_windows (delete id (db_windows d)) d)
      | None => (Ok 0, d)
      end
  end.

Inductive window_eff : Type -> Type :=
| WinSql {X} (q : window_stmt X) : window_eff (result X string)
| WinEvent (action : string) (id : uuid) : window_eff unit.

(** ** Requests *)

Record create_window_request : Type := CreateWindow {
  cw_recurrence : recurrence; cw_start_at : Z; cw_duration_minutes : option Z; cw_recurrence_day : option Z;
  cw_enabled : option bool; cw_auto_apply : option bool; cw_auto_reboot : option bool; cw_reboot_delay_minutes : option Z
}.
Record update_window_request : Type := UpdateWindow {
  uw_recurrence : option recurrence; uw_start_at : option Z; uw_duration_minutes : option Z; uw_recurrence_day : option Z;
  uw_enabled : option bool; uw_auto_apply : option bool; uw_auto_reboot : option bool; uw_reboot_delay_minutes : option Z
}.

(** The row of a new window, with the defaults of the route. *)
Definition new_window (host : uuid) (req : create_window_request) : window :=
  Window host (cw_recurrence req) (cw_start_at req) (default 60 (cw_duration_minutes req)) (cw_recurrence_day req)
    (default true (cw_enabled req)) (default true (cw_auto_apply req)) (default true (cw_auto_reboot req))
    (default 0 (cw_reboot_delay_minutes req)).

(** The row with the given fields; a day can be replaced and not removed. *)
Definition merged_window (w : window) (req : update_window_request) : window :=
  Window (w_host w) (default (w_recurrence w) (uw_recurrence req)) (default (w_start w) (uw_start_at req))
    (default (w_duration w) (uw_duration_minutes req))
    (match uw_recurrence_day req with Some d => Some d | None => w_day w end)
    (default (w_enabled w) (uw_enabled req)) (default (w_auto_apply w) (uw_auto_apply req))
    (default (w_auto_reboot w) (uw_auto_reboot req)) (default (w_reboot_delay_minutes w) (uw_reboot_delay_minutes req)).

(** ** Handlers *)

Definition window_err {A} (status : Z) (code : string) : prog window_eff (result A api_err) := Ret (Err (ApiErr status code)).

(** A failing statement is answered with 500. *)
Definition wsql {X} (q : window_stmt X) : prog window_eff (result X api_err) :=
  let! r := trigger (WinSql q) in Ret (match r with Ok x => Ok x | Err _ => Err (ApiErr 500 "internal_error") end).

Definition create_window (auth : auth_user) (host : uuid) (req : create_window_request) : prog window_eff (result (uuid * window) api_err) :=
  if negb (can_write (au_role auth)) then window_err 403 "forbidden"
  else if negb (valid_recurrence_day (cw_recurrence req) (cw_recurrence_day req)) then window_err 400 "bad_request"
  else
    let!? there := wsql (SelWindowHost host) in
    if negb there then window_err 404 "not_found"
    else
      let!? id := wsql (InsWindow (new_window host req)) in
      trigger (WinEvent "maintenance_window_created" id) ;;
      Ret (Ok (id, new_window host req)).

Definition update_window (auth : auth_user) (host id : uuid) (req : update_window_request) : prog window_eff (result window api_err) :=
  if negb (can_write (au_role auth)) then window_err 403 "forbidden"
  else
    let!? row := wsql (SelWindow id host) in
    match row with
    | None => window_err 404 "not_found"
    | Some existing =>
        let w := merged_window existing req in
        if negb (valid_recurrence_day (w_recurrence w) (w_day w)) then window_err 400 "bad_request"
        else
          let!? updated := wsql (UpdWindow id host w) in
          trigger (WinEvent "maintenance_window_updated" id) ;;
          Ret (Ok updated)
    end.

Definition delete_window (auth : auth_user) (host id : uuid) : prog window_eff (result unit api_err) :=
  if negb (can_write (au_role auth)) then window_err 403 "forbidden"
  else
    let!? rows := wsql (DelWindow id host) in
    if rows =? 0 then window_err 404 "not_found"
    else trigger (WinEvent "maintenance_window_deleted" id) ;; Ret (Ok tt).

Inductive window_request : Type :=
| CreateWin (auth : auth_user) (host : uuid) (req : create_window_request)
| UpdateWin (auth : auth_user) (host id : uuid) (req : update_window_request)
| DeleteWin (auth : auth_user) (host id : uuid).

Definition serve_window (rq : window_request) : prog window_eff unit :=
  match rq with
  | CreateWin auth host req => create_window auth host req ;; Ret tt
  | UpdateWin auth host id req => update_window auth host id req ;; Ret tt
  | DeleteWin auth host id => delete_window auth host id ;; Ret tt
  end.

(** Time passes, statements may fail before or after they took effect, and
    anything but the windows may change; a host that goes takes its windows along. *)
Definition window_world : EffectSem window_eff db := fun X e d x d' =>
  exists d1, db_windows d1 ⊆ db_windows d /\
    match e in window_eff Y return Y -> Prop with
    | WinSql q => fun x => (x = (exec_window_stmt q d1).1 /\ d' = (exec_window_stmt q d1).2) \/
                           (exists err, x = Err err /\ (d' = d1 \/ d' = (exec_window_stmt q d1).2))
    | WinEvent _ _ => fun _ => d' = d1
    end x.

(** ** The windows stay valid *)

Definition valid_window (w : window) : Prop := valid_recurrence_day (w_recurrence w) (w_day w) = true.
Definition windows_valid (d : db) : Prop := map_Forall (fun _ w => valid_window w) (db_windows d).

Definition writes_valid (X : Type) (e : window_eff X) : Prop :=
  match e with
  | WinSql (InsWindow w) | WinSql (UpdWindow _ _ w) => valid_window w
  | _ => True
  end.
#[local] Hint Extern 1 (writes_valid _ _) => done : only.

Lemma window_stmt_valid {X} (q : window_stmt X) d :
  writes_valid _ (WinSql q) -> windows_valid d -> windows_valid (exec_window_stmt q d).2.
Proof.
  intros Hq Hd. destruct q; cbn [exec_window_stmt writes_valid] in *; try done.
  - case_bool_decide; [|done]. by apply map_Forall_insert_2.
  - destruct (window_of id host d); [|done]. by apply map_Forall_insert_2.
  - destruct (window_of id host d); [|done]. by apply map_Forall_delete.
Qed.

Lemma window_keeps : @keeps _ _ window_world writes_valid windows_valid.
Proof.
  intros X e d x d' He Hd (d1 & Hsub & Hx). assert (windows_valid d1) as Hd1 by (intros id w Hw; by eapply Hd, lookup_weaken).
  destruct e as [Y q|]; [|by subst]. destruct Hx as [[_ ->]|(err & _ & [-> | ->])]; [|done|]; by apply window_stmt_valid.
Qed.

Lemma serve_window_valid rq : only writes_valid (serve_window rq).
Proof.
  destruct rq; cbn [serve_window]; apply only_bind; try done; unfold create_window, update_window, delete_window, window_err.
  - destruct (negb (can_write _)); [done|]. destruct (valid_recurrence_day _ _) eqn:Hv; cbn [negb]; [|done].
    apply only_bind_ok; [unfold wsql; only_auto|]. intros there. destruct (negb there); [done|]. unfold wsql; only_auto.
  - destruct (negb (can_write _)); [done|]. apply only_bind_ok; [unfold wsql; only_auto|]. intros [w|]; [|done]. cbv zeta.
    destruct (valid_recurrence_day _ _) eqn:Hv; cbn [negb]; [|done]. unfold wsql; only_auto.
  - unfold wsql; only_auto.
Qed.

(** ** Valid windows open *)

Lemma day_number_add n tod : 0 <= tod < day_us -> day_number (n * day_us + tod) = n.
Proof. intros. unfold day_number. rewrite Z.add_comm, Z.div_add by done. rewrite Z.div_small by done. lia. Qed.
Lemma time_of_day_add n tod : 0 <= tod < day_us -> time_of_day (n * day_us + tod) = tod.
Proof. intros. unfold time_of_day. rewrite Z.add_comm, Z.mod_add by done. by apply Z.mod_small. Qed.

(** The calendar repeats after 400 years. *)
Definition era_days : Z := 146097.

Lemma day_of_month_of_day t : day_of_month t = day_of_month (day_number t * day_us + 0).
Proof. unfold day_of_month. by rewrite day_number_add by done. Qed.

Lemma day_of_month_era n k : day_of_month ((n + era_days * k) * day_us + 0) = day_of_month (n * day_us + 0).
Proof.
  unfold day_of_month. rewrite !day_number_add by done.
  replace ((n + era_days * k + 719468) / 146097) with ((n + 719468) / 146097 + k).
  2: { replace (n + era_days * k + 719468) with (n + 719468 + k * 146097) by (unfold era_days; lia). by rewrite Z.div_add. }
  set (q := (n + 719468) / 146097).
  replace (n + era_days * k + 719468 - (q + k) * 146097) with (n + 719468 - q * 146097) by (unfold era_days; lia). done.
Qed.

Lemma january_days d : 1 <= d <= 31 -> day_of_month ((d - 1) * day_us + 0) = d.
Proof.
  intros Hd. assert (exists n : nat, d = 1 + Z.of_nat n /\ (n < 31)%nat) as (n & -> & Hn) by (exists (Z.to_nat (d - 1)); lia).
  do 31 (destruct n as [|n]; [by vm_compute|]). lia.
Qed.

(** Every day that a valid window names comes again. *)
Lemma day_comes w t : valid_window w -> exists n, t <= n * day_us /\ forall tod, 0 <= tod < day_us -> day_matches (n * day_us + tod) w = true.
Proof.
  unfold valid_window, valid_recurrence_day, day_matches. set (k := Z.max 0 t).
  assert (forall n, k <= n -> t <= n * day_us) as Hlate by (intros; unfold k, day_us, hour_us, minute_us, second_us in *; lia).
  destruct (w_recurrence w).
  - intros _. exists k. split; [by apply Hlate|done].
  - intros _. exists k. split; [by apply Hlate|done].
  - destruct (w_day w) as [d|]; [|done]. rewrite andb_true_iff, !Z.leb_le. intros Hd. exists (d + 3 + 7 * k). split; [apply Hlate; lia|].
    intros tod Htod. unfold day_of_week. rewrite day_number_add by done. apply bool_decide_eq_true. f_equal.
    replace (d + 3 + 7 * k + 4) with (d + (k + 1) * 7) by lia. rewrite Z.mod_add by done. by rewrite Z.mod_small by lia.
  - destruct (w_day w) as [d|]; [|done]. rewrite andb_true_iff, !Z.leb_le. intros Hd. exists (d - 1 + era_days * k).
    split; [apply Hlate; unfold era_days; lia|]. intros tod Htod. apply bool_decide_eq_true. f_equal.
    rewrite day_of_month_of_day, day_number_add, day_of_month_era, january_days by done. done.
Qed.

(** Ends before the midnight after its start. *)
Definition within_day (w : window) : Prop := 0 < w_duration w /\ time_of_day (w_start w) + duration_us w < day_us.

Lemma valid_window_opens w t : valid_window w -> w_enabled w = true -> w_recurrence w <> Once -> within_day w ->
  exists now, t <= now /\ window_open now w = true.
Proof.
  intros Hv He Hr [Hd Hend]. destruct (day_comes w t Hv) as (n & Hn & Hday). pose proof (time_of_day_bounds (w_start w)) as Htod.
  assert (0 < duration_us w) as Hpos by (unfold duration_us, minute_us, second_us in *; lia).
  exists (n * day_us + time_of_day (w_start w)). split; [lia|]. apply recurring_window_open_iff; [done|lia|].
  split_and!; [done|by apply Hday| |done]. exists n. cbv zeta. lia.
Qed.

(** C27. In every interleaving of creations, updates and deletions of windows, with
    failing statements and hosts that disappear, every enabled recurring window
    in the table opens again at some time after any given one, if it lasts and
    ends before midnight: its day of the week or of the month always comes. *)
Theorem accepted_windows_open d d' ts ts' id w t :
  windows_valid d -> (forall p, p ∈ ts -> exists rq, p = serve_window rq) ->
  rtc (@cstep _ _ window_world _ (fun _ _ => []) (fun p => exists rq, p = serve_window rq)) (d, ts) (d', ts') ->
  db_windows d' !! id = Some w -> w_enabled w = true -> w_recurrence w <> Once -> within_day w ->
  exists now, t <= now /\ window_open now w = true.
Proof.
  intros Hd Hts Hr Hw. apply valid_window_opens.
  assert (forall rq, @gsafe _ _ window_world _ writes_valid windows_valid (serve_window rq)) as Hg
    by (intros rq; apply only_gsafe; [exact window_keeps|apply serve_window_valid]).
  destruct (@gsafe_reachable window_eff db window_world unit (fun _ _ => []) (fun p => exists rq, p = serve_window rq) writes_valid windows_valid (d, ts) (d', ts')) as [Hv _]; [by constructor| |exact Hr|exact Hd| |].
  - intros p [rq ->]. apply Hg.
  - apply Forall_forall. intros p Hp. destruct (Hts p Hp) as [rq ->]. apply Hg.
  - by eapply Hv.
Qed.

(** *** At work *)

Definition window_answers (X : Type) (e : window_eff X) (d : db) : X * db :=
  match e in window_eff Y return Y * db with
  | WinSql q => exec_window_stmt q d
  | WinEvent _ _ => (tt, d)
  end.

Lemma window_answers_ok X (e : window_eff X) d : window_world X e d (window_answers X e d).1 (window_answers X e d).2.
Proof. exists d. split; [done|]. destruct e; [by left|done]. Qed.

Definition window_host : db := Db 0 ∅ ∅ {[1%N := HostRow "10.0.0.1" 12443 "a.example" None false true]} ∅ ∅ ∅ [].
Definition operator_user : auth_user := AuthUser 5%N "op" Operator.
Definition monthly_request : create_window_request := CreateWindow Monthly (2 * hour_us) (Some 90) (Some 31) None None None None.
Definition daily_request : update_window_request := UpdateWindow (Some Weekly) None None (Some 3) None None None None.
Definition window_tasks : list (prog window_eff unit) :=
  [serve_window (CreateWin operator_user 1%N monthly_request); serve_window (UpdateWin operator_user 1%N 0%N daily_request)].
Definition window_run : option (db * list (prog window_eff unit)) :=
  interleave (fun _ _ => []) window_answers [0; 0; 1; 0; 1; 1]%nat (window_host, window_tasks).

Lemma accepted_windows_open_witness : exists now, day_us <= now /\ window_open now (merged_window (new_window 1%N monthly_request) daily_request) = true.
Proof.
  apply (accepted_windows_open window_host (default window_host (fst <$> window_run)) window_tasks (default [] (snd <$> window_run)) 0%N).
  - by vm_compute.
  - intros p Hp. apply elem_of_cons in Hp as [->|Hp]; [by eexists|]. apply list_elem_of_singleton in Hp as ->. by eexists.
  - apply (interleave_reachable _ _ window_answers [0; 0; 1; 0; 1; 1]%nat); [exact window_answers_ok|]. by vm_compute.
  - by vm_compute.
  - done.
  - done.
  - by vm_compute.
Defined.

(** The length of a window is not looked at: one over midnight and one without
    a length are accepted and never open, and one of minus five minutes is open
    all day until five to midnight. *)
Theorem window_length_unchecked now :
  let answer start minutes := (run window_answers (create_window operator_user 1%N
    (CreateWindow Daily start (Some minutes) None None None None None)) window_host).1 in
  (exists id w, answer (22 * hour_us) 180 = Ok (id, w) /\ window_open now w = false) /\
  (exists id w, answer (22 * hour_us) 0 = Ok (id, w) /\ window_open now w = false) /\
  (exists id w, answer 0 (-5) = Ok (id, w) /\ (window_open now w = true <-> time_of_day now < day_us - 5 * minute_us)).
Proof.
  cbv zeta. pose proof (time_of_day_bounds now). split_and!; eexists _, _; (split; [by vm_compute|]).
  - unfold window_open, window_active. cbn [w_enabled w_recurrence andb]. by apply slot_empty_across_midnight; vm_compute.
  - unfold window_open, window_active, in_daily_slot. cbn [w_enabled w_recurrence w_start w_duration andb].
    change (time_plus _ _) with (22 * hour_us).
    change (time_of_day 79200000000) with (22 * hour_us). apply andb_false_iff. rewrite Z.leb_gt, Z.ltb_ge. lia.
  - unfold window_open, window_active, in_daily_slot. cbn [w_enabled w_recurrence w_start w_duration andb].
    change (time_plus _ _) with (day_us - 5 * minute_us). change (time_of_day 0) with 0.
    rewrite andb_true_iff, Z.leb_le, Z.ltb_lt. lia.
Qed.
