(* ===== verification/Statements.v ===== *)
(** * The SQL statements

    One definition per statement of the job executor, the WebSocket relay, the
    maintenance scheduler and the job routes, named after what it does; the
    inductive [stmt] lists them, with the type each returns, and [exec_stmt]
    runs one on the store.  A statement is atomic (PostgreSQL runs each in its
    own transaction here); an insert answers [Err] when it violates a unique
    index.  Rows without an [ORDER BY] come in the order of the map. *)

From S2P Require Import Prelude Schema Windows.

(** ** Row types the queries return *)

Record job_info : Type := JobInfo {
  ji_kind : job_kind; ji_selection : json; ji_allow_reboot : bool; ji_delay : Z
}.
Record running_row : Type := RunningRow {
  rr_id : uuid; rr_agent_job : string; rr_job : uuid; rr_host : uuid;
  rr_ip : string; rr_port : Z; rr_kind : job_kind
}.
Record retry_row : Type := RetryRow { ry_job : uuid; ry_count : Z; ry_status : job_status }.
Record status_counts : Type := StatusCounts {
  c_running : Z; c_pending : Z; c_queued : Z; c_succeeded : Z; c_failed : Z;
  c_cancelled : Z; c_waiting : Z; c_total : Z
}.
Record timed_out_row : Type := TimedOutRow { to_id : uuid; to_job : uuid; to_started : Z }.
Record relay_row : Type := RelayRow {
  rl_job : uuid; rl_host : uuid; rl_agent_job : string; rl_address : string
}.
Record auto_window : Type := AutoWindow {
  aw_id : uuid; aw_host : uuid; aw_auto_reboot : bool; aw_delay_minutes : Z
}.

(** ** Predicates shared by the queries *)

Definition due (now : Z) (r : patch_job_host) : bool :=
  match h_retry_next_at r with None => true | Some t => t <=? now end.

(** Some enabled window of the host is open: the [EXISTS] sub-query. *)
Definition host_window_open (d : db) (host : uuid) : bool :=
  existsb (fun kw => bool_decide (w_host kw.2 = host) && window_open (db_now d) kw.2)
          (map_to_list (db_windows d)).

Definition not_terminal (r : patch_job_host) : bool := negb (terminal (h_status r)).

(** ** Updates of one host entry *)

Definition pjh_with_status (st : job_status) (r : patch_job_host) : patch_job_host :=
  PatchJobHost (h_job r) (h_host r) st (h_agent_job r) (h_retry_count r) (h_output r) (h_error r)
    (h_retry_next_at r) (h_last_error r) (h_started_at r) (h_completed_at r).

Definition pjh_waiting (retry_at : Z) (r : patch_job_host) : patch_job_host :=
  PatchJobHost (h_job r) (h_host r) WaitingHealthCheck (h_agent_job r) (h_retry_count r) (h_output r)
    (h_error r) (Some retry_at) (Some "Waiting for health checks to pass"%string)
    (h_started_at r) (h_completed_at r).

Definition pjh_running (now : Z) (r : patch_job_host) : patch_job_host :=
  PatchJobHost (h_job r) (h_host r) Running (h_agent_job r) (h_retry_count r) (h_output r) (h_error r)
    (h_retry_next_at r) (h_last_error r)
    (Some (match h_started_at r with Some t => t | None => now end)) (h_completed_at r).

Definition pjh_agent_job (aj : string) (r : patch_job_host) : patch_job_host :=
  PatchJobHost (h_job r) (h_host r) (h_status r) (Some aj) (h_retry_count r) (h_output r) (h_error r)
    (h_retry_next_at r) (h_last_error r) (h_started_at r) (h_completed_at r).

Definition pjh_succeeded (now : Z) (output : string) (r : patch_job_host) : patch_job_host :=
  PatchJobHost (h_job r) (h_host r) Succeeded (h_agent_job r) 0 output None None None
    (h_started_at r) (Some now).

Definition pjh_pending (count at_ : Z) (err : string) (r : patch_job_host) : patch_job_host :=
  PatchJobHost (h_job r) (h_host r) Pending (h_agent_job r) count (h_output r) (h_error r)
    (Some at_) (Some err) (h_started_at r) (h_completed_at r).

Definition pjh_failed (now : Z) (err : string) (r : patch_job_host) : patch_job_host :=
  PatchJobHost (h_job r) (h_host r) Failed (h_agent_job r) (h_retry_count r) (h_output r) (Some err)
    (h_retry_next_at r) (h_last_error r) (h_started_at r) (Some now).

Definition pjh_requeued (r : patch_job_host) : patch_job_host :=
  PatchJobHost (h_job r) (h_host r) Queued (h_agent_job r) (h_retry_count r) (h_output r) (h_error r)
    None (h_last_error r) (h_started_at r) (h_completed_at r).

Definition pjh_timed_out (now : Z) (err : string) (r : patch_job_host) : patch_job_host :=
  PatchJobHost (h_job r) (h_host r) Failed (h_agent_job r) (h_retry_count r) (h_output r) (Some err)
    (h_retry_next_at r) (Some err) (h_started_at r) (Some now).

(** [CASE WHEN $2 != '' THEN $2 ELSE output END] *)
Definition new_output (out : string) (r : patch_job_host) : string :=
  if bool_decide (out = ""%string) then h_output r else out.

Definition pjh_relay_terminal (now : Z) (st : job_status) (out : string) (err : option string)
    (r : patch_job_host) : patch_job_host :=
  PatchJobHost (h_job r) (h_host r) st (h_agent_job r) (h_retry_count r) (new_output out r) err
    (h_retry_next_at r) (h_last_error r) (h_started_at r) (Some now).

Definition pjh_relay_progress (st : job_status) (out : string) (r : patch_job_host) : patch_job_host :=
  PatchJobHost (h_job r) (h_host r) st (h_agent_job r) (h_retry_count r) (new_output out r) (h_error r)
    (h_retry_next_at r) (h_last_error r) (h_started_at r) (h_completed_at r).

(** ** Updates of a job *)

Definition job_with (st : job_status) (started completed : option Z) (j : patch_job) : patch_job :=
  PatchJob (j_kind j) st (j_created_by j) (j_parent j) (j_window j) (j_immediate j) (j_selection j)
    (j_notes j) (j_auto_host j) (j_allow_reboot j) (j_reboot_delay_seconds j) (j_created_at j)
    started completed.

Definition some_or (o : option Z) (v : Z) : option Z := Some (match o with Some t => t | None => v end).

(** [patch_jobs.status NOT IN ('running','succeeded','failed','cancelled')] *)
Definition job_not_started (j : patch_job) : bool :=
  negb (terminal (j_status j) || bool_decide (j_status j = Running)).

(** A fresh host entry of a new job. *)
Definition new_pjh (job host : uuid) : patch_job_host :=
  PatchJobHost job host Queued None 0 "" None None None None None.

Definition unique_violation : string := "duplicate key value violates unique constraint".
Definition fk_violation : string := "insert violates foreign key constraint".

(** The key of a job in the partial unique index of migration 027 on
    [(maintenance_window_id, auto_host_id)]; a NULL never collides. *)
Definition active_auto_key (j : patch_job) : option (uuid * uuid) :=
  if bool_decide (j_kind j = PatchApply) && bool_decide (j_created_by j = None) &&
     (bool_decide (j_status j = Queued) || bool_decide (j_status j = Running) ||
      bool_decide (j_status j = Pending))
  then w ← j_window j; h ← j_auto_host j; Some (w, h)
  else None.
Definition auto_index_ok (m : gmap uuid patch_job) : bool :=
  bool_decide (NoDup (omap (fun kj : uuid * patch_job => active_auto_key kj.2) (map_to_list m))).

(** ** The statements *)

Definition on_pjhs {X} (u : gmap uuid patch_job_host -> X * gmap uuid patch_job_host) (d : db) : X * db :=
  let '(x, m) := u (db_pjhs d) in (x, set_pjhs m d).
Definition on_jobs {X} (u : gmap uuid patch_job -> X * gmap uuid patch_job) (d : db) : X * db :=
  let '(x, m) := u (db_jobs d) in (x, set_jobs m d).

(** Job executor, pm-worker/src/job_executor.rs. *)

Definition sel_queued_job_ids (d : db) : list uuid :=
  remove_dups (omap (fun kr : uuid * patch_job_host =>
    let r := kr.2 in
    j ← db_jobs d !! h_job r;
    if has_status Queued r && due (db_now d) r && negb (bool_decide (j_status j = Cancelled)) &&
       (j_immediate j || host_window_open d (h_host r))
    then Some (h_job r) else None) (map_to_list (db_pjhs d))).

Definition upd_mark_job_running (job : uuid) (d : db) : Z * db :=
  on_jobs (update_one job job_not_started
             (fun j => job_with Running (some_or (j_started_at j) (db_now d)) (j_completed_at j) j)) d.

Definition sel_queued_hosts (job : uuid) (d : db) : list (uuid * uuid) :=
  (fun kr => (kr.1, h_host kr.2)) <$> rows_where (fun r => of_job job r && has_status Queued r) (db_pjhs d).

Definition sel_host (host : uuid) (d : db) : option (string * Z) :=
  (fun h => (host_ip h, host_port h)) <$> db_hosts d !! host.

Definition sel_check_count (host : uuid) (d : db) : Z :=
  count_where (fun c => bool_decide (hc_host c = host) && hc_enabled c) (db_checks d).

Definition sel_unhealthy_count (host : uuid) (d : db) : Z :=
  count_where (fun c => bool_decide (hc_host c = host) && hc_enabled c &&
                        negb (bool_decide (hc_latest c = Some true))) (db_checks d).

Definition upd_waiting (id : uuid) (retry_at : Z) (d : db) : Z * db :=
  on_pjhs (update_one id not_terminal (pjh_waiting retry_at)) d.

Definition sel_job_info (job : uuid) (d : db) : option job_info :=
  (fun j => JobInfo (j_kind j) (j_selection j) (j_allow_reboot j) (j_reboot_delay_seconds j))
    <$> db_jobs d !! job.

Definition upd_mark_pjh_running (id : uuid) (d : db) : Z * db :=
  on_pjhs (update_one id not_terminal (pjh_running (db_now d))) d.

Definition sel_patch_data (host : uuid) (d : db) : option json := pd_patches <$> db_patches d !! host.

Definition sel_reboot_safety (host : uuid) (d : db) : option (bool * bool) :=
  (fun h => (host_reboot_paused h, host_db_clean h)) <$> db_hosts d !! host.

Definition upd_agent_job (id : uuid) (aj : string) (d : db) : Z * db :=
  on_pjhs (update_one id (fun _ => true) (pjh_agent_job aj)) d.

Definition sel_running (d : db) : list running_row :=
  omap (fun kr : uuid * patch_job_host =>
    let r := kr.2 in
    if has_status Running r then
      aj ← h_agent_job r;
      h ← db_hosts d !! h_host r;
      j ← db_jobs d !! h_job r;
      Some (RunningRow kr.1 aj (h_job r) (h_host r) (host_ip h) (host_port h) (j_kind j))
    else None) (map_to_list (db_pjhs d)).

Definition upd_succeeded (id : uuid) (output : string) (d : db) : Z * db :=
  on_pjhs (update_one id not_terminal (pjh_succeeded (db_now d) output)) d.

Definition sel_selection (job : uuid) (d : db) : option json := j_selection <$> db_jobs d !! job.

Definition sel_agent_version (host : uuid) (d : db) : option (option string) :=
  host_agent_version <$> db_hosts d !! host.

Definition upd_host_version (host : uuid) (v : string) (d : db) : Z * db :=
  let '(n, m) := update_one host (fun _ => true)
    (fun h => HostRow (host_ip h) (host_port h) (host_fqdn h) (Some v) (host_reboot_paused h) (host_db_clean h))
    (db_hosts d) in (n, set_hosts m d).

Definition sel_retry_row (id : uuid) (d : db) : option retry_row :=
  (fun r => RetryRow (h_job r) (h_retry_count r) (h_status r)) <$> db_pjhs d !! id.

Definition upd_pending (id : uuid) (count at_ : Z) (err : string) (d : db) : Z * db :=
  on_pjhs (update_one id not_terminal (pjh_pending count at_ err)) d.

Definition upd_failed (id : uuid) (err : string) (d : db) : Z * db :=
  on_pjhs (update_one id not_terminal (pjh_failed (db_now d) err)) d.

Definition sel_counts (job : uuid) (d : db) : status_counts :=
  let n st := count_where (fun r => of_job job r && has_status st r) (db_pjhs d) in
  StatusCounts (n Running) (n Pending) (n Queued) (n Succeeded) (n Failed) (n Cancelled)
    (n WaitingHealthCheck) (count_where (of_job job) (db_pjhs d)).

Definition upd_parent_completed (job : uuid) (st : job_status) (d : db) : Z * db :=
  on_jobs (update_one job (fun _ => true)
             (fun j => job_with st (j_started_at j) (some_or (j_completed_at j) (db_now d)) j)) d.

Definition upd_parent_status (job : uuid) (st : job_status) (d : db) : Z * db :=
  on_jobs (update_one job (fun _ => true)
             (fun j => job_with st (j_started_at j) (j_completed_at j) j)) d.

Definition sel_pending_due (d : db) : list (uuid * uuid * uuid) :=
  omap (fun kr : uuid * patch_job_host =>
    let r := kr.2 in
    j ← db_jobs d !! h_job r;
    t ← h_retry_next_at r;
    if (has_status Pending r || has_status WaitingHealthCheck r) && (t <=? db_now d) &&
       negb (bool_decide (j_status j = Cancelled))
    then Some (kr.1, h_host r, h_job r) else None) (map_to_list (db_pjhs d)).

Definition upd_requeue (id : uuid) (d : db) : Z * db :=
  on_pjhs (update_one id not_terminal pjh_requeued) d.

(** [TimedOutRow] declares [agent_job_id : Option<Uuid>], the column is TEXT:
    NULL decodes, any value is refused (its type is not [UUID]), and the refusal
    of one row fails the whole fetch. *)
Definition timed_out_undecodable : string :=
  "error occurred while decoding column agent_job_id: mismatched types; Rust type Option<uuid::Uuid> (as SQL type UUID) is not compatible with SQL type TEXT".

Definition sel_timed_out (secs : Z) (d : db) : result (list timed_out_row) string :=
  let rows := omap (fun kr : uuid * patch_job_host =>
    let r := kr.2 in
    j ← db_jobs d !! h_job r;
    t ← h_started_at r;
    if has_status Running r && negb (bool_decide (j_kind j = SelfUpgrade)) &&
       (t <? db_now d - secs * second_us)
    then Some (h_agent_job r, TimedOutRow kr.1 (h_job r) t) else None) (map_to_list (db_pjhs d)) in
  if existsb (fun row : option string * timed_out_row => bool_decide (is_Some row.1)) rows
  then Err timed_out_undecodable else Ok (snd <$> rows).

Definition upd_timed_out (id : uuid) (err : string) (d : db) : Z * db :=
  on_pjhs (update_one id (has_status Running) (pjh_timed_out (db_now d) err)) d.

Definition notify (n : notification) (d : db) : unit * db := (tt, add_note n d).

(** WebSocket relay, pm-worker/src/ws_relay.rs. *)

Definition of_pair (job host : uuid) (r : patch_job_host) : bool :=
  of_job job r && bool_decide (h_host r = host).

Definition sel_relay_rows (d : db) : list relay_row :=
  omap (fun kr : uuid * patch_job_host =>
    let r := kr.2 in
    if has_status Running r then
      aj ← h_agent_job r;
      h ← db_hosts d !! h_host r;
      Some (RelayRow (h_job r) (h_host r) aj (host_fqdn h))
    else None) (map_to_list (db_pjhs d)).

Definition upd_relay_terminal (job host : uuid) (st : job_status) (out : string) (err : option string)
    (d : db) : Z * db :=
  on_pjhs (update_where (fun r => of_pair job host r && not_terminal r)
             (pjh_relay_terminal (db_now d) st out err)) d.

Definition upd_relay_progress (job host : uuid) (st : job_status) (out : string) (d : db) : Z * db :=
  on_pjhs (update_where (fun r => of_pair job host r && not_terminal r) (pjh_relay_progress st out)) d.

Definition sel_active_count (job : uuid) (d : db) : Z :=
  count_where (fun r => of_job job r && not_terminal r) (db_pjhs d).

Definition sel_rollup (job : uuid) (d : db) : Z * Z * Z :=
  (count_where (of_job job) (db_pjhs d),
   count_where (fun r => of_job job r && has_status Succeeded r) (db_pjhs d),
   count_where (fun r => of_job job r && has_status Failed r) (db_pjhs d)).

Definition upd_parent_final (job : uuid) (st : job_status) (d : db) : Z * db :=
  on_jobs (update_one job (fun _ => true)
             (fun j => job_with st (j_started_at j) (Some (db_now d)) j)) d.

(** Maintenance scheduler, pm-worker/src/maintenance_scheduler.rs. *)

Definition sel_auto_windows (d : db) : list auto_window :=
  omap (fun kw : uuid * window =>
    let w := kw.2 in
    if w_enabled w && w_auto_apply w && w_auto_reboot w && window_active (db_now d) w
    then Some (AutoWindow kw.1 (w_host w) (w_auto_reboot w) (w_reboot_delay_minutes w))
    else None) (map_to_list (db_windows d)).

Definition sel_pending_patches (host : uuid) (d : db) : option (uuid * Z) :=
  p ← db_patches d !! host; if 0 <? pd_count p then Some (host, pd_count p) else None.

(** A job of this host and window created in the current cycle exists. *)
Definition auto_job_of (host win : uuid) (start : Z) (d : db) (kr : uuid * patch_job_host) : bool :=
  bool_decide (h_host kr.2 = host) &&
  match db_jobs d !! h_job kr.2 with
  | Some j => bool_decide (j_kind j = PatchApply) && bool_decide (j_window j = Some win) &&
              (start <=? j_created_at j)
  | None => false
  end.
Definition sel_existing_job (host win : uuid) (d : db) : bool :=
  match db_windows d !! win with
  | Some w => existsb (auto_job_of host win (cycle_start (db_now d) w) d) (map_to_list (db_pjhs d))
  | None => false
  end.

Definition ins_auto_job (win host : uuid) (allow_reboot : bool) (delay : Z) (d : db)
  : result (option uuid) string * db :=
  let job := fresh (dom (db_jobs d)) in
  let id := fresh (dom (db_pjhs d)) in
  let jobs := <[job := PatchJob PatchApply Queued None None (Some win) false (JArr [])
                  "Auto-created by maintenance window scheduler" (Some host) allow_reboot delay
                  (db_now d) None None]> (db_jobs d) in
  if negb (auto_index_ok jobs) then (Err unique_violation, d)
  else if bool_decide (is_Some (db_windows d !! win)) && bool_decide (is_Some (db_hosts d !! host))
  then (Ok (Some job), set_pjhs (<[id := new_pjh job host]> (db_pjhs d)) (set_jobs jobs d))
  else (Err fk_violation, d).

Definition sel_open_hosts (d : db) : list uuid :=
  remove_dups ((fun kw => w_host kw.2) <$> rows_where (window_open (db_now d)) (db_windows d)).

Definition sel_host_queued_jobs (host : uuid) (d : db) : list uuid :=
  remove_dups (omap (fun kr : uuid * patch_job_host =>
    let r := kr.2 in
    j ← db_jobs d !! h_job r;
    if bool_decide (h_host r = host) && has_status Queued r && negb (j_immediate j) &&
       negb (bool_decide (j_status j = Cancelled)) && due (db_now d) r
    then Some (h_job r) else None) (map_to_list (db_pjhs d))).

(** Job routes, pm-web/src/routes/jobs.rs. *)

(** The user and the parent job exist (the foreign keys that remain). *)
Definition ins_job (kind : job_kind) (created_by parent win : option uuid) (immediate : bool)
    (selection : json) (notes : string) (allow_reboot : bool) (delay : Z) (d : db)
  : result uuid string * db :=
  if match win with Some w => bool_decide (is_Some (db_windows d !! w)) | None => true end then
    let job := fresh (dom (db_jobs d)) in
    (Ok job, set_jobs (<[job := PatchJob kind Queued created_by parent win immediate selection notes None
                              allow_reboot delay (db_now d) None None]> (db_jobs d)) d)
  else (Err fk_violation, d).

(** [INSERT ... ON CONFLICT (job_id, host_id) DO NOTHING] *)
Definition ins_pjh (job host : uuid) (d : db) : result unit string * db :=
  if 0 <? count_where (of_pair job host) (db_pjhs d) then (Ok tt, d)
  else if bool_decide (is_Some (db_jobs d !! job)) && bool_decide (is_Some (db_hosts d !! host))
  then (Ok tt, set_pjhs (<[fresh (dom (db_pjhs d)) := new_pjh job host]> (db_pjhs d)) d)
  else (Err fk_violation, d).

Definition sel_job_owner (job : uuid) (d : db) : option (job_status * option uuid) :=
  (fun j => (j_status j, j_created_by j)) <$> db_jobs d !! job.

Definition upd_cancel_job (job : uuid) (d : db) : Z * db :=
  on_jobs (update_one job (fun _ => true)
             (fun j => job_with Cancelled (j_started_at j) (j_completed_at j) j)) d.

Definition upd_cancel_hosts (job : uuid) (d : db) : Z * db :=
  on_pjhs (update_where (fun r => of_job job r && (has_status Queued r || has_status Pending r))
             (pjh_with_status Cancelled)) d.

Definition sel_job_exists (job : uuid) (d : db) : bool := bool_decide (is_Some (db_jobs d !! job)).

Definition sel_job_hosts (job : uuid) (d : db) : list uuid :=
  (fun kr => h_host kr.2) <$> rows_where (of_job job) (db_pjhs d).

Inductive stmt : Type -> Type :=
| SelQueuedJobIds : stmt (list uuid)
| UpdMarkJobRunning (job : uuid) : stmt Z
| SelQueuedHosts (job : uuid) : stmt (list (uuid * uuid))
| SelHost (host : uuid) : stmt (option (string * Z))
| SelCheckCount (host : uuid) : stmt Z
| SelUnhealthyCount (host : uuid) : stmt Z
| SelWindowOpen (host : uuid) : stmt (option bool)
| UpdWaiting (id : uuid) (retry_at : Z) : stmt Z
| SelJobInfo (job : uuid) : stmt (option job_info)
| UpdMarkPjhRunning (id : uuid) : stmt Z
| SelPatchData (host : uuid) : stmt (option json)
| SelRebootSafety (host : uuid) : stmt (option (bool * bool))
| UpdAgentJob (id : uuid) (aj : string) : stmt Z
| SelRunning : stmt (list running_row)
| UpdSucceeded (id : uuid) (output : string) : stmt Z
| SelSelection (job : uuid) : stmt (option json)
| SelAgentVersion (host : uuid) : stmt (option (option string))
| UpdHostVersion (host : uuid) (v : string) : stmt Z
| SelRetryRow (id : uuid) : stmt (option retry_row)
| UpdPending (id : uuid) (count at_ : Z) (err : string) : stmt Z
| UpdFailed (id : uuid) (err : string) : stmt Z
| SelCounts (job : uuid) : stmt status_counts
| UpdParentCompleted (job : uuid) (st : job_status) : stmt Z
| UpdParentStatus (job : uuid) (st : job_status) : stmt Z
| SelPendingDue : stmt (list (uuid * uuid * uuid))
| UpdRequeue (id : uuid) : stmt Z
| SelTimedOut (secs : Z) : stmt (list timed_out_row)
| UpdTimedOut (id : uuid) (err : string) : stmt Z
| PgNotify (n : notification) : stmt unit
| SelRelayRows : stmt (list relay_row)
| UpdRelayTerminal (job host : uuid) (st : job_status) (out : string) (err : option string) : stmt Z
| UpdRelayProgress (job host : uuid) (st : job_status) (out : string) : stmt Z
| SelActiveCount (job : uuid) : stmt Z
| SelRollup (job : uuid) : stmt (Z * Z * Z)
| UpdParentFinal (job : uuid) (st : job_status) : stmt Z
| SelAutoWindows : stmt (list auto_window)
| SelPendingPatches (host : uuid) : stmt (option (uuid * Z))
| SelExistingJob (host win : uuid) : stmt bool
| InsAutoJob (win host : uuid) (allow_reboot : bool) (delay : Z) : stmt (option uuid)
| SelOpenHosts : stmt (list uuid)
| SelHostQueuedJobs (host : uuid) : stmt (list uuid)
| InsJob (kind : job_kind) (created_by parent win : option uuid) (immediate : bool)
    (selection : json) (notes : string) (allow_reboot : bool) (delay : Z) : stmt uuid
| InsPjh (job host : uuid) : stmt unit
| SelJobOwner (job : uuid) : stmt (option (job_status * option uuid))
| UpdCancelJob (job : uuid) : stmt Z
| UpdCancelHosts (job : uuid) : stmt Z
| SelJobExists (job : uuid) : stmt bool
| SelJobHosts (job : uuid) : stmt (list uuid).

Definition reads {X} (x : X) (d : db) : result X string * db := (Ok x, d).
Definition writes {X} (xd : X * db) : result X string * db := (Ok xd.1, xd.2).

(** An update of [patch_jobs] is refused when it breaks the unique index. *)
Definition writes_jobs {X} (xd : X * db) (d : db) : result X string * db :=
  if auto_index_ok (db_jobs xd.2) then (Ok xd.1, xd.2) else (Err unique_violation, d).

Definition exec_stmt {X} (q : stmt X) (d : db) : result X string * db :=
  match q in stmt Y return result Y string * db with
  | SelQueuedJobIds => reads (sel_queued_job_ids d) d
  | UpdMarkJobRunning j => writes_jobs (upd_mark_job_running j d) d
  | SelQueuedHosts j => reads (sel_queued_hosts j d) d
  | SelHost h => reads (sel_host h d) d
  | SelCheckCount h => reads (sel_check_count h d) d
  | SelUnhealthyCount h => reads (sel_unhealthy_count h d) d
  | SelWindowOpen h => reads (Some (host_window_open d h)) d
  | UpdWaiting i t => writes (upd_waiting i t d)
  | SelJobInfo j => reads (sel_job_info j d) d
  | UpdMarkPjhRunning i => writes (upd_mark_pjh_running i d)
  | SelPatchData h => reads (sel_patch_data h d) d
  | SelRebootSafety h => reads (sel_reboot_safety h d) d
  | UpdAgentJob i aj => writes (upd_agent_job i aj d)
  | SelRunning => reads (sel_running d) d
  | UpdSucceeded i out => writes (upd_succeeded i out d)
  | SelSelection j => reads (sel_selection j d) d
  | SelAgentVersion h => reads (sel_agent_version h d) d
  | UpdHostVersion h v => writes (upd_host_version h v d)
  | SelRetryRow i => reads (sel_retry_row i d) d
  | UpdPending i n t e => writes (upd_pending i n t e d)
  | UpdFailed i e => writes (upd_failed i e d)
  | SelCounts j => reads (sel_counts j d) d
  | UpdParentCompleted j st => writes_jobs (upd_parent_completed j st d) d
  | UpdParentStatus j st => writes_jobs (upd_parent_status j st d) d
  | SelPendingDue => reads (sel_pending_due d) d
  | UpdRequeue i => writes (upd_requeue i d)
  | SelTimedOut s => (sel_timed_out s d, d)
  | UpdTimedOut i e => writes (upd_timed_out i e d)
  | PgNotify n => writes (notify n d)
  | SelRelayRows => reads (sel_relay_rows d) d
  | UpdRelayTerminal j h st out e => writes (upd_relay_terminal j h st out e d)
  | UpdRelayProgress j h st out => writes (upd_relay_progress j h st out d)
  | SelActiveCount j => reads (sel_active_count j d) d
  | SelRollup j => reads (sel_rollup j d) d
  | UpdParentFinal j st => writes_jobs (upd_parent_final j st d) d
  | SelAutoWindows => reads (sel_auto_windows d) d
  | SelPendingPatches h => reads (sel_pending_patches h d) d
  | SelExistingJob h w => reads (sel_existing_job h w d) d
  | InsAutoJob w h ar dl => ins_auto_job w h ar dl d
  | SelOpenHosts => reads (sel_open_hosts d) d
  | SelHostQueuedJobs h => reads (sel_host_queued_jobs h d) d
  | InsJob k cb p w im sel n ar dl => ins_job k cb p w im sel n ar dl d
  | InsPjh j h => ins_pjh j h d
  | SelJobOwner j => reads (sel_job_owner j d) d
  | UpdCancelJob j => writes_jobs (upd_cancel_job j d) d
  | UpdCancelHosts j => writes (upd_cancel_hosts j d)
  | SelJobExists j => reads (sel_job_exists j d) d
  | SelJobHosts j => reads (sel_job_hosts j d) d
  end.
