(* ===== verification/SelfUpgrade.v ===== *)
(** * Self-upgrade: the pure decisions (pm-worker/src/job_executor.rs)

    What to do with one poll of a self-upgrading host, independent of the
    database and the network, with the agent client's errors
    (pm-agent-client/src/error.rs). *)

From S2P Require Import Prelude.

(** ** Agent client errors *)
Inductive agent_err : Type :=
| ETls (msg : string)
| EConnect (msg : string)
| ERequest (msg : string)
| ETimeout
| EApi (ecode message : string)
| EDeserialize (msg : string).

(** The [Display] texts. *)
Definition agent_err_str (e : agent_err) : string :=
  match e with
  | ETls m => "TLS error: " ++ m
  | EConnect m => "Connection error: " ++ m
  | ERequest m => "Request error: " ++ m
  | ETimeout => "Request timed out"
  | EApi c m => "Agent API error [" ++ c ++ "]: " ++ m
  | EDeserialize m => "Failed to deserialise agent response: " ++ m
  end%string.

(** ** Decisions *)
Inductive poll_action : Type :=
| PSucceeded | PFailedThenReconnectConfirm | PStillInProgress | PUnexpectedStatus | PConnectionDropped.

Definition decide_self_upgrade_poll_action (r : result string agent_err) : poll_action :=
  match r with
  | Ok st =>
      if String.eqb st "succeeded" || String.eqb st "completed" then PSucceeded
      else if String.eqb st "failed" then PFailedThenReconnectConfirm
      else if String.eqb st "running" || String.eqb st "queued" then PStillInProgress
      else PUnexpectedStatus
  | Err _ => PConnectionDropped
  end.

Inductive reconnect_result : Type := RSucceeded | RVersionUnchanged.

(** Drop a leading [v] and everything from the first [-]. *)
Definition normalize (v : string) : string :=
  let v := match strip_prefix "v" v with Some t => t | None => v end in
  match split_by (Ascii.eqb "-") v with s :: _ => s | [] => v end.

Definition decide_self_upgrade_reconnect_result (new_version : string)
    (target old : option string) : reconnect_result :=
  let version_ok :=
    match target, old with
    | Some t, _ => String.eqb (normalize new_version) (normalize t)
    | None, Some o => negb (String.eqb (normalize new_version) (normalize o))
    | None, None => true
    end in
  if version_ok then RSucceeded else RVersionUnchanged.

Inductive succeeded_action : Type := FinishSuccess | ReconnectConfirm.

Definition decide_self_upgrade_succeeded_action (r : reconnect_result) : succeeded_action :=
  match r with RSucceeded => FinishSuccess | RVersionUnchanged => ReconnectConfirm end.

Inductive version_sample_action : Type :=
| VSucceeded (version : string) | VRetry | VFail (reason : string).

Definition decide_version_sample (sample : result string agent_err)
    (target old : option string) : version_sample_action :=
  match sample with
  | Ok version =>
      match decide_self_upgrade_reconnect_result version target old with
      | RSucceeded => VSucceeded version
      | RVersionUnchanged => VRetry
      end
  | Err (EConnect _) | Err ETimeout => VRetry
  | Err e => VFail ("Health check error during self-upgrade reconnect: " ++ agent_err_str e)
  end.

(** The version [v] shows that the upgrade has happened. *)
Definition confirmed (v : string) (target old : option string) : Prop :=
  match target, old with
  | Some t, _ => normalize v = normalize t
  | None, Some o => normalize v <> normalize o
  | None, None => True
  end.

(** A version without decoration. *)
Definition plain_version (v : string) : Prop :=
  str_forallb (fun c => negb (Ascii.eqb "-" c)) v = true /\ strip_prefix "v" v = None.

(** ** Lemmas *)

Lemma split_by_head_nosep p s : str_forallb (fun c => negb (p c)) s = true -> split_by p s = [s].
Proof.
  induction s as [|c s IH]; simpl; [done|]. rewrite andb_true_iff, negb_true_iff.
  intros [-> Hs]. by rewrite (IH Hs).
Qed.

Lemma split_by_app_sep p a c b :
  str_forallb (fun c => negb (p c)) a = true -> p c = true ->
  split_by p (a ++ String c b) = a :: split_by p b.
Proof.
  induction a as [|x a IH]; simpl; [by intros _ ->|].
  rewrite andb_true_iff, negb_true_iff. intros [-> Ha] Hc. by rewrite (IH Ha Hc).
Qed.

Lemma normalize_plain v : plain_version v -> normalize v = v.
Proof. intros [Hd Hv]. unfold normalize. rewrite Hv. by rewrite split_by_head_nosep. Qed.

Lemma strip_v_app v r : v <> ""%string -> strip_prefix "v" v = None -> strip_prefix "v" (v ++ r) = None.
Proof.
  destruct v as [|c v]; [done|]. intros _.
  change (String c v ++ r)%string with (String c (v ++ r)). cbn [strip_prefix].
  destruct (Ascii.eqb "v" c); done.
Qed.

Lemma normalize_decorated v r : v <> ""%string -> plain_version v ->
  normalize (v ++ String "-" r) = v /\ normalize (String "v" v) = v /\
  normalize (String "v" (v ++ String "-" r)) = v.
Proof.
  intros Hne [Hd Hv]. unfold normalize.
  rewrite (strip_v_app v _ Hne Hv). cbn [strip_prefix]. rewrite Ascii.eqb_refl.
  rewrite !split_by_app_sep by done. by rewrite split_by_head_nosep.
Qed.

(** A dropped connection is never a failure, whatever the error. *)
Lemma poll_action_dropped e : decide_self_upgrade_poll_action (Err e) = PConnectionDropped.
Proof. done. Qed.

Lemma reconnect_result_confirmed v target old :
  decide_self_upgrade_reconnect_result v target old = RSucceeded <-> confirmed v target old.
Proof.
  unfold decide_self_upgrade_reconnect_result, confirmed.
  destruct target as [t|]; [|destruct old as [o|]; [|done]].
  - destruct (String.eqb_spec (normalize v) (normalize t)); done.
  - destruct (String.eqb_spec (normalize v) (normalize o)); simpl; [split; [done|by intros []]|done].
Qed.

(** ** The properties *)

(** A sampled agent version ends a self-upgrade exactly when it confirms it; a
    stale version, a time-out and a lost connection (the agent restarts) are
    sampled again, and any other error fails the upgrade. *)
Theorem version_sample_spec sample target old :
  (forall v, decide_version_sample sample target old = VSucceeded v <->
     sample = Ok v /\ confirmed v target old) /\
  (decide_version_sample sample target old = VRetry <->
     (exists v, sample = Ok v /\ ~ confirmed v target old) \/ sample = Err ETimeout \/
     exists m, sample = Err (EConnect m)) /\
  (forall r, sample = Err r -> r <> ETimeout -> (forall m, r <> EConnect m) ->
     exists msg, decide_version_sample sample target old = VFail msg).
Proof.
  split_and!.
  - intros v. unfold decide_version_sample. destruct sample as [w|e].
    + pose proof (reconnect_result_confirmed w target old) as Hc.
      destruct (decide_self_upgrade_reconnect_result w target old); split.
      * intros [= ->]. split; [done|by apply Hc].
      * by intros [[= ->] _].
      * done.
      * intros [[= ->] Hx]. by apply Hc in Hx.
    + split; [by destruct e|by intros [? _]].
  - unfold decide_version_sample. destruct sample as [w|e].
    + pose proof (reconnect_result_confirmed w target old) as Hc.
      destruct (decide_self_upgrade_reconnect_result w target old); split.
      * done.
      * intros [(v & [= ->] & Hn)|[?|[m ?]]]; [|done..]. destruct Hn. by apply Hc.
      * intros _. left. exists w. split; [done|]. intros Hx. by apply Hc in Hx.
      * done.
    + split.
      * destruct e; try done; [right; right; eauto|by right; left].
      * by intros [(v & ? & _)|[[= ->]|[m [= ->]]]].
  - intros r -> Ht Hc. unfold decide_version_sample. destruct r; eauto; [by destruct (Hc msg)|done].
Qed.

Lemma version_sample_spec_witness :
  decide_version_sample (Ok "v1.5.6-1"%string) (Some "1.5.6"%string) None = VSucceeded "v1.5.6-1" /\
  exists msg, decide_version_sample (Err (ETls "expired")) None None = VFail msg.
Proof.
  split.
  - apply (version_sample_spec (Ok "v1.5.6-1"%string)). split; vm_compute; reflexivity.
  - apply (version_sample_spec (Err (ETls "expired")) None None) with (r := ETls "expired"); done.
Defined.
