(* ===== verification/AgentClient.v ===== *)
(** * The agents' HTTP client (pm-agent-client/src/client.rs, error.rs, types.rs)

    How an answer of an agent becomes data or an error, and the helper that waits
    for an agent to come back.  The transport (TLS, HTTP, reading a body) is an
    effect; JSON text is read by a parser that is a parameter. *)

From S2P Require Import Prelude Conc SelfUpgrade.

(** ** HTTP *)

(** What [reqwest::Error] tells: [is_timeout], [is_connect] or neither. *)
Inductive transport_err : Type := TimedOut (msg : string) | NotConnected (msg : string) | OtherFailure (msg : string).
Definition transport_msg (e : transport_err) : string :=
  match e with TimedOut m | NotConnected m | OtherFailure m => m end.

(** [From<reqwest::Error>] *)
Definition of_transport (e : transport_err) : agent_err :=
  match e with TimedOut _ => ETimeout | NotConnected m => EConnect m | OtherFailure m => ERequest m end.

(** An answer: the status, the status as text, and the body or the error of reading it. *)
Record http_reply : Type := HttpReply { hr_status : Z; hr_shown : string; hr_body : result string transport_err }.
Definition http_answer : Type := result http_reply transport_err.
Definition is_success (status : Z) : bool := (200 <=? status) && (status <? 300).

Inductive http_method : Type := Get | Put | Post.
Record agent_request : Type := AgentRequest {
  aq_method : http_method; aq_url : string; aq_query : list (string * string); aq_body : option json
}.

Inductive net_eff : Type -> Type :=
| SendRequest (req : agent_request) : net_eff http_answer
| Sleep (secs : Z) : net_eff unit.

(** ** The envelope *)

Record error_body : Type := ErrorBody { eb_code : string; eb_message : string }.
Record envelope (T : Type) : Type := Envelope { ev_success : bool; ev_data : option T; ev_error : option error_body }.
Arguments Envelope {T} _ _ _.
Arguments ev_success {T} _.
Arguments ev_data {T} _.
Arguments ev_error {T} _.

(** [GET /api/v1/system/services/{name}] *)
Record service_status : Type := ServiceStatus {
  sv_name : string; sv_display_name : string; sv_active_state : string; sv_sub_state : string; sv_load_state : string;
  sv_enabled_state : string; sv_main_pid : option Z; sv_healthy : bool
}.

(** The derived decoders, on objects: a field that is not an [Option] must be
    there; other fields are ignored. *)
Definition json_as_bool (v : json) : option bool := match v with JBool b => Some b | _ => None end.
Definition json_as_unsigned (mx : Z) (v : json) : option Z :=
  match v with JNum n => if (0 <=? n) && (n <=? mx) then Some n else None | _ => None end.
Definition field {T} (key : string) (rd : json -> option T) (v : json) : option T := json_get key v ≫= rd.
Definition opt_field {T} (key : string) (rd : json -> option T) (v : json) : option (option T) :=
  match json_get key v with
  | None | Some JNull => Some None
  | Some x => Some <$> rd x
  end.
(** [#[serde(default)]]: absent is the default, [null] is not. *)
Definition default_field {T} (key : string) (d : T) (rd : json -> option T) (v : json) : option T :=
  match json_get key v with None => Some d | Some x => rd x end.

Definition error_body_of (v : json) : option error_body :=
  ecode ← field "code" json_as_str v;
  message ← field "message" json_as_str v;
  _ ← default_field "retryable" false json_as_bool v;
  Some (ErrorBody ecode message).

Definition service_status_of (v : json) : option service_status :=
  name ← field "name" json_as_str v;
  display ← field "display_name" json_as_str v;
  active ← field "active_state" json_as_str v;
  sub ← field "sub_state" json_as_str v;
  load ← field "load_state" json_as_str v;
  enabled ← field "enabled_state" json_as_str v;
  pid ← opt_field "main_pid" (json_as_unsigned 4294967295) v;
  healthy ← field "healthy" json_as_bool v;
  Some (ServiceStatus name display active sub load enabled pid healthy).

Section Client.
(** [serde_json::from_str::<Value>], and the readers of a UUID and of a time. *)
Context (parse_json : string -> option json) (is_uuid is_datetime : string -> bool).

Definition envelope_of {T} (rd : json -> option T) (v : json) : option (envelope T) :=
  success ← field "success" json_as_bool v;
  _ ← field "request_id" (fun x => s ← json_as_str x; if is_uuid s then Some s else None) v;
  _ ← field "timestamp" (fun x => s ← json_as_str x; if is_datetime s then Some s else None) v;
  data ← opt_field "data" rd v;
  err ← opt_field "error" error_body_of v;
  Some (Envelope success data err).

(** The end of [get], [put] and [post]: an answer becomes data or an error. *)
Definition read_answer {T} (rd : json -> option T) (url : string) (a : http_answer) : result T agent_err :=
  match a with
  | Err e => Err (of_transport e)
  | Ok r =>
      match hr_body r with
      | Err e => Err (of_transport e)
      | Ok body =>
          match parse_json body ≫= envelope_of rd with
          | None => Err (EDeserialize body)
          | Some env =>
              if negb (is_success (hr_status r)) || negb (ev_success env) then
                match ev_error env with
                | Some e => Err (EApi (eb_code e) (eb_message e))
                | None => Err (EApi (dec (hr_status r)) ("Agent returned HTTP " ++ dec (hr_status r) ++ " for " ++ url))
                end
              else
                match ev_data env with
                | Some d => Ok d
                | None => Err (EApi "MISSING_DATA" "Agent response success=true but data field is absent")
                end
          end
      end
  end.

(** ** The client *)

(** [AgentClient::new]: the address without a prefix length. *)
Definition base_url (host_ip : string) (port : Z) : string :=
  let clean_ip := match split_by (Ascii.eqb "/") host_ip with s :: _ => s | [] => host_ip end in
  ("https://" ++ clean_ip ++ ":" ++ dec port ++ "/api/v1")%string.

Definition agent_call {T} (rd : json -> option T) (method : http_method) (base path : string) (query : list (string * string))
    (body : option json) : prog net_eff (result T agent_err) :=
  let url := (base ++ "/" ++ path)%string in
  let! a := trigger (SendRequest (AgentRequest method url query body)) in
  Ret (read_answer rd url a).

Definition agent_get {T} rd base path query : prog net_eff (result T agent_err) := agent_call rd Get base path query None.
Definition agent_put {T} rd base path : prog net_eff (result T agent_err) := agent_call rd Put base path [] None.
Definition agent_post {T} rd base path body : prog net_eff (result T agent_err) := agent_call rd Post base path [] (Some body).

Definition service_status_call (base name : string) : prog net_eff (result service_status agent_err) :=
  agent_get service_status_of base ("system/services/" ++ name) [].

(** ** Waiting for an agent *)

Definition backoff_sequence : list Z := [5; 10; 20; 40].
Definition reconnect_timeout (max_wait_secs : Z) : agent_err :=
  EApi "RECONNECT_TIMEOUT" ("Agent did not come back online within " ++ dec max_wait_secs ++ "s").

(** The [i]-th element of the cycled sequence; [None] without fuel. *)
Fixpoint reconnect_from {T} (fuel : nat) (system_info : prog net_eff (result T agent_err)) (max_wait_secs : Z) (i : nat) (elapsed : Z)
    : prog net_eff (option (result T agent_err)) :=
  match fuel with
  | O => Ret None
  | S fuel' =>
      let delay_secs := nth (i mod 4)%nat backoff_sequence 0 in
      trigger (Sleep delay_secs) ;;
      let elapsed := elapsed + delay_secs in
      let! r := system_info in
      match r with
      | Ok info => Ret (Some (Ok info))
      | Err (EConnect _) | Err ETimeout =>
          if max_wait_secs <=? elapsed then Ret (Some (Err (reconnect_timeout max_wait_secs)))
          else reconnect_from fuel' system_info max_wait_secs (S i) elapsed
      | Err other => Ret (Some (Err other))
      end
  end.

Definition reconnect_with_backoff {T} (rd : json -> option T) (base : string) (max_wait_secs : Z)
    : prog net_eff (option (result T agent_err)) :=
  reconnect_from (S (Z.to_nat (max_wait_secs / 5))) (agent_get rd base "system/info" []) max_wait_secs 0 0.
End Client.

(** ** Theorems *)

(** The world of a waiting client: the seconds it has slept. *)
Definition waiting : EffectSem net_eff Z := fun X e s x s' =>
  match e in net_eff Y return Y -> Prop with
  | SendRequest _ => fun _ => s' = s
  | Sleep n => fun _ => s' = s + n
  end x.

Abbreviation nwp := (@wp net_eff Z waiting _).

Lemma backoff_bounds i : 5 <= nth (i mod 4)%nat backoff_sequence 0 <= 40.
Proof.
  pose proof (Nat.mod_upper_bound i 4 ltac:(lia)) as Hi. destruct (i mod 4)%nat as [|[|[|[|n]]]]; simpl; lia.
Qed.

Definition transient (e : agent_err) : bool := match e with EConnect _ | ETimeout => true | _ => false end.

Section Reconnect.
Context (parse_json : string -> option json) (is_uuid is_datetime : string -> bool) {T : Type}.

Lemma agent_get_waits (rd : json -> option T) base path query s (Q : result T agent_err -> Z -> Prop) :
  (forall r, Q r s) -> nwp (agent_get parse_json is_uuid is_datetime rd base path query) Q s.
Proof. intros HQ a s' ->. apply HQ. Qed.

Lemma reconnect_from_ok fuel (rd : json -> option T) base mx i elapsed s0 :
  elapsed <= mx -> mx - elapsed < 5 * Z.of_nat fuel ->
  nwp (reconnect_from fuel (agent_get parse_json is_uuid is_datetime rd base "system/info" []) mx i elapsed)
    (fun r s => exists v, r = Some v /\ s <= s0 + mx + 40 /\
       (v = Err (reconnect_timeout mx) \/ match v with Ok _ => True | Err e => transient e = false end) /\
       (s < s0 + mx -> match v with Ok _ => True | Err e => transient e = false end)) (s0 + elapsed).
Proof.
  revert i elapsed. induction fuel as [|fuel IH]; intros i elapsed He Hf; [lia|].
  cbn [reconnect_from]. pose proof (backoff_bounds i) as Hd. set (delay := nth _ _ _) in *.
  intros [] s ->. cbn [bind]. apply wp_bind, agent_get_waits. intros [info|e].
  - eexists. split; [done|]. split; [lia|]. by split; [right|].
  - destruct (transient e) eqn:Ht.
    + destruct e; try done; (destruct (Z.leb_spec mx (elapsed + delay)) as [Hle|Hgt];
        [eexists; split; [done|]; split; [lia|]; split; [by left|lia]
        |replace (s0 + elapsed + delay) with (s0 + (elapsed + delay)) by lia; apply IH; lia]).
    + destruct e; try done; (eexists; split; [done|]; split; [lia|]; by split; [right|]).
Qed.

(** Waiting for an agent ends, whatever the agent answers: with its data, with an
    error that is not transient, or, after [max_wait_secs] and at most forty
    seconds more, with a time-out. *)
Theorem reconnect_with_backoff_ends (rd : json -> option T) base mx s0 : 0 <= mx ->
  nwp (reconnect_with_backoff parse_json is_uuid is_datetime rd base mx)
    (fun r s => exists v, r = Some v /\ s <= s0 + mx + 40 /\
       (v = Err (reconnect_timeout mx) \/ match v with Ok _ => True | Err e => transient e = false end) /\
       (s < s0 + mx -> match v with Ok _ => True | Err e => transient e = false end)) s0.
Proof.
  intros Hmx. unfold reconnect_with_backoff. pose proof (reconnect_from_ok (S (Z.to_nat (mx / 5))) rd base mx 0 0 s0 Hmx) as Hr. rewrite Z.add_0_r in Hr. apply Hr.
  pose proof (Z.div_mod mx 5 ltac:(lia)). pose proof (Z.mod_pos_bound mx 5 ltac:(lia)).
  rewrite Nat2Z.inj_succ, Z2Nat.id by (apply Z.div_pos; lia). lia.
Qed.

(** An answer is data exactly when its status is 2xx and its body an envelope
    that says success and carries data; an error of the agent is passed on. *)
Theorem read_answer_spec (rd : json -> option T) url a :
  match read_answer parse_json is_uuid is_datetime rd url a with
  | Ok d => exists st shown body v, a = Ok (HttpReply st shown (Ok body)) /\ 200 <= st < 300 /\
      parse_json body = Some v /\ exists e, envelope_of is_uuid is_datetime rd v = Some (Envelope true (Some d) e)
  | Err (EApi c m) => exists st shown body v e, a = Ok (HttpReply st shown (Ok body)) /\
      parse_json body = Some v /\ envelope_of is_uuid is_datetime rd v = Some e /\
      (ev_error e = Some (ErrorBody c m) \/ ev_error e = None /\ (is_success st = false \/ ev_success e = false) \/ ev_data e = None)
  | Err (EDeserialize _) => exists r body, a = Ok r /\ hr_body r = Ok body /\ (parse_json body ≫= envelope_of is_uuid is_datetime rd) = None
  | Err e => exists t, e = of_transport t /\ (a = Err t \/ exists r, a = Ok r /\ hr_body r = Err t)
  end.
Proof.
  unfold read_answer. destruct a as [[st shown [body|t]]|t]; cbn [hr_body hr_status].
  2,3: destruct t as [m|m|m]; cbn [of_transport]; [exists (TimedOut m)|exists (NotConnected m)|exists (OtherFailure m)]; split; eauto.
  destruct (parse_json body ≫= _) as [env|] eqn:Henv; [|by eauto 10].
  destruct (parse_json body) as [v|] eqn:Hv; [|done]. cbn in Henv.
  destruct (is_success st) eqn:Hst, (ev_success env) eqn:Hs; cbn [negb orb].
  2-4: destruct (ev_error env) as [[c m]|] eqn:He; exists st, shown, body, v, env; simpl; auto 10.
  destruct (ev_data env) as [d|] eqn:Hd; [|exists st, shown, body, v, env; auto 10].
  apply andb_true_iff in Hst as [?%Z.leb_le ?%Z.ltb_lt].
  exists st, shown, body, v. split_and!; [done|lia|lia|done|]. exists (ev_error env). rewrite Henv. destruct env; simpl in *. by subst.
Qed.
End Reconnect.
