(* ===== verification/HealthChecks.v ===== *)
(** * Health checks (pm-web/src/routes/health_checks.rs, pm-worker/src/health_check_poller.rs)

    The checks that are configured per host, the routes that administer them, the
    two implementations that run a check (the worker's poller and the "test"
    route), and the poller's cycle.  HTTP, encryption and the clock of a
    measurement are effects. *)

From S2P Require Import Prelude Ordering Rbac Conc SelfUpgrade AgentClient.

(** ** Tables *)

(** [host_health_checks]; [updated_at] is only shown and left out *)
Record check_row : Type := CheckRow {
  ck_host : uuid; ck_name : string; ck_type : string; ck_enabled : bool;
  ck_service_name : option string;
  ck_url : option string; ck_expected_body : option string; ck_ignore_cert_errors : option bool;
  ck_user : option string; ck_pass_encrypted : option string; ck_pass_nonce : option string;
  ck_target : option uuid; ck_created_at : Z
}.

(** [host_health_check_results] *)
Record check_result : Type := CheckResult {
  cr_check : uuid; cr_healthy : bool; cr_detail : option string; cr_latency_ms : option Z; cr_checked_at : Z
}.

(** Of [hosts] and [host_groups], what the routes read. *)
Record checked_host : Type := CheckedHost { kh_ip : string; kh_port : Z; kh_healthy : bool; kh_groups : gset uuid }.

Record checks_db : Type := ChecksDb {
  cd_now : Z; cd_hosts : gmap uuid checked_host; cd_user_groups : gmap uuid (gset uuid);
  cd_checks : gmap uuid check_row; cd_results : gmap uuid check_result
}.

Definition with_checks (m : gmap uuid check_row) (d : checks_db) : checks_db :=
  ChecksDb (cd_now d) (cd_hosts d) (cd_user_groups d) m (cd_results d).
Definition with_results (m : gmap uuid check_result) (d : checks_db) : checks_db :=
  ChecksDb (cd_now d) (cd_hosts d) (cd_user_groups d) (cd_checks d) m.
Definition checks_at (t : Z) (d : checks_db) : checks_db :=
  ChecksDb t (cd_hosts d) (cd_user_groups d) (cd_checks d) (cd_results d).

(** The characters of a UTF-8 text, which VARCHAR counts. *)
Fixpoint utf8_length (s : string) : Z :=
  match s with
  | EmptyString => 0
  | String c s' => (if (128 <=? code c) && (code c <? 192) then 0 else 1) + utf8_length s'
  end.
Definition fits (n : Z) (s : option string) : bool := match s with Some s => utf8_length s <=? n | None => true end.

(** The constraints of the table. *)
Definition valid_service_check (r : check_row) : bool :=
  (String.eqb (ck_type r) "service" && bool_decide (is_Some (ck_service_name r)) && bool_decide (ck_url r = None)) ||
  (String.eqb (ck_type r) "http" && bool_decide (is_Some (ck_url r)) && bool_decide (is_Some (ck_expected_body r)) &&
   bool_decide (ck_service_name r = None)).
Definition check_row_ok (r : check_row) (d : checks_db) : bool :=
  valid_service_check r && fits 100 (Some (ck_name r)) && fits 20 (Some (ck_type r)) && fits 200 (ck_service_name r) &&
  fits 500 (ck_expected_body r) && fits 100 (ck_user r) && bool_decide (is_Some (cd_hosts d !! ck_host r)) &&
  match ck_target r with Some t => bool_decide (is_Some (cd_hosts d !! t)) | None => true end.

(** ** Requests *)

Record create_check_request : Type := CreateCheckRequest {
  cc_name : string; cc_type : string; cc_service_name : option string; cc_url : option string;
  cc_expected_body : option string; cc_ignore_cert_errors : bool; cc_user : option string; cc_pass : option string;
  cc_target : option uuid
}.
Record update_check_request : Type := UpdateCheckRequest {
  uc_name : option string; uc_enabled : option bool; uc_service_name : option string; uc_url : option string;
  uc_expected_body : option string; uc_ignore_cert_errors : option bool; uc_user : option string; uc_pass : option string;
  uc_target : option uuid
}.

(** ** Statements *)

Definition new_check (host : uuid) (req : create_check_request) (pass : option (string * string)) (now : Z) : check_row :=
  CheckRow host (cc_name req) (cc_type req) true (cc_service_name req) (cc_url req) (cc_expected_body req)
    (Some (cc_ignore_cert_errors req)) (cc_user req) (fst <$> pass) (snd <$> pass) (cc_target req) now.

(** [COALESCE($n, column)] for each column *)
Definition over {A} (new old : option A) : option A := match new with Some _ => new | None => old end.
Definition updated_check (req : update_check_request) (pass : option (string * string)) (r : check_row) : check_row :=
  CheckRow (ck_host r) (default (ck_name r) (uc_name req)) (ck_type r) (default (ck_enabled r) (uc_enabled req))
    (over (uc_service_name req) (ck_service_name r)) (over (uc_url req) (ck_url r))
    (over (uc_expected_body req) (ck_expected_body r)) (over (uc_ignore_cert_errors req) (ck_ignore_cert_errors r))
    (over (uc_user req) (ck_user r)) (over (fst <$> pass) (ck_pass_encrypted r)) (over (snd <$> pass) (ck_pass_nonce r))
    (over (uc_target req) (ck_target r)) (ck_created_at r).

(** The routes decode a row as a [HealthCheck], whose [ignore_cert_errors] is a
    [bool]: a row where the column is NULL fails to decode, and so the query.  The
    poller's row has an [Option<bool>]. *)
Definition decodes (r : check_row) : bool := bool_decide (is_Some (ck_ignore_cert_errors r)).
Definition null_ignore_cert_errors : string :=
  "error occurred while decoding column ignore_cert_errors: unexpected null; try decoding as an Option".

(** The row of a check as the poller joins it with the host to ask. *)
Record poll_row : Type := PollRow { pr_id : uuid; pr_check : check_row; pr_ip : string; pr_port : Z }.

Inductive check_stmt : Type -> Type :=
| SelInGroup (host user : uuid) : check_stmt bool
| SelHasGroups (host : uuid) : check_stmt bool
| SelHostThere (host : uuid) : check_stmt bool
| SelHostHealthy (host : uuid) : check_stmt bool
| SelChecksOfHost (host : uuid) : check_stmt Z
| InsCheck (host : uuid) (req : create_check_request) (pass : option (string * string)) : check_stmt uuid
| SelCheck (id host : uuid) : check_stmt (option check_row)
| SelChecks (host : uuid) : check_stmt (list (uuid * check_row))
| SelLatest (id : uuid) : check_stmt (option check_result)
| SelCheckThere (id host : uuid) : check_stmt bool
| UpdCheck (id host : uuid) (req : update_check_request) (pass : option (string * string)) : check_stmt Z
| DelCheck (id host : uuid) : check_stmt Z
| InsResult (id : uuid) (healthy : bool) (detail : string) (latency_ms : option Z) : check_stmt unit
| SelHostAddress (host : uuid) : check_stmt (option (string * Z))
| SelPass (id : uuid) : check_stmt (option (string * string))
| SelEnabledChecks : check_stmt (list poll_row)
| DelOldResults : check_stmt Z.

Definition of_host (host : uuid) (r : check_row) : bool := bool_decide (ck_host r = host).

(** [ORDER BY checked_at DESC LIMIT 1] *)
Definition newer (a b : check_result) : comparison := Z.compare (cr_checked_at b) (cr_checked_at a).
Definition latest_of (id : uuid) (m : gmap uuid check_result) : option check_result :=
  head (sort_by newer (List.filter (fun r => bool_decide (cr_check r = id)) (snd <$> map_to_list m))).

Definition group_of (host : uuid) (d : checks_db) : gset uuid := default ∅ (kh_groups <$> cd_hosts d !! host).
Definition retention_us : Z := 4 * day_us.

(** One row of the poller's join; the target host, if there is one, answers. *)
Definition poll_row_of (d : checks_db) (kv : uuid * check_row) : option poll_row :=
  if ck_enabled kv.2 then
    h ← cd_hosts d !! ck_host kv.2;
    let asked := default h (t ← ck_target kv.2; cd_hosts d !! t) in
    Some (PollRow kv.1 kv.2 (kh_ip asked) (kh_port asked))
  else None.

Definition no_row : string := "no rows returned by a query that expected to return at least one row".
Definition constraint_violation : string := "violates check constraint".

Definition exec_check_stmt {X} (q : check_stmt X) (d : checks_db) : result X string * checks_db :=
  match q in check_stmt Y return result Y string * checks_db with
  | SelInGroup host user =>
      (Ok (negb (bool_decide (group_of host d ∩ default ∅ (cd_user_groups d !! user) = ∅))), d)
  | SelHasGroups host => (Ok (negb (bool_decide (group_of host d = ∅))), d)
  | SelHostThere host => (Ok (bool_decide (is_Some (cd_hosts d !! host))), d)
  | SelHostHealthy host => (match cd_hosts d !! host with Some h => Ok (kh_healthy h) | None => Err no_row end, d)
  | SelChecksOfHost host => (Ok (Z.of_nat (length (List.filter (fun kv => of_host host kv.2) (map_to_list (cd_checks d))))), d)
  | InsCheck host req pass =>
      let r := new_check host req pass (cd_now d) in
      if check_row_ok r d then
        let id := fresh (dom (cd_checks d)) in (Ok id, with_checks (<[id := r]> (cd_checks d)) d)
      else (Err constraint_violation, d)
  | SelCheck id host =>
      (match (r ← cd_checks d !! id; if of_host host r then Some r else None) with
       | Some r => if decodes r then Ok (Some r) else Err null_ignore_cert_errors
       | None => Ok None
       end, d)
  | SelChecks host =>
      let rows := List.filter (fun kv => of_host host kv.2) (map_to_list (cd_checks d)) in
      (if forallb (fun kv => decodes kv.2) rows
       then Ok (sort_by (fun a b => Z.compare (ck_created_at a.2) (ck_created_at b.2)) rows)
       else Err null_ignore_cert_errors, d)
  | SelLatest id => (Ok (latest_of id (cd_results d)), d)
  | SelCheckThere id host => (Ok (match cd_checks d !! id with Some r => of_host host r | None => false end), d)
  | UpdCheck id host req pass =>
      match cd_checks d !! id with
      | Some r =>
          if of_host host r then
            if check_row_ok (updated_check req pass r) d then (Ok 1, with_checks (<[id := updated_check req pass r]> (cd_checks d)) d)
            else (Err constraint_violation, d)
          else (Ok 0, d)
      | None => (Ok 0, d)
      end
  | DelCheck id host =>
      match cd_checks d !! id with
      | Some r =>
          if of_host host r then
            (Ok 1, with_results (filter (fun kv => cr_check kv.2 <> id) (cd_results d)) (with_checks (delete id (cd_checks d)) d))
          else (Ok 0, d)
      | None => (Ok 0, d)
      end
  | InsResult id healthy detail latency =>
      if bool_decide (is_Some (cd_checks d !! id)) then
        (Ok tt, with_results (<[fresh (dom (cd_results d)) := CheckResult id healthy (Some detail) latency (cd_now d)]> (cd_results d)) d)
      else (Err constraint_violation, d)
  | SelHostAddress host => (Ok ((fun h => (kh_ip h, kh_port h)) <$> cd_hosts d !! host), d)
  | SelPass id =>
      (match cd_checks d !! id with
       | Some r => match ck_pass_encrypted r, ck_pass_nonce r with Some e, Some n => Ok (Some (e, n)) | _, _ => Err "unexpected null"%string end
       | None => Ok None
       end, d)
  | SelEnabledChecks => (Ok (sort_by (fun a b => N.compare (pr_id a) (pr_id b)) (omap (poll_row_of d) (map_to_list (cd_checks d)))), d)
  | DelOldResults =>
      let keep := filter (fun kv => cd_now d - retention_us <= cr_checked_at kv.2) (cd_results d) in
      (Ok (Z.of_nat (size (cd_results d)) - Z.of_nat (size keep)), with_results keep d)
  end.

(** ** Effects *)

(** A GET request of a check: to an agent with the manager's certificates, or to
    any server; [reqwest] follows ten redirects unless told otherwise. *)
Record probe : Type := Probe {
  pb_url : string; pb_mtls : bool; pb_accept_invalid_certs : bool; pb_redirects : Z; pb_auth : option (string * string)
}.

Inductive check_eff : Type -> Type :=
| CheckSql {X} (q : check_stmt X) : check_eff (result X string)
| CheckKey : check_eff (result unit string)
| EncryptPass (pass : string) : check_eff (result (string * string) string)
| DecryptPass (enc : string * string) : check_eff (result string string)
| CheckEvent (action : string) (check : uuid) : check_eff unit
| AgentCerts : check_eff (result unit string)
| AgentConnector : check_eff (result unit agent_err)
| MtlsClient : check_eff (result unit string)
| Fetch (p : probe) : check_eff http_answer
(** Milliseconds since the start of the measurement, as [i32]. *)
| ElapsedMs : check_eff Z.

Definition check_internal : api_err := ApiErr 500 "internal_error".
Definition check_not_found : api_err := ApiErr 404 "not_found".
Definition check_forbidden : api_err := ApiErr 403 "forbidden".
Definition invalid_target : api_err := ApiErr 400 "invalid_target_host".

(** A failing effect is answered with 500. *)
Definition or_500 {X} (p : prog check_eff (result X string)) : prog check_eff (result X api_err) :=
  let! r := p in Ret (match r with Ok x => Ok x | Err _ => Err check_internal end).
Definition csql {X} (q : check_stmt X) : prog check_eff (result X api_err) := or_500 (trigger (CheckSql q)).
Definition refuse {A} (e : api_err) : prog check_eff (result A api_err) := Ret (Err e).

(** ** The routes *)

(** A failing query counts as "in no group" and as "has groups". *)
Definition operator_can_access_host (user host : uuid) : prog check_eff bool :=
  let! r := trigger (CheckSql (SelInGroup host user)) in
  if match r with Ok b => b | Err _ => false end then Ret true
  else
    let! r := trigger (CheckSql (SelHasGroups host)) in
    Ret (negb (match r with Ok b => b | Err _ => true end)).

Definition check_access {A} (auth : auth_user) (host : uuid) (p : prog check_eff (result A api_err)) : prog check_eff (result A api_err) :=
  if can_write (au_role auth) then p
  else
    let! ok := operator_can_access_host (au_id auth) host in
    if ok : bool then p else refuse check_forbidden.

(** The latest result of each check. *)
Fixpoint with_latest (checks : list (uuid * check_row)) : prog check_eff (result (list (uuid * check_row * option check_result)) api_err) :=
  match checks with
  | [] => Ret (Ok [])
  | (id, r) :: checks' =>
      let!? last := csql (SelLatest id) in
      let!? rest := with_latest checks' in
      Ret (Ok ((id, r, last) :: rest))
  end.

Definition list_health_checks (auth : auth_user) (host : uuid) : prog check_eff (result (list (uuid * check_row * option check_result)) api_err) :=
  check_access auth host
    (let!? there := csql (SelHostThere host) in
     if negb there then refuse check_not_found
     else
       let!? checks := csql (SelChecks host) in
       with_latest checks).

Definition get_health_check (auth : auth_user) (host id : uuid) : prog check_eff (result (check_row * option check_result) api_err) :=
  check_access auth host
    (let!? row := csql (SelCheck id host) in
     match row with
     | None => refuse check_not_found
     | Some r =>
         let!? last := csql (SelLatest id) in
         Ret (Ok (r, last))
     end).

Definition check_target (target : option uuid) : prog check_eff (result unit api_err) :=
  match target with
  | None => Ret (Ok tt)
  | Some t =>
      let!? there := csql (SelHostThere t) in
      if negb there then refuse invalid_target
      else
        let!? healthy := csql (SelHostHealthy t) in
        if negb healthy then refuse invalid_target else Ret (Ok tt)
  end.

Definition encrypt_pass (pass : option string) : prog check_eff (result (option (string * string)) api_err) :=
  match pass with
  | None => Ret (Ok None)
  | Some p =>
      let!? _ := or_500 (trigger CheckKey) in
      let!? enc := or_500 (trigger (EncryptPass p)) in
      Ret (Ok (Some enc))
  end.

Definition is_type (t : string) (req : create_check_request) : bool := String.eqb (cc_type req) t.

Definition create_health_check (auth : auth_user) (host : uuid) (req : create_check_request) : prog check_eff (result uuid api_err) :=
  if negb (can_write (au_role auth)) then refuse check_forbidden
  else if negb (is_type "service" req) && negb (is_type "http" req) then refuse (ApiErr 400 "invalid_check_type")
  else if is_type "service" req && bool_decide (cc_service_name req = None) then refuse (ApiErr 400 "validation_error")
  else if is_type "http" req && (bool_decide (cc_url req = None) || bool_decide (cc_expected_body req = None))
  then refuse (ApiErr 400 "validation_error")
  else
    let!? _ := check_target (cc_target req) in
    let!? count := csql (SelChecksOfHost host) in
    if 10 <=? count then refuse (ApiErr 400 "limit_exceeded")
    else
      let!? pass := encrypt_pass (cc_pass req) in
      let!? id := csql (InsCheck host req pass) in
      trigger (CheckEvent "health_check_created" id) ;;
      Ret (Ok id).

(** [set_clauses.is_empty()]: the target host has no clause. *)
Definition nothing_to_set (req : update_check_request) (pass : option (string * string)) : bool :=
  bool_decide (uc_name req = None) && bool_decide (uc_enabled req = None) && bool_decide (uc_service_name req = None) &&
  bool_decide (uc_url req = None) && bool_decide (uc_expected_body req = None) &&
  bool_decide (uc_ignore_cert_errors req = None) && bool_decide (uc_user req = None) && bool_decide (pass = None).

Definition update_health_check (auth : auth_user) (host id : uuid) (req : update_check_request) : prog check_eff (result unit api_err) :=
  if negb (can_write (au_role auth)) then refuse check_forbidden
  else
    let!? there := csql (SelCheckThere id host) in
    if negb there then refuse check_not_found
    else
      let!? _ := check_target (uc_target req) in
      let!? pass := encrypt_pass (uc_pass req) in
      if nothing_to_set req pass then refuse (ApiErr 400 "validation_error")
      else
        let!? rows := csql (UpdCheck id host req pass) in
        if rows =? 0 then refuse check_not_found
        else trigger (CheckEvent "health_check_updated" id) ;; Ret (Ok tt).

Definition delete_health_check (auth : auth_user) (host id : uuid) : prog check_eff (result unit api_err) :=
  if negb (can_write (au_role auth)) then refuse check_forbidden
  else
    let!? rows := csql (DelCheck id host) in
    if rows =? 0 then refuse check_not_found
    else trigger (CheckEvent "health_check_deleted" id) ;; Ret (Ok tt).

(** ** Running a check *)

(** What a check finds: whether it passes, and a text. *)
Definition verdict : Type := bool * string.

Section Checks.
Context (parse_json : string -> option json) (is_uuid is_datetime : string -> bool).

(** *** In the "test" route *)

Record test_result : Type := TestResult { ts_healthy : bool; ts_detail : string; ts_latency_ms : option Z }.
Definition unmeasured (detail : string) : test_result := TestResult false detail None.
Definition measured (v : verdict) (ms : Z) : test_result := TestResult v.1 v.2 (Some ms).

Definition str_or (d key : string) (v : json) : string := default d (json_get key v ≫= json_as_str).

(** The [healthy] flag anywhere in a 2xx answer's data. *)
Definition test_service_verdict (a : http_answer) : verdict :=
  match a with
  | Err (TimedOut _) => (false, "Timeout (10s)")
  | Err e => (false, "Connection failed: " ++ transport_msg e)
  | Ok r =>
      if is_success (hr_status r) then
        match hr_body r with
        | Err e => (false, "Failed to read response: " ++ transport_msg e)
        | Ok body =>
            match parse_json body ≫= json_get "data" with
            | Some data =>
                match json_get "healthy" data ≫= json_as_bool with
                | Some healthy => (healthy, str_or "unknown" "active_state" data ++ " (" ++ str_or "" "sub_state" data ++ ")")
                | None => (false, "Failed to parse agent response")
                end
            | None => (false, "Failed to parse agent response")
            end
        end
      else (false, "Agent returned HTTP " ++ hr_shown r)
  end%string.

Definition test_http_verdict (expected : string) (a : http_answer) : verdict :=
  match a with
  | Err (TimedOut _) => (false, "Timeout (10s)")
  | Err e => (false, "Request failed: " ++ transport_msg e)
  | Ok r =>
      if negb (is_success (hr_status r)) then (false, "HTTP " ++ hr_shown r)
      else
        match hr_body r with
        | Ok body =>
            if str_contains expected body then (true, "HTTP " ++ hr_shown r ++ " — body matched")
            else (false, "HTTP " ++ hr_shown r ++ " — body did not contain expected substring")
        | Err e => (false, "Failed to read response: " ++ transport_msg e)
        end
  end%string.

Definition ok_or_none {A} (r : result (option A) string) : option A := match r with Ok x => x | Err _ => None end.

(** The client is built and the request sent between the two readings of the clock. *)
Definition test_service_check (r : check_row) : prog check_eff test_result :=
  match ck_service_name r with
  | None => Ret (unmeasured "No service_name configured")
  | Some name =>
      let! h := trigger (CheckSql (SelHostAddress (default (ck_host r) (ck_target r)))) in
      match ok_or_none h with
      | None => Ret (unmeasured "Host not found")
      | Some (ip, port) =>
          let! client := trigger MtlsClient in
          match client with
          | Err e => Ret (unmeasured ("Failed to build HTTP client: " ++ e))
          | Ok _ =>
              let! a := trigger (Fetch (Probe ("https://" ++ ip ++ ":" ++ dec port ++ "/api/v1/system/services/" ++ name) true false 10 None)) in
              let! ms := trigger ElapsedMs in
              Ret (measured (test_service_verdict a) ms)
          end
      end
  end%string.

(** Credentials that cannot be had are left out. *)
Definition test_credentials (id : uuid) (r : check_row) : prog check_eff (option (string * string)) :=
  match ck_user r with
  | None => Ret None
  | Some user =>
      let! row := trigger (CheckSql (SelPass id)) in
      match ok_or_none row with
      | None => Ret None
      | Some enc =>
          let! key := trigger CheckKey in
          match key with
          | Err _ => Ret None
          | Ok _ => let! p := trigger (DecryptPass enc) in Ret (match p with Ok p => Some (user, p) | Err _ => None end)
          end
      end
  end.

(** [check.ignore_cert_errors] of a decoded row, where it is not NULL. *)
Definition ignores_cert_errors (r : check_row) : bool := bool_decide (ck_ignore_cert_errors r = Some true).

Definition test_http_check (id : uuid) (r : check_row) : prog check_eff test_result :=
  match ck_url r, ck_expected_body r with
  | None, _ => Ret (unmeasured "No URL configured")
  | Some _, None => Ret (unmeasured "No expected_body configured")
  | Some url, Some expected =>
      let! auth := test_credentials id r in
      let! a := trigger (Fetch (Probe url false (ignores_cert_errors r) 10 auth)) in
      let! ms := trigger ElapsedMs in
      Ret (measured (test_http_verdict expected a) ms)
  end.

Definition run_health_check (id : uuid) (r : check_row) : prog check_eff test_result :=
  if String.eqb (ck_type r) "service" then test_service_check r
  else if String.eqb (ck_type r) "http" then test_http_check id r
  else Ret (unmeasured ("Unknown check type: " ++ ck_type r)).

Definition test_health_check (auth : auth_user) (host id : uuid) : prog check_eff (result test_result api_err) :=
  if negb (can_write (au_role auth)) then refuse check_forbidden
  else
    let!? row := csql (SelCheck id host) in
    match row with
    | None => refuse check_not_found
    | Some r =>
        let! t := run_health_check id r in
        trigger (CheckSql (InsResult id (ts_healthy t) (ts_detail t) (ts_latency_ms t))) ;;
        Ret (Ok t)
    end.

(** *** In the worker *)

Definition service_verdict (name : string) (r : result service_status agent_err) : verdict :=
  match r with
  | Ok data =>
      if sv_healthy data then
        (true, "Service '" ++ sv_name data ++ "' is " ++ sv_active_state data ++ "/" ++ sv_sub_state data ++ " (enabled: " ++ sv_enabled_state data ++ ")")
      else
        (false, "Service '" ++ sv_name data ++ "' status: " ++ sv_active_state data ++ "/" ++ sv_sub_state data ++
                " (unhealthy, enabled: " ++ sv_enabled_state data ++ ")")
  | Err ETimeout => (false, "Agent timed out querying service '" ++ name ++ "'")
  | Err (EConnect _) => (false, "Agent connection refused for service '" ++ name ++ "'")
  | Err (EApi c m) => (false, "Agent error [" ++ c ++ "]: " ++ m)
  | Err e => (false, "Agent error querying service '" ++ name ++ "': " ++ agent_err_str e)
  end%string.

Definition http_verdict (url : string) (expected : option string) (a : http_answer) : verdict :=
  match a with
  | Err (TimedOut _) => (false, "HTTP check timed out: " ++ url)
  | Err (NotConnected _) => (false, "HTTP check connection failed: " ++ url)
  | Err (OtherFailure e) => (false, "HTTP check request error: " ++ e)
  | Ok r =>
      if negb (is_success (hr_status r)) then (false, "HTTP check returned status " ++ dec (hr_status r) ++ " for " ++ url)
      else
        match hr_body r with
        | Err e => (false, "HTTP check failed to read response body: " ++ transport_msg e)
        | Ok body =>
            if match expected with Some s => negb (str_contains s body) | None => false end
            then (false, "HTTP check body mismatch for " ++ url ++ ": expected substring not found")
            else (true, "HTTP check OK for " ++ url ++ " (status " ++ dec (hr_status r) ++ ")")
        end
  end%string.

(** [agent_port as u16]; the answer goes through the client of the agents. *)
Definition run_service_check (row : poll_row) : prog check_eff verdict :=
  match ck_service_name (pr_check row) with
  | None => Ret (false, "Service check missing service_name")
  | Some name =>
      let! client := trigger AgentConnector in
      match client with
      | Err e => Ret (false, "Failed to build AgentClient: " ++ agent_err_str e)
      | Ok _ =>
          let url := base_url (pr_ip row) (pr_port row mod 2 ^ 16) ++ "/" ++ ("system/services/" ++ name) in
          let! a := trigger (Fetch (Probe url true false 10 None)) in
          Ret (service_verdict name (read_answer parse_json is_uuid is_datetime service_status_of url a))
      end
  end%string.

(** A user without a password that can be decrypted fails the check. *)
Definition http_credentials (r : check_row) : prog check_eff (result (option (string * string)) string) :=
  match ck_user r with
  | None => Ret (Ok None)
  | Some user =>
      match ck_pass_encrypted r, ck_pass_nonce r with
      | Some enc, Some nonce =>
          let! p := trigger (DecryptPass (enc, nonce)) in
          Ret (match p with Ok p => Ok (Some (user, p)) | Err e => Err ("Failed to decrypt basic auth password: " ++ e) end)
      | _, _ => Ret (Err "HTTP check has basic_auth_user but no encrypted password")
      end
  end%string.

Definition run_http_check (r : check_row) : prog check_eff verdict :=
  match ck_url r with
  | None => Ret (false, "HTTP check missing URL"%string)
  | Some url =>
      let! auth := http_credentials r in
      match auth with
      | Err detail => Ret (false, detail)
      | Ok auth =>
          let! a := trigger (Fetch (Probe url false (default true (ck_ignore_cert_errors r)) 5 auth)) in
          Ret (http_verdict url (ck_expected_body r) a)
      end
  end.

Definition find_verdict (row : poll_row) : prog check_eff verdict :=
  let t := ck_type (pr_check row) in
  if String.eqb t "service" then run_service_check row
  else if String.eqb t "http" then run_http_check (pr_check row)
  else Ret (false, "Unknown check type: " ++ t)%string.

Definition run_check (row : poll_row) : prog check_eff bool :=
  let! v := find_verdict row in
  let! ms := trigger ElapsedMs in
  trigger (CheckSql (InsResult (pr_id row) v.1 v.2 (Some ms))) ;;
  Ret v.1.

Definition prune_old_results : prog check_eff unit := trigger (CheckSql DelOldResults) ;; Ret tt.

(** The first half of a cycle: the checks to run; [None] when the cycle is skipped. *)
Definition checks_to_run : prog check_eff (option (list poll_row)) :=
  let! certs := trigger AgentCerts in
  match certs with
  | Err _ => Ret None
  | Ok _ =>
      let! key := trigger CheckKey in
      match key with
      | Err _ => Ret None
      | Ok _ =>
          let! rows := trigger (CheckSql SelEnabledChecks) in
          Ret (match rows with Ok rows => Some rows | Err _ => None end)
      end
  end.

(** One cycle: the checks run as concurrent tasks, which are awaited; then old
    results go.  The semaphore only delays tasks. *)
Inductive poll_cycle `{EffectSem check_eff checks_db} (d : checks_db) : option (list (poll_row * bool)) -> checks_db -> Prop :=
| cycle_skipped d1 : may checks_to_run (fun r s => r = None /\ s = d1) d -> poll_cycle d None d1
| cycle_run rows d1 verdicts d2 d3 :
    may checks_to_run (fun r s => r = Some rows /\ s = d1) d ->
    length verdicts = length rows ->
    rtc (cstep (fun _ _ => []) (fun _ => False)) (d1, run_check <$> rows) (d2, Ret <$> verdicts) ->
    may prune_old_results (fun _ s => s = d3) d2 ->
    poll_cycle d (Some (zip rows verdicts)) d3.
End Checks.
