(* ===== verification/Health.v ===== *)
(** * The health poller (pm-worker/src/health_poller.rs)

    What one poll of a host makes of the agent's answers: the natural status,
    the revocation-list rules, the hysteresis, the row of [hosts] that is
    written and the audit events.  The agent's answers, the clock and whether the
    update of [hosts] succeeds are inputs; parsing an RFC 3339 time is a
    parameter.  The insertion into [host_health_data] (a history the program
    only shows) is left out, and with it the fields of the answer it alone
    stores. *)

From S2P Require Import Prelude SelfUpgrade AuditLog.

Inductive host_health_status : Type := Healthy | Degraded | Unreachable | PendingHealth.

#[export] Instance host_health_status_eq_dec : EqDecision host_health_status.
Proof. solve_decision. Defined.

(** [HealthData] and [SystemInfoData] of pm-agent-client/src/types.rs. *)
Record health_data : Type := HealthData {
  hd_version : string;
  hd_crl_status : option string;
  hd_crl_age_seconds : option Z;
  hd_crl_next_update : option string;
  hd_gpg_key_status : option string;
  hd_gpg_key_expires_at : option string
}.
Record system_info : Type := SystemInfo {
  si_os : string; si_os_version : string; si_architecture : string;
  si_pending_reboot : bool; si_package_db_clean : bool
}.

(** The columns of [hosts] the poller reads or writes. *)
Record health_columns : Type := HealthColumns {
  hc_status : host_health_status;
  hc_last_health_at : option Z;
  hc_agent_version : option string;
  hc_os_family : option string;
  hc_os_name : option string;
  hc_arch : option string;
  hc_crl_status : option string;
  hc_crl_age_seconds : option Z;
  hc_crl_next_update : option Z;
  hc_gpg_key_status : option string;
  hc_gpg_key_expires_at : option Z;
  hc_pending_reboot : bool;
  hc_package_db_clean : bool;
  hc_consecutive_failures : Z;
  hc_registered_at : Z
}.

(** The answers to one poll: the construction of the client, [health()],
    [system_info()] ([None] when the call fails), the update of [hosts]. *)
Record poll_answers : Type := PollAnswers {
  pa_client : result unit agent_err;
  pa_health : result health_data agent_err;
  pa_info : option system_info;
  pa_update : result unit string
}.

Definition failure_threshold : Z := 3.

Definition apply_hysteresis (natural effective : host_health_status) (failures : Z) : Z * host_health_status :=
  let new_failures :=
    match natural with Healthy => 0 | Unreachable => failures + 1 | _ => failures end in
  (new_failures,
   if failure_threshold <=? new_failures then effective
   else if bool_decide (natural = Unreachable) && bool_decide (effective = Unreachable) then Degraded
   else effective).

Definition apply_crl_health_rules (now : Z) (natural : host_health_status) (crl_status : option string)
    (registered_at : Z) : host_health_status :=
  match crl_status with
  | None => natural
  | Some crl =>
      if String.eqb crl "invalid" then Unreachable
      else if String.eqb crl "expired" then
        if bool_decide (natural = Healthy) then Degraded else natural
      else if String.eqb crl "missing" then
        if (24 * hour_us <? now - registered_at) && bool_decide (natural = Healthy) then Degraded else natural
      else natural
  end.

(** The status the answers show by themselves, and the data that came with it. *)
Definition natural_status (ans : poll_answers) : host_health_status * option health_data * option system_info :=
  match pa_client ans with
  | Err _ => (Unreachable, None, None)
  | Ok _ =>
      match pa_health ans with
      | Ok data => (Healthy, Some data, pa_info ans)
      | Err ETimeout | Err (EConnect _) => (Unreachable, None, None)
      | Err _ => (Degraded, None, pa_info ans)
      end
  end.

(** [COALESCE($n, column)] *)
Definition coalesce {A} (new old : option A) : option A := match new with Some _ => new | None => old end.

(** The audit events of a revocation-list status that was reported. *)
Definition crl_audit_events (old : option string) (new : string) : list audit_action :=
  (if bool_decide (old = Some new) then [] else [CrlStatusChanged]) ++
  (if String.eqb new "expired" then [CrlStaleDetected]
   else if String.eqb new "invalid" then [CrlInvalid] else []).

Section Poll.
Context (parse_rfc3339 : string -> option Z).

(** The row the update of [hosts] writes. *)
Definition polled_columns (now : Z) (host : health_columns) (data : option health_data) (info : option system_info)
    (status : host_health_status) (failures : Z) : health_columns :=
  HealthColumns status (Some now)
    (coalesce (hd_version <$> data) (hc_agent_version host))
    (coalesce (si_os <$> info) (hc_os_family host))
    (coalesce ((fun i => (si_os i ++ " " ++ si_os_version i)%string) <$> info) (hc_os_name host))
    (coalesce (si_architecture <$> info) (hc_arch host))
    (coalesce (d ← data; hd_crl_status d) (hc_crl_status host))
    (coalesce (d ← data; hd_crl_age_seconds d) (hc_crl_age_seconds host))
    (coalesce (d ← data; s ← hd_crl_next_update d; parse_rfc3339 s) (hc_crl_next_update host))
    (coalesce (d ← data; hd_gpg_key_status d) (hc_gpg_key_status host))
    (coalesce (d ← data; s ← hd_gpg_key_expires_at d; parse_rfc3339 s) (hc_gpg_key_expires_at host))
    (match info with Some i => si_pending_reboot i | None => false end)
    (match info with Some i => si_package_db_clean i | None => hc_package_db_clean host end)
    failures (hc_registered_at host).

(** One poll: the status it returns, the row afterwards and the events it logs.
    [now] is the worker's clock and [NOW()]. *)
Definition poll_host_health (now : Z) (host : health_columns) (ans : poll_answers)
    : host_health_status * health_columns * list audit_action :=
  let '(natural, data, info) := natural_status ans in
  let crl := d ← data; hd_crl_status d in
  let effective := apply_crl_health_rules now natural crl (hc_registered_at host) in
  let '(failures, status) := apply_hysteresis natural effective (hc_consecutive_failures host) in
  match pa_update ans with
  | Err _ => (status, host, [])
  | Ok _ =>
      (status, polled_columns now host data info status failures,
       match crl with Some c => crl_audit_events (hc_crl_status host) c | None => [] end)
  end.

(** Polls one after the other. *)
Fixpoint polls (host : health_columns) (answers : list (Z * poll_answers)) : health_columns :=
  match answers with
  | [] => host
  | (now, ans) :: rest => polls (poll_host_health now host ans).1.2 rest
  end.

(** An agent that cannot be reached: no client, a time-out or a refused
    connection; the row is written. *)
Definition unreachable_answer (ans : poll_answers) : bool :=
  bool_decide ((natural_status ans).1.1 = Unreachable /\ pa_update ans = Ok tt).

(** ** Lemmas *)

Lemma unreachable_no_data ans :
  unreachable_answer ans = true -> natural_status ans = (Unreachable, None, None) /\ pa_update ans = Ok tt.
Proof.
  unfold unreachable_answer, natural_status. rewrite bool_decide_eq_true. intros [Hn Hu]. split; [|done]. revert Hn.
  destruct (pa_client ans); [|done]. destruct (pa_health ans) as [|[]]; done.
Qed.

Lemma poll_unreachable now host ans :
  unreachable_answer ans = true ->
  let host' := (poll_host_health now host ans).1.2 in
  hc_consecutive_failures host' = hc_consecutive_failures host + 1 /\
  hc_status host' = (if failure_threshold <=? hc_consecutive_failures host + 1 then Unreachable else Degraded).
Proof.
  intros Hu. unfold poll_host_health. destruct (unreachable_no_data ans Hu) as [-> ->]. simpl.
  split; [done|]. by destruct (failure_threshold <=? _).
Qed.

Lemma polls_unreachable host answers :
  Forall (fun a => unreachable_answer a.2 = true) answers -> answers <> [] -> 0 <= hc_consecutive_failures host ->
  hc_consecutive_failures (polls host answers) = hc_consecutive_failures host + Z.of_nat (length answers) /\
  hc_status (polls host answers) =
    (if failure_threshold <=? hc_consecutive_failures host + Z.of_nat (length answers) then Unreachable else Degraded).
Proof.
  intros Hall. revert host. induction Hall as [|[now ans] rest Ha Hrest IH]; intros host Hne H0; [done|].
  cbn [polls]. destruct (poll_unreachable now host ans Ha) as [Hf Hs]. cbn [length].
  destruct rest as [|a rest].
  - cbn [polls length]. rewrite Hf, Hs. done.
  - destruct (IH (poll_host_health now host ans).1.2) as [Hf' Hs']; [done|lia|].
    rewrite Hf', Hs', Hf. cbn [length].
    replace (hc_consecutive_failures host + 1 + Z.of_nat (S (length rest)))
      with (hc_consecutive_failures host + Z.of_nat (S (S (length rest)))) by lia. done.
Qed.

(** ** The properties *)

(** Hysteresis: from a healthy poll on, a host that cannot be reached is shown
    degraded for two polls and unreachable from the third on, and one healthy
    answer resets the count. *)
Theorem unreachable_after_three now host ok answers :
  (natural_status ok).1.1 = Healthy -> pa_update ok = Ok tt -> Forall (fun a => unreachable_answer a.2 = true) answers ->
  answers <> [] ->
  hc_consecutive_failures (poll_host_health now host ok).1.2 = 0 /\
  hc_status (polls (poll_host_health now host ok).1.2 answers) =
    (if 3 <=? Z.of_nat (length answers) then Unreachable else Degraded).
Proof.
  intros Hok Hup Hall Hne.
  assert (hc_consecutive_failures (poll_host_health now host ok).1.2 = 0) as H0.
  { unfold poll_host_health. rewrite Hup. destruct (natural_status ok) as [[n d] i]. simpl in Hok. by subst. }
  split; [done|]. destruct (polls_unreachable (poll_host_health now host ok).1.2 answers Hall Hne) as [_ Hs]; [lia|].
  by rewrite Hs, H0.
Qed.

(** A revocation list the agent calls invalid makes its host unreachable at
    once, whatever the count of failures, and is recorded as a security event;
    an expired list, or a missing one a day after the registration, degrades a
    healthy host; any other report leaves it healthy. *)
Theorem crl_rules now host ans data crl :
  pa_client ans = Ok tt -> pa_health ans = Ok data -> hd_crl_status data = Some crl -> pa_update ans = Ok tt ->
  let '(status, host', events) := poll_host_health now host ans in
  status = (if String.eqb crl "invalid" then Unreachable
            else if String.eqb crl "expired" ||
                    (String.eqb crl "missing" && (24 * hour_us <? now - hc_registered_at host)) then Degraded
            else Healthy) /\
  hc_status host' = status /\ hc_crl_status host' = Some crl /\
  (CrlInvalid ∈ events <-> crl = "invalid"%string) /\
  (CrlStatusChanged ∈ events <-> hc_crl_status host <> Some crl).
Proof.
  intros Hc Hh Hcrl Hu. unfold poll_host_health, natural_status. rewrite Hc, Hh, Hu. simpl. rewrite Hcrl. simpl.
  unfold apply_crl_health_rules, crl_audit_events. split_and!.
  - destruct (String.eqb_spec crl "invalid"); [done|]. destruct (String.eqb_spec crl "expired"); [done|].
    destruct (String.eqb_spec crl "missing"); simpl; [|done]. by destruct (24 * hour_us <? _).
  - done.
  - done.
  - rewrite elem_of_app. destruct (String.eqb_spec crl "expired") as [->|]; [|destruct (String.eqb_spec crl "invalid") as [->|]].
    + split; [|done]. intros [H|H%list_elem_of_singleton]; [|done]. case_bool_decide; [by apply elem_of_nil in H|].
      by apply list_elem_of_singleton in H.
    + split; [done|]. intros _. right. by left.
    + split; [|done]. intros [H|H]; [|by apply elem_of_nil in H]. case_bool_decide; [by apply elem_of_nil in H|].
      by apply list_elem_of_singleton in H.
  - rewrite elem_of_app. case_bool_decide as Heq.
    + split; [|done]. intros [H|H]; [by apply elem_of_nil in H|].
      repeat case_match; try (by apply elem_of_nil in H); by apply list_elem_of_singleton in H.
    + split; [done|]. intros _. left. by left.
Qed.

(** A poll that reaches nobody keeps what was known of the host (version,
    operating system, revocation list, package database), so the reboot gate
    still sees the last known state of the package database; only the pending
    reboot flag is dropped. *)
Theorem failed_poll_keeps_columns now host ans :
  unreachable_answer ans = true ->
  let host' := (poll_host_health now host ans).1.2 in
  hc_package_db_clean host' = hc_package_db_clean host /\ hc_agent_version host' = hc_agent_version host /\
  hc_os_family host' = hc_os_family host /\ hc_os_name host' = hc_os_name host /\
  hc_arch host' = hc_arch host /\ hc_crl_status host' = hc_crl_status host /\
  hc_gpg_key_status host' = hc_gpg_key_status host /\ hc_pending_reboot host' = false /\
  (poll_host_health now host ans).2 = [].
Proof.
  intros Hu. unfold poll_host_health. destruct (unreachable_no_data ans Hu) as [-> ->]. simpl. by split_and!.
Qed.
End Poll.

(** ** Witnesses *)

Definition demo_columns : health_columns :=
  HealthColumns Healthy None (Some "1.0.0"%string) None None None (Some "valid"%string) None None None None true false 2 0.
Definition timeout_answer : poll_answers := PollAnswers (Ok tt) (Err ETimeout) None (Ok tt).
Definition healthy_answer (crl : option string) : poll_answers :=
  PollAnswers (Ok tt) (Ok (HealthData "1.0.0" crl None None None None)) None (Ok tt).

Lemma unreachable_after_three_witness :
  hc_consecutive_failures (poll_host_health (fun _ => None) 0 demo_columns (healthy_answer None)).1.2 = 0 /\
  hc_status (polls (fun _ => None) (poll_host_health (fun _ => None) 0 demo_columns (healthy_answer None)).1.2
               [(1, timeout_answer); (2, timeout_answer); (3, timeout_answer)]) = Unreachable.
Proof.
  apply (unreachable_after_three (fun _ => None) 0 demo_columns (healthy_answer None)
           [(1, timeout_answer); (2, timeout_answer); (3, timeout_answer)]).
  - reflexivity.
  - reflexivity.
  - repeat apply Forall_cons_2; try apply Forall_nil_2; reflexivity.
  - discriminate.
Defined.

Lemma crl_rules_witness :
  (poll_host_health (fun _ => None) 0 demo_columns (healthy_answer (Some "invalid"%string))).1.1 = Unreachable /\
  CrlInvalid ∈ (poll_host_health (fun _ => None) 0 demo_columns (healthy_answer (Some "invalid"%string))).2.
Proof.
  destruct (crl_rules (fun _ => None) 0 demo_columns (healthy_answer (Some "invalid"%string))
              (HealthData "1.0.0" (Some "invalid"%string) None None None None) "invalid" eq_refl eq_refl eq_refl eq_refl)
    as (H1 & _ & _ & H2 & _).
  split; [reflexivity|]. apply H2. reflexivity.
Defined.

Lemma failed_poll_keeps_columns_witness :
  hc_package_db_clean (poll_host_health (fun _ => None) 0 demo_columns timeout_answer).1.2 = false.
Proof. apply (failed_poll_keeps_columns (fun _ => None) 0 demo_columns timeout_answer). reflexivity. Defined.
