(* ===== verification/JobExecutor.v ===== *)
(** * The job executor (pm-worker/src/job_executor.rs)

    The asynchronous functions that dispatch host jobs to agents, poll them and
    retry them, as programs over the effects [eff].  Tracing calls are dropped;
    the semaphore of [process_job] is too (it only delays the spawned tasks, so
    what holds of all interleavings holds of the ones it admits). *)

From S2P Require Import Prelude Conc Schema Windows Statements SelfUpgrade.

(** ** Effects *)

Record worker_config : Type := WorkerConfig {
  cfg_job_timeout_secs : Z;
  cfg_reconnect_timeout_secs : Z;
  cfg_reconnect_poll_interval_secs : Z;
  cfg_relay_poll_interval_secs : Z
}.

(** An agent: address and port of its mTLS endpoint. *)
Record agent : Type := Agent { ag_ip : string; ag_port : Z }.

(** Body of the agent's [GET /jobs/{id}]. *)
Record agent_job_status : Type := AgentJob {
  aj_status : string; aj_output : option string; aj_error : option string
}.

(** The tasks that are started with [tokio::spawn]. *)
Inductive task : Type :=
| TProcessJob (job : uuid)
| TExecuteHostJob (job host id : uuid)
| TPollSingle (row : running_row)
| TJobEmails (job : uuid) (total succeeded failed : Z)
| TRelay (row : relay_row).

Inductive eff : Type -> Type :=
| Sql {X} (q : stmt X) : eff (result X string)
| UtcNow : eff Z
| Sleep (secs : Z) : eff unit
| LoadCerts : eff (result unit string)
| NewClient (a : agent) : eff (result unit agent_err)
| ApplyPatches (a : agent) (packages : list string) (allow_reboot : bool) (delay : Z)
    : eff (result string agent_err)
| RebootHost (a : agent) : eff (result string agent_err)
| UpdatePackage (a : agent) (name : string) : eff (result string agent_err)
| JobStatusOf (a : agent) (agent_job : string) : eff (result agent_job_status agent_err)
| Health (a : agent) : eff (result string agent_err)
| LogEvent (action : string) (target : uuid) : eff unit
| Spawn (t : task) : eff unit.

Definition sql {X} (q : stmt X) : prog eff (result X string) := trigger (Sql q).
Definition spawn (t : task) : prog eff unit := trigger (Spawn t).
Definition skip : prog eff unit := Ret tt.

(** [.ok().flatten()] on a fetched row. *)
Definition ok_flat {X} (r : result (option X) string) : option X :=
  match r with Ok (Some x) => Some x | _ => None end.

Definition u16_of (z : Z) : Z := z mod 2 ^ 16.
Definition u64_of (z : Z) : Z := z mod 2 ^ 64.

(** ** sync_job_status: the roll-up of a job's host entries *)

(** New status of the parent, and whether it completes the job. *)
Definition sync_decision (c : status_counts) : option (job_status * bool) :=
  if (0 <? c_running c) || (0 <? c_pending c) || (0 <? c_queued c) || (0 <? c_waiting c)
  then Some (Running, false)
  else if (0 <? c_total c) && (c_succeeded c =? c_total c) then Some (Succeeded, true)
  else if (0 <? c_total c) && (c_cancelled c =? c_total c) then Some (Cancelled, true)
  else if 0 <? c_failed c then Some (Failed, true)
  else None.

Definition sync_job_status (job : uuid) : prog eff unit :=
  let! r := sql (SelCounts job) in
  match r with
  | Err _ => skip
  | Ok c =>
      match sync_decision c with
      | None => skip
      | Some (st, completed) =>
          (if completed then let! _ := sql (UpdParentCompleted job st) in skip
           else let! _ := sql (UpdParentStatus job st) in skip) ;;
          (let! _ := sql (PgNotify (NotifyJob job st (c_succeeded c) (c_failed c) (c_total c))) in
           if completed then spawn (TJobEmails job (c_total c) (c_succeeded c) (c_failed c)) else skip)
      end
  end.

(** ** handle_host_failure: retry with back-off *)

Definition backoff_us (count : Z) : Z :=
  if count =? 1 then 1 * minute_us else if count =? 2 then 5 * minute_us else 30 * minute_us.

Definition handle_host_failure (id : uuid) (msg : string) : prog eff unit :=
  let! r := sql (SelRetryRow id) in
  match r with
  | Err _ | Ok None => skip
  | Ok (Some row) =>
      if terminal (ry_status row) then skip
      else if ry_count row <? 3 then
        let n := ry_count row + 1 in
        let! now := trigger UtcNow in
        let! _ := sql (UpdPending id n (now + backoff_us n) msg) in skip
      else
        let! w := sql (UpdFailed id msg) in
        match w with
        | Ok n => if 0 <? n then sync_job_status (ry_job row) else skip
        | Err _ => skip
        end
  end.

(** ** execute_*_host_job: dispatch to the agent *)

Definition reboot_refusal_reason (paused clean : bool) : option string :=
  if paused then Some "host is reboot-paused (operator hold)"%string
  else if negb clean then
    Some "host package database is not clean (half-configured packages) — run `dpkg --configure -a` before rebooting"%string
  else None.

Definition reboot_safety_state (host : uuid) : prog eff (option (bool * bool)) :=
  let! r := sql (SelRebootSafety host) in Ret (ok_flat r).

Definition store_agent_job (id : uuid) (resp : result string agent_err) : prog eff unit :=
  match resp with
  | Ok aj => let! _ := sql (UpdAgentJob id aj) in skip
  | Err e => handle_host_failure id ("Agent error: " ++ agent_err_str e)
  end.

(** The packages to apply: the job's, or all available ones when it has none. *)
Definition expand_packages (host : uuid) (selection : json) : prog eff (list string) :=
  let packages := default [] (json_string_list selection) in
  match packages with
  | _ :: _ => Ret packages
  | [] =>
      let! r := sql (SelPatchData host) in
      Ret (match r with
           | Ok (Some v) =>
               match json_list v with
               | Some ps => omap (fun p => n ← json_get "name" p; json_as_str n) ps
               | None => []
               end
           | _ => []
           end)
  end.

Definition execute_patch_host_job (id host : uuid) (a : agent) (selection : json)
    (allow_reboot : bool) (delay : Z) : prog eff unit :=
  let! packages := expand_packages host selection in
  let! st := reboot_safety_state host in
  let allow :=
    match st with
    | Some (paused, clean) =>
        match reboot_refusal_reason paused clean with Some _ => false | None => allow_reboot end
    | None => allow_reboot
    end in
  let! resp := trigger (ApplyPatches a packages allow delay) in
  store_agent_job id resp.

Definition request_reboot (id : uuid) (a : agent) : prog eff unit :=
  let! resp := trigger (RebootHost a) in
  store_agent_job id resp.

Definition execute_reboot_host_job (id host : uuid) (a : agent) : prog eff unit :=
  let! st := reboot_safety_state host in
  match st with
  | Some (paused, clean) =>
      match reboot_refusal_reason paused clean with
      | Some reason =>
          trigger (LogEvent "reboot_refused" host) ;;
          handle_host_failure id ("Reboot refused: " ++ reason)
      | None => request_reboot id a
      end
  | None => request_reboot id a
  end.

Definition execute_self_upgrade_host_job (id : uuid) (a : agent) : prog eff unit :=
  let! resp := trigger (UpdatePackage a "linux-patch-api") in
  store_agent_job id resp.

(** check_host_health_checks of pm-worker/src/health_check_poller.rs. *)
Definition check_host_health_checks (host : uuid) : prog eff (result bool string) :=
  let! c := sql (SelCheckCount host) in
  match c with
  | Err e => Ret (Err e)
  | Ok n =>
      if n =? 0 then Ret (Ok true)
      else
        let! u := sql (SelUnhealthyCount host) in
        match u with
        | Err e => Ret (Err e)
        | Ok m => Ret (Ok (m =? 0))
        end
  end.

(** The branch taken when the health checks did not pass. *)
Definition health_gate_closed (host id : uuid) : prog eff unit :=
  let! r := sql (SelWindowOpen host) in
  let window_open := match r with Ok o => default true o | Err _ => true end in
  if negb window_open then
    handle_host_failure id "Health checks did not pass before maintenance window closed"
  else
    let! now := trigger UtcNow in
    let! _ := sql (UpdWaiting id (now + 5 * minute_us)) in skip.

(** Steps 2 to 6: fetch the job, build the client, mark the row running and
    dispatch on the kind. *)
Definition dispatch_host_job (job host id : uuid) (a : agent) : prog eff unit :=
  let! ji := sql (SelJobInfo job) in
  match ji with
  | Err e => handle_host_failure id ("DB error fetching job: " ++ e)
  | Ok None => handle_host_failure id ("Parent job " ++ uuid_str job ++ " not found")
  | Ok (Some info) =>
      let! certs := trigger LoadCerts in
      match certs with
      | Err e => handle_host_failure id ("Failed to load agent certs: " ++ e)
      | Ok _ =>
          let! cl := trigger (NewClient a) in
          match cl with
          | Err e => handle_host_failure id ("Failed to build agent client: " ++ agent_err_str e)
          | Ok _ =>
              let! _ := sql (UpdMarkPjhRunning id) in
              match ji_kind info with
              | SelfUpgrade => execute_self_upgrade_host_job id a
              | Reboot => execute_reboot_host_job id host a
              | _ => execute_patch_host_job id host a (ji_selection info) (ji_allow_reboot info)
                       (u64_of (ji_delay info))
              end
          end
      end
  end.

Definition execute_host_job (job host id : uuid) : prog eff unit :=
  let! h := sql (SelHost host) in
  match h with
  | Err e => handle_host_failure id ("DB error fetching host: " ++ e)
  | Ok None => handle_host_failure id ("Host " ++ uuid_str host ++ " not found in database")
  | Ok (Some (ip, port)) =>
      let a := Agent ip (u16_of port) in
      let! hc := check_host_health_checks host in
      match hc with
      | Ok false => health_gate_closed host id
      | Ok true | Err _ => dispatch_host_job job host id a
      end
  end.

(** ** process_job and scan_queued_jobs *)

Definition process_job (job : uuid) : prog eff unit :=
  let! _ := sql (UpdMarkJobRunning job) in
  let! r := sql (SelQueuedHosts job) in
  match r with
  | Err _ => skip
  | Ok hosts => for_each hosts (fun '(id, host) => spawn (TExecuteHostJob job host id))
  end.

Definition scan_queued_jobs : prog eff unit :=
  let! r := sql SelQueuedJobIds in
  match r with
  | Err _ => skip
  | Ok jobs => for_each jobs (fun job => spawn (TProcessJob job))
  end.

(** ** Polling *)

(** The [UPDATE ... 'succeeded'] and the parent sync that follows it: skipped
    when the guard found the row terminal already, done also when the update
    reported an error. *)
Definition mark_succeeded (row : running_row) (output : string) : prog eff unit :=
  let! w := sql (UpdSucceeded (rr_id row) output) in
  match w with
  | Ok n => if n =? 0 then skip else sync_job_status (rr_job row)
  | Err _ => sync_job_status (rr_job row)
  end.

Definition finish_self_upgrade_success (row : running_row) (version : string) : prog eff unit :=
  let! _ := sql (UpdHostVersion (rr_host row) version) in
  mark_succeeded row ("Self-upgrade completed: agent version " ++ version).

Definition fetch_target_version (job : uuid) : prog eff (option string) :=
  let! r := sql (SelSelection job) in
  Ret (v ← ok_flat r; t ← json_get "target_version" v; json_as_str t).

(** A NULL [agent_version] does not decode as a [String]: the query is [Err]. *)
Definition fetch_old_version (host : uuid) : prog eff (option string) :=
  let! r := sql (SelAgentVersion host) in
  Ret (match r with Ok (Some (Some v)) => Some v | _ => None end).

(** The poll loop of reconnect_confirm_self_upgrade.  [fuel] bounds its
    iterations; [elapsed] grows by the poll interval in each. *)
Fixpoint reconnect_loop (fuel : nat) (cfg : worker_config) (row : running_row) (a : agent)
    (target old : option string) (elapsed : Z) : prog eff bool :=
  match fuel with
  | O => Ret false
  | S f =>
      trigger (Sleep (cfg_reconnect_poll_interval_secs cfg)) ;;
      let elapsed := elapsed + cfg_reconnect_poll_interval_secs cfg in
      let! health := trigger (Health a) in
      match decide_version_sample health target old with
      | VSucceeded version => finish_self_upgrade_success row version ;; Ret true
      | VRetry =>
          if cfg_reconnect_timeout_secs cfg <=? elapsed then
            handle_host_failure (rr_id row)
              "Agent did not reach the target version within the self-upgrade reconnect timeout" ;;
            Ret true
          else reconnect_loop f cfg row a target old elapsed
      | VFail reason => handle_host_failure (rr_id row) reason ;; Ret true
      end
  end.

(** Enough iterations for the time-out to be reached (the interval is positive). *)
Definition reconnect_fuel (cfg : worker_config) : nat :=
  S (Z.to_nat (cfg_reconnect_timeout_secs cfg / cfg_reconnect_poll_interval_secs cfg)).

Definition reconnect_confirm_self_upgrade (cfg : worker_config) (row : running_row) (a : agent)
    : prog eff bool :=
  let! target := fetch_target_version (rr_job row) in
  let! old := fetch_old_version (rr_host row) in
  reconnect_loop (reconnect_fuel cfg) cfg row a target old 0.

Definition poll_self_upgrade_host (cfg : worker_config) (row : running_row) (a : agent)
    (status : result agent_job_status agent_err) : prog eff unit :=
  let confirm := let! _ := reconnect_confirm_self_upgrade cfg row a in skip in
  let st := match status with Ok s => Ok (aj_status s) | Err e => Err e end in
  match decide_self_upgrade_poll_action st with
  | PSucceeded =>
      let! h := trigger (Health a) in
      match h with
      | Err _ => confirm
      | Ok version =>
          let! target := fetch_target_version (rr_job row) in
          let! old := fetch_old_version (rr_host row) in
          match decide_self_upgrade_succeeded_action
                  (decide_self_upgrade_reconnect_result version target old) with
          | FinishSuccess => finish_self_upgrade_success row version
          | ReconnectConfirm => confirm
          end
      end
  | PFailedThenReconnectConfirm | PConnectionDropped => confirm
  | PStillInProgress | PUnexpectedStatus => skip
  end.

(** The non-self-upgrade arm of poll_single_host. *)
Definition poll_standard_host (row : running_row) (status : result agent_job_status agent_err)
    : prog eff unit :=
  match status with
  | Err (EApi c message) =>
      if String.eqb c "JOB_NOT_FOUND" then
        handle_host_failure (rr_id row)
          ("Agent reports job not found (agent may have rebooted): " ++ message)
      else skip
  | Err _ => skip
  | Ok s =>
      let st := aj_status s in
      if String.eqb st "succeeded" || String.eqb st "completed" then
        mark_succeeded row (default ""%string (aj_output s))
      else if String.eqb st "failed" then
        handle_host_failure (rr_id row)
          (default "Agent reported failure (no detail)"%string (aj_error s))
      else if String.eqb st "running" || String.eqb st "queued" then skip
      else if String.eqb st "cancelled" then
        handle_host_failure (rr_id row) (default "Agent job was cancelled"%string (aj_error s))
      else skip
  end.

Definition poll_single_host (cfg : worker_config) (row : running_row) : prog eff unit :=
  let! certs := trigger LoadCerts in
  match certs with
  | Err _ => skip
  | Ok _ =>
      let a := Agent (rr_ip row) (u16_of (rr_port row)) in
      let! cl := trigger (NewClient a) in
      match cl with
      | Err _ => skip
      | Ok _ =>
          let! status := trigger (JobStatusOf a (rr_agent_job row)) in
          match rr_kind row with
          | SelfUpgrade => poll_self_upgrade_host cfg row a status
          | _ => poll_standard_host row status
          end
      end
  end.

Definition poll_running_jobs : prog eff unit :=
  let! r := sql SelRunning in
  match r with
  | Err _ => skip
  | Ok rows => for_each rows (fun row => spawn (TPollSingle row))
  end.

(** ** Retries and time-outs *)

Definition retry_pending_jobs : prog eff unit :=
  let! r := sql SelPendingDue in
  match r with
  | Err _ => skip
  | Ok rows =>
      for_each rows (fun '(id, host, job) =>
        let! w := sql (UpdRequeue id) in
        match w with
        | Ok n => if 0 <? n then spawn (TExecuteHostJob job host id) else skip
        | Err _ => skip
        end)
  end.

Section FailTimedOut.
(** chrono's rendering of a timestamp in the error message. *)
Context (show_time : Z -> string).

Definition fail_timed_out_jobs (cfg : worker_config) : prog eff unit :=
  if cfg_job_timeout_secs cfg =? 0 then skip
  else
    let! r := sql (SelTimedOut (cfg_job_timeout_secs cfg)) in
    match r with
    | Err _ => skip
    | Ok rows =>
        for_each rows (fun row =>
          let! now := trigger UtcNow in
          let msg := ("Job timed out after " ++ dec (Z.quot (now - to_started row) second_us) ++
                      " seconds (started at " ++ show_time (to_started row) ++
                      "). The agent may have rebooted or become unreachable.")%string in
          let! w := sql (UpdTimedOut (to_id row) msg) in
          match w with
          | Ok n => if 0 <? n then sync_job_status (to_job row) else skip
          | Err _ => skip
          end)
    end.

(** One tick of run_periodic_scanner. *)
Definition periodic_scan (cfg : worker_config) : prog eff unit :=
  scan_queued_jobs ;; poll_running_jobs ;; retry_pending_jobs ;; fail_timed_out_jobs cfg.
End FailTimedOut.
