(* ===== verification/WsRelay.v ===== *)
(** * The WebSocket relay (pm-worker/src/ws_relay.rs)

    Per running host job: the agent's event stream, or the HTTP polling
    fallback, each event applied to the host entry and rolled up into the
    parent job.  The streams are unbounded in the code; a relay is modelled on
    the finite sequence of frames (or poll answers) it has received so far. *)

From S2P Require Import Prelude Conc Schema Windows Statements SelfUpgrade JobExecutor.

(** The fields of [AgentWsEvent] that are used. *)
Record ws_event : Type := WsEvent {
  ev_status : string; ev_output : option string; ev_error : option string
}.

(** [Message] of the stream, or a stream error.  A binary frame that is not
    UTF-8 becomes the empty text. *)
Inductive frame : Type :=
| FText (t : string) | FBinary (t : option string) | FClose | FOther | FError.

(** Agent status to [job_status], as in process_event. *)
Definition event_db_status (st : string) : option job_status :=
  if String.eqb st "running" then Some Running
  else if String.eqb st "succeeded" || String.eqb st "completed" then Some Succeeded
  else if String.eqb st "failed" then Some Failed
  else if String.eqb st "cancelled" then Some Cancelled
  else None.

(** ** update_parent_job_status *)

(** Status of a parent all of whose host entries are terminal. *)
Definition rollup_status (failed : Z) : job_status := if 0 <? failed then Failed else Succeeded.

Definition update_parent_job_status (job : uuid) : prog eff unit :=
  let! p := sql (SelActiveCount job) in
  match p with
  | Err _ => skip
  | Ok pending =>
      if 0 <? pending then skip
      else
        let! r := sql (SelRollup job) in
        match r with
        | Err _ => skip
        | Ok (total, succeeded, failed) =>
            let st := rollup_status failed in
            let! w := sql (UpdParentFinal job st) in
            match w with
            | Err _ => skip
            | Ok _ => let! _ := sql (PgNotify (NotifyJob job st succeeded failed total)) in skip
            end
        end
  end.

(** ** process_event *)

Definition process_event (row : relay_row) (ev : ws_event) : prog eff unit :=
  match event_db_status (ev_status ev) with
  | None => skip
  | Some st =>
      let out := default ""%string (ev_output ev) in
      let! w := if terminal st
                then sql (UpdRelayTerminal (rl_job row) (rl_host row) st out (ev_error ev))
                else sql (UpdRelayProgress (rl_job row) (rl_host row) st out) in
      match w with
      | Err _ => skip
      | Ok n =>
          if n =? 0 then skip
          else
            (if terminal st then update_parent_job_status (rl_job row) else skip) ;;
            (let! _ := sql (PgNotify (NotifyHost (rl_job row) (rl_host row) st)) in skip)
      end
  end.

(** ** relay_one_job: the frames of the stream, up to the first terminal event *)
Section Relay.
(** [serde_json::from_str::<AgentWsEvent>], and the mapping of the agent's
    poll statuses onto event statuses. *)
Context (parse_event : string -> option ws_event).

Definition ends_relay (st : string) : bool :=
  String.eqb st "succeeded" || String.eqb st "failed" || String.eqb st "cancelled".

(** Text of a frame: [None] stops the relay, [Some ""] is skipped. *)
Definition frame_text (f : frame) : option string :=
  match f with
  | FText t => Some t
  | FBinary t => Some (default ""%string t)
  | FClose | FError => None
  | FOther => Some ""%string
  end.

Fixpoint relay_one_job (row : relay_row) (frames : list frame) : prog eff unit :=
  match frames with
  | [] => skip
  | f :: fs =>
      match frame_text f with
      | None => skip
      | Some t =>
          if bool_decide (t = ""%string) then relay_one_job row fs
          else match parse_event t with
               | None => relay_one_job row fs
               | Some ev =>
                   process_event row ev ;;
                   if ends_relay (ev_status ev) then skip else relay_one_job row fs
               end
      end
  end.
End Relay.

(** ** relay_one_job_poll: the HTTP fallback *)

Definition map_poll_status (st : string) : string :=
  if String.eqb st "queued" then "running"
  else if String.eqb st "running" then "running"
  else if String.eqb st "succeeded" then "succeeded"
  else if String.eqb st "completed" then "succeeded"
  else if String.eqb st "failed" then "failed"
  else if String.eqb st "cancelled" then "cancelled"
  else "running".

(** [polls] is the number of iterations that have been run so far; the code
    stops only at a terminal status. *)
Fixpoint relay_one_job_poll (polls : nat) (cfg : worker_config) (row : relay_row) (a : agent)
    (last : option string) : prog eff unit :=
  match polls with
  | O => skip
  | S k =>
      trigger (Sleep (cfg_relay_poll_interval_secs cfg)) ;;
      let! r := trigger (JobStatusOf a (rl_agent_job row)) in
      match r with
      | Err _ => relay_one_job_poll k cfg row a last
      | Ok s =>
          let st := map_poll_status (aj_status s) in
          if bool_decide (last = Some st) then relay_one_job_poll k cfg row a last
          else
            process_event row (WsEvent st (aj_output s) (aj_error s)) ;;
            if ends_relay st then skip else relay_one_job_poll k cfg row a (Some st)
      end
  end.

(** One tick of run_ws_relay: a relay for each running pair without one.  The
    set [active] of tracked pairs is the task's own. *)
Fixpoint relay_starts (active : gset (uuid * uuid)) (rows : list relay_row)
    : prog eff (gset (uuid * uuid)) :=
  match rows with
  | [] => Ret active
  | row :: rest =>
      let key := (rl_job row, rl_host row) in
      if bool_decide (key ∈ active) then relay_starts active rest
      else
        let! tls := trigger LoadCerts in
        match tls with
        | Err _ => relay_starts active rest
        | Ok _ =>
            let! pems := trigger LoadCerts in
            match pems with
            | Err _ => relay_starts active rest
            | Ok _ => spawn (TRelay row) ;; relay_starts ({[key]} ∪ active) rest
            end
        end
  end.

Definition ws_relay_tick (active : gset (uuid * uuid)) : prog eff (gset (uuid * uuid)) :=
  let! r := sql SelRelayRows in
  match r with
  | Err _ => Ret active
  | Ok rows => relay_starts active rows
  end.
