(* ===== verification/Scheduler.v ===== *)
(** * The maintenance scheduler (pm-worker/src/maintenance_scheduler.rs)

    Every minute: create a job for each open auto-apply window whose host has
    pending patches and no job of the current cycle, then dispatch the queued
    non-immediate jobs of the hosts with an open window. *)

From S2P Require Import Prelude Conc Schema Windows Statements SelfUpgrade JobExecutor.

Definition auto_create_one (win : auto_window) : prog eff unit :=
  let! p := sql (SelPendingPatches (aw_host win)) in
  match p with
  | Err _ | Ok None => skip
  | Ok (Some _) =>
      let! e := sql (SelExistingJob (aw_host win) (aw_id win)) in
      match e with
      | Err _ => skip
      | Ok true => skip
      | Ok false =>
          let! _ := sql (InsAutoJob (aw_id win) (aw_host win) (aw_auto_reboot win)
                           (aw_delay_minutes win * 60)) in skip
      end
  end.

Definition auto_create_patch_jobs : prog eff unit :=
  let! r := sql SelAutoWindows in
  match r with
  | Err _ => skip
  | Ok wins => for_each wins auto_create_one
  end.

Definition dispatch_open_window_jobs : prog eff unit :=
  let! r := sql SelOpenHosts in
  match r with
  | Err _ => skip
  | Ok hosts =>
      for_each hosts (fun host =>
        let! js := sql (SelHostQueuedJobs host) in
        match js with
        | Err _ => skip
        | Ok jobs => for_each jobs (fun job => spawn (TProcessJob job))
        end)
  end.

Definition scheduler_tick : prog eff unit :=
  auto_create_patch_jobs ;; dispatch_open_window_jobs.
