(* ===== verification/JobsApi.v ===== *)
(** * The job routes (pm-web/src/routes/jobs.rs)

    Creating, cancelling and rolling back jobs.  A handler answers the id it
    created, or the HTTP status and error code of the refusal; the audit entry
    is the effect [LogEvent]. *)

From S2P Require Import Prelude Rbac Conc Schema Windows Statements SelfUpgrade JobExecutor.

Definition err_forbidden := ApiErr 403 "forbidden".
Definition err_bad_request := ApiErr 400 "bad_request".
Definition err_not_found := ApiErr 404 "not_found".
Definition err_invalid_state := ApiErr 409 "invalid_state".
Definition err_no_hosts := ApiErr 422 "no_hosts".
Definition err_internal := ApiErr 500 "internal_error".

Record create_job_request : Type := CreateJob {
  cr_hosts : list uuid;
  cr_packages : list string;
  cr_immediate : bool;
  cr_window : option uuid;
  cr_allow_reboot : bool;
  cr_delay : Z;
  cr_notes : option string;
  cr_kind : option job_kind
}.

(** One insert per host; the first database error aborts the handler. *)
Fixpoint insert_host_rows (job : uuid) (hosts : list uuid) : prog eff (result unit api_err) :=
  match hosts with
  | [] => Ret (Ok tt)
  | h :: hs =>
      let! r := sql (InsPjh job h) in
      match r with
      | Err _ => Ret (Err err_internal)
      | Ok _ => insert_host_rows job hs
      end
  end.

Definition create_job (auth : auth_user) (req : create_job_request) : prog eff (result uuid api_err) :=
  if negb (can_write (au_role auth)) then Ret (Err err_forbidden)
  else if bool_decide (cr_hosts req = []) then Ret (Err err_bad_request)
  else
    let! j := sql (InsJob (default PatchApply (cr_kind req)) (Some (au_id auth)) None (cr_window req)
                     (cr_immediate req) (JArr (JStr <$> cr_packages req))
                     (default ""%string (cr_notes req)) (cr_allow_reboot req) (cr_delay req)) in
    match j with
    | Err _ => Ret (Err err_internal)
    | Ok job =>
        let! rows := insert_host_rows job (cr_hosts req) in
        match rows with
        | Err e => Ret (Err e)
        | Ok _ => trigger (LogEvent "patch_job_created" job) ;; Ret (Ok job)
        end
    end.

Definition cancel_job (auth : auth_user) (id : uuid) : prog eff (result unit api_err) :=
  let! row := sql (SelJobOwner id) in
  match row with
  | Err _ => Ret (Err err_internal)
  | Ok None => Ret (Err err_not_found)
  | Ok (Some (status, creator)) =>
      if negb (can_write (au_role auth)) && negb (bool_decide (creator = Some (au_id auth)))
      then Ret (Err err_forbidden)
      else if negb (bool_decide (status = Queued)) && negb (bool_decide (status = Pending))
      then Ret (Err err_invalid_state)
      else
        let! u := sql (UpdCancelJob id) in
        match u with
        | Err _ => Ret (Err err_internal)
        | Ok _ =>
            let! v := sql (UpdCancelHosts id) in
            match v with
            | Err _ => Ret (Err err_internal)
            | Ok _ =>
                let! _ := sql (PgNotify (NotifyJob id Cancelled 0 0 0)) in
                trigger (LogEvent "patch_job_cancelled" id) ;; Ret (Ok tt)
            end
        end
  end.

Definition rollback_job (auth : auth_user) (id : uuid) : prog eff (result uuid api_err) :=
  if negb (can_write (au_role auth)) then Ret (Err err_forbidden)
  else
    let! ex := sql (SelJobExists id) in
    match ex with
    | Err _ => Ret (Err err_internal)
    | Ok false => Ret (Err err_not_found)
    | Ok true =>
        let! hs := sql (SelJobHosts id) in
        match hs with
        | Err _ => Ret (Err err_internal)
        | Ok [] => Ret (Err err_no_hosts)
        | Ok hosts =>
            let! j := sql (InsJob Rollback (Some (au_id auth)) (Some id) None true (JArr [])
                             ("Rollback of job " ++ uuid_str id) true 0) in
            match j with
            | Err _ => Ret (Err err_internal)
            | Ok job =>
                let! rows := insert_host_rows job hosts in
                match rows with
                | Err e => Ret (Err e)
                | Ok _ => trigger (LogEvent "patch_job_rollback" job) ;; Ret (Ok job)
                end
            end
        end
    end.
