(* ===== verification/Buffers.v ===== *)
(** * Byte buffers and text

    What the package parsers use of [Vec<u8>], [str] and [usize]: buffers are
    lists of bytes, slicing outside of a buffer and arithmetic beyond 64 bits are
    a panic ([None]), text is decoded from UTF-8 the way [from_utf8_lossy] does,
    and read by [lines] and [trim]. *)

From S2P Require Import Prelude.

Abbreviation vec_u8 := (list ascii).

(** [s.as_bytes()], and the text of bytes known to be UTF-8. *)
Definition as_bytes (s : string) : vec_u8 := list_ascii_of_string s.
Definition of_bytes (v : vec_u8) : string := string_of_list_ascii v.

Definition vlen (v : vec_u8) : Z := Z.of_nat (length v).

(** No slice is longer than [isize::MAX]. *)
Definition isize_max : Z := 2 ^ 63 - 1.
Definition addressable (v : vec_u8) : Prop := vlen v <= isize_max.

(** [a + b] on [usize]. *)
Definition uadd (a b : Z) : option Z := if a + b <=? u64_max then Some (a + b) else None.

(** [&v[a..b]] *)
Definition slice (a b : Z) (v : vec_u8) : option vec_u8 :=
  if (0 <=? a) && (a <=? b) && (b <=? vlen v)
  then Some (take (Z.to_nat (b - a)) (drop (Z.to_nat a) v)) else None.

(** [u32::from_be_bytes(v[a..a + 4].try_into()?)]: the slice has the right length. *)
Fixpoint be_value (acc : Z) (v : vec_u8) : Z :=
  match v with [] => acc | c :: v' => be_value (acc * 256 + code c) v' end.
Definition u32_at (a : Z) (v : vec_u8) : option Z :=
  b ← uadd a 4; s ← slice a b v; Some (be_value 0 s).

(** [n.to_be_bytes()] *)
Definition byte_of (n : Z) : ascii := ascii_of_N (Z.to_N (n mod 256)).
Definition be_bytes (n : Z) : vec_u8 :=
  [byte_of (n / 2 ^ 24); byte_of (n / 2 ^ 16); byte_of (n / 2 ^ 8); byte_of n].

#[global] Arguments be_bytes : simpl never.

(** ** UTF-8 *)

Definition in_range (lo hi n : Z) : bool := (lo <=? n) && (n <=? hi).
Definition is_cont (n : Z) : bool := in_range 128 191 n.

(** The first character of a non-empty buffer: how many bytes it takes and
    whether they are one; if not, the longest prefix that could start one. *)
Definition utf8_step (v : vec_u8) : nat * bool :=
  let at_ i := from_option code 0 (v !! i) in
  let b := at_ 0%nat in
  if b <? 128 then (1%nat, true)
  else if in_range 194 223 b then if is_cont (at_ 1%nat) then (2%nat, true) else (1%nat, false)
  else if in_range 224 239 b then
    if in_range (if b =? 224 then 160 else 128) (if b =? 237 then 159 else 191) (at_ 1%nat)
    then if is_cont (at_ 2%nat) then (3%nat, true) else (2%nat, false)
    else (1%nat, false)
  else if in_range 240 244 b then
    if in_range (if b =? 240 then 144 else 128) (if b =? 244 then 143 else 191) (at_ 1%nat)
    then if is_cont (at_ 2%nat) then if is_cont (at_ 3%nat) then (4%nat, true) else (3%nat, false)
         else (2%nat, false)
    else (1%nat, false)
  else (1%nat, false).

(** U+FFFD *)
Definition replacement : vec_u8 := as_bytes (bytes [239; 191; 189]%N).

(** One unit of fuel per byte: every step takes at least one. *)
Fixpoint lossy (fuel : nat) (v : vec_u8) : vec_u8 :=
  match fuel, v with
  | O, _ | _, [] => []
  | S f, _ =>
      let '(n, valid) := utf8_step v in
      (if valid then take n v else replacement) ++ lossy f (drop n v)
  end.
Definition from_utf8_lossy (v : vec_u8) : string := of_bytes (lossy (length v) v).

(** [std::str::from_utf8(v).is_ok()] *)
Fixpoint utf8_valid (fuel : nat) (v : vec_u8) : bool :=
  match fuel, v with
  | O, _ | _, [] => true
  | S f, _ => let '(n, valid) := utf8_step v in valid && utf8_valid f (drop n v)
  end.
Definition is_utf8 (v : vec_u8) : bool := utf8_valid (length v) v.

(** ** Text *)

Definition nl : string := bytes [10]%N.
Definition cr : string := bytes [13]%N.
Definition tab : string := bytes [9]%N.
(** The double quote. *)
Definition dq : string := bytes [34]%N.
Definition is_nl (c : ascii) : bool := code c =? 10.

(** [s.strip_suffix(p)] *)
Definition strip_suffix (p s : string) : option string := str_rev <$> strip_prefix (str_rev p) (str_rev s).

(** [s.split_inclusive('\n')] *)
Fixpoint split_inclusive (s : string) : list string :=
  match s with
  | EmptyString => []
  | String c s' =>
      if is_nl c then String c "" :: split_inclusive s'
      else match split_inclusive s' with
           | [] => [String c ""]
           | l :: ls => String c l :: ls
           end
  end.

(** [s.lines()]: a terminator is a new line with or without a carriage return. *)
Definition strip_line (l : string) : string :=
  match strip_suffix nl l with
  | Some l' => default l' (strip_suffix cr l')
  | None => l
  end.
Definition lines (s : string) : list string := strip_line <$> split_inclusive s.

(** [s.trim_start_matches(p)] for a string *)
Definition trim_start_matches_str (p s : string) : string := trim_start_of [p] s.

(** [Path::new(p).file_name()]: the last component, unless it is [..]. *)
Definition file_name (p : string) : option string :=
  match last (List.filter (fun seg => negb (String.eqb seg "" || String.eqb seg ".")) (split_by (Ascii.eqb "/") p)) with
  | Some seg => if String.eqb seg ".." then None else Some seg
  | None => None
  end.

(** Printable and not white space. *)
Definition is_graphic (c : ascii) : bool := in_range 33 126 (code c).

(** ** Buffers: lemmas *)

Lemma vlen_app a b : vlen (a ++ b) = vlen a + vlen b.
Proof. unfold vlen. rewrite length_app. lia. Qed.

Lemma vlen_nonneg v : 0 <= vlen v.
Proof. unfold vlen. lia. Qed.

Lemma uadd_some a b : a + b <= u64_max -> uadd a b = Some (a + b).
Proof. intros. unfold uadd. by destruct (Z.leb_spec (a + b) u64_max); [|lia]. Qed.

Lemma slice_some a b v : 0 <= a <= b -> b <= vlen v ->
  slice a b v = Some (take (Z.to_nat (b - a)) (drop (Z.to_nat a) v)).
Proof.
  intros. unfold slice.
  by destruct (Z.leb_spec 0 a), (Z.leb_spec a b), (Z.leb_spec b (vlen v)); try lia.
Qed.

Lemma slice_length a b v s : slice a b v = Some s -> vlen s = b - a.
Proof.
  unfold slice. destruct (Z.leb_spec 0 a), (Z.leb_spec a b), (Z.leb_spec b (vlen v)); simpl; try done.
  intros [= <-]. unfold vlen in *. rewrite length_take, length_drop. lia.
Qed.

(** The middle of a concatenation. *)
Lemma slice_middle a v c x y : vlen a = x -> vlen v = y - x -> slice x y (a ++ v ++ c) = Some v.
Proof.
  intros Ha Hv. rewrite slice_some.
  - rewrite drop_app_length' by (unfold vlen in *; lia). f_equal.
    rewrite take_app_length' by (unfold vlen in *; lia). done.
  - pose proof (vlen_nonneg a). pose proof (vlen_nonneg v). lia.
  - rewrite !vlen_app. pose proof (vlen_nonneg c). lia.
Qed.

Lemma u32_at_total a v : 0 <= a -> a + 4 <= vlen v -> addressable v -> exists n, u32_at a v = Some n.
Proof.
  unfold addressable, isize_max, u32_at. intros. rewrite uadd_some by (unfold u64_max; lia). simpl.
  rewrite slice_some by lia. simpl. eauto.
Qed.

Lemma code_bounds c : 0 <= code c < 256.
Proof. unfold code. pose proof (N_ascii_bounded c). lia. Qed.

Lemma code_byte_of n : code (byte_of n) = n mod 256.
Proof. unfold byte_of. rewrite code_ascii; [done|]. apply Z.mod_pos_bound. lia. Qed.

Lemma be_value_bytes n : 0 <= n <= u32_max -> be_value 0 (be_bytes n) = n.
Proof.
  unfold u32_max. intros Hn. unfold be_bytes. cbn [be_value]. rewrite !code_byte_of.
  change (2 ^ 24) with (256 * 65536). change (2 ^ 16) with (256 * 256). change (2 ^ 8) with 256.
  pose proof (Z.div_mod n 256 ltac:(lia)). pose proof (Z.div_mod (n / 256) 256 ltac:(lia)).
  pose proof (Z.div_mod (n / 256 / 256) 256 ltac:(lia)).
  replace (n / (256 * 65536)) with (n / 256 / 256 / 256) by (rewrite !Z.div_div by lia; done).
  replace (n / (256 * 256)) with (n / 256 / 256) by (rewrite !Z.div_div by lia; done).
  rewrite (Z.mod_small (n / 256 / 256 / 256)); [lia|].
  rewrite !Z.div_div by lia. split; [apply Z.div_pos; lia|]. apply Z.div_lt_upper_bound; lia.
Qed.

Lemma be_value_bounds acc v : 0 <= acc -> 0 <= be_value acc v < (acc + 1) * 256 ^ vlen v.
Proof.
  revert acc. induction v as [|c v IH]; intros acc Hacc; cbn [be_value].
  - change (vlen []) with 0. lia.
  - pose proof (code_bounds c). specialize (IH (acc * 256 + code c) ltac:(lia)).
    replace (vlen (c :: v)) with (1 + vlen v) by (unfold vlen; simpl; lia).
    rewrite Z.pow_add_r by (try apply vlen_nonneg; lia). change (256 ^ 1) with 256.
    pose proof (Z.pow_pos_nonneg 256 (vlen v) ltac:(lia) (vlen_nonneg v)). nia.
Qed.

Lemma u32_at_bounds a v n : u32_at a v = Some n -> 0 <= n <= u32_max.
Proof.
  unfold u32_at, uadd. destruct (a + 4 <=? u64_max); [|done]. simpl.
  destruct (slice a (a + 4) v) as [s|] eqn:Hs; [|done]. simpl. intros [= <-].
  apply slice_length in Hs. pose proof (be_value_bounds 0 s ltac:(lia)) as Hb. rewrite Hs in Hb.
  replace (a + 4 - a) with 4 in Hb by lia. unfold u32_max. lia.
Qed.

Lemma u32_at_middle a n c x : vlen a = x -> x + 4 <= u64_max -> 0 <= n <= u32_max ->
  u32_at x (a ++ be_bytes n ++ c) = Some n.
Proof.
  intros Ha Hx Hn. unfold u32_at. rewrite uadd_some by done. cbn [mbind option_bind].
  rewrite (slice_middle a (be_bytes n)) by (done || (change (vlen (be_bytes n)) with 4; lia)).
  cbn [mbind option_bind]. by rewrite be_value_bytes.
Qed.

(** ** Text: lemmas *)

Lemma of_as_bytes s : of_bytes (as_bytes s) = s.
Proof. apply string_of_list_ascii_of_string. Qed.

Lemma as_of_bytes v : as_bytes (of_bytes v) = v.
Proof. apply list_ascii_of_string_of_list_ascii. Qed.

Lemma as_bytes_app a b : as_bytes (a ++ b) = as_bytes a ++ as_bytes b.
Proof.
  induction a as [|c a IH]; [done|]. change ((String c a ++ b)%string) with (String c (a ++ b)%string).
  unfold as_bytes in *. simpl. by rewrite IH.
Qed.

Lemma of_bytes_app a b : of_bytes (a ++ b) = (of_bytes a ++ of_bytes b)%string.
Proof. induction a as [|c a IH]; [done|]. unfold of_bytes in *. simpl. by rewrite IH. Qed.

Lemma vlen_as_bytes s : vlen (as_bytes s) = Z.of_nat (String.length s).
Proof. unfold vlen, as_bytes. f_equal. induction s as [|c s IH]; simpl; congruence. Qed.

Lemma utf8_step_spec c v : (1 <= (utf8_step (c :: v)).1)%nat /\
  ((utf8_step (c :: v)).2 = true -> ((utf8_step (c :: v)).1 <= length (c :: v))%nat).
Proof.
  unfold utf8_step. cbv zeta. split.
  - repeat (case_match; simpl; try lia).
  - assert (forall i, is_cont (from_option code 0 (v !! i)) = true -> (i < length v)%nat) as Hc.
    { intros i Hi. apply lookup_lt_is_Some. destruct (v !! i); [eauto|done]. }
    cbn [lookup list_lookup from_option].
    repeat match goal with
    | |- context [if ?b then _ else _] => destruct b eqn:?; cbn [fst snd]; try done
    end; intros _; simpl; try lia;
    repeat match goal with H : is_cont _ = true |- _ => apply (Hc _) in H end; lia.
Qed.

Lemma lossy_valid f v : (length v <= f)%nat -> utf8_valid f v = true -> lossy f v = v.
Proof.
  revert v. induction f as [|f IH]; intros [|c v]; simpl; try done; [lia|].
  intros Hf. pose proof (utf8_step_spec c v) as [Hpos Hlen].
  destruct (utf8_step (c :: v)) as [n [|]]; simpl in *; [|done]. intros Hv.
  rewrite IH; [apply take_drop| |done]. rewrite length_drop. simpl. lia.
Qed.

Lemma from_utf8_lossy_valid v : is_utf8 v = true -> from_utf8_lossy v = of_bytes v.
Proof. intros Hv. unfold from_utf8_lossy. by rewrite lossy_valid. Qed.

Definition is_ascii (c : ascii) : bool := code c <? 128.

Lemma utf8_valid_ascii f v : forallb is_ascii v = true -> utf8_valid f v = true.
Proof.
  revert v. induction f as [|f IH]; intros [|c v]; [done..|]. cbn [forallb]. rewrite andb_true_iff.
  intros [Hc Hv]. unfold utf8_valid; fold utf8_valid. unfold utf8_step. simpl.
  unfold is_ascii in Hc. rewrite Hc. simpl. by apply IH.
Qed.

Lemma is_utf8_ascii s : str_forallb is_ascii s = true -> is_utf8 (as_bytes s) = true.
Proof.
  intros Hs. apply utf8_valid_ascii. induction s as [|c s IH]; [done|]. simpl in *.
  apply andb_true_iff in Hs as [-> Hs]. by apply IH.
Qed.

(** ** Trimming *)

Lemma strip_all_stop f ps s : Forall (fun p => strip_prefix p s = None) ps -> strip_all f ps s = s.
Proof.
  intros Hps. destruct f as [|f]; [done|]. cbn [strip_all].
  enough (omap (fun p => strip_prefix p s) ps = []) as -> by done.
  induction Hps as [|p ps Hp _ IH]; simpl; [done|]. by rewrite Hp.
Qed.

(** A character that starts none of the patterns. *)
Definition starts_none (ps : list string) (c : ascii) : bool :=
  forallb (fun p => match p with String d _ => negb (Ascii.eqb d c) | EmptyString => false end) ps.

Lemma trim_start_stop ps c s : starts_none ps c = true -> trim_start_of ps (String c s) = String c s.
Proof.
  intros Hc. apply strip_all_stop, Forall_forall. intros p Hp. unfold starts_none in Hc.
  rewrite forallb_forall in Hc. specialize (Hc p ltac:(by apply list_elem_of_In)).
  destruct p as [|d p]; [done|]. simpl. by destruct (Ascii.eqb d c).
Qed.

Lemma graphic_starts_none c : is_graphic c = true ->
  starts_none white_space c = true /\ starts_none (str_rev <$> white_space) c = true.
Proof.
  destruct c as [b0 b1 b2 b3 b4 b5 b6 b7].
  destruct b0, b1, b2, b3, b4, b5, b6, b7; vm_compute; try done.
Qed.

Lemma trim_start_nil ps : trim_start_of ps "" = ""%string.
Proof. done. Qed.

(** Text that starts and ends with printable characters. *)
Definition starts_graphic (s : string) : bool :=
  match s with String c _ => is_graphic c | EmptyString => true end.
Definition graphic_ends (s : string) : bool := starts_graphic s && starts_graphic (str_rev s).

Lemma trim_end_graphic c s : is_graphic c = true -> trim_end_of white_space (s ++ String c "") = (s ++ String c "")%string.
Proof.
  intros Hc. unfold trim_end_of. rewrite str_rev_concat. change (str_rev (String c "")) with (String c "").
  change (String c "" ++ str_rev s)%string with (String c (str_rev s)).
  rewrite trim_start_stop by (by apply graphic_starts_none).
  by rewrite str_rev_cons, str_rev_involutive.
Qed.

Lemma str_last_cases s : s = ""%string \/ exists s' c, s = (s' ++ String c "")%string.
Proof.
  rewrite <- (str_rev_involutive s). destruct (str_rev s) as [|c r]; [by left|].
  right. exists (str_rev r), c. apply str_rev_cons.
Qed.

Lemma trim_graphic s : graphic_ends s = true -> trim s = s.
Proof.
  destruct (str_last_cases s) as [->|(s' & c & ->)]; [done|].
  unfold graphic_ends. rewrite str_rev_concat. cbn [str_rev str_rev_app String.append starts_graphic].
  rewrite andb_true_iff. unfold trim. destruct s' as [|d s']; cbn [String.append starts_graphic]; intros [Hd Hc].
  - rewrite trim_start_stop by (by apply graphic_starts_none). by apply (trim_end_graphic c "").
  - rewrite trim_start_stop by (by apply graphic_starts_none). by apply (trim_end_graphic c (String d s')).
Qed.

Lemma str_forallb_rev p s : str_forallb p (str_rev s) = str_forallb p s.
Proof.
  induction s as [|c s IH]; [done|]. rewrite str_rev_cons, str_forallb_app, IH. cbn [str_forallb].
  by rewrite andb_true_r, andb_comm.
Qed.

Lemma graphic_all_ends s : str_forallb is_graphic s = true -> graphic_ends s = true.
Proof.
  assert (forall s, str_forallb is_graphic s = true -> starts_graphic s = true) as Hs.
  { intros [|c t]; [done|]. cbn [str_forallb]. by rewrite andb_true_iff; intros [? _]. }
  intros Hg. unfold graphic_ends. rewrite !Hs; [done| |done]. by rewrite str_forallb_rev.
Qed.

Lemma trim_space_cons s : trim (String " " s) = trim s.
Proof. done. Qed.

Definition spaces (k : nat) : string := of_bytes (repeat " "%char k).

Lemma str_rev_spaces k : str_rev (spaces k) = spaces k.
Proof.
  induction k as [|k IH]; [done|]. change (spaces (S k)) with (String " " (spaces k)) at 1.
  rewrite str_rev_cons, IH. clear IH. induction k as [|k IH]; [done|].
  change (spaces (S k)) with (String " " (spaces k)).
  change (String " " (spaces k) ++ String " " "")%string with (String " " (spaces k ++ String " " ""))%string.
  by rewrite IH.
Qed.

Lemma trim_end_spaces s k : trim_end_of white_space (s ++ spaces k) = trim_end_of white_space s.
Proof.
  unfold trim_end_of. f_equal. rewrite str_rev_concat, str_rev_spaces.
  induction k as [|k IH]; [done|]. change (spaces (S k) ++ str_rev s)%string with (String " " (spaces k ++ str_rev s))%string.
  rewrite <- IH. done.
Qed.

Lemma trim_spaces k : trim (spaces k) = ""%string.
Proof.
  unfold trim. enough (trim_start_of white_space (spaces k) = ""%string) as -> by done.
  induction k as [|k IH]; [done|]. change (spaces (S k)) with (String " " (spaces k)).
  rewrite <- IH. done.
Qed.

Lemma trim_pad s k : graphic_ends s = true -> trim (s ++ spaces k) = s.
Proof.
  intros Hs. destruct s as [|c s]; [apply trim_spaces|]. rewrite <- (trim_graphic _ Hs) at 2.
  assert (is_graphic c = true) as Hc by (by apply andb_true_iff in Hs as [? _]).
  unfold trim. change (String c s ++ spaces k)%string with (String c (s ++ spaces k)).
  rewrite !trim_start_stop by (by apply graphic_starts_none).
  change (String c (s ++ spaces k))%string with (String c s ++ spaces k)%string. apply trim_end_spaces.
Qed.

(** ** Lines *)

Definition no_nl (s : string) : bool := str_forallb (fun c => negb (is_nl c)) s.
(** A line that [lines] gives back as it is. *)
Definition plain_line (s : string) : bool :=
  no_nl s && match strip_suffix cr s with None => true | Some _ => false end.

Lemma split_inclusive_line l s : no_nl l = true ->
  split_inclusive (l ++ nl ++ s) = (l ++ nl)%string :: split_inclusive s.
Proof.
  induction l as [|c l IH]; [done|]. cbn [no_nl str_forallb]. rewrite andb_true_iff, negb_true_iff.
  intros [Hc Hl]. change (String c l ++ nl ++ s)%string with (String c (l ++ nl ++ s)). cbn [split_inclusive].
  by rewrite Hc, IH.
Qed.

Lemma strip_suffix_app p s : strip_suffix p (s ++ p) = Some s.
Proof.
  unfold strip_suffix. rewrite str_rev_concat.
  rewrite (proj2 (strip_prefix_app (str_rev p) _ (str_rev s))); [|done]. simpl. by rewrite str_rev_involutive.
Qed.

Lemma lines_cons l s : plain_line l = true -> lines (l ++ nl ++ s) = l :: lines s.
Proof.
  unfold plain_line. rewrite andb_true_iff. intros [Hn Hc]. unfold lines.
  rewrite split_inclusive_line by done. simpl. f_equal. unfold strip_line. rewrite strip_suffix_app.
  by destruct (strip_suffix cr l).
Qed.

(** Text is its segments between new lines, joined. *)
Fixpoint join (sep : string) (segs : list string) : string :=
  match segs with
  | [] => ""%string
  | [s] => s
  | s :: segs' => (s ++ sep ++ join sep segs')%string
  end.

Lemma join_split s : join nl (split_by is_nl s) = s.
Proof.
  induction s as [|c s IH]; [done|]. cbn [split_by]. pose proof (split_by_nonempty is_nl s).
  destruct (is_nl c) eqn:Hc.
  - assert (c = "010"%char) as ->. { apply code_inj. change (code "010") with 10. unfold is_nl in Hc. lia. }
    destruct (split_by is_nl s); [done|]. cbn [join] in *. by rewrite IH.
  - trans (String c (join nl (split_by is_nl s))); [by destruct (split_by is_nl s) as [|x [|y l]]|by rewrite IH].
Qed.
