(* ===== verification/ApkSign.v ===== *)
(** * Alpine packages: gzip streams and signatures (pm-core/src/repo_metadata.rs)

    An .apk file is a concatenation of gzip streams: a signature, the control
    section, the data.  This file models how the program finds the streams, takes
    the checksum of the control section and replaces the signature by its own.

    The gzip decoder, tar, RSA, SHA-1 and base64 are parameters: [gz_consumed s]
    is the number of bytes the decoder has consumed of [s] when it stops, at the
    end of the first stream or at an error. *)

From S2P Require Import Prelude Buffers.

(** An entry of a tar archive to be written. *)
Inductive tar_format : Type := Gnu | Ustar.
Inductive tar_kind : Type := Regular | Directory | XHeader.
Record tar_entry : Type := TarEntry {
  te_format : tar_format; te_path : string; te_mode : Z; te_kind : tar_kind; te_mtime : Z; te_data : vec_u8
}.

(** What reading an archive yields, in order: an error, or a path with its content. *)
Definition tar_read : Type := list (result (string * result vec_u8 string) string).

(** [read_to_string] of an entry: its content must be UTF-8. *)
Definition read_to_string (content : result vec_u8 string) : result string string :=
  let? c := content in
  if is_utf8 c then Ok (of_bytes c) else Err "stream did not contain valid UTF-8"%string.

Definition index_at (i : Z) (v : vec_u8) : option Z :=
  if (0 <=? i) && (i <? vlen v) then code <$> v !! Z.to_nat i else None.

Section Streams.
Context (gz_consumed : vec_u8 -> Z).

(** The offsets at which streams start, from [pos] on.  [None] is a panic, or
    fuel that has run out. *)
Fixpoint gz_scan (fuel : nat) (data : vec_u8) (pos : Z) (offsets : list Z) : option (list Z) :=
  match fuel with
  | O => None
  | S f =>
      e ← uadd pos 10;
      if e <=? vlen data then
        b0 ← index_at pos data; p1 ← uadd pos 1; b1 ← index_at p1 data;
        if (b0 =? 31) && (b1 =? 139) then
          p2 ← uadd pos 2; b2 ← index_at p2 data;
          if negb (b2 =? 8) then gz_scan f data p1 offsets
          else
            p3 ← uadd pos 3; flg ← index_at p3 data;
            if negb (Z.land flg 224 =? 0) then gz_scan f data p1 offsets
            else
              let offsets := offsets ++ [pos] in
              s ← slice pos (vlen data) data;
              let consumed := gz_consumed s in
              if consumed =? 0 then gz_scan f data p1 offsets
              else pos' ← uadd pos consumed; gz_scan f data pos' offsets
        else gz_scan f data p1 offsets
      else Some offsets
  end.

Definition find_gzip_stream_boundaries (data : vec_u8) : option (result (list Z) string) :=
  offsets ← gz_scan (S (length data)) data 0 [];
  Some (match offsets with [] => Err "No gzip streams found in data"%string | _ => Ok offsets end).

(** [&data[offsets[1]..offsets.get(2).copied().unwrap_or(data.len())]] *)
Definition control_stream (data : vec_u8) (offsets : list Z) : option vec_u8 :=
  start ← offsets !! 1%nat;
  slice start (default (vlen data) (offsets !! 2%nat)) data.

(** *** The checksum of the control section *)
Context (sha1_base64 : vec_u8 -> string).

Definition compute_apk_control_checksum (file : result vec_u8 string) : option (result string string) :=
  match file with
  | Err e => Some (Err e)
  | Ok data =>
      r ← find_gzip_stream_boundaries data;
      match r with
      | Err e => Some (Err e)
      | Ok offsets =>
          if (length offsets <? 2)%nat then Some (Err "Invalid .apk: expected at least 2 gzip streams"%string)
          else control_gz ← control_stream data offsets; Some (Ok ("Q1" ++ sha1_base64 control_gz)%string)
      end
  end.

(** *** Signing *)
Context (untar_gz : vec_u8 -> tar_read)
        (sign_data : vec_u8 -> string -> result vec_u8 string)
        (tar_build : list tar_entry -> result vec_u8 string)
        (gzip_compress : vec_u8 -> vec_u8).

(** The first entry named .PKGINFO decides. *)
Fixpoint apk_has_data_hash_in (entries : tar_read) : result bool string :=
  match entries with
  | [] => Ok false
  | Err e :: _ => Err e
  | Ok (path, content) :: entries' =>
      if String.eqb path ".PKGINFO" then
        let? content := read_to_string content in
        Ok (existsb (fun line => let line := trim line in starts_with "datahash" line && contains_char "=" line)
                    (lines content))
      else apk_has_data_hash_in entries'
  end.
Definition apk_has_data_hash (control_gz : vec_u8) : result bool string :=
  apk_has_data_hash_in (untar_gz control_gz).

Definition is_zero (c : ascii) : bool := code c =? 0.

(** The end of the archive without its trailing zero blocks. *)
Fixpoint strip_zero_blocks (fuel : nat) (tar_data : vec_u8) (end_ : Z) : option Z :=
  match fuel with
  | O => None
  | S f =>
      if 512 <=? end_ then
        block ← slice (end_ - 512) end_ tar_data;
        if forallb is_zero block then strip_zero_blocks f tar_data (end_ - 512) else Some end_
      else Some end_
  end.
Definition strip_tar_eof (tar_data : vec_u8) : option vec_u8 :=
  if vlen tar_data <? 512 * 2 then Some tar_data
  else end_ ← strip_zero_blocks (S (length tar_data)) tar_data (vlen tar_data); slice 0 end_ tar_data.

(** The archive with the signature: a PAX header and the signature itself. *)
Definition sign_entry_name : string := ".SIGN.RSA256.lpa-repo.rsa.pub".
Definition signature_tar (signature : vec_u8) : list tar_entry :=
  [TarEntry Ustar "./PaxHeaders/.SIGN.RSA256.lpa-repo.rsa.pub" 420 XHeader 0 (as_bytes ("12 comment=" ++ nl));
   TarEntry Ustar sign_entry_name 420 Regular 0 signature].

(** The signature stream for the bytes to be signed. *)
Definition signature_stream (signed_data : vec_u8) (rsa_private_key_path : string) : option (result vec_u8 string) :=
  match (let? signature := sign_data signed_data rsa_private_key_path in tar_build (signature_tar signature)) with
  | Err e => Some (Err e)
  | Ok sig_tar_data => sig_tar_cut ← strip_tar_eof sig_tar_data; Some (Ok (gzip_compress sig_tar_cut))
  end.

(** The new content of a package: its first stream is replaced. *)
Definition resign (data : vec_u8) (rsa_private_key_path : string) : option (result vec_u8 string) :=
  r ← find_gzip_stream_boundaries data;
  match r with
  | Err e => Some (Err e)
  | Ok stream_offsets =>
      if (length stream_offsets <? 2)%nat then
        Some (Err ("Invalid .apk format: expected at least 2 gzip streams, found "
                   ++ dec (Z.of_nat (length stream_offsets)))%string)
      else
        control_gz ← control_stream data stream_offsets;
        start ← stream_offsets !! 1%nat;
        rest ← slice start (vlen data) data;
        match apk_has_data_hash control_gz with
        | Err e => Some (Err e)
        | Ok has_data_hash =>
            sig ← signature_stream (if has_data_hash then control_gz else rest) rsa_private_key_path;
            Some (let? sig_gz := sig in Ok (sig_gz ++ rest))
        end
  end.
End Streams.

(** ** What a gzip stream is to the program *)

(** Ten bytes: magic number, deflate, no reserved flag. *)
Definition gz_header (v : vec_u8) : bool :=
  match v with
  | b0 :: b1 :: b2 :: flg :: _ =>
      (code b0 =? 31) && (code b1 =? 139) && (code b2 =? 8) && (Z.land (code flg) 224 =? 0) && (10 <=? vlen v)
  | _ => false
  end.

(** The offsets at which the streams of a concatenation start. *)
Fixpoint starts (pos : Z) (streams : list vec_u8) : list Z :=
  match streams with [] => [] | s :: ss => pos :: starts (pos + vlen s) ss end.

(** ** Lemmas *)

Lemma index_at_total i v : 0 <= i < vlen v -> exists b, index_at i v = Some b.
Proof.
  intros Hi. unfold index_at. destruct (Z.leb_spec 0 i), (Z.ltb_spec i (vlen v)); try lia. simpl.
  assert (is_Some (v !! Z.to_nat i)) as [c ->]; [|simpl; eauto].
  apply lookup_lt_is_Some. unfold vlen in *. lia.
Qed.

Lemma index_at_app a v i b : index_at i v = Some b -> index_at (vlen a + i) (a ++ v) = Some b.
Proof.
  unfold index_at. rewrite vlen_app. pose proof (vlen_nonneg a).
  destruct (Z.leb_spec 0 i), (Z.ltb_spec i (vlen v)); simpl; try done.
  destruct (Z.leb_spec 0 (vlen a + i)), (Z.ltb_spec (vlen a + i) (vlen a + vlen v)); simpl; try lia.
  rewrite lookup_app_r by (unfold vlen in *; lia).
  by replace (Z.to_nat (vlen a + i) - length a)%nat with (Z.to_nat i) by (unfold vlen in *; lia).
Qed.

Lemma slice_tail a v : slice (vlen a) (vlen (a ++ v)) (a ++ v) = Some v.
Proof. rewrite <- (app_nil_r v) at 2. apply slice_middle; [done|]. rewrite vlen_app. lia. Qed.

Section StreamLemmas.
Context (gz_consumed : vec_u8 -> Z).

Lemma gz_header_length v : gz_header v = true -> 10 <= vlen v.
Proof.
  unfold gz_header. destruct v as [|b0 [|b1 [|b2 [|flg v]]]]; try done.
  rewrite !andb_true_iff, Z.leb_le. by intros [_ H10].
Qed.

Lemma gz_header_app v rest : gz_header v = true -> gz_header (v ++ rest) = true.
Proof.
  intros Hv. pose proof (gz_header_length v Hv) as H10. destruct v as [|b0 [|b1 [|b2 [|flg v]]]]; try done.
  unfold gz_header in *. cbn [app] in *. rewrite !andb_true_iff, Z.leb_le in *. destruct Hv as [Hv _].
  split; [done|]. unfold vlen in *. simpl in *. rewrite length_app. lia.
Qed.

(** A header is seen as one, wherever it is. *)
Lemma gz_header_index a v : gz_header v = true ->
  index_at (vlen a) (a ++ v) = Some 31 /\ index_at (vlen a + 1) (a ++ v) = Some 139 /\
  index_at (vlen a + 2) (a ++ v) = Some 8 /\
  (exists flg, index_at (vlen a + 3) (a ++ v) = Some flg /\ Z.land flg 224 = 0) /\ 10 <= vlen v.
Proof.
  unfold gz_header. destruct v as [|b0 [|b1 [|b2 [|flg v]]]]; try done.
  rewrite !andb_true_iff, !Z.eqb_eq, Z.leb_le. intros [[[[H0 H1] H2] H3] H10].
  set (w := b0 :: b1 :: b2 :: flg :: v) in *.
  assert (forall i c, w !! Z.to_nat i = Some c -> 0 <= i < 10 -> index_at (vlen a + i) (a ++ w) = Some (code c)) as Hi.
  { intros i c Hc Hr. apply index_at_app. unfold index_at.
    destruct (Z.leb_spec 0 i), (Z.ltb_spec i (vlen w)); try lia. simpl. by rewrite Hc. }
  rewrite <- H0, <- H1, <- H2. split_and!; [|by apply Hi|by apply Hi| |done].
  - replace (vlen a) with (vlen a + 0) by lia. by apply Hi.
  - exists (code flg). split; [by apply Hi|done].
Qed.

(** One step over a stream. *)
Lemma gz_scan_stream f a s rest offsets :
  gz_header s = true -> gz_consumed (s ++ rest) = vlen s -> addressable (a ++ s ++ rest) ->
  gz_scan gz_consumed (S f) (a ++ s ++ rest) (vlen a) offsets =
  gz_scan gz_consumed f (a ++ s ++ rest) (vlen a + vlen s) (offsets ++ [vlen a]).
Proof.
  intros Hs Hc Hadr. unfold addressable, isize_max in Hadr. rewrite !vlen_app in Hadr.
  pose proof (gz_header_length s Hs). pose proof (vlen_nonneg a). pose proof (vlen_nonneg rest).
  destruct (gz_header_index a (s ++ rest) (gz_header_app s rest Hs)) as (I0 & I1 & I2 & (flg & I3 & Hf) & H10).
  cbn [gz_scan]. rewrite !uadd_some by (unfold u64_max; lia). cbn [mbind option_bind].
  destruct (Z.leb_spec (vlen a + 10) (vlen (a ++ s ++ rest))) as [_|Hl]; [|rewrite vlen_app in Hl; lia].
  rewrite I0, I1. cbn [mbind option_bind]. rewrite I2. cbn [mbind option_bind]. rewrite I3. cbn [mbind option_bind].
  simpl (_ && _). cbv iota. rewrite Hf. simpl (negb _). cbv iota.
  rewrite slice_tail. cbn [mbind option_bind]. rewrite Hc.
  destruct (Z.eqb_spec (vlen s) 0); [lia|]. rewrite uadd_some by (unfold u64_max; lia). done.
Qed.

Context (gz_bounded : forall s, 0 <= gz_consumed s <= vlen s).

(** A stream of the program's own making: found by its header, and read by the
    decoder to its end and no further. *)
Definition gz_stream (s : vec_u8) : Prop := gz_header s = true /\ forall rest, gz_consumed (s ++ rest) = vlen s.

Lemma gz_scan_streams f a streams offsets :
  Forall gz_stream streams -> addressable (a ++ concat streams) -> (length streams < f)%nat ->
  gz_scan gz_consumed f (a ++ concat streams) (vlen a) offsets = Some (offsets ++ starts (vlen a) streams).
Proof.
  intros Hs. revert f a offsets. induction Hs as [|s ss [Hh Hc] Hss IH]; intros f a offsets Hadr Hf.
  - destruct f as [|f]; simpl in *; [lia|]. rewrite !app_nil_r in *. unfold addressable, isize_max in Hadr.
    rewrite (uadd_some (vlen a) 10) by (unfold u64_max; lia). simpl. by destruct (Z.leb_spec (vlen a + 10) (vlen a)); [lia|].
  - destruct f as [|f]; simpl in Hf; [lia|]. cbn [concat starts].
    rewrite gz_scan_stream by (done || apply Hc). replace (vlen a + vlen s) with (vlen (a ++ s)) by apply vlen_app.
    rewrite (assoc_L (++) a s). cbn [concat] in Hadr. rewrite (assoc_L (++)) in Hadr.
    rewrite IH by (done || lia). by rewrite <- (assoc_L (++)).
Qed.

Lemma concat_length (streams : list vec_u8) :
  Forall gz_stream streams -> (length streams <= length (concat streams))%nat.
Proof.
  induction 1 as [|s ss [Hh _] _ IH]; simpl; [done|]. rewrite length_app.
  destruct s; [done|]. simpl. lia.
Qed.

Lemma find_streams streams :
  Forall gz_stream streams -> addressable (concat streams) -> streams <> [] ->
  find_gzip_stream_boundaries gz_consumed (concat streams) = Some (Ok (starts 0 streams)).
Proof.
  intros Hs Hadr Hne. unfold find_gzip_stream_boundaries.
  pose proof (concat_length _ Hs).
  change (gz_scan gz_consumed (S (length (concat streams))) (concat streams) 0 [])
    with (gz_scan gz_consumed (S (length (concat streams))) ([] ++ concat streams) (vlen []) []).
  rewrite gz_scan_streams by (done || lia).
  cbn [mbind option_bind app]. by destruct streams.
Qed.

(** *** Any file: no panic, and the fuel is enough *)

Definition gz_offset_ok (data : vec_u8) (o : Z) : Prop :=
  0 <= o /\ o + 10 <= vlen data /\
  index_at o data = Some 31 /\ index_at (o + 1) data = Some 139 /\ index_at (o + 2) data = Some 8.

Lemma gz_scan_total f data pos offsets :
  addressable data -> 0 <= pos -> vlen data - pos < Z.of_nat f -> 0 < Z.of_nat f -> pos <= vlen data ->
  Forall (gz_offset_ok data) offsets -> StronglySorted Z.lt (offsets ++ [pos]) ->
  exists os, gz_scan gz_consumed f data pos offsets = Some os /\
    Forall (gz_offset_ok data) os /\ StronglySorted Z.lt os.
Proof using gz_bounded.
  unfold addressable, isize_max. revert pos offsets.
  induction f as [|f IH]; intros pos offsets Hadr Hpos Hf Hf0 Hle Hoffs Hsort; [lia|].
  assert (forall p, pos < p -> StronglySorted Z.lt (offsets ++ [p])) as Hmono.
  { intros p Hp. clear -Hp Hsort. induction offsets as [|o os IHo]; simpl in *; [repeat constructor|].
    apply StronglySorted_inv in Hsort as [Hs Ho]. constructor; [by apply IHo|].
    rewrite Forall_app, Forall_singleton in *. destruct Ho. split; [done|lia]. }
  cbn [gz_scan]. rewrite (uadd_some pos 10) by (unfold u64_max; lia). cbn [mbind option_bind].
  destruct (Z.leb_spec (pos + 10) (vlen data)) as [H10|H10].
  2:{ exists offsets. split_and!; [done..|]. by apply StronglySorted_app_1_l in Hsort. }
  destruct (index_at_total pos data ltac:(lia)) as [b0 Hb0]. destruct (index_at_total (pos + 1) data ltac:(lia)) as [b1 Hb1].
  destruct (index_at_total (pos + 2) data ltac:(lia)) as [b2 Hb2]. destruct (index_at_total (pos + 3) data ltac:(lia)) as [b3 Hb3].
  rewrite !uadd_some by (unfold u64_max; lia). cbn [mbind option_bind].
  rewrite Hb0. cbn [mbind option_bind]. rewrite Hb1. cbn [mbind option_bind].
  assert (exists os, gz_scan gz_consumed f data (pos + 1) offsets = Some os /\
    Forall (gz_offset_ok data) os /\ StronglySorted Z.lt os) as Hnext by (apply IH; try done; try lia; apply Hmono; lia).
  destruct (Z.eqb_spec b0 31) as [->|], (Z.eqb_spec b1 139) as [->|]; simpl (_ && _); cbv iota; try done.
  rewrite Hb2. cbn [mbind option_bind].
  destruct (Z.eqb_spec b2 8) as [->|]; simpl (negb _); cbv iota; [|done]. rewrite Hb3. cbn [mbind option_bind].
  destruct (Z.land b3 224 =? 0); simpl (negb _); cbv iota; [|done].
  rewrite slice_some by lia. cbn [mbind option_bind].
  set (s := take _ _). pose proof (gz_bounded s) as Hcons.
  assert (vlen s <= vlen data - pos) as Hls.
  { unfold s, vlen in *. rewrite length_take, length_drop. lia. }
  assert (forall p, pos < p -> StronglySorted Z.lt ((offsets ++ [pos]) ++ [p])) as Hmono'.
  { intros p Hp. clear -Hp Hsort. induction offsets as [|o os IHo]; simpl in *; [by repeat constructor|].
    apply StronglySorted_inv in Hsort as [Hs Ho]. constructor; [by apply IHo|].
    rewrite !Forall_app, !Forall_singleton in *. destruct Ho. split_and!; [done..|lia]. }
  assert (Forall (gz_offset_ok data) (offsets ++ [pos])) as Hoffs'.
  { apply Forall_app. split; [done|]. by repeat constructor. }
  destruct (Z.eqb_spec (gz_consumed s) 0).
  - apply IH; try done; try lia. apply Hmono'. lia.
  - rewrite uadd_some by (unfold u64_max; lia). cbn [mbind option_bind]. apply IH; try done; try lia. apply Hmono'. lia.
Qed.
End StreamLemmas.

(** *** The end marker of a tar archive *)

Definition zero_block : vec_u8 := repeat "000"%char 512.

Lemma is_zero_eq c : is_zero c = true -> c = "000"%char.
Proof. unfold is_zero. intros Hc. apply code_inj. change (code "000") with 0. lia. Qed.

Lemma zero_block_eq v : vlen v = 512 -> forallb is_zero v = true -> v = zero_block.
Proof.
  intros Hl Hz. unfold zero_block. replace 512%nat with (length v) by (unfold vlen in Hl; lia). clear Hl.
  induction v as [|c v IH]; [done|]. simpl in *. apply andb_true_iff in Hz as [Hc Hv].
  rewrite (is_zero_eq c Hc), <- IH by done. done.
Qed.

(** [n] zero blocks. *)
Fixpoint zero_blocks (n : nat) : vec_u8 := match n with O => [] | S n' => zero_blocks n' ++ zero_block end.

(** The text does not end with a zero block. *)
Definition not_zero_ended (v : vec_u8) : Prop := forall u, v <> u ++ zero_block.

Lemma strip_zero_blocks_spec f v z : (length v < f)%nat ->
  exists v' n, strip_zero_blocks f (v ++ z) (vlen v) = Some (vlen v') /\ v = v' ++ zero_blocks n /\ not_zero_ended v'.
Proof.
  revert v z. induction f as [|f IH]; intros v z Hf; [lia|]. cbn [strip_zero_blocks].
  destruct (Z.leb_spec 512 (vlen v)) as [H512|H512].
  2:{ exists v, 0%nat. split_and!; [done|by rewrite app_nil_r|]. intros u ->. rewrite vlen_app in H512.
      change (vlen zero_block) with 512 in H512. pose proof (vlen_nonneg u). lia. }
  set (k := Z.to_nat (vlen v - 512)).
  assert (slice (vlen v - 512) (vlen v) (v ++ z) = Some (drop k v)) as ->.
  { rewrite <- (take_drop k v) at 3. rewrite <- (assoc_L (++)). apply slice_middle.
    - unfold vlen, k in *. rewrite length_take. unfold vlen. lia.
    - unfold vlen, k in *. rewrite length_drop. unfold vlen. lia. }
  cbn [mbind option_bind].
  assert (vlen (drop k v) = 512) as Hd by (unfold vlen, k in *; rewrite length_drop; unfold vlen; lia).
  destruct (forallb is_zero (drop k v)) eqn:Hz.
  - apply zero_block_eq in Hz; [|done].
    destruct (IH (take k v) (drop k v ++ z)) as (v' & n & Hs & Ht & Hne).
    { rewrite length_take. unfold k, vlen in *. lia. }
    exists v', (S n). split_and!; [|by rewrite <- (take_drop k v), Ht, Hz, <- (assoc_L (++))|done].
    rewrite <- Hs, (assoc_L (++)), take_drop. f_equal. unfold vlen, k in *. rewrite length_take. unfold vlen. lia.
  - exists v, 0%nat. split_and!; [done|by rewrite app_nil_r|]. intros u ->.
    rewrite drop_app_length' in Hz; [vm_compute in Hz; done|].
    unfold k. rewrite vlen_app. change (vlen zero_block) with 512. unfold vlen. lia.
Qed.

Lemma strip_tar_eof_total v : exists v', strip_tar_eof v = Some v'.
Proof.
  unfold strip_tar_eof. destruct (vlen v <? 512 * 2); [eauto|].
  destruct (strip_zero_blocks_spec (S (length v)) v [] ltac:(lia)) as (v' & n & Hs & Hv & _).
  rewrite app_nil_r in Hs. rewrite Hs. cbn [mbind option_bind]. rewrite Hv.
  exists v'. rewrite <- (app_nil_l v') at 2. apply (slice_middle [] v'); [done|lia].
Qed.

(** ** Theorems *)

Section Theorems.
Context (gz_consumed : vec_u8 -> Z).

Lemma find_boundaries_total data :
  (forall s, 0 <= gz_consumed s <= vlen s) -> addressable data ->
  exists r, find_gzip_stream_boundaries gz_consumed data = Some r /\
    match r with
    | Ok offsets => offsets <> [] /\ StronglySorted Z.lt offsets /\ Forall (gz_offset_ok data) offsets
    | Err e => e = "No gzip streams found in data"%string
    end.
Proof.
  intros Hc Hd. unfold find_gzip_stream_boundaries.
  destruct (gz_scan_total gz_consumed Hc (S (length data)) data 0 []) as (os & -> & Hok & Hs);
    try (done || unfold vlen; lia).
  { by repeat constructor. }
  cbn [mbind option_bind]. destruct os; [by eexists|]. eexists. split; [done|]. by simpl.
Qed.

(** C24. On any file that fits in memory the scan for gzip streams ends without a
    panic and without arithmetic beyond 64 bits, whatever the decoder makes of the
    content; the offsets it returns are not empty, strictly increasing, inside of
    the file, and at each of them stands the header of a deflated gzip stream. *)
Theorem gzip_boundaries_safe data :
  (forall s, 0 <= gz_consumed s <= vlen s) -> addressable data ->
  exists r, find_gzip_stream_boundaries gz_consumed data = Some r /\
    match r with
    | Ok offsets => offsets <> [] /\ StronglySorted Z.lt offsets /\ Forall (gz_offset_ok data) offsets
    | Err e => e = "No gzip streams found in data"%string
    end.
Proof. apply find_boundaries_total. Qed.

Context (sha1_base64 : vec_u8 -> string) (untar_gz : vec_u8 -> tar_read)
        (sign_data : vec_u8 -> string -> result vec_u8 string)
        (tar_build : list tar_entry -> result vec_u8 string) (gzip_compress : vec_u8 -> vec_u8).

Lemma control_stream_eq sig control rest :
  control_stream (concat (sig :: control :: rest)) (starts 0 (sig :: control :: rest)) = Some control.
Proof using Type.
  unfold control_stream. cbn [starts]. destruct rest as [|d rest]; cbn [starts lookup list_lookup mbind option_bind from_option].
  - cbn [concat]. rewrite app_nil_r, vlen_app. simpl. rewrite <- (app_nil_r control) at 2.
    apply slice_middle; lia.
  - unfold id. cbn [concat]. apply slice_middle; lia.
Qed.

(** Of a package made of a signature, a control section and further streams, the
    checksum is that of the control section as it stands in the file. *)
Lemma control_checksum_streams sig control rest :
  Forall (gz_stream gz_consumed) (sig :: control :: rest) -> addressable (concat (sig :: control :: rest)) ->
  compute_apk_control_checksum gz_consumed sha1_base64 (Ok (concat (sig :: control :: rest))) =
  Some (Ok ("Q1" ++ sha1_base64 control)%string).
Proof using Type.
  intros Hs Hd. unfold compute_apk_control_checksum. rewrite find_streams by done. cbn [mbind option_bind].
  rewrite control_stream_eq. done.
Qed.

Lemma resign_streams sig control rest key :
  Forall (gz_stream gz_consumed) (sig :: control :: rest) -> addressable (concat (sig :: control :: rest)) ->
  resign gz_consumed untar_gz sign_data tar_build gzip_compress (concat (sig :: control :: rest)) key =
  match apk_has_data_hash untar_gz control with
  | Err e => Some (Err e)
  | Ok has_data_hash =>
      sig' ← signature_stream sign_data tar_build gzip_compress
               (if has_data_hash then control else control ++ concat rest) key;
      Some (let? sig_gz := sig' in Ok (sig_gz ++ control ++ concat rest))
  end.
Proof using Type.
  intros Hs Hd. unfold resign. rewrite find_streams by done. cbn [mbind option_bind].
  rewrite control_stream_eq. cbn [starts length Nat.ltb Nat.leb lookup list_lookup mbind option_bind].
  assert (slice (0 + vlen sig) (vlen (concat (sig :: control :: rest))) (concat (sig :: control :: rest)) =
          Some (control ++ concat rest)) as -> by apply slice_tail.
  done.
Qed.

(** A package is re-signed by replacing its first stream: the new one holds the
    signature of the control section when .PKGINFO has a data hash, and of all that
    follows the old signature otherwise; every other stream is kept byte for byte,
    and signing a second time changes nothing. *)
Theorem resign_replaces_signature sig control rest key new :
  Forall (gz_stream gz_consumed) (sig :: control :: rest) -> addressable (concat (sig :: control :: rest)) ->
  (forall v, gz_stream gz_consumed (gzip_compress v)) -> addressable new ->
  resign gz_consumed untar_gz sign_data tar_build gzip_compress (concat (sig :: control :: rest)) key = Some (Ok new) ->
  exists h signature tar cut,
    apk_has_data_hash untar_gz control = Ok h /\
    sign_data (if h then control else control ++ concat rest) key = Ok signature /\
    tar_build (signature_tar signature) = Ok tar /\ strip_tar_eof tar = Some cut /\
    new = gzip_compress cut ++ control ++ concat rest /\
    resign gz_consumed untar_gz sign_data tar_build gzip_compress new key = Some (Ok new).
Proof using Type.
  intros Hs Hd Hgz Hnew. rewrite resign_streams by done.
  destruct (apk_has_data_hash untar_gz control) as [h|e] eqn:Hh; [|done]. unfold signature_stream.
  destruct (sign_data (if h then control else control ++ concat rest) key) as [signature|e] eqn:Hsign; [|done].
  cbn [result_bind]. destruct (tar_build (signature_tar signature)) as [tar|e] eqn:Htar; [|done].
  destruct (strip_tar_eof tar) as [cut|] eqn:Hcut; [|done]. cbn [mbind option_bind result_bind]. intros [= <-].
  exists h, signature, tar, cut. split_and!; try done.
  change (gzip_compress cut ++ control ++ concat rest) with (concat (gzip_compress cut :: control :: rest)) in *.
  rewrite resign_streams; [|constructor; [apply Hgz|by inversion Hs]|done].
  rewrite Hh. unfold signature_stream. rewrite Hsign. cbn [result_bind]. rewrite Htar, Hcut. done.
Qed.

(** [strip_tar_eof] removes the zero blocks at the end of an archive and nothing
    else; archives shorter than the end marker are kept. *)
Theorem strip_tar_eof_spec tar :
  exists kept n, strip_tar_eof tar = Some kept /\ tar = kept ++ zero_blocks n /\
    (1024 <= vlen tar -> not_zero_ended kept) /\ (vlen tar < 1024 -> n = 0%nat).
Proof using Type.
  unfold strip_tar_eof. destruct (Z.ltb_spec (vlen tar) (512 * 2)).
  { exists tar, 0%nat. split_and!; [done|by rewrite app_nil_r|lia|done]. }
  destruct (strip_zero_blocks_spec (S (length tar)) tar [] ltac:(lia)) as (v' & n & Hs & Hv & Hne).
  rewrite app_nil_r in Hs. rewrite Hs. exists v', n. cbn [mbind option_bind]. split_and!; [|done|done|lia].
  rewrite Hv. apply (slice_middle [] v'); [done|lia].
Qed.
End Theorems.

(** ** Witnesses: a decoder that takes ten bytes for a stream *)

Definition toy_header : vec_u8 := as_bytes (bytes [31; 139; 8; 0; 0; 0; 0; 0; 0; 3]%N).
Definition toy_consumed (s : vec_u8) : Z := Z.min 10 (vlen s).
Definition toy_gzip (v : vec_u8) : vec_u8 := toy_header.
Definition toy_untar (v : vec_u8) : tar_read := [Ok (".PKGINFO"%string, Ok (as_bytes ("datahash = 12" ++ nl)))].
Definition toy_sign (v : vec_u8) (key : string) : result vec_u8 string := Ok (as_bytes "signature").
Definition toy_tar (es : list tar_entry) : result vec_u8 string := Ok (concat (te_data <$> es) ++ zero_block ++ zero_block).

Lemma toy_stream : gz_stream toy_consumed toy_header.
Proof. split; [reflexivity|]. intros rest. unfold toy_consumed. rewrite vlen_app. change (vlen toy_header) with 10. pose proof (vlen_nonneg rest). lia. Qed.

Lemma toy_addressable : addressable (concat [toy_header; toy_header; toy_header]).
Proof. unfold addressable. vm_compute. done. Qed.

Lemma gzip_boundaries_safe_witness :
  exists r, find_gzip_stream_boundaries toy_consumed (concat [toy_header; toy_header; toy_header]) = Some r /\
    match r with
    | Ok offsets => offsets <> [] /\ StronglySorted Z.lt offsets /\
        Forall (gz_offset_ok (concat [toy_header; toy_header; toy_header])) offsets
    | Err e => e = "No gzip streams found in data"%string
    end.
Proof.
  apply (gzip_boundaries_safe toy_consumed).
  - intros s. unfold toy_consumed. pose proof (vlen_nonneg s). lia.
  - exact toy_addressable.
Defined.

Lemma resign_replaces_signature_witness :
  exists h signature tar cut,
    apk_has_data_hash toy_untar toy_header = Ok h /\
    toy_sign (if h then toy_header else toy_header ++ concat [toy_header]) "key" = Ok signature /\
    toy_tar (signature_tar signature) = Ok tar /\ strip_tar_eof tar = Some cut /\
    concat [toy_header; toy_header; toy_header] = toy_gzip cut ++ toy_header ++ concat [toy_header] /\
    resign toy_consumed toy_untar toy_sign toy_tar toy_gzip (concat [toy_header; toy_header; toy_header]) "key" =
    Some (Ok (concat [toy_header; toy_header; toy_header])).
Proof.
  apply (resign_replaces_signature toy_consumed toy_untar toy_sign toy_tar toy_gzip toy_header toy_header [toy_header]).
  - repeat constructor; apply toy_stream.
  - exact toy_addressable.
  - intros v. exact toy_stream.
  - exact toy_addressable.
  - vm_compute. reflexivity.
Defined.
