(* ===== verification/PkgFormats.v ===== *)
(** * Package formats (pm-core/src/repo_metadata.rs): the parsers

    .deb (an ar archive with a control file), .rpm (a lead and two headers), .apk
    and .pkg.tar.zst (a .PKGINFO).  The content of the file is an argument (the
    answer of [std::fs::read]); decompressors, tar and digests are parameters.
    The outer [option] is [None] for a panic: a slice out of bounds or arithmetic
    beyond 64 bits. *)

From S2P Require Import Prelude Ordering Buffers ApkSign.

(** ** XML *)

(** [s.replace(c, by)] for a character *)
Fixpoint replace (c : ascii) (by_ s : string) : string :=
  match s with
  | EmptyString => ""%string
  | String d s' => if Ascii.eqb d c then (by_ ++ replace c by_ s')%string else String d (replace c by_ s')
  end.

Definition xml_escape (s : string) : string :=
  replace "'" "&apos;" (replace "034" "&quot;" (replace ">" "&gt;" (replace "<" "&lt;" (replace "&" "&amp;" s)))).

(** ** ar archives *)

Record ar_entry : Type := ArEntry { ar_name : string; ar_data : vec_u8 }.

Definition ar_magic : vec_u8 := as_bytes ("!<arch>" ++ nl).

(** Every round takes at least the 60 bytes of a header. *)
Fixpoint parse_ar_from (fuel : nat) (data : vec_u8) (pos : Z) (entries : list ar_entry) : option (list ar_entry) :=
  match fuel with
  | O => None
  | S f =>
      header_end ← uadd pos 60;
      if header_end <=? vlen data then
        header ← slice pos header_end data;
        raw_name ← slice 0 16 header;
        size_raw ← slice 48 58 header;
        match parse_u64 (trim (from_utf8_lossy size_raw)) with
        | None => Some entries
        | Some size =>
            let pos := header_end in
            content_end ← uadd pos size;
            if vlen data <? content_end then Some entries
            else
              content ← slice pos content_end data;
              let entries := entries ++ [ArEntry (trim (from_utf8_lossy raw_name)) content] in
              let pos := content_end in
              pos ← (if size mod 2 =? 1 then uadd pos 1 else Some pos);
              parse_ar_from f data pos entries
        end
      else Some entries
  end.

Definition parse_ar (data : vec_u8) : option (list ar_entry) :=
  if (vlen data <? 8) || negb (bool_decide (take 8 data = ar_magic)) then Some []
  else parse_ar_from (S (length data)) data 8 [].

(** ** Control files *)

Record deb_control : Type := DebControl {
  dc_package : string; dc_version : string; dc_architecture : string; dc_description : string;
  dc_depends : string; dc_installed_size : string; dc_maintainer : string; dc_section : string;
  dc_priority : string; dc_fields : btree string string
}.

(** The loop over the lines: the fields so far, the current key and value. *)
Fixpoint control_lines (ls : list string) (fields : btree string string) (current_key current_val : string)
    : btree string string * string * string :=
  match ls with
  | [] => (fields, current_key, current_val)
  | line :: ls' =>
      if String.eqb line "" then control_lines ls' fields current_key current_val
      else if starts_with " " line || starts_with tab line then
        control_lines ls' fields current_key (current_val ++ nl ++ line)
      else match split_once ":" line with
           | Some (key, val) =>
               control_lines ls'
                 (if negb (String.eqb current_key "") then bt_insert current_key (trim current_val) fields else fields)
                 (trim key) (trim val)
           | None => control_lines ls' fields current_key current_val
           end
  end.

Definition parse_control_fields (content : string) : btree string string :=
  let '(fields, current_key, current_val) := control_lines (lines content) [] "" "" in
  if negb (String.eqb current_key "") then bt_insert current_key (trim current_val) fields else fields.

(** [fields.get(key).cloned().unwrap_or_default()] *)
Definition field (fields : btree string string) (key : string) : string := default ""%string (bt_get key fields).

(** [.and_then(|s| s.parse().ok()).unwrap_or(0)] *)
Definition number_field (fields : btree string string) (key : string) : Z :=
  default 0 (s ← bt_get key fields; parse_u64 s).

(** The content of the entry [wanted], or the empty string; an error before it
    is returned. *)
Fixpoint find_entry (wanted : string) (entries : tar_read) : result string string :=
  match entries with
  | [] => Ok ""%string
  | Err e :: _ => Err e
  | Ok (path, content) :: entries' =>
      if String.eqb (trim_start_matches_str "./" path) wanted then read_to_string content
      else find_entry wanted entries'
  end.

Definition read_entry (wanted missing : string) (entries : tar_read) : result string string :=
  let? content := find_entry wanted entries in
  if String.eqb content "" then Err missing else Ok content.

Section Deb.
Context (gunzip unxz unzstd : vec_u8 -> result vec_u8 string) (untar : vec_u8 -> tar_read).

Definition decompress_tar (data : vec_u8) (name : string) : result vec_u8 string :=
  if ends_with ".gz" name then gunzip data
  else if ends_with ".xz" name then unxz data
  else if ends_with ".zst" name then unzstd data
  else Ok data.

Definition control_of (fields : btree string string) : deb_control :=
  DebControl (field fields "Package") (field fields "Version") (field fields "Architecture")
    (field fields "Description") (field fields "Depends") (field fields "Installed-Size")
    (field fields "Maintainer") (field fields "Section") (field fields "Priority") fields.

Definition parse_deb_control (file : result vec_u8 string) : option (result deb_control string) :=
  match file with
  | Err e => Some (Err e)
  | Ok data =>
      ar_entries ← parse_ar data;
      Some (match List.find (fun e => starts_with "control.tar" (ar_name e)) ar_entries with
            | None => Err "No control.tar.* found in .deb"%string
            | Some control_entry =>
                let? tar_data := decompress_tar (ar_data control_entry) (ar_name control_entry) in
                let? control_content := read_entry "control" "No control file found in control.tar.*" (untar tar_data) in
                Ok (control_of (parse_control_fields control_content))
            end)
  end.
End Deb.

(** ** RPM headers *)

Record rpm_info : Type := RpmInfo {
  ri_name : string; ri_version : string; ri_release : string; ri_epoch : Z; ri_arch : string;
  ri_summary : string; ri_description : string; ri_url : string; ri_license : string;
  ri_build_time : Z; ri_size : Z; ri_archive_size : Z
}.

(** (tag, type, offset, count) *)
Definition rpm_index_entry : Type := Z * Z * Z * Z.

Definition umul (a b : Z) : option Z := if a * b <=? u64_max then Some (a * b) else None.

Definition rpm_header_magic : vec_u8 := as_bytes (bytes [142; 173; 232]%N).
Definition rpm_lead_magic : vec_u8 := as_bytes (bytes [237; 171; 238; 219]%N).

Definition read_index_entry (data : vec_u8) (index_start i : Z) : option rpm_index_entry :=
  i16 ← umul i 16; e ← uadd index_start i16;
  tag ← u32_at e data;
  e4 ← uadd e 4; type_ ← u32_at e4 data;
  e8 ← uadd e 8; off ← u32_at e8 data;
  e12 ← uadd e 12; count ← u32_at e12 data;
  Some (tag, type_, off, count).

Definition read_rpm_header (data : vec_u8) (offset : Z) : option (result (list rpm_index_entry * vec_u8) string) :=
  header_end ← uadd offset 16;
  if vlen data <? header_end then Some (Err "RPM header offset out of bounds"%string)
  else
    magic_end ← uadd offset 3; magic ← slice offset magic_end data;
    if negb (bool_decide (magic = rpm_header_magic)) then
      Some (Err ("Invalid RPM header magic at offset " ++ dec offset)%string)
    else
      o8 ← uadd offset 8; num_entries ← u32_at o8 data;
      o12 ← uadd offset 12; data_len ← u32_at o12 data;
      let index_start := header_end in
      index_len ← umul 16 num_entries; data_start ← uadd index_start index_len;
      data_end ← uadd data_start data_len;
      if vlen data <? data_end then Some (Err "RPM header data extends beyond file"%string)
      else
        entries ← mapM (read_index_entry data index_start) (seqZ 0 num_entries);
        header_data ← slice data_start data_end data;
        Some (Ok (entries, header_data)).

(** [iter().position(|&b| b == 0)] *)
Fixpoint zero_position (v : vec_u8) : option Z :=
  match v with
  | [] => None
  | c :: v' => if is_zero c then Some 0 else i ← zero_position v'; Some (i + 1)
  end.

Definition rpm_read_string (data : vec_u8) (offset : Z) : option string :=
  if vlen data <=? offset then Some ""%string
  else
    tail ← slice offset (vlen data) data;
    end_ ← uadd offset (default (vlen data - offset) (zero_position tail));
    s ← slice offset end_ data;
    Some (from_utf8_lossy s).

Definition rpm_read_int32 (data : vec_u8) (offset : Z) : option (option Z) :=
  end_ ← uadd offset 4;
  if vlen data <? end_ then Some None else n ← u32_at offset data; Some (Some n).

Definition rpm_get_string (entries : list rpm_index_entry) (data : vec_u8) (tag : Z) : option string :=
  match List.find (fun '(t, ty, _, _) => (t =? tag) && ((ty =? 6) || (ty =? 9))) entries with
  | Some (_, _, off, _) => rpm_read_string data off
  | None => Some ""%string
  end.

Definition rpm_get_int32 (entries : list rpm_index_entry) (data : vec_u8) (tag : Z) : option (option Z) :=
  match List.find (fun '(t, ty, _, _) => (t =? tag) && (ty =? 4)) entries with
  | Some (_, _, off, _) => rpm_read_int32 data off
  | None => Some None
  end.

Definition rpm_info_of (entries : list rpm_index_entry) (header_data : vec_u8) : option rpm_info :=
  let str := rpm_get_string entries header_data in
  let int tag := n ← rpm_get_int32 entries header_data tag; Some (default 0 n) in
  name ← str 1000; version ← str 1001; release ← str 1002; epoch ← int 1003; arch ← str 1022;
  summary ← str 1004; description ← str 1005; url ← str 1020; license ← str 1014;
  build_time ← int 1006; size ← int 1009; archive_size ← int 1046;
  Some (RpmInfo name version release epoch arch summary description url license build_time size archive_size).

(** Where the main header starts: after the lead and the signature header, padded
    to a multiple of eight. *)
Definition rpm_main_offset (data : vec_u8) : option (result Z string) :=
  let sig_offset := 96 in
  if vlen data <? sig_offset + 16 then Some (Err "RPM file too small for signature header"%string)
  else
    magic ← slice sig_offset (sig_offset + 3) data;
    if negb (bool_decide (magic = rpm_header_magic)) then Some (Err "Invalid RPM signature header magic"%string)
    else
      sig_num_entries ← u32_at (sig_offset + 8) data;
      sig_data_len ← u32_at (sig_offset + 12) data;
      index_len ← umul 16 sig_num_entries; a ← uadd 16 index_len; sig_header_size ← uadd a sig_data_len;
      total_after_sig ← uadd sig_offset sig_header_size;
      let padding := (8 - total_after_sig mod 8) mod 8 in
      main_offset ← uadd total_after_sig padding;
      Some (Ok main_offset).

Definition parse_rpm (file : result vec_u8 string) : option (result rpm_info string) :=
  match file with
  | Err e => Some (Err e)
  | Ok data =>
      if vlen data <? 96 then Some (Err "File too small to be an RPM"%string)
      else
        lead ← slice 0 4 data;
        if negb (bool_decide (lead = rpm_lead_magic)) then Some (Err "Invalid RPM lead magic"%string)
        else
          offset ← rpm_main_offset data;
          match offset with
          | Err e => Some (Err e)
          | Ok main_offset =>
              header ← read_rpm_header data main_offset;
              match header with
              | Err e => Some (Err e)
              | Ok (entries, header_data) => info ← rpm_info_of entries header_data; Some (Ok info)
              end
          end
  end.

(** ** .PKGINFO *)

Definition keyvalue_line (fields : btree string string) (line : string) : btree string string :=
  let line := trim line in
  if String.eqb line "" || starts_with "#" line then fields
  else match split_once "=" line with
       | Some (key, val) => if String.eqb (trim key) "" then fields else bt_insert (trim key) (trim val) fields
       | None => fields
       end.

Definition parse_keyvalue (content : string) : btree string string := foldl keyvalue_line [] (lines content).

Record apk_info : Type := ApkInfo {
  ap_pkgname : string; ap_pkgver : string; ap_arch : string; ap_size : Z; ap_installed_size : Z;
  ap_description : string; ap_url : string; ap_license : string; ap_depends : string; ap_provides : string;
  ap_control_checksum : string
}.
Record pacman_info : Type := PacmanInfo {
  pi_pkgname : string; pi_pkgver : string; pi_arch : string; pi_description : string; pi_url : string;
  pi_license : string; pi_size : Z; pi_csize : Z; pi_builddate : Z; pi_sha256 : string; pi_depends : string
}.

Section PkgInfo.
Context (gz_consumed : vec_u8 -> Z) (sha1_base64 : vec_u8 -> string)
        (untar_multi_gz untar_zst : vec_u8 -> tar_read) (sha256_hex : vec_u8 -> string).

(** A failed checksum is left empty. *)
Definition parse_apk (file : result vec_u8 string) : option (result apk_info string) :=
  match file with
  | Err e => Some (Err e)
  | Ok data =>
      match read_entry ".PKGINFO" "No .PKGINFO in .apk file" (untar_multi_gz data) with
      | Err e => Some (Err e)
      | Ok pkginfo_content =>
          let fields := parse_keyvalue pkginfo_content in
          checksum ← compute_apk_control_checksum gz_consumed sha1_base64 (Ok data);
          Some (Ok (ApkInfo (field fields "pkgname") (field fields "pkgver") (field fields "arch")
                      (vlen data) (number_field fields "size")
                      (field fields "pkgdesc") (field fields "url") (field fields "license")
                      (field fields "depend") (field fields "provides") (default ""%string (ok checksum))))
      end
  end.

Definition parse_pacman_pkg (file : result vec_u8 string) : result pacman_info string :=
  let? data := file in
  let? pkginfo_content := read_entry ".PKGINFO" "No .PKGINFO in .pkg.tar.zst" (untar_zst data) in
  let fields := parse_keyvalue pkginfo_content in
  Ok (PacmanInfo (field fields "pkgname") (field fields "pkgver") (field fields "arch")
        (field fields "pkgdesc") (field fields "url") (field fields "license")
        (number_field fields "size") (vlen data) (number_field fields "builddate") (sha256_hex data)
        (field fields "depend")).
End PkgInfo.

(** ** Well-formed files, as the tools that make them write them *)

(** A field of a header, filled up with spaces. *)
Definition pad (k : nat) (s : string) : string := (s ++ spaces (k - String.length s))%string.

(** One member of an ar archive; [meta] stands for date, owner and mode. *)
Definition ar_member (m : vec_u8 * ar_entry) : vec_u8 :=
  let size := vlen (ar_data m.2) in
  as_bytes (pad 16 (ar_name m.2)) ++ m.1 ++ as_bytes (pad 10 (dec size)) ++ as_bytes ("`" ++ nl) ++
  ar_data m.2 ++ (if size mod 2 =? 1 then as_bytes nl else []).
Definition ar_archive (ms : list (vec_u8 * ar_entry)) : vec_u8 := ar_magic ++ concat (ar_member <$> ms).

Definition ar_member_ok (m : vec_u8 * ar_entry) : Prop :=
  vlen m.1 = 32 /\ str_forallb is_graphic (ar_name m.2) = true /\ (String.length (ar_name m.2) <= 16)%nat /\
  vlen (ar_data m.2) < 10 ^ 10.

(** The fields of a control file, as [generate_apt_metadata] writes them. *)
Fixpoint print_fields (fields : btree string string) : string :=
  match fields with
  | [] => ""%string
  | (key, val) :: fields' => (key ++ ": " ++ val ++ nl ++ print_fields fields')%string
  end.

(** Keys are printable without a colon.  A value is trimmed, its first line too;
    the others start with a space or a tab. *)
Definition key_ok (key : string) : bool :=
  negb (String.eqb key "") && str_forallb (fun c => is_graphic c && negb (Ascii.eqb c ":")) key.
Definition value_ok (val : string) : bool :=
  String.eqb (trim val) val && forallb plain_line (split_by is_nl val) &&
  match split_by is_nl val with
  | first :: conts => String.eqb (trim first) first && forallb (fun l => starts_with " " l || starts_with tab l) conts
  | [] => false
  end.
Definition fields_ok (fields : btree string string) : Prop :=
  bt_wf fields /\ Forall (fun kv => key_ok kv.1 = true /\ value_ok kv.2 = true) fields.

(** An RPM header: magic, version and reserved bytes, index and store. *)
Definition rpm_entry_bytes (e : rpm_index_entry) : vec_u8 :=
  let '(tag, type_, off, count) := e in be_bytes tag ++ be_bytes type_ ++ be_bytes off ++ be_bytes count.
Definition rpm_header (reserved : vec_u8) (entries : list rpm_index_entry) (store : vec_u8) : vec_u8 :=
  rpm_header_magic ++ reserved ++ be_bytes (Z.of_nat (length entries)) ++ be_bytes (vlen store) ++
  concat (rpm_entry_bytes <$> entries) ++ store.
Definition rpm_header_ok (reserved : vec_u8) (entries : list rpm_index_entry) (store : vec_u8) : Prop :=
  vlen reserved = 5 /\ Z.of_nat (length entries) <= u32_max /\ vlen store <= u32_max /\
  Forall (fun '(tag, type_, off, count) => 0 <= tag <= u32_max /\ 0 <= type_ <= u32_max /\
                                           0 <= off <= u32_max /\ 0 <= count <= u32_max) entries.

(** ** Lemmas: numbers in a field of ten characters *)

Fixpoint count_digits (s : string) : nat :=
  match s with
  | EmptyString => 0
  | String c s' => (if is_ascii_digit c then 1 else 0) + count_digits s'
  end%nat.

Lemma count_digits_app a b : count_digits (a ++ b) = (count_digits a + count_digits b)%nat.
Proof.
  induction a as [|c a IH]; [done|]. change (String c a ++ b)%string with (String c (a ++ b)%string).
  cbn [count_digits]. rewrite IH. lia.
Qed.

Lemma count_digits_rev s : count_digits (str_rev s) = count_digits s.
Proof. induction s as [|c s IH]; [done|]. rewrite str_rev_cons, count_digits_app, IH. cbn [count_digits]. lia. Qed.

Lemma count_digits_length s : (count_digits s <= String.length s)%nat.
Proof. induction s as [|c s IH]; cbn; [done|]. destruct (is_ascii_digit c); lia. Qed.

Lemma count_digits_all s : str_forallb is_ascii_digit s = true -> count_digits s = String.length s.
Proof.
  induction s as [|c s IH]; [done|]. cbn [str_forallb count_digits String.length].
  rewrite andb_true_iff. intros [-> Hs]. rewrite IH by done. lia.
Qed.

Lemma count_digits_strip f ps s : (count_digits (strip_all f ps s) <= count_digits s)%nat.
Proof.
  revert s. induction f as [|f IH]; intros s; simpl; [done|].
  destruct (head (omap (fun p => strip_prefix p s) ps)) as [s'|] eqn:Hh; [|done].
  etrans; [apply IH|]. assert (s' ∈ omap (fun p => strip_prefix p s) ps) as Hin.
  { destruct (omap _ _); simpl in *; [done|]. injection Hh as ->. left. }
  apply list_elem_of_omap in Hin as (p & _ & Hp). apply strip_prefix_app in Hp as ->.
  rewrite count_digits_app. lia.
Qed.

Lemma count_digits_trim s : (count_digits (trim s) <= count_digits s)%nat.
Proof.
  unfold trim, trim_end_of, trim_start_of. rewrite count_digits_rev.
  etrans; [apply count_digits_strip|]. rewrite count_digits_rev. apply count_digits_strip.
Qed.

Lemma count_digits_lossy f v : (count_digits (of_bytes (lossy f v)) <= count_digits (of_bytes v))%nat.
Proof.
  revert v. induction f as [|f IH]; intros [|c v]; cbn [lossy]; try (simpl; lia).
  destruct (utf8_step (c :: v)) as [n valid]. rewrite of_bytes_app, count_digits_app.
  rewrite <- (take_drop n (c :: v)) at 3. rewrite of_bytes_app, count_digits_app.
  specialize (IH (drop n (c :: v))). destruct valid; [lia|]. change (count_digits (of_bytes replacement)) with 0%nat. lia.
Qed.

Lemma digits_value_bound s acc : 0 <= acc -> str_forallb is_ascii_digit s = true ->
  digits_value acc s < (acc + 1) * 10 ^ Z.of_nat (String.length s).
Proof.
  revert acc. induction s as [|c s IH]; intros acc Hacc; [simpl; lia|].
  cbn [str_forallb digits_value String.length]. rewrite andb_true_iff. intros [Hc Hs].
  unfold is_ascii_digit in Hc. rewrite andb_true_iff, !Z.leb_le in Hc.
  specialize (IH (acc * 10 + (code c - 48)) ltac:(lia) Hs).
  rewrite Nat2Z.inj_succ, Z.pow_succ_r by lia.
  pose proof (Z.pow_pos_nonneg 10 (Z.of_nat (String.length s)) ltac:(lia) ltac:(lia)). nia.
Qed.

Lemma parse_u64_digits s n : parse_u64 s = Some n -> n < 10 ^ Z.of_nat (count_digits s).
Proof.
  unfold parse_u64, parse_unsigned. intros Hn.

  destruct (strip_prefix "+" s) as [t|] eqn:Hp.
  - apply strip_prefix_app in Hp as ->. destruct t as [|c t]; [done|].
    destruct (str_forallb is_ascii_digit (String c t)) eqn:Hd; [|done].
    destruct (_ <=? _); [|done]. injection Hn as <-. rewrite count_digits_app.
    change (count_digits "+") with 0%nat. rewrite count_digits_all by done.
    pose proof (digits_value_bound (String c t) 0 ltac:(lia) Hd) as Hb. cbn [digits_value] in Hb. rewrite Nat.add_0_l. lia.
  - destruct s as [|c t]; [done|]. destruct (str_forallb is_ascii_digit (String c t)) eqn:Hd; [|done].
    destruct (_ <=? _); [|done]. injection Hn as <-. rewrite count_digits_all by done.
    pose proof (digits_value_bound (String c t) 0 ltac:(lia) Hd) as Hb. cbn [digits_value] in Hb. lia.
Qed.

(** The size of a member is a number of at most ten digits. *)
Lemma ar_size_bound v n : vlen v = 10 -> parse_u64 (trim (from_utf8_lossy v)) = Some n -> 0 <= n < 10 ^ 10.
Proof.
  intros Hv Hn. split; [by apply parse_unsigned_bounds in Hn as [? _]|].
  apply parse_u64_digits in Hn. eapply Z.lt_le_trans; [exact Hn|]. apply Z.pow_le_mono_r; [lia|].
  pose proof (count_digits_trim (from_utf8_lossy v)). pose proof (count_digits_lossy (length v) v).
  pose proof (count_digits_length (of_bytes v)). unfold from_utf8_lossy in *.
  pose proof (vlen_as_bytes (of_bytes v)) as Hl. rewrite as_of_bytes in Hl. lia.
Qed.

(** ** Lemmas: ar archives *)

Lemma parse_ar_from_total f data pos entries :
  addressable data -> 0 <= pos <= vlen data + 1 -> vlen data + 1 - pos < Z.of_nat f -> 0 < Z.of_nat f ->
  exists es, parse_ar_from f data pos entries = Some es.
Proof.
  unfold addressable, isize_max. revert pos entries. induction f as [|f IH]; intros pos entries Hadr Hpos Hf Hf0; [lia|].
  cbn [parse_ar_from]. rewrite uadd_some by (unfold u64_max; lia). cbn [mbind option_bind].
  destruct (Z.leb_spec (pos + 60) (vlen data)); [|eauto].
  destruct (slice pos (pos + 60) data) as [header|] eqn:Hh; [|rewrite slice_some in Hh by lia; done].
  apply slice_length in Hh. cbn [mbind option_bind]. rewrite !slice_some by lia. cbn [mbind option_bind].
  set (sz := take _ (drop (Z.to_nat 48) header)).
  destruct (parse_u64 (trim (from_utf8_lossy sz))) as [size|] eqn:Hsize; [|eauto].
  apply ar_size_bound in Hsize; [|unfold sz, vlen in *; rewrite length_take, length_drop; lia].
  rewrite uadd_some by (unfold u64_max; lia). cbn [mbind option_bind].
  destruct (Z.ltb_spec (vlen data) (pos + 60 + size)); [eauto|].
  rewrite slice_some by lia. cbn [mbind option_bind].
  destruct (size mod 2 =? 1); [rewrite uadd_some by (unfold u64_max; lia)|]; cbn [mbind option_bind]; apply IH; lia.
Qed.

Lemma dec_digits_length f n acc k : (1 <= k)%nat -> 0 <= n < 10 ^ Z.of_nat k ->
  (String.length (dec_digits f n acc) <= k + String.length acc)%nat.
Proof.
  revert n acc k. induction f as [|f IH]; intros n acc k Hk Hn; cbn [dec_digits]; [lia|].
  destruct (Z.ltb_spec n 10); cbn [String.length]; [lia|].
  destruct k as [|[|k]]; [lia|simpl in Hn; lia|].
  etrans; [apply (IH _ _ (S k)); [lia|]|cbn [String.length]; lia].
  rewrite (Nat2Z.inj_succ (S k)), Z.pow_succ_r in Hn by lia.
  split; [apply Z.div_pos; lia|]. apply Z.div_lt_upper_bound; lia.
Qed.

Lemma dec_length n k : (1 <= k)%nat -> 0 <= n < 10 ^ Z.of_nat k -> (String.length (dec n) <= k)%nat.
Proof.
  intros Hk Hn. unfold dec. destruct (Z.ltb_spec n 0); [lia|].
  etrans; [by apply (dec_digits_length _ _ _ k)|]. simpl. lia.
Qed.

Lemma spaces_length k : String.length (spaces k) = k.
Proof. induction k as [|k IH]; [done|]. change (spaces (S k)) with (String " " (spaces k)). cbn [String.length]. by rewrite IH. Qed.

Lemma spaces_ascii k : str_forallb is_ascii (spaces k) = true.
Proof. induction k as [|k IH]; [done|]. change (spaces (S k)) with (String " " (spaces k)). by cbn [str_forallb]. Qed.

Lemma vlen_pad k s : (String.length s <= k)%nat -> vlen (as_bytes (pad k s)) = Z.of_nat k.
Proof. intros Hs. rewrite vlen_as_bytes. unfold pad. rewrite str_length_app, spaces_length. lia. Qed.

(** A padded field is read back without its padding. *)
Lemma read_pad k s : str_forallb is_graphic s = true -> trim (from_utf8_lossy (as_bytes (pad k s))) = s.
Proof.
  intros Hs. rewrite from_utf8_lossy_valid.
  - rewrite of_as_bytes. unfold pad. by apply trim_pad, graphic_all_ends.
  - apply is_utf8_ascii. unfold pad. rewrite str_forallb_app, spaces_ascii, andb_true_r.
    eapply str_forallb_impl; [|exact Hs]. intros c. unfold is_graphic, in_range, is_ascii.
    rewrite andb_true_iff, !Z.leb_le, Z.ltb_lt. lia.
Qed.

Lemma dec_graphic n : 0 <= n -> str_forallb is_graphic (dec n) = true.
Proof.
  intros Hn. destruct (dec_digits_spec n Hn) as (_ & Hd & _). eapply str_forallb_impl; [|exact Hd].
  intros c. unfold is_graphic, in_range, is_ascii_digit. rewrite !andb_true_iff, !Z.leb_le. lia.
Qed.

Lemma parse_ar_member f a m rest entries : ar_member_ok m -> addressable (a ++ ar_member m ++ rest) ->
  parse_ar_from (S f) (a ++ ar_member m ++ rest) (vlen a) entries =
  parse_ar_from f (a ++ ar_member m ++ rest) (vlen a + vlen (ar_member m)) (entries ++ [m.2]).
Proof.
  destruct m as [meta [name data]]. intros (Hmeta & Hname & Hlen & Hdata) Hadr.
  unfold ar_member in *. cbn [fst snd ar_name ar_data] in *. set (size := vlen data) in *.
  pose proof (vlen_nonneg data). pose proof (vlen_nonneg a). pose proof (vlen_nonneg rest).
  assert (vlen (as_bytes (pad 10 (dec size))) = 10) as Hdec.
  { rewrite vlen_pad; [done|]. apply dec_length; [lia|]. simpl. lia. }
  assert (vlen (as_bytes (pad 16 name)) = 16) as Hpad by (by rewrite vlen_pad).
  set (tail := if size mod 2 =? 1 then as_bytes nl else []) in *.
  set (header := as_bytes (pad 16 name) ++ meta ++ as_bytes (pad 10 (dec size)) ++ as_bytes ("`" ++ nl)).
  assert (vlen header = 60) as Hheader.
  { unfold header. rewrite !vlen_app, Hpad, Hmeta, Hdec. done. }
  assert (a ++ (as_bytes (pad 16 name) ++ meta ++ as_bytes (pad 10 (dec size)) ++ as_bytes ("`" ++ nl) ++ data ++ tail) ++ rest
          = a ++ header ++ data ++ tail ++ rest) as Heq by (unfold header; by rewrite <- !(assoc_L (++))).
  rewrite Heq in *. clear Heq.
  assert (vlen (as_bytes (pad 16 name) ++ meta ++ as_bytes (pad 10 (dec size)) ++ as_bytes ("`" ++ nl) ++ data ++ tail)
          = 60 + size + vlen tail) as ->.
  { rewrite <- Hheader. unfold header. rewrite !vlen_app. fold size. lia. }
  assert (vlen tail = if size mod 2 =? 1 then 1 else 0) as Htail by (unfold tail; by destruct (size mod 2 =? 1)).
  unfold addressable, isize_max in Hadr. rewrite !vlen_app, Hheader in Hadr. fold size in Hadr.
  pose proof (vlen_nonneg tail).
  cbn [parse_ar_from]. rewrite uadd_some by (unfold u64_max; lia). cbn [mbind option_bind].
  destruct (Z.leb_spec (vlen a + 60) (vlen (a ++ header ++ data ++ tail ++ rest))) as [_|Hl];
    [|rewrite !vlen_app, Hheader in Hl; lia].
  rewrite (slice_middle a header) by (done || lia). cbn [mbind option_bind].
  assert (slice 0 16 header = Some (as_bytes (pad 16 name))) as ->.
  { apply (slice_middle [] (as_bytes (pad 16 name))); [done|lia]. }
  assert (slice 48 58 header = Some (as_bytes (pad 10 (dec size)))) as ->.
  { unfold header. rewrite (assoc_L (++)). apply slice_middle; [rewrite vlen_app; lia|lia]. }
  cbn [mbind option_bind]. rewrite read_pad by (apply dec_graphic; lia).
  unfold parse_u64. rewrite parse_unsigned_dec by (unfold u64_max; lia).
  rewrite uadd_some by (unfold u64_max; lia). cbn [mbind option_bind].
  destruct (Z.ltb_spec (vlen (a ++ header ++ data ++ tail ++ rest)) (vlen a + 60 + size)) as [Hl|_];
    [rewrite !vlen_app, Hheader in Hl; fold size in Hl; lia|].
  rewrite (assoc_L (++) a header), (slice_middle (a ++ header) data) by (rewrite ?vlen_app; lia).
  cbn [mbind option_bind]. rewrite read_pad by done.
  destruct (size mod 2 =? 1).
  - rewrite uadd_some by (unfold u64_max; lia). cbn [mbind option_bind]. f_equal. lia.
  - cbn [mbind option_bind]. f_equal. lia.
Qed.

Lemma ar_member_length m : ar_member_ok m -> 60 <= vlen (ar_member m).
Proof.
  intros (Hmeta & Hname & Hlen & Hdata). unfold ar_member. rewrite !vlen_app, Hmeta.
  pose proof (vlen_nonneg (ar_data m.2)). rewrite vlen_pad by done. rewrite vlen_pad.
  2:{ apply dec_length; [lia|]. simpl. lia. }
  change (vlen (as_bytes ("`" ++ nl))) with 2. pose proof (vlen_nonneg (if vlen (ar_data m.2) mod 2 =? 1 then as_bytes nl else [])). lia.
Qed.

Lemma parse_ar_members f a ms entries :
  Forall ar_member_ok ms -> addressable (a ++ concat (ar_member <$> ms)) -> (length ms < f)%nat ->
  parse_ar_from f (a ++ concat (ar_member <$> ms)) (vlen a) entries = Some (entries ++ (snd <$> ms)).
Proof.
  intros Hms. revert f a entries. induction Hms as [|m ms Hm _ IH]; intros f a entries Hadr Hf.
  - destruct f as [|f]; [simpl in Hf; lia|]. cbn [fmap list_fmap concat] in *. rewrite !app_nil_r in *.
    unfold addressable, isize_max in Hadr. cbn [parse_ar_from]. rewrite uadd_some by (unfold u64_max; lia).
    cbn [mbind option_bind]. by destruct (Z.leb_spec (vlen a + 60) (vlen a)); [lia|].
  - destruct f as [|f]; simpl in Hf; [lia|]. cbn [fmap list_fmap concat] in *.
    rewrite parse_ar_member by done. rewrite <- vlen_app, (assoc_L (++)) in *.
    rewrite IH by (done || lia). by rewrite <- (assoc_L (++)).
Qed.

Lemma ar_members_length ms : Forall ar_member_ok ms -> (length ms <= length (concat (ar_member <$> ms)))%nat.
Proof.
  induction 1 as [|m ms Hm _ IH]; [simpl; lia|]. rewrite fmap_cons. cbn [concat length]. rewrite length_app.
  pose proof (ar_member_length m Hm). unfold vlen in *. lia.
Qed.

Lemma parse_ar_archive ms : Forall ar_member_ok ms -> addressable (ar_archive ms) ->
  parse_ar (ar_archive ms) = Some (snd <$> ms).
Proof.
  intros Hms Hadr. unfold parse_ar, ar_archive in *. destruct (Z.ltb_spec (vlen (ar_magic ++ concat (ar_member <$> ms))) 8) as [Hl|_].
  { rewrite vlen_app in Hl. change (vlen ar_magic) with 8 in Hl. pose proof (vlen_nonneg (concat (ar_member <$> ms))). lia. }
  change (take 8 (ar_magic ++ concat (ar_member <$> ms))) with ar_magic. cbn [orb].
  rewrite bool_decide_true by done. cbn [negb].
  change 8 with (vlen ar_magic) at 1. rewrite parse_ar_members; [done|done|done|].
  rewrite length_app. pose proof (ar_members_length ms Hms). lia.
Qed.

Lemma parse_ar_total data : addressable data -> exists es, parse_ar data = Some es.
Proof.
  intros Hadr. unfold parse_ar. destruct (Z.ltb_spec (vlen data) 8); [by eexists|]. cbn [orb].
  destruct (negb (bool_decide (take 8 data = ar_magic))); [by eexists|].
  apply parse_ar_from_total; [done|lia|unfold vlen; lia|lia].
Qed.

(** ** Lemmas: control files *)

Lemma split_once_app c s t : str_forallb (fun d => negb (Ascii.eqb d c)) s = true ->
  split_once c (s ++ String c t) = Some (s, t).
Proof.
  induction s as [|d s IH]; [by simpl; rewrite Ascii.eqb_refl|]. cbn [str_forallb].
  rewrite andb_true_iff, negb_true_iff. intros [Hd Hs].
  change (String d s ++ String c t)%string with (String d (s ++ String c t)). cbn [split_once]. by rewrite Hd, IH.
Qed.

Lemma key_no_blank k s : key_ok k = true ->
  starts_with " " (k ++ s) || starts_with tab (k ++ s) = false /\ (k ++ s)%string <> ""%string.
Proof.
  unfold key_ok. destruct k as [|c k]; [done|]. cbn [str_forallb]. rewrite !andb_true_iff. intros [_ [[Hc _] _]].
  split; [|done]. change (String c k ++ s)%string with (String c (k ++ s)). unfold starts_with, strip_prefix.
  assert (forall d, is_graphic d = false -> Ascii.eqb d c = false) as Hne.
  { intros d Hd. destruct (Ascii.eqb_spec d c) as [->|]; [congruence|done]. }
  unfold tab, bytes. cbn [List.fold_right]. rewrite !Hne by done. done.
Qed.

Lemma blank_nonempty l : starts_with " " l || starts_with tab l = true -> l <> ""%string.
Proof. by intros Hl ->. Qed.

(** Continuation lines are appended. *)
Lemma control_conts conts ls fields key val :
  forallb (fun l => starts_with " " l || starts_with tab l) conts = true ->
  control_lines (conts ++ ls) fields key val = control_lines ls fields key (join nl (val :: conts)).
Proof.
  revert val. induction conts as [|l conts IH]; intros val; cbn [forallb]; [done|].
  rewrite andb_true_iff. intros [Hl Hc]. cbn [app control_lines].
  destruct (String.eqb_spec l "") as [->|_]; [done|]. rewrite Hl, IH by done. f_equal.
  destruct conts as [|l' conts]; [done|]. cbn [join]. by rewrite !str_app_assoc.
Qed.

(** The lines of a value and what follows it. *)
Lemma lines_join segs s : segs <> [] -> forallb plain_line segs = true ->
  lines (join nl segs ++ nl ++ s) = segs ++ lines s.
Proof.
  induction segs as [|l [|l' segs] IH]; [done| |]; intros _; cbn [forallb]; rewrite ?andb_true_iff; intros Hp.
  - cbn [join app]. apply lines_cons. by destruct Hp.
  - destruct Hp as [Hl Hp]. change (join nl (l :: l' :: segs)) with (l ++ nl ++ join nl (l' :: segs))%string.
    rewrite !str_app_assoc, lines_cons by done. rewrite IH; [done|done|]. cbn [forallb]. by rewrite andb_true_iff.
Qed.

Lemma strip_suffix_last s c : strip_suffix cr (s ++ String c "") = if Ascii.eqb "013" c then Some s else None.
Proof.
  unfold strip_suffix. rewrite str_rev_concat. change (str_rev cr) with (String "013" "").
  change (str_rev (String c "") ++ str_rev s)%string with (String c (str_rev s)). cbn [strip_prefix].
  destruct (Ascii.eqb "013" c); [|done]. cbn. by rewrite str_rev_involutive.
Qed.

Lemma plain_key_line k v : key_ok k = true -> plain_line v = true -> plain_line (k ++ ": " ++ v) = true.
Proof.
  unfold plain_line, no_nl. rewrite !andb_true_iff. intros Hk [Hv Hc]. unfold key_ok in Hk.
  apply andb_true_iff in Hk as [_ Hk]. split.
  - rewrite !str_forallb_app, Hv, andb_true_r.
    eapply str_forallb_impl; [|exact Hk]. intros c. unfold is_graphic, in_range, is_nl.
    rewrite !andb_true_iff, !negb_true_iff, Z.eqb_neq, !Z.leb_le. lia.
  - destruct (str_last_cases v) as [->|(v' & c & ->)].
    + unfold strip_suffix. rewrite !str_rev_concat. done.
    + rewrite <- !str_app_assoc, strip_suffix_last in *. by destruct (Ascii.eqb _ _).
Qed.

Lemma trim_key k : key_ok k = true -> trim k = k.
Proof.
  unfold key_ok. rewrite andb_true_iff. intros [_ Hk]. apply trim_graphic, graphic_all_ends.
  eapply str_forallb_impl; [|exact Hk]. intros c. by rewrite andb_true_iff; intros [? _].
Qed.

(** One field, in front of further lines. *)
Lemma control_field k v s fields key val : key_ok k = true -> value_ok v = true ->
  control_lines (lines (k ++ ": " ++ v ++ nl ++ s)) fields key val =
  control_lines (lines s)
    (if negb (String.eqb key "") then bt_insert key (trim val) fields else fields) k v.
Proof.
  intros Hk Hv. unfold value_ok in Hv. rewrite !andb_true_iff in Hv. destruct Hv as [[Htrim Hplain] Hseg].
  pose proof (join_split v) as Hjoin. destruct (split_by is_nl v) as [|first conts] eqn:Hsplit; [done|].
  apply andb_true_iff in Hseg as [Hfirst Hconts]. cbn [forallb] in Hplain. apply andb_true_iff in Hplain as [Hpf Hpc].
  assert (k ++ ": " ++ v ++ nl ++ s = join nl ((k ++ ": " ++ first)%string :: conts) ++ nl ++ s)%string as ->.
  { rewrite <- Hjoin. destruct conts as [|l conts]; cbn [join]; by rewrite !str_app_assoc. }
  rewrite lines_join; [|done|cbn [forallb]; by rewrite plain_key_line].
  change (((k ++ ": " ++ first)%string :: conts) ++ lines s) with ((k ++ ": " ++ first)%string :: (conts ++ lines s)).
  change (": " ++ first)%string with (String ":" (String " " first)).
  destruct (key_no_blank k (String ":" (String " " first)) Hk) as [Hb Hne].
  cbn [control_lines]. destruct (String.eqb_spec (k ++ String ":" (String " " first)) ""); [done|]. rewrite Hb.
  rewrite split_once_app.
  2:{ unfold key_ok in Hk. apply andb_true_iff in Hk as [_ Hk]. eapply str_forallb_impl; [|exact Hk].
      intros c. by rewrite andb_true_iff; intros [_ ?]. }
  rewrite (trim_key k), trim_space_cons, control_conts by done.
  apply String.eqb_eq in Hfirst. by rewrite Hfirst, Hjoin.
Qed.

Lemma print_fields_lines fields acc key val : fields_ok fields ->
  control_lines (lines (print_fields fields)) acc key val =
  match fields with
  | [] => (acc, key, val)
  | _ =>
      let acc' := if negb (String.eqb key "") then bt_insert key (trim val) acc else acc in
      let kvs := removelast fields in
      let last := List.last fields ("", "")%string in
      (foldl (fun m kv => bt_insert kv.1 kv.2 m) acc' kvs, last.1, last.2)
  end.
Proof.
  intros [_ Hok]. revert acc key val. induction Hok as [|[k v] fields [Hk Hv] Hok IH]; intros acc key val; [done|].
  cbn [print_fields]. rewrite control_field by done. rewrite IH. cbn [fst snd] in *.
  destruct fields as [|[k' v'] fields]; [done|]. cbv zeta.
  assert (String.eqb k "" = false) as -> by (unfold key_ok in Hk; apply andb_true_iff in Hk as [Hk _]; by apply negb_true_iff in Hk).
  assert (trim v = v) as ->.
  { unfold value_ok in Hv. rewrite !andb_true_iff in Hv. destruct Hv as [[Hv _] _]. by apply String.eqb_eq in Hv. }
  done.
Qed.

(** What [generate_apt_metadata] writes of a control file reads back as the same fields. *)
Theorem control_fields_roundtrip fields :
  fields_ok fields -> parse_control_fields (print_fields fields) = fields.
Proof.
  intros Hok. unfold parse_control_fields. rewrite print_fields_lines by done.
  destruct fields as [|kv fields]; [done|]. cbv zeta beta iota. cbn [String.eqb negb].
  set (l := kv :: fields) in *. destruct Hok as [Hwf Hall].
  assert (l = removelast l ++ [List.last l ("", "")%string]) as Hl by (by apply app_removelast_last).
  assert (key_ok (List.last l ("", "")%string).1 = true /\ value_ok (List.last l ("", "")%string).2 = true) as [Hk Hv].
  { rewrite Hl, Forall_app, Forall_singleton in Hall. by destruct Hall. }
  assert (String.eqb (List.last l ("", "")%string).1 "" = false) as ->
    by (unfold key_ok in Hk; apply andb_true_iff in Hk as [Hk _]; by apply negb_true_iff in Hk).
  assert (trim (List.last l ("", "")%string).2 = (List.last l ("", "")%string).2) as ->.
  { unfold value_ok in Hv. rewrite !andb_true_iff in Hv. destruct Hv as [[Hv _] _]. by apply String.eqb_eq in Hv. }
  cbn [negb]. trans (bt_of_list l); [|by apply bt_of_list_id].
  unfold bt_of_list. rewrite Hl at 4. by rewrite foldl_app.
Qed.

(** ** Lemmas: RPM *)

Lemma umul_some a b : a * b <= u64_max -> umul a b = Some (a * b).
Proof. intros. unfold umul. by destruct (Z.leb_spec (a * b) u64_max); [|lia]. Qed.

(** Entries that lie inside of the file are read without a panic. *)
Lemma read_index_entries_total data start n :
  addressable data -> 0 <= start -> 0 <= n -> start + 16 * n <= vlen data ->
  exists es, mapM (read_index_entry data start) (seqZ 0 n) = Some es.
Proof.
  unfold isize_max. intros Hadr Hs Hn Hend. apply mapM_is_Some, Forall_forall. intros i Hi%elem_of_seqZ.
  pose proof Hadr as Hle. unfold addressable, isize_max in Hle.
  unfold compose, read_index_entry. cbv beta. rewrite umul_some by (unfold u64_max; lia). cbn [mbind option_bind].
  rewrite uadd_some by (unfold u64_max; lia). cbn [mbind option_bind].
  destruct (u32_at_total (start + i * 16) data) as [? ->]; [lia..|done|]. cbn [mbind option_bind].
  rewrite !uadd_some by (unfold u64_max; lia). cbn [mbind option_bind].
  destruct (u32_at_total (start + i * 16 + 4) data) as [? ->]; [lia..|done|]. cbn [mbind option_bind].
  destruct (u32_at_total (start + i * 16 + 8) data) as [? ->]; [lia..|done|]. cbn [mbind option_bind].
  destruct (u32_at_total (start + i * 16 + 12) data) as [? ->]; [lia..|done|]. cbn [mbind option_bind]. eauto.
Qed.

Lemma read_rpm_header_total data offset :
  addressable data -> 0 <= offset <= 2 ^ 40 -> exists r, read_rpm_header data offset = Some r.
Proof.
  intros Hadr Ho. pose proof Hadr as Hle. unfold addressable, isize_max in Hle.
  unfold read_rpm_header. rewrite (uadd_some offset 16) by (unfold u64_max; lia). cbn [mbind option_bind].
  destruct (Z.ltb_spec (vlen data) (offset + 16)); [eauto|].
  rewrite (uadd_some offset 3) by (unfold u64_max; lia). cbn [mbind option_bind].
  rewrite slice_some by lia. cbn [mbind option_bind]. destruct (negb _); [eauto|].
  rewrite (uadd_some offset 8) by (unfold u64_max; lia). cbn [mbind option_bind].
  destruct (u32_at_total (offset + 8) data) as [num Hnum]; [lia..|done|]. rewrite Hnum. cbn [mbind option_bind].
  rewrite (uadd_some offset 12) by (unfold u64_max; lia). cbn [mbind option_bind].
  destruct (u32_at_total (offset + 12) data) as [len Hlen]; [lia..|done|]. rewrite Hlen. cbn [mbind option_bind].
  apply u32_at_bounds in Hnum, Hlen. unfold u32_max in *.
  rewrite umul_some by (unfold u64_max; lia). cbn [mbind option_bind].
  rewrite !uadd_some by (unfold u64_max; lia). cbn [mbind option_bind].
  rewrite uadd_some by (unfold u64_max; lia). cbn [mbind option_bind].
  destruct (Z.ltb_spec (vlen data) (offset + 16 + 16 * num + len)); [eauto|].
  destruct (read_index_entries_total data (offset + 16) num) as [es ->]; [done|lia..|]. cbn [mbind option_bind].
  rewrite slice_some by lia. cbn [mbind option_bind]. eauto.
Qed.

Lemma zero_position_bounds v i : zero_position v = Some i -> 0 <= i < vlen v.
Proof.
  revert i. induction v as [|c v IH]; intros i; [done|]. cbn [zero_position].
  assert (vlen (c :: v) = 1 + vlen v) as Hl by (unfold vlen; simpl; lia).
  destruct (is_zero c); [intros [= <-]; pose proof (vlen_nonneg v); lia|].
  destruct (zero_position v) as [j|]; [|done]. intros [= <-]. specialize (IH j eq_refl). lia.
Qed.

Lemma rpm_read_string_total data off : addressable data -> 0 <= off -> exists s, rpm_read_string data off = Some s.
Proof.
  unfold addressable, isize_max. intros Hadr Hoff. unfold rpm_read_string.
  destruct (Z.leb_spec (vlen data) off); [eauto|]. rewrite slice_some by lia. cbn [mbind option_bind].
  set (tail := take _ _). assert (vlen tail = vlen data - off) as Hl.
  { unfold tail, vlen in *. rewrite length_take, length_drop. lia. }
  assert (0 <= default (vlen data - off) (zero_position tail) <= vlen data - off) as Hz.
  { destruct (zero_position tail) as [i|] eqn:Hi; simpl; [apply zero_position_bounds in Hi|unfold id]; lia. }
  rewrite uadd_some by (unfold u64_max; lia). cbn [mbind option_bind].
  rewrite slice_some by lia. cbn [mbind option_bind]. eauto.
Qed.

Lemma rpm_read_int32_total data off : addressable data -> 0 <= off <= u32_max -> exists n, rpm_read_int32 data off = Some n.
Proof.
  intros Hadr Hoff. unfold rpm_read_int32, u32_max in *. rewrite uadd_some by (unfold u64_max; lia). cbn [mbind option_bind].
  destruct (Z.ltb_spec (vlen data) (off + 4)); [eauto|].
  destruct (u32_at_total off data) as [n ->]; [lia..|done|]. simpl. eauto.
Qed.

Definition index_ok (entries : list rpm_index_entry) : Prop :=
  Forall (fun '(_, _, off, _) => 0 <= off <= u32_max) entries.

Lemma index_find f entries e : index_ok entries -> List.find f entries = Some e -> 0 <= e.1.2 <= u32_max.
Proof.
  unfold index_ok. rewrite Forall_forall. intros Hidx [Hin _]%find_some.
  apply list_elem_of_In, Hidx in Hin. by destruct e as [[[t ty] off] c].
Qed.

Lemma rpm_info_total entries data : index_ok entries -> addressable data -> exists i, rpm_info_of entries data = Some i.
Proof.
  intros Hidx Hadr.
  assert (forall tag, exists s, rpm_get_string entries data tag = Some s) as Hs.
  { intros tag. unfold rpm_get_string. case_match eqn:Hf; [|eauto]. apply (index_find _ _ _ Hidx) in Hf.
    match type of Hf with 0 <= ?e.1.2 <= _ => destruct e as [[[t ty] off] c]; simpl in Hf end.
    apply rpm_read_string_total; [done|lia]. }
  assert (forall tag, exists n, rpm_get_int32 entries data tag = Some n) as Hn.
  { intros tag. unfold rpm_get_int32. case_match eqn:Hf; [|eauto]. apply (index_find _ _ _ Hidx) in Hf.
    match type of Hf with 0 <= ?e.1.2 <= _ => destruct e as [[[t ty] off] c]; simpl in Hf end.
    by apply rpm_read_int32_total. }
  unfold rpm_info_of. cbv zeta.
  repeat match goal with
  | |- exists i, (rpm_get_string entries data ?t ≫= _) = _ => destruct (Hs t) as [? ->]; cbn [mbind option_bind]
  | |- exists i, ((rpm_get_int32 entries data ?t ≫= _) ≫= _) = _ => destruct (Hn t) as [? ->]; cbn [mbind option_bind]
  end. eauto.
Qed.

Lemma read_rpm_header_index data offset entries store :
  read_rpm_header data offset = Some (Ok (entries, store)) -> index_ok entries.
Proof.
  unfold read_rpm_header. intros Hr.
  repeat match type of Hr with
  | (?o ≫= _) = Some (Ok _) => let H := fresh in destruct o eqn:H; [cbn [mbind option_bind] in Hr|done]
  | (if ?b then _ else _) = Some (Ok _) => destruct b; [done|]
  end.
  injection Hr as <- <-. match goal with H : mapM _ _ = Some ?l |- _ => apply mapM_Some in H as Hm end.
  unfold index_ok. apply Forall_forall. intros [[[t ty] off] c] Hin.
  apply list_elem_of_lookup in Hin as [i Hi]. eapply Forall2_lookup_r in Hm as (x & _ & Hx); [|exact Hi].
  unfold read_index_entry in Hx.
  repeat match type of Hx with
  | (?o ≫= _) = Some _ => let H := fresh in destruct o eqn:H; [cbn [mbind option_bind] in Hx|done]
  end.
  injection Hx as <- <- <- <-. eapply u32_at_bounds. eassumption.
Qed.

Lemma slice_addressable a b v s : addressable v -> slice a b v = Some s -> addressable s.
Proof.
  unfold slice. destruct ((0 <=? a) && (a <=? b) && (b <=? vlen v)); [|done]. intros Hv [= <-].
  unfold addressable, vlen in *. rewrite length_take, length_drop. lia.
Qed.

Lemma read_rpm_header_store data offset entries store :
  addressable data -> read_rpm_header data offset = Some (Ok (entries, store)) -> addressable store.
Proof.
  intros Hadr. unfold read_rpm_header. intros Hr.
  repeat match type of Hr with
  | (?o ≫= _) = Some (Ok _) => let H := fresh in destruct o eqn:H; [cbn [mbind option_bind] in Hr|done]
  | (if ?b then _ else _) = Some (Ok _) => destruct b; [done|]
  end.
  injection Hr as <- <-. eapply slice_addressable; eassumption.
Qed.

Lemma rpm_main_offset_total data : addressable data ->
  exists r, rpm_main_offset data = Some r /\ (forall o, r = Ok o -> 0 <= o <= 2 ^ 40 /\ o mod 8 = 0).
Proof.
  intros Hadr. pose proof Hadr as Hle. unfold addressable, isize_max in Hle. unfold rpm_main_offset. cbv zeta.
  destruct (Z.ltb_spec (vlen data) (96 + 16)); [by eexists|].
  rewrite slice_some by lia. cbn [mbind option_bind]. destruct (negb _); [by eexists|].
  destruct (u32_at_total (96 + 8) data) as [num Hnum]; [lia..|done|]. rewrite Hnum. cbn [mbind option_bind].
  destruct (u32_at_total (96 + 12) data) as [len Hlen]; [lia..|done|]. rewrite Hlen. cbn [mbind option_bind].
  apply u32_at_bounds in Hnum, Hlen. unfold u32_max in *.
  rewrite umul_some by (unfold u64_max; lia). cbn [mbind option_bind].
  rewrite (uadd_some 16) by (unfold u64_max; lia). cbn [mbind option_bind].
  rewrite (uadd_some (16 + 16 * num)) by (unfold u64_max; lia). cbn [mbind option_bind].
  rewrite (uadd_some 96) by (unfold u64_max; lia). cbn [mbind option_bind].
  set (total := 96 + (16 + 16 * num + len)).
  assert (112 <= total <= 2 ^ 39) as Htotal by (unfold total; lia). clearbody total.
  pose proof (Z.mod_pos_bound (8 - total mod 8) 8 ltac:(lia)).
  rewrite uadd_some by (unfold u64_max; lia). cbn [mbind option_bind].
  eexists. split; [done|]. intros o [= <-]. split; [lia|].
  rewrite Z.add_mod_idemp_r by lia. replace (total + (8 - total mod 8)) with (total / 8 * 8 + 8).
  - rewrite Z.add_mod, Z.mod_mul by lia. done.
  - pose proof (Z.div_mod total 8 ltac:(lia)). lia.
Qed.

Lemma parse_rpm_total file : (forall data, file = Ok data -> addressable data) -> exists r, parse_rpm file = Some r.
Proof.
  intros Hf. unfold parse_rpm. destruct file as [data|e]; [|eauto]. specialize (Hf data eq_refl).
  destruct (Z.ltb_spec (vlen data) 96); [eauto|]. rewrite slice_some by lia. cbn [mbind option_bind].
  destruct (negb _); [eauto|]. destruct (rpm_main_offset_total data Hf) as (r & -> & Hr). cbn [mbind option_bind].
  destruct r as [o|e]; [|eauto]. destruct (Hr o eq_refl) as [Ho _].
  destruct (read_rpm_header_total data o Hf Ho) as [h Hh]. rewrite Hh. cbn [mbind option_bind].
  destruct h as [[entries store]|e]; [|eauto].
  destruct (rpm_info_total entries store) as [i ->]; [by eapply read_rpm_header_index|by eapply read_rpm_header_store|].
  cbn [mbind option_bind]. eauto.
Qed.

(** ** Lemmas: headers are read as they were written *)

Lemma vlen_rpm_entry e : vlen (rpm_entry_bytes e) = 16.
Proof. by destruct e as [[[? ?] ?] ?]. Qed.

Lemma vlen_rpm_entries entries : vlen (concat (rpm_entry_bytes <$> entries)) = 16 * Z.of_nat (length entries).
Proof.
  induction entries as [|e entries IH]; [done|]. rewrite fmap_cons. cbn [concat length].
  rewrite vlen_app, vlen_rpm_entry, IH. lia.
Qed.

Lemma read_entry_image a e c start i : vlen a = start + i * 16 -> 0 <= start -> 0 <= i ->
  addressable (a ++ rpm_entry_bytes e ++ c) ->
  (let '(tag, type_, off, count) := e in 0 <= tag <= u32_max /\ 0 <= type_ <= u32_max /\
                                        0 <= off <= u32_max /\ 0 <= count <= u32_max) ->
  read_index_entry (a ++ rpm_entry_bytes e ++ c) start i = Some e.
Proof.
  destruct e as [[[tag ty] off] count]. unfold addressable, isize_max. intros Ha Hs Hi Hadr (H1 & H2 & H3 & H4).
  unfold rpm_entry_bytes in *. rewrite <- !(assoc_L (++)) in *. rewrite !vlen_app in Hadr.
  change (vlen (be_bytes tag)) with 4 in Hadr. change (vlen (be_bytes ty)) with 4 in Hadr.
  change (vlen (be_bytes off)) with 4 in Hadr. change (vlen (be_bytes count)) with 4 in Hadr.
  pose proof (vlen_nonneg c). unfold read_index_entry.
  rewrite umul_some by (unfold u64_max; lia). cbn [mbind option_bind].
  rewrite (uadd_some start) by (unfold u64_max; lia). cbn [mbind option_bind].
  rewrite (u32_at_middle _ _ _ (start + i * 16)) by (done || unfold u64_max; lia). cbn [mbind option_bind].
  rewrite !uadd_some by (unfold u64_max; lia). cbn [mbind option_bind].
  rewrite (assoc_L (++) a). rewrite (u32_at_middle _ _ _ (start + i * 16 + 4)) by (done || (rewrite ?vlen_app; change (vlen (be_bytes tag)) with 4; unfold u64_max; lia)).
  cbn [mbind option_bind].
  rewrite (assoc_L (++) (a ++ _)). rewrite (u32_at_middle _ _ _ (start + i * 16 + 8)) by (done || (rewrite ?vlen_app;
    change (vlen (be_bytes tag)) with 4; change (vlen (be_bytes ty)) with 4; unfold u64_max; lia)).
  cbn [mbind option_bind].
  rewrite (assoc_L (++) ((a ++ _) ++ _)). rewrite (u32_at_middle _ _ _ (start + i * 16 + 12)) by (done || (rewrite ?vlen_app;
    change (vlen (be_bytes tag)) with 4; change (vlen (be_bytes ty)) with 4; change (vlen (be_bytes off)) with 4; unfold u64_max; lia)).
  done.
Qed.

Lemma read_rpm_header_image a reserved entries store c :
  rpm_header_ok reserved entries store -> addressable (a ++ rpm_header reserved entries store ++ c) ->
  read_rpm_header (a ++ rpm_header reserved entries store ++ c) (vlen a) = Some (Ok (entries, store)).
Proof.
  intros (Hres & Hnum & Hstore & Hall) Hadr. set (data := a ++ rpm_header reserved entries store ++ c) in *.
  set (n := Z.of_nat (length entries)) in *. set (idx := concat (rpm_entry_bytes <$> entries)).
  assert (data = a ++ rpm_header_magic ++ reserved ++ be_bytes n ++ be_bytes (vlen store) ++ idx ++ store ++ c) as Hdata.
  { unfold data, rpm_header, n, idx. by rewrite <- !(assoc_L (++)). }
  assert (vlen idx = 16 * n) as Hidx by apply vlen_rpm_entries.
  pose proof (vlen_nonneg a). pose proof (vlen_nonneg c). pose proof (vlen_nonneg store).
  assert (vlen data = vlen a + 3 + 5 + 4 + 4 + 16 * n + vlen store + vlen c) as Hlen.
  { rewrite Hdata, !vlen_app, Hidx, Hres. change (vlen rpm_header_magic) with 3.
    change (vlen (be_bytes n)) with 4. change (vlen (be_bytes (vlen store))) with 4. lia. }
  pose proof Hadr as Hle. unfold addressable, isize_max in Hle. unfold u32_max in *.
  unfold read_rpm_header. rewrite (uadd_some (vlen a) 16) by (unfold u64_max; lia). cbn [mbind option_bind].
  destruct (Z.ltb_spec (vlen data) (vlen a + 16)); [lia|].
  rewrite (uadd_some (vlen a) 3) by (unfold u64_max; lia). cbn [mbind option_bind].
  assert (slice (vlen a) (vlen a + 3) data = Some rpm_header_magic) as ->.
  { rewrite Hdata. apply slice_middle; [done|change (vlen rpm_header_magic) with 3; lia]. }
  cbn [mbind option_bind]. rewrite bool_decide_true by done. cbn [negb].
  rewrite (uadd_some (vlen a) 8) by (unfold u64_max; lia). cbn [mbind option_bind].
  assert (u32_at (vlen a + 8) data = Some n) as ->.
  { rewrite Hdata, (assoc_L (++) a), (assoc_L (++) (a ++ _)). apply u32_at_middle; [|unfold u64_max; lia|unfold u32_max; lia].
    rewrite !vlen_app, Hres. change (vlen rpm_header_magic) with 3. lia. }
  cbn [mbind option_bind]. rewrite (uadd_some (vlen a) 12) by (unfold u64_max; lia). cbn [mbind option_bind].
  assert (u32_at (vlen a + 12) data = Some (vlen store)) as ->.
  { rewrite Hdata, (assoc_L (++) a), (assoc_L (++) (a ++ _)), (assoc_L (++) ((a ++ _) ++ _)).
    apply u32_at_middle; [|unfold u64_max; lia|unfold u32_max; lia].
    rewrite !vlen_app, Hres. change (vlen rpm_header_magic) with 3. change (vlen (be_bytes n)) with 4. lia. }
  cbn [mbind option_bind]. rewrite umul_some by (unfold u64_max; lia). cbn [mbind option_bind].
  rewrite (uadd_some (vlen a + 16)) by (unfold u64_max; lia). cbn [mbind option_bind].
  rewrite uadd_some by (unfold u64_max; lia). cbn [mbind option_bind].
  destruct (Z.ltb_spec (vlen data) (vlen a + 16 + 16 * n + vlen store)); [lia|].
  set (pre := a ++ rpm_header_magic ++ reserved ++ be_bytes n ++ be_bytes (vlen store)).
  assert (vlen pre = vlen a + 16) as Hpre.
  { unfold pre. rewrite !vlen_app, Hres. change (vlen rpm_header_magic) with 3.
    change (vlen (be_bytes n)) with 4. change (vlen (be_bytes (vlen store))) with 4. lia. }
  assert (data = pre ++ idx ++ store ++ c) as Hdata' by (rewrite Hdata; unfold pre; by rewrite <- !(assoc_L (++))).
  assert (mapM (read_index_entry data (vlen a + 16)) (seqZ 0 n) = Some entries) as ->.
  { apply mapM_Some. apply Forall2_same_length_lookup_2; [rewrite length_seqZ; lia|].
    intros i x e Hx He. apply lookup_seqZ in Hx as [-> Hi].
    rewrite Hdata', <- Hpre. unfold idx.
    rewrite <- (take_drop_middle entries i e He), fmap_app, fmap_cons, concat_app. cbn [concat].
    rewrite <- !(assoc_L (++)), (assoc_L (++) pre). apply read_entry_image.
    - rewrite vlen_app, vlen_rpm_entries, length_take. apply lookup_lt_Some in He. lia.
    - lia.
    - lia.
    - revert Hadr. rewrite Hdata'. unfold idx. rewrite <- (take_drop_middle entries i e He) at 1.
      rewrite fmap_app, fmap_cons, concat_app. cbn [concat]. by rewrite <- !(assoc_L (++)).
    - rewrite Forall_forall in Hall. apply list_elem_of_lookup_2 in He. by apply Hall in He. }
  cbn [mbind option_bind]. rewrite Hdata', (assoc_L (++) pre).
  rewrite slice_middle; [done|rewrite vlen_app, Hidx; lia|lia].
Qed.

(** ** A whole RPM, as a packager writes it *)

(** Numbers first, then null-terminated strings. *)
Definition cstr (s : string) : vec_u8 := as_bytes s ++ ["000"%char].
Definition rpm_chunks (i : rpm_info) : list vec_u8 :=
  [be_bytes (ri_epoch i); be_bytes (ri_build_time i); be_bytes (ri_size i); be_bytes (ri_archive_size i);
   cstr (ri_name i); cstr (ri_version i); cstr (ri_release i); cstr (ri_summary i); cstr (ri_description i);
   cstr (ri_license i); cstr (ri_url i); cstr (ri_arch i)].
Definition rpm_store (i : rpm_info) : vec_u8 := concat (rpm_chunks i).
(** (chunk, tag, type), in the order of the tags *)
Definition rpm_tags : list (nat * Z * Z) :=
  [(4%nat, 1000, 6); (5%nat, 1001, 6); (6%nat, 1002, 6); (0%nat, 1003, 4); (7%nat, 1004, 9); (8%nat, 1005, 9); (1%nat, 1006, 4);
   (2%nat, 1009, 4); (9%nat, 1014, 6); (10%nat, 1020, 6); (11%nat, 1022, 6); (3%nat, 1046, 4)].
Definition rpm_index (i : rpm_info) : list rpm_index_entry :=
  (fun '(k, tag, ty) => (tag, ty, vlen (concat (take k (rpm_chunks i))), 1)) <$> rpm_tags.

Definition text_ok (s : string) : Prop :=
  is_utf8 (as_bytes s) = true /\ str_forallb (fun c => negb (is_zero c)) s = true.
Definition rpm_info_ok (i : rpm_info) : Prop :=
  Forall text_ok [ri_name i; ri_version i; ri_release i; ri_summary i; ri_description i; ri_license i; ri_url i; ri_arch i] /\
  Forall (fun n => 0 <= n <= u32_max) [ri_epoch i; ri_build_time i; ri_size i; ri_archive_size i] /\
  vlen (rpm_store i) <= u32_max.

(** Lead, signature header, padding to eight bytes, main header, payload. *)
Definition rpm_padding (sig : vec_u8) : vec_u8 :=
  repeat "000"%char (Z.to_nat ((8 - (96 + vlen sig) mod 8) mod 8)).
Definition rpm_file (lead sig main payload : vec_u8) : vec_u8 :=
  rpm_lead_magic ++ lead ++ sig ++ rpm_padding sig ++ main ++ payload.

Lemma concat_chunk (chunks : list vec_u8) k c : chunks !! k = Some c ->
  concat chunks = concat (take k chunks) ++ c ++ concat (drop (S k) chunks).
Proof. intros Hc. rewrite <- (take_drop_middle chunks k c Hc) at 1. by rewrite concat_app. Qed.

Lemma zero_position_cstr s y : str_forallb (fun c => negb (is_zero c)) s = true ->
  zero_position (cstr s ++ y) = Some (vlen (as_bytes s)).
Proof.
  unfold cstr. induction s as [|c s IH]; [done|]. cbn [str_forallb]. rewrite andb_true_iff, negb_true_iff.
  intros [Hc Hs]. change (as_bytes (String c s)) with (c :: as_bytes s). cbn [app zero_position].
  rewrite Hc, IH by done. cbn [mbind option_bind]. unfold vlen. cbn [length]. f_equal. lia.
Qed.

Lemma read_cstr x s y : text_ok s -> addressable (x ++ cstr s ++ y) ->
  rpm_read_string (x ++ cstr s ++ y) (vlen x) = Some s.
Proof.
  intros [Hutf Hz] Hadr. unfold addressable, isize_max in Hadr. rewrite !vlen_app in Hadr.
  pose proof (vlen_nonneg x). pose proof (vlen_nonneg y). unfold rpm_read_string.
  assert (vlen (cstr s) = vlen (as_bytes s) + 1) as Hl by (unfold cstr; by rewrite vlen_app).
  destruct (Z.leb_spec (vlen (x ++ cstr s ++ y)) (vlen x)) as [Hle|_].
  { rewrite !vlen_app in Hle. pose proof (vlen_nonneg (as_bytes s)). lia. }
  rewrite slice_tail. cbn [mbind option_bind]. rewrite zero_position_cstr by done.
  cbn [default from_option]. unfold id. pose proof (vlen_nonneg (as_bytes s)).
  rewrite uadd_some by (unfold u64_max; lia). cbn [mbind option_bind].
  unfold cstr. rewrite <- (assoc_L (++)). rewrite slice_middle by (done || lia). cbn [mbind option_bind].
  by rewrite from_utf8_lossy_valid, of_as_bytes.
Qed.

Lemma read_be x n y : 0 <= n <= u32_max -> addressable (x ++ be_bytes n ++ y) ->
  rpm_read_int32 (x ++ be_bytes n ++ y) (vlen x) = Some (Some n).
Proof.
  intros Hn Hadr. unfold addressable, isize_max in Hadr. rewrite !vlen_app in Hadr.
  change (vlen (be_bytes n)) with 4 in Hadr. pose proof (vlen_nonneg x). pose proof (vlen_nonneg y).
  unfold rpm_read_int32. rewrite uadd_some by (unfold u64_max; lia). cbn [mbind option_bind].
  destruct (Z.ltb_spec (vlen (x ++ be_bytes n ++ y)) (vlen x + 4)) as [Hlt|_].
  { rewrite !vlen_app in Hlt. change (vlen (be_bytes n)) with 4 in Hlt. lia. }
  rewrite u32_at_middle by (done || unfold u64_max; lia). done.
Qed.

Section RpmInfoRead.
Context (i : rpm_info) (Hok : rpm_info_ok i).

Lemma rpm_store_addressable : addressable (rpm_store i).
Proof using Hok. destruct Hok as (_ & _ & Hlen). unfold addressable, isize_max, u32_max in *. lia. Qed.

Lemma read_chunk_string k s : rpm_chunks i !! k = Some (cstr s) -> text_ok s ->
  rpm_read_string (rpm_store i) (vlen (concat (take k (rpm_chunks i)))) = Some s.
Proof using Hok.
  intros Hk Hs. pose proof rpm_store_addressable as Hadr. unfold rpm_store in *.
  rewrite (concat_chunk _ k _ Hk) in *. by apply read_cstr.
Qed.

Lemma read_chunk_int k n : rpm_chunks i !! k = Some (be_bytes n) -> 0 <= n <= u32_max ->
  rpm_read_int32 (rpm_store i) (vlen (concat (take k (rpm_chunks i)))) = Some (Some n).
Proof using Hok.
  intros Hk Hn. pose proof rpm_store_addressable as Hadr. unfold rpm_store in *.
  rewrite (concat_chunk _ k _ Hk) in *. by apply read_be.
Qed.

Lemma rpm_info_read : rpm_info_of (rpm_index i) (rpm_store i) = Some i.
Proof using Hok.
  destruct Hok as (Htext & Hints & _). rewrite !Forall_cons in Htext. rewrite !Forall_cons in Hints. break_ands.
  assert (forall k tag ty, (k, tag, ty) ∈ rpm_tags -> (ty = 6 \/ ty = 9) -> forall s, rpm_chunks i !! k = Some (cstr s) ->
    text_ok s -> rpm_get_string (rpm_index i) (rpm_store i) tag = Some s) as Hs.
  { intros k tag ty Hin Hty s Hk Hs. rewrite <- (read_chunk_string k s Hk Hs). unfold rpm_tags in Hin.
    rewrite !elem_of_cons, elem_of_nil in Hin. destruct_or! Hin; simplify_eq; destruct Hty; done. }
  assert (forall k tag, (k, tag, 4) ∈ rpm_tags -> forall n, rpm_chunks i !! k = Some (be_bytes n) ->
    0 <= n <= u32_max -> rpm_get_int32 (rpm_index i) (rpm_store i) tag = Some (Some n)) as Hn.
  { intros k tag Hin n Hk Hn. rewrite <- (read_chunk_int k n Hk Hn). unfold rpm_tags in Hin.
    rewrite !elem_of_cons, elem_of_nil in Hin. destruct_or! Hin; simplify_eq; done. }
  unfold rpm_info_of. cbv zeta.
  rewrite (Hs 4%nat 1000 6 ltac:(set_solver) ltac:(lia) (ri_name i)) by done. cbn [mbind option_bind].
  rewrite (Hs 5%nat 1001 6 ltac:(set_solver) ltac:(lia) (ri_version i)) by done. cbn [mbind option_bind].
  rewrite (Hs 6%nat 1002 6 ltac:(set_solver) ltac:(lia) (ri_release i)) by done. cbn [mbind option_bind].
  rewrite (Hn 0%nat 1003 ltac:(set_solver) (ri_epoch i)) by done. cbn [mbind option_bind].
  rewrite (Hs 11%nat 1022 6 ltac:(set_solver) ltac:(lia) (ri_arch i)) by done. cbn [mbind option_bind].
  rewrite (Hs 7%nat 1004 9 ltac:(set_solver) ltac:(lia) (ri_summary i)) by done. cbn [mbind option_bind].
  rewrite (Hs 8%nat 1005 9 ltac:(set_solver) ltac:(lia) (ri_description i)) by done. cbn [mbind option_bind].
  rewrite (Hs 10%nat 1020 6 ltac:(set_solver) ltac:(lia) (ri_url i)) by done. cbn [mbind option_bind].
  rewrite (Hs 9%nat 1014 6 ltac:(set_solver) ltac:(lia) (ri_license i)) by done. cbn [mbind option_bind].
  rewrite (Hn 1%nat 1006 ltac:(set_solver) (ri_build_time i)) by done. cbn [mbind option_bind].
  rewrite (Hn 2%nat 1009 ltac:(set_solver) (ri_size i)) by done. cbn [mbind option_bind].
  rewrite (Hn 3%nat 1046 ltac:(set_solver) (ri_archive_size i)) by done. cbn [mbind option_bind].
  by destruct i.
Qed.
End RpmInfoRead.

Lemma vlen_rpm_header reserved entries store : vlen reserved = 5 ->
  vlen (rpm_header reserved entries store) = 16 + 16 * Z.of_nat (length entries) + vlen store.
Proof.
  intros Hres. unfold rpm_header. rewrite !vlen_app, vlen_rpm_entries, Hres.
  change (vlen rpm_header_magic) with 3. change (vlen (be_bytes (Z.of_nat (length entries)))) with 4.
  change (vlen (be_bytes (vlen store))) with 4. lia.
Qed.

Lemma rpm_main_offset_file lead reserved entries store main payload :
  let sig := rpm_header reserved entries store in
  vlen lead = 92 -> rpm_header_ok reserved entries store -> addressable (rpm_file lead sig main payload) ->
  rpm_main_offset (rpm_file lead sig main payload) = Some (Ok (96 + vlen sig + vlen (rpm_padding sig))).
Proof.
  intros sig Hlead (Hres & Hnum & Hstore & Hall) Hadr. unfold addressable, isize_max, u32_max in *.
  pose proof (vlen_rpm_header reserved entries store Hres) as Hsig. fold sig in Hsig.
  pose proof (vlen_nonneg store). pose proof (vlen_nonneg main). pose proof (vlen_nonneg payload).
  pose proof (vlen_nonneg (rpm_padding sig)).
  set (n := Z.of_nat (length entries)) in *. set (idx := concat (rpm_entry_bytes <$> entries)).
  set (rest := idx ++ store ++ rpm_padding sig ++ main ++ payload).
  assert (rpm_file lead sig main payload =
          (rpm_lead_magic ++ lead) ++ rpm_header_magic ++ reserved ++ be_bytes n ++ be_bytes (vlen store) ++ rest) as Hfile.
  { unfold rpm_file, sig, rpm_header, rest, idx, n. by rewrite <- !(assoc_L (++)). }
  assert (vlen (rpm_lead_magic ++ lead) = 96) as Hlm by (by rewrite vlen_app, Hlead).
  assert (112 <= vlen (rpm_file lead sig main payload)) as H112.
  { rewrite Hfile, !vlen_app, Hlead, Hres. pose proof (vlen_nonneg rest). change (vlen rpm_lead_magic) with 4.
    change (vlen rpm_header_magic) with 3. change (vlen (be_bytes n)) with 4. change (vlen (be_bytes (vlen store))) with 4. lia. }
  unfold rpm_main_offset. cbv zeta. destruct (Z.ltb_spec (vlen (rpm_file lead sig main payload)) (96 + 16)); [lia|].
  assert (slice 96 (96 + 3) (rpm_file lead sig main payload) = Some rpm_header_magic) as ->.
  { rewrite Hfile. apply slice_middle; [done|done]. }
  cbn [mbind option_bind]. rewrite bool_decide_true by done. cbn [negb].
  assert (u32_at (96 + 8) (rpm_file lead sig main payload) = Some n) as ->.
  { rewrite Hfile, (assoc_L (++) (_ ++ _)), (assoc_L (++) ((_ ++ _) ++ _)).
    apply u32_at_middle; [|unfold u64_max; lia|unfold u32_max; lia]. rewrite !vlen_app, Hlead, Hres. done. }
  cbn [mbind option_bind].
  assert (u32_at (96 + 12) (rpm_file lead sig main payload) = Some (vlen store)) as ->.
  { rewrite Hfile, (assoc_L (++) (_ ++ _)), (assoc_L (++) ((_ ++ _) ++ _)), (assoc_L (++) (((_ ++ _) ++ _) ++ _)).
    apply u32_at_middle; [|unfold u64_max; lia|unfold u32_max; lia]. rewrite !vlen_app, Hlead, Hres. done. }
  cbn [mbind option_bind]. rewrite umul_some by (unfold u64_max; lia). cbn [mbind option_bind].
  rewrite (uadd_some 16) by (unfold u64_max; lia). cbn [mbind option_bind].
  rewrite (uadd_some (16 + 16 * n)) by (unfold u64_max; lia). cbn [mbind option_bind].
  rewrite (uadd_some 96) by (unfold u64_max; lia). cbn [mbind option_bind].
  rewrite <- Hsig. pose proof (Z.mod_pos_bound (8 - (96 + vlen sig) mod 8) 8 ltac:(lia)).
  rewrite uadd_some by (unfold u64_max; lia). cbn [mbind option_bind].
  do 2 f_equal. unfold rpm_padding, vlen at 4. rewrite repeat_length. lia.
Qed.

(** ** Lemmas: XML *)

Definition xml_char (c : ascii) : string :=
  if Ascii.eqb c "&" then "&amp;" else if Ascii.eqb c "<" then "&lt;" else if Ascii.eqb c ">" then "&gt;"
  else if Ascii.eqb c "034" then "&quot;" else if Ascii.eqb c "'" then "&apos;" else String c "".

Lemma replace_app c by_ a b : replace c by_ (a ++ b) = (replace c by_ a ++ replace c by_ b)%string.
Proof.
  induction a as [|d a IH]; [done|]. change (String d a ++ b)%string with (String d (a ++ b)). cbn [replace].
  destruct (Ascii.eqb d c); rewrite IH; [by rewrite str_app_assoc|done].
Qed.

Lemma xml_escape_app a b : xml_escape (a ++ b) = (xml_escape a ++ xml_escape b)%string.
Proof. unfold xml_escape. by rewrite !replace_app. Qed.

Lemma xml_escape_char c : xml_escape (String c "") = xml_char c.
Proof.
  destruct c as [b0 b1 b2 b3 b4 b5 b6 b7].
  destruct b0, b1, b2, b3, b4, b5, b6, b7; reflexivity.
Qed.

Lemma xml_escape_cons c s : xml_escape (String c s) = (xml_char c ++ xml_escape s)%string.
Proof. change (String c s) with (String c "" ++ s)%string. by rewrite xml_escape_app, xml_escape_char. Qed.

(** What a reader of the XML makes of the text: the five entities, any other
    character stands for itself. *)
Fixpoint xml_unescape (fuel : nat) (s : string) : string :=
  match fuel, s with
  | O, _ | _, EmptyString => ""%string
  | S f, String c s' =>
      if Ascii.eqb c "&" then
        match strip_prefix "amp;" s', strip_prefix "lt;" s', strip_prefix "gt;" s',
              strip_prefix "quot;" s', strip_prefix "apos;" s' with
        | Some t, _, _, _, _ => String "&" (xml_unescape f t)
        | _, Some t, _, _, _ => String "<" (xml_unescape f t)
        | _, _, Some t, _, _ => String ">" (xml_unescape f t)
        | _, _, _, Some t, _ => String "034" (xml_unescape f t)
        | _, _, _, _, Some t => String "'" (xml_unescape f t)
        | _, _, _, _, _ => String c (xml_unescape f s')
        end
      else String c (xml_unescape f s')
  end.

Lemma xml_unescape_char f c s : xml_unescape (S f) (xml_char c ++ s) = String c (xml_unescape f s).
Proof.
  unfold xml_char.
  destruct (Ascii.eqb_spec c "&") as [->|Hamp]; [done|]. destruct (Ascii.eqb_spec c "<") as [->|_]; [done|].
  destruct (Ascii.eqb_spec c ">") as [->|_]; [done|]. destruct (Ascii.eqb_spec c "034") as [->|_]; [done|].
  destruct (Ascii.eqb_spec c "'") as [->|_]; [done|]. cbn [String.append xml_unescape].
  by destruct (Ascii.eqb_spec c "&").
Qed.

Definition xml_safe (c : ascii) : bool :=
  negb (Ascii.eqb c "<" || Ascii.eqb c ">" || Ascii.eqb c "034" || Ascii.eqb c "'").

Lemma xml_char_safe c : str_forallb xml_safe (xml_char c) = true.
Proof.
  destruct c as [b0 b1 b2 b3 b4 b5 b6 b7].
  destruct b0, b1, b2, b3, b4, b5, b6, b7; reflexivity.
Qed.

(** ** Lemmas: .PKGINFO *)

Definition kv_line (kv : string * string) : string := (kv.1 ++ " = " ++ kv.2)%string.
Fixpoint print_keyvalues (kvs : list (string * string)) : string :=
  match kvs with [] => ""%string | kv :: kvs' => (kv_line kv ++ nl ++ print_keyvalues kvs')%string end.

Definition pkg_key_ok (k : string) : bool :=
  negb (starts_with "#" k) && negb (String.eqb k "") && str_forallb (fun c => is_graphic c && negb (Ascii.eqb c "=")) k.
Definition pkg_val_ok (v : string) : bool := graphic_ends v && negb (String.eqb v "") && no_nl v.
Definition keyvalue_ok (kv : string * string) : Prop := pkg_key_ok kv.1 = true /\ pkg_val_ok kv.2 = true.

Lemma graphic_ends_last s c : graphic_ends (s ++ String c "") = true -> is_graphic c = true.
Proof.
  unfold graphic_ends. rewrite str_rev_concat. cbn [str_rev str_rev_app String.append starts_graphic].
  by rewrite andb_true_iff; intros [_ ?].
Qed.

Lemma kv_line_plain kv : keyvalue_ok kv -> plain_line (kv_line kv) = true /\ graphic_ends (kv_line kv) = true.
Proof.
  destruct kv as [k v]. unfold keyvalue_ok, pkg_key_ok, pkg_val_ok, kv_line. cbn [fst snd].
  rewrite !andb_true_iff, !negb_true_iff. intros ([[_ Hkne] Hk] & [Hg Hvne] & Hnl).
  destruct (str_last_cases v) as [->|(v' & c & ->)]; [done|].
  pose proof (graphic_ends_last _ _ Hg) as Hc.
  assert (k ++ " = " ++ v' ++ String c "" = (k ++ " = " ++ v') ++ String c "")%string as Heq by (by rewrite !str_app_assoc).
  split.
  - unfold plain_line. rewrite andb_true_iff. split.
    + unfold no_nl in *. rewrite !str_forallb_app in *. apply andb_true_iff in Hnl as [-> ->].
      rewrite !andb_true_r. eapply str_forallb_impl; [|exact Hk]. intros d. unfold is_graphic, in_range, is_nl.
      rewrite !andb_true_iff, !negb_true_iff, Z.eqb_neq, !Z.leb_le. lia.
    + rewrite Heq, strip_suffix_last. destruct (Ascii.eqb_spec "013" c) as [<-|]; done.
  - destruct k as [|d k]; [done|]. unfold graphic_ends. rewrite andb_true_iff. split.
    + change (String d k ++ " = " ++ v' ++ String c "")%string with (String d (k ++ " = " ++ v' ++ String c "")).
      cbn [starts_graphic]. cbn [str_forallb] in Hk. rewrite !andb_true_iff in Hk. by destruct Hk as [[? _] _].
    + rewrite Heq, str_rev_concat. cbn [str_rev str_rev_app String.append starts_graphic]. done.
Qed.

Lemma trim_kv_key k : str_forallb is_graphic k = true -> trim (k ++ " ") = k.
Proof. intros Hk. apply (trim_pad k 1). by apply graphic_all_ends. Qed.

Lemma keyvalue_line_ok kv fields : keyvalue_ok kv -> keyvalue_line fields (kv_line kv) = bt_insert kv.1 kv.2 fields.
Proof.
  intros Hkv. destruct (kv_line_plain kv Hkv) as [_ Hg]. destruct kv as [k v]. destruct Hkv as [Hk Hv].
  unfold keyvalue_line. rewrite trim_graphic by done. unfold kv_line. cbn [fst snd] in *.
  unfold pkg_key_ok, pkg_val_ok in *. rewrite !andb_true_iff, !negb_true_iff in *.
  destruct Hk as [[Hhash Hkne] Hkg], Hv as [[Hvg _] _].
  assert (str_forallb is_graphic k = true) as Hkgr.
  { eapply str_forallb_impl; [|exact Hkg]. intros c. by rewrite andb_true_iff; intros [? _]. }
  destruct k as [|c k]; [done|].
  change (String c k ++ " = " ++ v)%string with (String c (k ++ " = " ++ v)). cbn [String.eqb orb].
  assert (starts_with "#" (String c (k ++ " = " ++ v)) = false) as ->.
  { unfold starts_with in *. cbn [strip_prefix] in *. by destruct (Ascii.eqb "#" c). }
  change (String c (k ++ " = " ++ v))%string with (String c k ++ String " " (String "=" (String " " v)))%string.
  assert (String c k ++ String " " (String "=" (String " " v)) = (String c k ++ " ") ++ String "=" (String " " v))%string
    as -> by (by rewrite str_app_assoc).
  rewrite split_once_app.
  2:{ rewrite str_forallb_app, andb_true_r. eapply str_forallb_impl; [|exact Hkg]. intros d.
      by rewrite andb_true_iff; intros [_ ?]. }
  rewrite trim_kv_key by done. rewrite Hkne, trim_space_cons, trim_graphic by done. done.
Qed.

Lemma parse_keyvalue_lines kvs m : Forall keyvalue_ok kvs ->
  foldl keyvalue_line m (lines (print_keyvalues kvs)) = foldl (fun m p => bt_insert p.1 p.2 m) m kvs.
Proof.
  intros Hkvs. revert m. induction Hkvs as [|kv kvs Hkv _ IH]; intros m; [done|]. cbn [print_keyvalues].
  rewrite lines_cons by (by apply kv_line_plain). cbn [foldl]. by rewrite keyvalue_line_ok, IH.
Qed.

(** ** Theorems *)

(** C21. No content makes a parser panic, overflow or run for ever: of any file that
    fits in memory the readers of .deb, .rpm and .apk return a package or an error,
    whatever the decompressors and the tar reader answer. *)
Theorem parsers_never_panic gunzip unxz unzstd untar gz_consumed sha1_base64 untar_multi_gz file :
  (forall data, file = Ok data -> addressable data) -> (forall s, 0 <= gz_consumed s <= vlen s) ->
  (exists r, parse_deb_control gunzip unxz unzstd untar file = Some r) /\
  (exists r, parse_rpm file = Some r) /\
  (exists r, parse_apk gz_consumed sha1_base64 untar_multi_gz file = Some r).
Proof.
  intros Hadr Hgz. split_and!; [|by apply parse_rpm_total|].
  - unfold parse_deb_control. destruct file as [data|e]; [|eauto].
    destruct (parse_ar_total data (Hadr data eq_refl)) as [es ->]. cbn [mbind option_bind]. eauto.
  - unfold parse_apk. destruct file as [data|e]; [|eauto]. destruct (read_entry _ _ _) as [content|e]; [|eauto].
    unfold compute_apk_control_checksum. specialize (Hadr data eq_refl).
    destruct (find_boundaries_total gz_consumed data Hgz Hadr) as (r & Hr & Hoffs). rewrite Hr. cbn [mbind option_bind].
    destruct r as [offsets|e]; [|eauto]. destruct offsets as [|o0 [|o1 offsets]]; [eauto|simpl; eauto|].
    destruct Hoffs as (_ & Hsort & Hok). rewrite !Forall_cons in Hok. destruct Hok as (_ & Ho1 & Hok).
    cbn [length Nat.ltb Nat.leb]. unfold control_stream. cbn [lookup list_lookup mbind option_bind].
    destruct Ho1 as (Hpos & Hle & _). destruct offsets as [|o2 offsets]; cbn [lookup list_lookup default from_option].
    + unfold id. rewrite slice_some by lia. cbn [mbind option_bind]. eauto.
    + rewrite Forall_cons in Hok. destruct Hok as [(_ & Hle2 & _) _].
      apply StronglySorted_inv in Hsort as [Hsort _]. apply StronglySorted_inv in Hsort as [_ H12].
      rewrite Forall_cons in H12. destruct H12 as [Hlt _].
      unfold id. rewrite slice_some by lia. cbn [mbind option_bind]. eauto.
Qed.

(** C22. A .deb reads back as it was packed: of an ar archive whose first member named
    control.tar* decompresses to a tar archive in which the first entry called
    control holds well-formed fields, exactly those fields are returned, and every
    named one with its value. *)
Theorem deb_roundtrip gunzip unxz unzstd untar ms pre m post tar_data others path fields entries :
  Forall ar_member_ok ms -> addressable (ar_archive ms) -> ms = pre ++ m :: post ->
  Forall (fun m' => starts_with "control.tar" (ar_name m'.2) = false) pre ->
  starts_with "control.tar" (ar_name m.2) = true ->
  decompress_tar gunzip unxz unzstd (ar_data m.2) (ar_name m.2) = Ok tar_data ->
  untar tar_data = others ++ Ok (path, Ok (as_bytes (print_fields fields))) :: entries ->
  Forall (fun e => exists p c, e = Ok (p, c) /\ trim_start_matches_str "./" p <> "control"%string) others ->
  trim_start_matches_str "./" path = "control"%string ->
  fields_ok fields -> fields <> [] -> is_utf8 (as_bytes (print_fields fields)) = true ->
  parse_deb_control gunzip unxz unzstd untar (Ok (ar_archive ms)) = Some (Ok (control_of fields)).
Proof.
  intros Hms Hadr -> Hpre Hm Hdec Huntar Hothers Hpath Hok Hne Hutf. unfold parse_deb_control.
  rewrite parse_ar_archive by done. cbn [mbind option_bind].
  assert (List.find (fun e => starts_with "control.tar" (ar_name e)) (snd <$> pre ++ m :: post) = Some m.2) as ->.
  { rewrite fmap_app, fmap_cons. clear -Hpre Hm. induction Hpre as [|m' pre Hm' _ IH]; cbn [fmap list_fmap app List.find]; [by rewrite Hm|].
    by rewrite Hm'. }
  rewrite Hdec. cbn [result_bind]. rewrite Huntar. unfold read_entry.
  assert (find_entry "control" (others ++ Ok (path, Ok (as_bytes (print_fields fields))) :: entries) =
          Ok (print_fields fields)) as ->.
  { clear -Hothers Hpath Hutf. induction Hothers as [|e others (p & c & -> & Hp) _ IH]; cbn [app find_entry].
    - rewrite Hpath. cbn [String.eqb Ascii.eqb Bool.eqb]. unfold read_to_string. cbn [result_bind].
      by rewrite Hutf, of_as_bytes.
    - by destruct (String.eqb_spec (trim_start_matches_str "./" p) "control"). }
  cbn [result_bind]. destruct (String.eqb_spec (print_fields fields) "") as [He|_].
  { exfalso. destruct fields as [|[k v] fields]; [done|]. cbn [print_fields] in He. by destruct k. }
  cbn [result_bind]. by rewrite control_fields_roundtrip.
Qed.

(** C23. An RPM reads back as it was packed: the signature header may have any
    entries; the main header is found behind it at the next multiple of eight, and
    all twelve tags come back. *)
Theorem rpm_roundtrip lead sig_reserved sig_entries sig_store reserved i payload :
  let sig := rpm_header sig_reserved sig_entries sig_store in
  let file := rpm_file lead sig (rpm_header reserved (rpm_index i) (rpm_store i)) payload in
  vlen lead = 92 -> rpm_header_ok sig_reserved sig_entries sig_store -> vlen reserved = 5 ->
  rpm_info_ok i -> addressable file ->
  parse_rpm (Ok file) = Some (Ok i).
Proof.
  intros sig file Hlead Hsig Hres Hi Hadr.
  set (main := rpm_header reserved (rpm_index i) (rpm_store i)) in *.
  set (prefix := rpm_lead_magic ++ lead ++ sig ++ rpm_padding sig).
  assert (file = prefix ++ main ++ payload) as Hfile by (unfold file, rpm_file, prefix; by rewrite <- !(assoc_L (++))).
  assert (vlen prefix = 96 + vlen sig + vlen (rpm_padding sig)) as Hprefix.
  { unfold prefix. rewrite !vlen_app, Hlead. change (vlen rpm_lead_magic) with 4. lia. }
  unfold parse_rpm. destruct (Z.ltb_spec (vlen file) 96) as [Hl|_].
  { rewrite Hfile, vlen_app, Hprefix in Hl. pose proof (vlen_nonneg sig). pose proof (vlen_nonneg (rpm_padding sig)).
    pose proof (vlen_nonneg (main ++ payload)). lia. }
  assert (slice 0 4 file = Some rpm_lead_magic) as -> by (by apply (slice_middle [] rpm_lead_magic)).
  cbn [mbind option_bind]. rewrite bool_decide_true by done. cbn [negb].
  unfold file, sig. rewrite rpm_main_offset_file by done. fold sig. cbn [mbind option_bind].
  fold file. rewrite <- Hprefix, Hfile. unfold main. destruct Hi as (Htext & Hints & Hlen).
  rewrite read_rpm_header_image; [|split_and!|by rewrite Hfile in Hadr].
  - cbn [mbind option_bind]. by rewrite rpm_info_read.
  - done.
  - by unfold rpm_index; rewrite length_fmap.
  - done.
  - unfold rpm_index. apply Forall_fmap, Forall_forall. intros [[k tag] ty] Hin. simpl.
    assert (0 <= tag <= u32_max /\ 0 <= ty <= u32_max) as [? ?].
    { unfold rpm_tags in Hin. rewrite !elem_of_cons, elem_of_nil in Hin. unfold u32_max.
      destruct_or! Hin; simplify_eq; lia. }
    split_and!; try (done || lia); [apply vlen_nonneg|].
    etrans; [|exact Hlen]. unfold rpm_store. rewrite <- (take_drop k (rpm_chunks i)) at 2.
    rewrite concat_app, vlen_app. pose proof (vlen_nonneg (concat (drop k (rpm_chunks i)))). lia.
Qed.

(** Escaped text holds no angle bracket and no quote, and an XML reader gets the
    text back, whatever it is. *)
Theorem xml_escape_spec s :
  str_forallb xml_safe (xml_escape s) = true /\ xml_unescape (String.length s) (xml_escape s) = s.
Proof.
  split.
  - induction s as [|c s IH]; [done|]. by rewrite xml_escape_cons, str_forallb_app, xml_char_safe, IH.
  - induction s as [|c s IH]; [done|]. cbn [String.length]. by rewrite xml_escape_cons, xml_unescape_char, IH.
Qed.

(** A .PKGINFO is read as a map in which the last of several lines with one key
    wins: of a package with two dependencies (one "depend" line each) the first is
    lost; keys that occur once come back with their values. *)
Theorem pkginfo_last_line_wins kvs :
  Forall keyvalue_ok kvs ->
  parse_keyvalue (print_keyvalues kvs) = bt_of_list kvs /\
  (bt_wf kvs -> parse_keyvalue (print_keyvalues kvs) = kvs) /\
  (forall k v w, pkg_key_ok k = true -> pkg_val_ok v = true -> pkg_val_ok w = true ->
     field (parse_keyvalue (print_keyvalues (kvs ++ [(k, v); (k, w)]))) k = w).
Proof.
  intros Hkvs. unfold parse_keyvalue. split_and!.
  - by apply parse_keyvalue_lines.
  - intros Hwf. rewrite parse_keyvalue_lines by done. by apply bt_of_list_id.
  - intros k v w Hk Hv Hw. rewrite parse_keyvalue_lines.
    + rewrite foldl_app. cbn [foldl fst snd]. unfold field. by rewrite bt_get_insert.
    + apply Forall_app. split; [done|]. by repeat constructor.
Qed.

(** ** Witnesses *)

Definition toy_fields : btree string string :=
  [("Depends", "libc6"); ("Description", "agent" ++ nl ++ " keeps hosts patched" ++ nl ++ " .");
   ("Package", "linux-patch-api"); ("Version", "2.6.10")]%string.
Definition toy_meta : vec_u8 := repeat " "%char 32.
Definition toy_members : list (vec_u8 * ar_entry) :=
  [(toy_meta, ArEntry "debian-binary" (as_bytes ("2.0" ++ nl)));
   (toy_meta, ArEntry "control.tar" (as_bytes (print_fields toy_fields)))].
Definition toy_control_tar (v : vec_u8) : tar_read := [Ok ("./"%string, Ok []); Ok ("./control"%string, Ok v)].
Definition toy_rpm : rpm_info :=
  RpmInfo "linux-patch-api" "2.6.10" "1" 0 "x86_64" "Agent" "Keeps hosts & services patched" "https://example.org" "MIT" 1700000000 42 0.
Definition toy_lead : vec_u8 := repeat "000"%char 92.
Definition toy_reserved : vec_u8 := repeat "001"%char 5.
Definition toy_rpm_file : vec_u8 :=
  rpm_file toy_lead (rpm_header toy_reserved [(62, 7, 0, 16)] (as_bytes "0123456789abcdef!"))
    (rpm_header toy_reserved (rpm_index toy_rpm) (rpm_store toy_rpm)) (as_bytes "payload").

Lemma parsers_never_panic_witness :
  (exists r, parse_deb_control Ok Ok Ok toy_control_tar (Ok toy_rpm_file) = Some r) /\
  (exists r, parse_rpm (Ok toy_rpm_file) = Some r) /\
  (exists r, parse_apk toy_consumed (fun _ => "AAAA"%string) toy_untar (Ok toy_rpm_file) = Some r).
Proof.
  apply parsers_never_panic.
  - intros data [= <-]. unfold addressable. vm_compute. done.
  - intros s. unfold toy_consumed. pose proof (vlen_nonneg s). lia.
Defined.

Lemma deb_roundtrip_witness :
  parse_deb_control Ok Ok Ok toy_control_tar (Ok (ar_archive toy_members)) = Some (Ok (control_of toy_fields)).
Proof.
  apply (deb_roundtrip Ok Ok Ok toy_control_tar toy_members (take 1 toy_members)
           (toy_meta, ArEntry "control.tar" (as_bytes (print_fields toy_fields))) []
           (as_bytes (print_fields toy_fields)) [Ok ("./"%string, Ok [])] "./control" toy_fields []).
  - repeat (constructor; [vm_compute; split_and!; (reflexivity || lia)|]). constructor.
  - unfold addressable. vm_compute. done.
  - reflexivity.
  - repeat constructor.
  - reflexivity.
  - reflexivity.
  - reflexivity.
  - constructor; [|constructor]. exists "./"%string, (Ok []). split; [reflexivity|vm_compute; discriminate].
  - reflexivity.
  - split; [repeat constructor|]. repeat (constructor; [vm_compute; split; reflexivity|]). constructor.
  - discriminate.
  - vm_compute. reflexivity.
Defined.

Lemma rpm_roundtrip_witness : parse_rpm (Ok toy_rpm_file) = Some (Ok toy_rpm).
Proof.
  apply (rpm_roundtrip toy_lead toy_reserved [(62, 7, 0, 16)] (as_bytes "0123456789abcdef!") toy_reserved toy_rpm (as_bytes "payload")).
  - reflexivity.
  - split_and!; [reflexivity|vm_compute; discriminate|vm_compute; discriminate|].
    constructor; [unfold u32_max; lia|constructor].
  - reflexivity.
  - split_and!.
    + repeat (constructor; [vm_compute; split; reflexivity|]). constructor.
    + repeat (constructor; [unfold u32_max; simpl; lia|]). constructor.
    + vm_compute. discriminate.
  - unfold addressable. vm_compute. discriminate.
Defined.

Lemma pkginfo_last_line_wins_witness :
  parse_keyvalue (print_keyvalues [("arch", "x86_64"); ("pkgname", "agent")]%string) = bt_of_list [("arch", "x86_64"); ("pkgname", "agent")]%string /\
  (bt_wf [("arch", "x86_64"); ("pkgname", "agent")]%string ->
   parse_keyvalue (print_keyvalues [("arch", "x86_64"); ("pkgname", "agent")]%string) = [("arch", "x86_64"); ("pkgname", "agent")]%string) /\
  (forall k v w, pkg_key_ok k = true -> pkg_val_ok v = true -> pkg_val_ok w = true ->
     field (parse_keyvalue (print_keyvalues ([("arch", "x86_64"); ("pkgname", "agent")]%string ++ [(k, v); (k, w)]))) k = w).
Proof.
  apply pkginfo_last_line_wins. repeat (constructor; [split; reflexivity|]). constructor.
Defined.
