(* ===== verification/RepoWorld.v ===== *)
(** * The package repository's surroundings

    What the repository code acts on: the disk (a finite map from paths to
    contents and a set of directories), the tables [repo_packages] and
    [repo_sync_log], GitHub, GnuPG and the clock, as one effect type with its
    semantics; and the libraries it calls as a record of functions.  Names of
    files are taken to be UTF-8. *)

From S2P Require Import Prelude Ordering Buffers ApkSign PkgFormats Conc.

(** [GithubAsset], [GithubRelease] (repo_sync.rs). *)
Record github_asset : Type := GithubAsset { ga_name : string; ga_url : string; ga_size : Z }.
Record github_release : Type := GithubRelease {
  gr_tag_name : string; gr_prerelease : bool; gr_assets : list github_asset; gr_published_at : option Z
}.

(** [SyncedPackage]: also the columns of [repo_packages] but for its ids, the
    architecture (always amd64) and the source. *)
Record synced_package : Type := SyncedPackage {
  sp_filename : string; sp_version : string; sp_distro : string; sp_codename : option string;
  sp_file_size : Z; sp_sha256 : option string; sp_published_at : option Z
}.
#[export] Instance synced_package_eq_dec : EqDecision synced_package.
Proof. solve_decision. Defined.

(** [ExistingPackage]: what [SELECT filename, version, distro, sha256] yields. *)
Record existing_package : Type := ExistingPackage {
  ex_filename : string; ex_version : string; ex_distro : string; ex_sha256 : option string
}.
Definition existing_of (p : synced_package) : existing_package :=
  ExistingPackage (sp_filename p) (sp_version p) (sp_distro p) (sp_sha256 p).

(** A row of [repo_sync_log]. *)
Record sync_log : Type := SyncLog {
  sl_triggered_by : string; sl_status : string; sl_synced : Z; sl_skipped : Z; sl_error : option string
}.

(** The SQL statements of package_sync_worker.rs and repo_admin.rs. *)
Inductive repo_stmt : Type -> Type :=
| InsSyncLog (triggered_by : string) : repo_stmt (result uuid string)
| SelExisting : repo_stmt (result (list existing_package) string)
| UpsertPackage (p : synced_package) : repo_stmt (result unit string)
| UpdSyncLog (id : uuid) (status : string) (synced skipped : Z) (error : option string) : repo_stmt (result unit string)
| UpdSyncFailed (id : uuid) (error : string) : repo_stmt (result unit string)
| SelPackages : repo_stmt (result (list (uuid * synced_package)) string)
| SelPackagesIn (ids : list uuid) : repo_stmt (result (list (uuid * synced_package)) string)
| DelPackage (id : uuid) : repo_stmt (result unit string)
| SelAutoSync : repo_stmt (result (option (option string)) string)
| UpsAutoSync (value : string) : repo_stmt (result unit string).

(** [io::Error]: the one kind that is asked for, and the others. *)
Inductive io_error : Type := NotFound | IoError (e : string).

Inductive repo_eff : Type -> Type :=
| FsRead (path : string) : repo_eff (result vec_u8 string)
| FsWrite (path : string) (data : vec_u8) : repo_eff (result unit string)
| FsCreateDirAll (path : string) : repo_eff (result unit string)
(** The names of the entries, and whether each is a directory. *)
| FsReadDir (path : string) : repo_eff (result (list (string * bool)) string)
| FsExists (path : string) : repo_eff bool
| FsCopy (src dst : string) : repo_eff (result unit string)
| FsRename (src dst : string) : repo_eff (result unit string)
| FsRemoveFile (path : string) : repo_eff (result unit io_error)
| FsRemoveDirAll (path : string) : repo_eff (result unit string)
(** Modification time in seconds, zero if unknown. *)
| FsModified (path : string) : repo_eff Z
(** The size of a file. *)
| FsLen (path : string) : repo_eff (result Z string)
| UtcNow : repo_eff Z
| EnvVar (name : string) : repo_eff (option string)
| GpgClearsign (src dst : string) : repo_eff (result unit string)
| GpgDetached (src dst : string) (armor : bool) : repo_eff (result unit string)
| HttpReleases (repo : string) (per_page : Z) : repo_eff (result (list github_release) string)
| HttpGet (url : string) : repo_eff (result vec_u8 string)
(** [log_event] of a changed setting. *)
| LogConfigChanged (actor : uuid) (username key : string) (value : bool) : repo_eff unit
| RepoSql {X} (q : repo_stmt X) : repo_eff X.

(** The disk and the tables. *)
Record repo_world : Type := RepoWorld {
  rw_files : gmap string vec_u8;
  rw_dirs : gset string;
  rw_packages : gmap uuid synced_package;
  rw_sync_log : gmap uuid sync_log;
  rw_auto_sync : option (option string)
}.
Definition with_files (f : gmap string vec_u8 -> gmap string vec_u8) (w : repo_world) : repo_world :=
  RepoWorld (f (rw_files w)) (rw_dirs w) (rw_packages w) (rw_sync_log w) (rw_auto_sync w).
Definition with_dirs (f : gset string -> gset string) (w : repo_world) : repo_world :=
  RepoWorld (rw_files w) (f (rw_dirs w)) (rw_packages w) (rw_sync_log w) (rw_auto_sync w).
Definition with_packages (f : gmap uuid synced_package -> gmap uuid synced_package) (w : repo_world) : repo_world :=
  RepoWorld (rw_files w) (rw_dirs w) (f (rw_packages w)) (rw_sync_log w) (rw_auto_sync w).
Definition with_sync_log (f : gmap uuid sync_log -> gmap uuid sync_log) (w : repo_world) : repo_world :=
  RepoWorld (rw_files w) (rw_dirs w) (rw_packages w) (f (rw_sync_log w)) (rw_auto_sync w).
Definition with_auto_sync (v : option (option string)) (w : repo_world) : repo_world :=
  RepoWorld (rw_files w) (rw_dirs w) (rw_packages w) (rw_sync_log w) v.

(** [q] names an entry of the directory [p]. *)
Definition child (p q : string) : option string :=
  n ← strip_prefix (p ++ "/") q;
  if String.eqb n "" || contains_char "/" n then None else Some n.

(** [p] or something in it. *)
Definition within (p q : string) : bool := String.eqb p q || starts_with (p ++ "/") q.

(** A directory and the ones it lies in. *)
Fixpoint ancestors_from (acc p : string) : list string :=
  match p with
  | EmptyString => [str_rev acc]
  | String c p' =>
      (if Ascii.eqb c "/" && negb (String.eqb acc "") then [str_rev acc] else []) ++ ancestors_from (String c acc) p'
  end.
Definition ancestors (p : string) : list string := ancestors_from "" p.

Definition listing (p : string) (w : repo_world) : list (string * bool) :=
  omap (fun kv => (fun n => (n, false)) <$> child p kv.1) (map_to_list (rw_files w)) ++
  omap (fun q => (fun n => (n, true)) <$> child p q) (elements (rw_dirs w)).

(** [ON CONFLICT (filename, version, distro, arch) DO UPDATE] *)
Definition same_package (p q : synced_package) : bool :=
  String.eqb (sp_filename p) (sp_filename q) && String.eqb (sp_version p) (sp_version q) && String.eqb (sp_distro p) (sp_distro q).
Definition upsert_package (id : uuid) (p : synced_package) (t : gmap uuid synced_package) : gmap uuid synced_package :=
  if existsb (same_package p) (snd <$> map_to_list t)
  then (fun q => if same_package p q then p else q) <$> t
  else <[id := p]> t.

Definition finish_log (status : string) (synced skipped : Z) (error : option string) (l : sync_log) : sync_log :=
  SyncLog (sl_triggered_by l) status synced skipped error.

(** Statements succeed; new rows get ids that are not in use. *)
Definition exec_repo_stmt {X} (q : repo_stmt X) (w : repo_world) (x : X) (w' : repo_world) : Prop :=
  match q in repo_stmt X return X -> Prop with
  | InsSyncLog by_ => fun x => exists id, rw_sync_log w !! id = None /\ x = Ok id /\
      w' = with_sync_log (<[id := SyncLog by_ "running" 0 0 None]>) w
  | SelExisting => fun x => w' = w /\ exists l, l ≡ₚ (existing_of ∘ snd <$> map_to_list (rw_packages w)) /\ x = Ok l
  | UpsertPackage p => fun x => x = Ok tt /\ exists id, rw_packages w !! id = None /\
      w' = with_packages (upsert_package id p) w
  | UpdSyncLog id status synced skipped error => fun x => x = Ok tt /\
      w' = with_sync_log (alter (finish_log status synced skipped error) id) w
  | UpdSyncFailed id error => fun x => x = Ok tt /\
      w' = with_sync_log (alter (fun l => finish_log "failed" (sl_synced l) (sl_skipped l) (Some error) l) id) w
  | SelPackages => fun x => w' = w /\ exists l, l ≡ₚ map_to_list (rw_packages w) /\ x = Ok l
  | SelPackagesIn ids => fun x => w' = w /\
      exists l, l ≡ₚ List.filter (fun kv => bool_decide (kv.1 ∈ ids)) (map_to_list (rw_packages w)) /\ x = Ok l
  | DelPackage id => fun x => x = Ok tt /\ w' = with_packages (delete id) w
  | SelAutoSync => fun x => w' = w /\ x = Ok (rw_auto_sync w)
  | UpsAutoSync v => fun x => x = Ok tt /\ w' = with_auto_sync (Some (Some v)) w
  end x.

(** A write that failed has left the file as it was, or with anything in it. *)
Definition touched (dst : string) (w w' : repo_world) : Prop :=
  w' = w \/ exists d, w' = with_files (<[dst := d]>) w.

(** Writing to the disk may fail at any time (no room, no permission, a missing
    directory): of a file that is written or copied anything may be there, of a
    directory and those it lies in some may have been made, and a rename or a
    removal has not happened.  What is on the disk can be read, and directories
    can be removed.  Listings come in any order; GnuPG, GitHub, the clock, the
    environment and modification times answer anything. *)
#[export] Instance repo_sem : EffectSem repo_eff repo_world := fun X e w x w' =>
  match e in repo_eff X return X -> Prop with
  | FsRead p => fun x => w' = w /\
      match rw_files w !! p with Some d => x = Ok d | None => exists err, x = Err err end
  | FsWrite p d => fun x =>
      match x with Ok _ => w' = with_files (<[p := d]>) w | Err _ => touched p w w' end
  | FsCreateDirAll p => fun x =>
      match x with
      | Ok _ => w' = with_dirs (fun ds => list_to_set (ancestors p) ∪ ds) w
      | Err _ => exists made : gset string, made ⊆ list_to_set (ancestors p) /\ w' = with_dirs (fun ds => made ∪ ds) w
      end
  | FsReadDir p => fun x => w' = w /\
      if bool_decide (p ∈ rw_dirs w) then exists l, l ≡ₚ listing p w /\ x = Ok l else exists err, x = Err err
  | FsExists p => fun x => w' = w /\ x = bool_decide (p ∈ dom (rw_files w) \/ p ∈ rw_dirs w)
  | FsCopy src dst => fun x =>
      match rw_files w !! src with
      | Some d => match x with Ok _ => w' = with_files (<[dst := d]>) w | Err _ => touched dst w w' end
      | None => w' = w /\ exists err, x = Err err
      end
  | FsRename src dst => fun x =>
      match rw_files w !! src with
      | Some d => match x with Ok _ => w' = with_files (fun fs => <[dst := d]> (delete src fs)) w | Err _ => w' = w end
      | None => w' = w /\ exists err, x = Err err
      end
  | FsRemoveFile p => fun x =>
      match rw_files w !! p with
      | Some _ =>
          match x with
          | Ok _ => w' = with_files (delete p) w
          | Err NotFound => False
          | Err (IoError _) => w' = w
          end
      | None => w' = w /\ x = Err NotFound
      end
  | FsRemoveDirAll p => fun x =>
      if bool_decide (p ∈ rw_dirs w) then
        x = Ok tt /\ w' = with_dirs (filter (fun q => within p q = false))
                            (with_files (filter (fun kv => within p kv.1 = false)) w)
      else w' = w /\ exists err, x = Err err
  | FsModified _ | UtcNow => fun x => w' = w
  | FsLen p => fun x => w' = w /\
      match rw_files w !! p with Some d => x = Ok (vlen d) | None => exists err, x = Err err end
  | LogConfigChanged _ _ _ _ => fun x => w' = w
  | EnvVar _ => fun x => w' = w
  | GpgClearsign _ dst | GpgDetached _ dst _ => fun x =>
      match x with
      | Ok _ => exists sig, w' = with_files (<[dst := sig]>) w
      | Err _ => touched dst w w'
      end
  | HttpReleases _ _ => fun x => w' = w
  | HttpGet _ => fun x => w' = w
  | RepoSql q => fun x => exec_repo_stmt q w x w'
  end x.

(** The libraries: decompression, archives, digests, signatures, dates. *)
Record libraries : Type := Libraries {
  lib_gunzip : vec_u8 -> result vec_u8 string;
  lib_unxz : vec_u8 -> result vec_u8 string;
  lib_unzstd : vec_u8 -> result vec_u8 string;
  lib_gzip : vec_u8 -> vec_u8;
  lib_zstd : vec_u8 -> result vec_u8 string;
  lib_gz_consumed : vec_u8 -> Z;
  lib_untar : vec_u8 -> tar_read;
  lib_untar_gz : vec_u8 -> tar_read;
  lib_untar_multi_gz : vec_u8 -> tar_read;
  lib_untar_zst : vec_u8 -> tar_read;
  lib_tar : list tar_entry -> result vec_u8 string;
  lib_md5 : vec_u8 -> string;
  lib_sha1 : vec_u8 -> string;
  lib_sha256 : vec_u8 -> string;
  lib_sha1_base64 : vec_u8 -> string;
  lib_rsa_sign : vec_u8 -> string -> result vec_u8 string;
  lib_http_date : Z -> string
}.

(** ** Lemmas *)

Lemma listing_files p w n : (n, false) ∈ listing p w <-> exists q d, rw_files w !! q = Some d /\ child p q = Some n.
Proof.
  unfold listing. rewrite elem_of_app, !list_elem_of_omap. split.
  - intros [([q d] & Hin & Hq)|(q & _ & Hq)]; simpl in *.
    + apply elem_of_map_to_list in Hin. destruct (child p q) eqn:Hc; simplify_eq/=. eauto.
    + by destruct (child p q); simplify_eq/=.
  - intros (q & d & Hq & Hc). left. exists (q, d). rewrite elem_of_map_to_list. simpl. by rewrite Hc.
Qed.

Lemma child_spec p q n : child p q = Some n <-> q = (p ++ "/" ++ n)%string /\ n <> ""%string /\ contains_char "/" n = false.
Proof.
  unfold child. split.
  - destruct (strip_prefix (p ++ "/") q) as [m|] eqn:Hs; simpl; [|done]. apply strip_prefix_app in Hs as ->.
    destruct (String.eqb_spec m "") as [->|Hm]; simpl; [done|].
    destruct (contains_char "/" m) eqn:Hc; [done|]. intros [= <-]. by rewrite str_app_assoc.
  - intros (-> & Hn & Hc). rewrite <- str_app_assoc.
    rewrite (proj2 (strip_prefix_app (p ++ "/") _ n) eq_refl). simpl.
    destruct (String.eqb_spec n ""); [done|]. by rewrite Hc.
Qed.

(** *** The effects, one by one *)

Section Effects.
Context {B : Type}.
Implicit Types (Q : B -> repo_world -> Prop) (w : repo_world).

Lemma wp_read p (f : result vec_u8 string -> prog repo_eff B) Q w :
  match rw_files w !! p with
  | Some d => wp (f (Ok d)) Q w
  | None => forall e, wp (f (Err e)) Q w
  end -> wp (bind (trigger (FsRead p)) f) Q w.
Proof. intros Hf x w' [-> Hx]. destruct (rw_files w !! p); [by subst|]. destruct Hx as [e ->]. apply Hf. Qed.

Lemma wp_write p d (f : result unit string -> prog repo_eff B) Q w :
  wp (f (Ok tt)) Q (with_files (<[p := d]>) w) -> (forall e w', touched p w w' -> wp (f (Err e)) Q w') ->
  wp (bind (trigger (FsWrite p d)) f) Q w.
Proof. intros Hf He x w' Hx. destruct x as [[]|e]; [cbn in Hx; subst; apply Hf|by apply He]. Qed.

(** Some of the directories [p] and those it lies in were made. *)
Definition part_made (p : string) (w w' : repo_world) : Prop :=
  exists made : gset string, made ⊆ list_to_set (ancestors p) /\ w' = with_dirs (fun ds => made ∪ ds) w.

Lemma wp_create_dir_all p (f : result unit string -> prog repo_eff B) Q w :
  wp (f (Ok tt)) Q (with_dirs (fun ds => list_to_set (ancestors p) ∪ ds) w) ->
  (forall e w', part_made p w w' -> wp (f (Err e)) Q w') ->
  wp (bind (trigger (FsCreateDirAll p)) f) Q w.
Proof. intros Hf He x w' Hx. destruct x as [[]|e]; [cbn in Hx; subst; apply Hf|by apply He]. Qed.

Lemma wp_exists p (f : bool -> prog repo_eff B) Q w :
  wp (f (bool_decide (p ∈ dom (rw_files w) \/ p ∈ rw_dirs w))) Q w -> wp (bind (trigger (FsExists p)) f) Q w.
Proof. intros Hf x w' [-> ->]. apply Hf. Qed.

Lemma wp_now (f : Z -> prog repo_eff B) Q w :
  (forall n, wp (f n) Q w) -> wp (bind (trigger UtcNow) f) Q w.
Proof. intros Hf x w' ->. apply Hf. Qed.

Lemma wp_modified p (f : Z -> prog repo_eff B) Q w :
  (forall n, wp (f n) Q w) -> wp (bind (trigger (FsModified p)) f) Q w.
Proof. intros Hf x w' ->. apply Hf. Qed.

(** GnuPG changes at most the file it was told to write. *)
Lemma wp_clearsign src dst (f : result unit string -> prog repo_eff B) Q w :
  (forall r w', touched dst w w' -> wp (f r) Q w') -> wp (bind (trigger (GpgClearsign src dst)) f) Q w.
Proof.
  intros Hf x w' Hx. apply Hf. destruct x as [u|e].
  - destruct Hx as [sig ->]. right. by exists sig.
  - done.
Qed.

Lemma wp_detached src dst armor (f : result unit string -> prog repo_eff B) Q w :
  (forall r w', touched dst w w' -> wp (f r) Q w') -> wp (bind (trigger (GpgDetached src dst armor)) f) Q w.
Proof.
  intros Hf x w' Hx. apply Hf. destruct x as [u|e].
  - destruct Hx as [sig ->]. right. by exists sig.
  - done.
Qed.

(** A program that only looks: it ends with [v] and leaves the world as it is. *)
Lemma wp_bind_eq {A} (p : prog repo_eff A) (f : A -> prog repo_eff B) Q v w :
  wp p (fun a w' => a = v /\ w' = w) w -> wp (f v) Q w -> wp (bind p f) Q w.
Proof. intros Hp Hf. apply wp_bind. eapply wp_mono; [|exact Hp]. intros a w' [-> ->]. apply Hf. Qed.
End Effects.

Lemma touched_lookup dst w w' p : touched dst w w' -> p <> dst -> rw_files w' !! p = rw_files w !! p.
Proof. intros [->|[d ->]] Hne; [done|]. simpl. by rewrite lookup_insert_ne. Qed.

Lemma touched_dirs dst w w' : touched dst w w' -> rw_dirs w' = rw_dirs w.
Proof. by intros [->|[d ->]]. Qed.
