(* ===== verification/RepoIndex.v ===== *)
(** * Repository metadata (pm-core/src/repo_metadata.rs): the generators

    The indexes of the four package formats, made from the packages on the disk,
    and the pruning functions.  [MB (p)] is the result of a parser that cannot
    panic ([parsers_never_panic]): its panic case is an error of its own. *)

From S2P Require Import Prelude Ordering Version Buffers ApkSign PkgFormats Conc RepoWorld.

Abbreviation repo_prog A := (prog repo_eff A).

(** ** Names *)

Definition APT_SUITES : list string := ["u2404"; "u2204"; "u2604"; "debian12"; "debian13"]%string.
Definition DNF_CODENAME : string := "el9".
Definition APK_CODENAME : string := "v3.21".

(** The body of a loop over the entries of a directory that may be missing. *)
Definition entry_names (r : result (list (string * bool)) string) : list string :=
  match r with Ok es => fst <$> es | Err _ => [] end.

(** The sorted paths of the entries of [dir] whose names satisfy [p]. *)
Definition scan (dir : string) (p : string -> bool) : repo_prog (list string) :=
  let! r := trigger (FsReadDir dir) in
  Ret (sort ((fun n => dir ++ "/" ++ n)%string <$> List.filter p (entry_names r))).

(** A parser's result; the panic case does not occur. *)
Definition parsed {A} (r : option (result A string)) : result A string :=
  match r with Some r => r | None => Err "panicked"%string end.

Section Generators.
Context (L : libraries).

(** ** Checksums *)

Record file_checksums : Type := FileChecksums { fc_md5 : string; fc_sha1 : string; fc_sha256 : string; fc_size : Z }.

Definition compute_data_checksums (data : vec_u8) : file_checksums :=
  FileChecksums (lib_md5 L data) (lib_sha1 L data) (lib_sha256 L data) (vlen data).
Definition compute_file_checksums (path : string) : repo_prog (result file_checksums string) :=
  let!? data := trigger (FsRead path) in Ret (Ok (compute_data_checksums data)).
Definition compute_sha256_file (path : string) : repo_prog (result string string) :=
  let!? data := trigger (FsRead path) in Ret (Ok (lib_sha256 L data)).

Definition deb_of (file : result vec_u8 string) : result deb_control string :=
  parsed (parse_deb_control (lib_gunzip L) (lib_unxz L) (lib_unzstd L) (lib_untar L) file).
Definition rpm_of (file : result vec_u8 string) : result rpm_info string := parsed (parse_rpm file).
Definition apk_of (file : result vec_u8 string) : result apk_info string :=
  parsed (parse_apk (lib_gz_consumed L) (lib_sha1_base64 L) (lib_untar_multi_gz L) file).
Definition pacman_of (file : result vec_u8 string) : result pacman_info string :=
  parse_pacman_pkg (lib_untar_zst L) (lib_sha256 L) file.

(** ** apt *)

(** Which files of the pool belong to a suite. *)
Definition apt_file (suite name : string) : bool :=
  let lower := to_ascii_lowercase name in
  ends_with ".deb" name &&
  (str_contains ("_" ++ suite ++ "_") lower ||
   (String.eqb suite "u2404" && starts_with "linux-patch-manager_" lower)).

Definition apt_stanza (path : string) (control : deb_control) (c : file_checksums) : string :=
  let filename := default "package.deb"%string (file_name path) in
  (print_fields (dc_fields control) ++
   "Filename: pool/" ++ filename ++ nl ++ "Size: " ++ dec (fc_size c) ++ nl ++ "MD5sum: " ++ fc_md5 c ++ nl ++
   "SHA1: " ++ fc_sha1 c ++ nl ++ "SHA256: " ++ fc_sha256 c ++ nl ++ nl)%string.

(** The loop over the files of the suite; those that do not parse are left out. *)
Fixpoint apt_packages (deb_files : list string) (content : string) : repo_prog (result string string) :=
  match deb_files with
  | [] => Ret (Ok content)
  | deb_path :: rest =>
      let! file := trigger (FsRead deb_path) in
      match deb_of file with
      | Ok control =>
          let!? checksums := compute_file_checksums deb_path in
          apt_packages rest (content ++ apt_stanza deb_path control checksums)
      | Err _ => apt_packages rest content
      end
  end.

Definition release_line (hash : string) (size : Z) (rel_path : string) : string :=
  (" " ++ hash ++ " " ++ dec size ++ " " ++ rel_path ++ nl)%string.

(** The checksums of the two index files, for those that can be read. *)
Fixpoint release_checksums (files : list (string * string)) : repo_prog (string * string * string) :=
  match files with
  | [] => Ret (""%string, ""%string, ""%string)
  | (rel_path, abs_path) :: rest =>
      let! checksums := compute_file_checksums abs_path in
      let! '(md5_lines, sha1_lines, sha256_lines) := release_checksums rest in
      Ret (match checksums with
           | Ok c => ((release_line (fc_md5 c) (fc_size c) rel_path ++ md5_lines)%string,
                      (release_line (fc_sha1 c) (fc_size c) rel_path ++ sha1_lines)%string,
                      (release_line (fc_sha256 c) (fc_size c) rel_path ++ sha256_lines)%string)
           | Err _ => (md5_lines, sha1_lines, sha256_lines)
           end)
  end.

Definition release_text (suite : string) (now : Z) (sums : string * string * string) : string :=
  let '(md5_lines, sha1_lines, sha256_lines) := sums in
  ("Origin: Linux Patch Manager" ++ nl ++ "Label: Linux Patch Manager" ++ nl ++
   "Suite: " ++ suite ++ nl ++ "Codename: " ++ suite ++ nl ++ "Date: " ++ lib_http_date L now ++ nl ++
   "Architectures: amd64" ++ nl ++ "Components: main" ++ nl ++
   "Description: Linux Patch Manager Package Repository" ++ nl ++
   "MD5Sum:" ++ nl ++ md5_lines ++ "SHA1:" ++ nl ++ sha1_lines ++ "SHA256:" ++ nl ++ sha256_lines)%string.

Definition generate_apt_release (binary_dir suite : string) : repo_prog (result string string) :=
  let! now := trigger UtcNow in
  let! sums := release_checksums [("main/binary-amd64/Packages", binary_dir ++ "/Packages");
                                  ("main/binary-amd64/Packages.gz", binary_dir ++ "/Packages.gz")]%string in
  Ret (Ok (release_text suite now sums)).

Definition apt_pool (repo_dir : string) : string := (repo_dir ++ "/apt/pool")%string.
Definition apt_dists (repo_dir suite : string) : string := (repo_dir ++ "/apt/dists/" ++ suite)%string.
Definition apt_binary (repo_dir suite : string) : string := (apt_dists repo_dir suite ++ "/main/binary-amd64")%string.

Definition generate_apt_metadata (repo_dir suite : string) : repo_prog (result unit string) :=
  let dists_dir := apt_dists repo_dir suite in
  let binary_dir := apt_binary repo_dir suite in
  let!? _ := trigger (FsCreateDirAll binary_dir) in
  let! deb_files := scan (apt_pool repo_dir) (apt_file suite) in
  let!? packages_content := apt_packages deb_files "" in
  let!? _ := trigger (FsWrite (binary_dir ++ "/Packages") (as_bytes packages_content)) in
  let!? _ := trigger (FsWrite (binary_dir ++ "/Packages.gz") (lib_gzip L (as_bytes packages_content))) in
  let!? release_content := generate_apt_release binary_dir suite in
  let release_path := (dists_dir ++ "/Release")%string in
  let!? _ := trigger (FsWrite release_path (as_bytes release_content)) in
  trigger (GpgClearsign release_path (dists_dir ++ "/InRelease")) ;;
  trigger (GpgDetached release_path (dists_dir ++ "/Release.gpg") true) ;;
  Ret (Ok tt).

Fixpoint regenerate_suites (repo_dir : string) (suites : list string) : repo_prog (list (string * string)) :=
  match suites with
  | [] => Ret []
  | suite :: rest =>
      let! r := generate_apt_metadata repo_dir suite in
      let! errors := regenerate_suites repo_dir rest in
      Ret (match r with Ok _ => errors | Err e => (suite, e) :: errors end)
  end.
Definition regenerate_all_apt_metadata (repo_dir : string) : repo_prog (list (string * string)) :=
  regenerate_suites repo_dir APT_SUITES.

(** ** dnf *)

Definition attr (name value : string) : string := (name ++ "=" ++ dq ++ value ++ dq)%string.

Definition rpm_version_xml (info : rpm_info) : string :=
  ("    <version " ++ attr "epoch" (dec (ri_epoch info)) ++ " " ++ attr "ver" (xml_escape (ri_version info)) ++ " " ++
   attr "rel" (xml_escape (ri_release info)) ++ "/>" ++ nl)%string.

Definition primary_package (info : rpm_info) (filename sha256 : string) (file_size file_time : Z) : string :=
  ("  <package " ++ attr "type" "rpm" ++ ">" ++ nl ++
   "    <name>" ++ xml_escape (ri_name info) ++ "</name>" ++ nl ++
   "    <arch>" ++ xml_escape (ri_arch info) ++ "</arch>" ++ nl ++
   rpm_version_xml info ++
   "    <summary>" ++ xml_escape (ri_summary info) ++ "</summary>" ++ nl ++
   "    <description>" ++ xml_escape (ri_description info) ++ "</description>" ++ nl ++
   "    <url>" ++ xml_escape (ri_url info) ++ "</url>" ++ nl ++
   "    <time " ++ attr "file" (dec file_time) ++ " " ++ attr "build" (dec (ri_build_time info)) ++ "/>" ++ nl ++
   "    <size " ++ attr "package" (dec file_size) ++ " " ++ attr "installed" (dec (ri_size info)) ++ " " ++
     attr "archive" (dec (ri_archive_size info)) ++ "/>" ++ nl ++
   "    <location " ++ attr "href" ("Packages/" ++ filename) ++ "/>" ++ nl ++
   "    <checksum " ++ attr "type" "sha256" ++ " " ++ attr "pkgid" "YES" ++ ">" ++ sha256 ++ "</checksum>" ++ nl ++
   "  </package>" ++ nl)%string.

Definition filelists_package (info : rpm_info) (sha256 : string) : string :=
  ("  <package " ++ attr "pkgid" sha256 ++ " " ++ attr "name" (xml_escape (ri_name info)) ++ " " ++
     attr "arch" (xml_escape (ri_arch info)) ++ ">" ++ nl ++
   rpm_version_xml info ++ "  </package>" ++ nl)%string.

(** The loop over the rpm files: the two bodies. *)
Fixpoint dnf_packages (rpm_files : list string) (primary filelists : string)
    : repo_prog (result (string * string) string) :=
  match rpm_files with
  | [] => Ret (Ok (primary, filelists))
  | rpm_path :: rest =>
      let! file := trigger (FsRead rpm_path) in
      match rpm_of file with
      | Ok info =>
          let filename := default "package.rpm"%string (file_name rpm_path) in
          let!? sha256 := compute_sha256_file rpm_path in
          let!? meta := trigger (FsRead rpm_path) in
          let! file_time := trigger (FsModified rpm_path) in
          dnf_packages rest (primary ++ primary_package info filename sha256 (vlen meta) file_time)
                            (filelists ++ filelists_package info sha256)
      | Err _ => dnf_packages rest primary filelists
      end
  end.

Definition xml_decl : string := ("<?xml " ++ attr "version" "1.0" ++ " " ++ attr "encoding" "UTF-8" ++ "?>" ++ nl)%string.
Definition primary_xml (pkg_count : Z) (body : string) : string :=
  (xml_decl ++ "<metadata " ++ attr "xmlns" "http://linux.duke.edu/metadata/common" ++ " " ++
   attr "xmlns:rpm" "http://linux.duke.edu/metadata/rpm" ++ " " ++ attr "packages" (dec pkg_count) ++ ">" ++ nl ++
   body ++ "</metadata>" ++ nl)%string.
Definition filelists_xml (pkg_count : Z) (body : string) : string :=
  (xml_decl ++ "<filelists " ++ attr "xmlns" "http://linux.duke.edu/metadata/filelists" ++ " " ++
   attr "packages" (dec pkg_count) ++ ">" ++ nl ++ body ++ "</filelists>" ++ nl)%string.

Definition repomd_data (type_ : string) (gz xml : vec_u8) (timestamp : Z) : string :=
  let ck := compute_data_checksums gz in
  let open_ck := compute_data_checksums xml in
  ("  <data " ++ attr "type" type_ ++ ">" ++ nl ++
   "    <checksum " ++ attr "type" "sha256" ++ ">" ++ fc_sha256 ck ++ "</checksum>" ++ nl ++
   "    <open-checksum " ++ attr "type" "sha256" ++ ">" ++ fc_sha256 open_ck ++ "</open-checksum>" ++ nl ++
   "    <location " ++ attr "href" ("repodata/" ++ type_ ++ ".xml.gz") ++ "/>" ++ nl ++
   "    <timestamp>" ++ dec timestamp ++ "</timestamp>" ++ nl ++
   "    <size>" ++ dec (fc_size ck) ++ "</size>" ++ nl ++
   "    <open-size>" ++ dec (fc_size open_ck) ++ "</open-size>" ++ nl ++
   "  </data>" ++ nl)%string.
Definition repomd_xml (primary filelists : string) (timestamp : Z) : string :=
  (xml_decl ++ "<repomd " ++ attr "xmlns" "http://linux.duke.edu/metadata/repo" ++ ">" ++ nl ++
   "  <revision>" ++ dec timestamp ++ "</revision>" ++ nl ++
   repomd_data "primary" (lib_gzip L (as_bytes primary)) (as_bytes primary) timestamp ++
   repomd_data "filelists" (lib_gzip L (as_bytes filelists)) (as_bytes filelists) timestamp ++
   "</repomd>" ++ nl)%string.

Definition generate_dnf_metadata (repo_dir : string) : repo_prog (result unit string) :=
  let repo_root := (repo_dir ++ "/dnf/el9")%string in
  let repodata_dir := (repo_root ++ "/repodata")%string in
  let!? _ := trigger (FsCreateDirAll repodata_dir) in
  let! rpm_files := scan (repo_root ++ "/Packages") (ends_with ".rpm") in
  let!? bodies := dnf_packages rpm_files "" "" in
  let pkg_count := Z.of_nat (length rpm_files) in
  let primary := primary_xml pkg_count bodies.1 in
  let filelists := filelists_xml pkg_count bodies.2 in
  let!? _ := trigger (FsWrite (repodata_dir ++ "/primary.xml.gz") (lib_gzip L (as_bytes primary))) in
  let!? _ := trigger (FsWrite (repodata_dir ++ "/filelists.xml.gz") (lib_gzip L (as_bytes filelists))) in
  let! timestamp := trigger UtcNow in
  let!? _ := trigger (FsWrite (repodata_dir ++ "/repomd.xml") (as_bytes (repomd_xml primary filelists timestamp))) in
  Ret (Ok tt).

(** ** apk *)

(** A line that is left out when its value is empty. *)
Definition optional_line (prefix value : string) : string :=
  if String.eqb value "" then ""%string else (prefix ++ value ++ nl)%string.

Definition apkindex_stanza (info : apk_info) : string :=
  ("C:" ++ ap_control_checksum info ++ nl ++ "P:" ++ ap_pkgname info ++ nl ++ "V:" ++ ap_pkgver info ++ nl ++
   "A:" ++ ap_arch info ++ nl ++ "S:" ++ dec (ap_size info) ++ nl ++ "I:" ++ dec (ap_installed_size info) ++ nl ++
   optional_line "T:" (ap_description info) ++ optional_line "D:" (ap_depends info) ++
   optional_line "p:" (ap_provides info) ++ optional_line "U:" (ap_url info) ++
   optional_line "F:" (ap_license info) ++ nl)%string.

Fixpoint apk_packages (apk_files : list string) (apkindex : string) : repo_prog string :=
  match apk_files with
  | [] => Ret apkindex
  | apk_path :: rest =>
      let! file := trigger (FsRead apk_path) in
      match apk_of file with
      | Ok info => apk_packages rest (apkindex ++ apkindex_stanza info)
      | Err _ => apk_packages rest apkindex
      end
  end.

Definition apk_repo (repo_dir : string) : string := (repo_dir ++ "/apk/" ++ APK_CODENAME ++ "/x86_64")%string.
Definition index_tar (apkindex : string) : list tar_entry :=
  [TarEntry Gnu "DESCRIPTION" 420 Regular 0 (as_bytes ("Linux Patch Manager Repository" ++ nl));
   TarEntry Gnu "APKINDEX" 420 Regular 0 (as_bytes apkindex)].

(** [strip_tar_eof] ends without a panic ([strip_tar_eof_spec]). *)
Definition cut_tar (tar : vec_u8) : vec_u8 := default [] (strip_tar_eof tar).

Definition generate_apk_metadata (repo_dir : string) (rsa_private_key_path : option string) : repo_prog (result unit string) :=
  let apk_dir := apk_repo repo_dir in
  let!? _ := trigger (FsCreateDirAll apk_dir) in
  let! apk_files := scan apk_dir (ends_with ".apk") in
  let! apkindex := apk_packages apk_files "" in
  let!? inner_data := Ret (lib_tar L (index_tar apkindex)) in
  let inner_gz := lib_gzip L inner_data in
  let!? signature := Ret (match rsa_private_key_path with
                          | Some path => if String.eqb path "" then Err "No RSA private key provided for APKINDEX signing"%string
                                         else match lib_rsa_sign L inner_gz path with
                                              | Ok sig => Ok sig
                                              | Err e => Err ("RSA signing failed: " ++ e)%string
                                              end
                          | None => Err "No RSA private key provided for APKINDEX signing"%string
                          end) in
  let!? sig_tar_data := Ret (lib_tar L [TarEntry Gnu sign_entry_name 420 Regular 0 signature]) in
  let final_gz := lib_gzip L (cut_tar sig_tar_data) ++ inner_gz in
  trigger (FsWrite (apk_dir ++ "/APKINDEX.tar.gz") final_gz).

(** [resign_apk]: a temporary file and a rename. *)
Definition resign_apk (apk_path rsa_private_key_path : string) : repo_prog (result unit string) :=
  let!? data := trigger (FsRead apk_path) in
  let!? new_apk := Ret (parsed (resign (lib_gz_consumed L) (lib_untar_gz L) (lib_rsa_sign L) (lib_tar L) (lib_gzip L)
                                  data rsa_private_key_path)) in
  let tmp_path := (apk_path ++ ".tmp")%string in
  let!? _ := trigger (FsWrite tmp_path new_apk) in
  trigger (FsRename tmp_path apk_path).

(** ** pacman *)

Definition pacman_file (name : string) : bool :=
  ends_with ".pkg.tar.zst" name && negb (ends_with ".sig" name) && negb (ends_with ".db.tar.zst" name).

(** The latest package per name: its data and its path. *)
Definition keep_latest (latest : btree string (pacman_info * string)) (info : pacman_info) (pkg_path : string)
    : btree string (pacman_info * string) :=
  let is_newer := match bt_get (pi_pkgname info) latest with
                  | Some (existing, _) => bool_decide (compare_versions (pi_pkgver info) (pi_pkgver existing) = Gt)
                  | None => true
                  end in
  if is_newer then bt_insert (pi_pkgname info) (info, pkg_path) latest else latest.

Fixpoint pacman_packages (pkg_files : list string) (latest : btree string (pacman_info * string))
    : repo_prog (btree string (pacman_info * string)) :=
  match pkg_files with
  | [] => Ret latest
  | pkg_path :: rest =>
      let! file := trigger (FsRead pkg_path) in
      match pacman_of file with
      | Ok info => pacman_packages rest (keep_latest latest info pkg_path)
      | Err _ => pacman_packages rest latest
      end
  end.

Definition desc_field (name value : string) : string := ("%" ++ name ++ "%" ++ nl ++ value ++ nl ++ nl)%string.
Definition optional_field (name value : string) : string :=
  if String.eqb value "" then ""%string else desc_field name value.

Definition pacman_desc (info : pacman_info) (filename : string) : string :=
  (desc_field "FILENAME" filename ++ desc_field "NAME" (pi_pkgname info) ++ desc_field "VERSION" (pi_pkgver info) ++
   optional_field "DESC" (pi_description info) ++ desc_field "CSIZE" (dec (pi_csize info)) ++
   desc_field "ISIZE" (dec (pi_size info)) ++ desc_field "SHA256SUM" (pi_sha256 info) ++
   desc_field "ARCH" (pi_arch info) ++ optional_field "URL" (pi_url info) ++
   optional_field "LICENSE" (pi_license info) ++ desc_field "BUILDDATE" (dec (pi_builddate info)) ++
   optional_field "DEPENDS" (pi_depends info))%string.

(** A directory and a description per package. *)
Definition pacman_tar (latest : btree string (pacman_info * string)) : list tar_entry :=
  concat ((fun '(_, (info, pkg_path)) =>
             let dir_name := (pi_pkgname info ++ "-" ++ pi_pkgver info)%string in
             [TarEntry Gnu (dir_name ++ "/") 493 Directory (pi_builddate info) [];
              TarEntry Gnu (dir_name ++ "/desc") 420 Regular (pi_builddate info)
                (as_bytes (pacman_desc info (default ""%string (file_name pkg_path))))]) <$> latest).

Definition pacman_repo (repo_dir : string) : string := (repo_dir ++ "/pacman/x86_64")%string.

Definition generate_pacman_metadata (repo_dir : string) : repo_prog (result unit string) :=
  let pacman_dir := pacman_repo repo_dir in
  let! pkg_files := scan pacman_dir pacman_file in
  let! latest := pacman_packages pkg_files [] in
  let!? tar_data := Ret (lib_tar L (pacman_tar latest)) in
  let!? zstd_data := Ret (lib_zstd L tar_data) in
  let!? _ := trigger (FsWrite (pacman_dir ++ "/lpa-repo.db.tar.zst") zstd_data) in
  trigger (FsWrite (pacman_dir ++ "/lpa-repo.db") (lib_gzip L tar_data)).

(** ** Pruning *)

(** The suite whose token the name holds, the first in the list. *)
Definition suite_of (name : string) : option string :=
  List.find (fun s => str_contains ("_" ++ s ++ "_") (to_ascii_lowercase name)) APT_SUITES.

(** The loop over the pool: orphans are removed, the others collected as
    (path, package, version, suite). *)
Fixpoint prune_scan (pool_dir : string) (names : list string) (entries : list (string * string * string * string))
    : repo_prog (list (string * string * string * string)) :=
  match names with
  | [] => Ret entries
  | name :: rest =>
      if negb (ends_with ".deb" name) then prune_scan pool_dir rest entries
      else
        let path := (pool_dir ++ "/" ++ name)%string in
        match suite_of name with
        | None => trigger (FsRemoveFile path) ;; prune_scan pool_dir rest entries
        | Some suite =>
            let! file := trigger (FsRead path) in
            match deb_of file with
            | Ok c => prune_scan pool_dir rest (entries ++ [(path, dc_package c, dc_version c, suite)])
            | Err _ => prune_scan pool_dir rest entries
            end
        end
  end.

(** [groups.entry(key).or_default().push(...)] *)
Definition group_push (groups : btree (string * string) (list (string * string))) (e : string * string * string * string)
    : btree (string * string) (list (string * string)) :=
  let '(path, pkg, version, suite) := e in
  bt_insert (pkg, suite) (default [] (bt_get (pkg, suite) groups) ++ [(path, version)]) groups.

Fixpoint remove_files (paths : list string) (removed : Z) : repo_prog Z :=
  match paths with
  | [] => Ret removed
  | path :: rest =>
      let! r := trigger (FsRemoveFile path) in
      remove_files rest (match r with Ok _ => removed + 1 | Err _ => removed end)
  end.

(** What a group loses: all but the first in descending string order. *)
Definition stale_files (versions : list (string * string)) : list string :=
  if (length versions <=? 1)%nat then []
  else fst <$> drop 1 (sort_by (fun a b => str_cmp b.2 a.2) versions).

Fixpoint prune_groups (groups : btree (string * string) (list (string * string))) (removed : Z) : repo_prog Z :=
  match groups with
  | [] => Ret removed
  | (_, versions) :: rest =>
      let! removed := remove_files (stale_files versions) removed in
      prune_groups rest removed
  end.

Definition prune_stale_apt_packages (repo_dir : string) : repo_prog (result Z string) :=
  let pool_dir := apt_pool repo_dir in
  let! exists_ := trigger (FsExists pool_dir) in
  if negb exists_ then Ret (Ok 0)
  else
    let!? listing := trigger (FsReadDir pool_dir) in
    let! entries := prune_scan pool_dir (entry_names (Ok listing)) [] in
    let! removed := prune_groups (foldl group_push [] entries) 0 in
    Ret (Ok removed).

(** The loop over [apt/dists]: directories that are no suite are removed. *)
Fixpoint prune_dirs (dists_dir : string) (entries : list (string * bool)) (removed : Z) : repo_prog Z :=
  match entries with
  | [] => Ret removed
  | (name, is_dir) :: rest =>
      if negb is_dir || bool_decide (name ∈ APT_SUITES) then prune_dirs dists_dir rest removed
      else
        let! r := trigger (FsRemoveDirAll (dists_dir ++ "/" ++ name)) in
        prune_dirs dists_dir rest (match r with Ok _ => removed + 1 | Err _ => removed end)
  end.

Definition prune_stale_apt_suite_dirs (repo_dir : string) : repo_prog (result Z string) :=
  let dists_dir := (repo_dir ++ "/apt/dists")%string in
  let! exists_ := trigger (FsExists dists_dir) in
  if negb exists_ then Ret (Ok 0)
  else
    let!? entries := trigger (FsReadDir dists_dir) in
    let! removed := prune_dirs dists_dir entries 0 in
    Ret (Ok removed).

(** [ensure_repo_directories] (gpg.rs) *)
Fixpoint create_dirs (dirs : list string) : repo_prog (result unit string) :=
  match dirs with
  | [] => Ret (Ok tt)
  | dir :: rest => let!? _ := trigger (FsCreateDirAll dir) in create_dirs rest
  end.

Definition ensure_repo_directories (repo_dir : string) : repo_prog (result unit string) :=
  let!? _ := create_dirs ((fun d => repo_dir ++ d)%string <$>
    ["/apt"; "/dnf"; "/dnf/" ++ DNF_CODENAME ++ "/Packages"; "/apk"; "/apk/" ++ APK_CODENAME;
     "/apk/" ++ APK_CODENAME ++ "/x86_64"; "/pacman"; "/pacman/x86_64"; "/tmp"]%string) in
  let!? _ := create_dirs ((fun suite => apt_binary repo_dir suite) <$> APT_SUITES) in
  let!? _ := trigger (FsCreateDirAll (repo_dir ++ "/dnf/el9/repodata")) in
  prune_stale_apt_suite_dirs repo_dir ;;
  Ret (Ok tt).
End Generators.

(** ** What the disk holds: the indexes as functions of it *)

(** The paths [scan] finds. *)
Definition scanned (dir : string) (p : string -> bool) (w : repo_world) : list string :=
  if bool_decide (dir ∈ rw_dirs w)
  then sort ((fun n => dir ++ "/" ++ n)%string <$> List.filter p (fst <$> listing dir w)) else [].

Fixpoint concat_str (l : list string) : string := match l with [] => ""%string | s :: l' => (s ++ concat_str l')%string end.

(** The data of the files among [paths] that [parse] accepts, in order. *)
Definition parsed_files {A} (parse : result vec_u8 string -> result A string) (w : repo_world) (paths : list string)
    : list (string * vec_u8 * A) :=
  omap (fun p => d ← rw_files w !! p; a ← ok (parse (Ok d)); Some (p, d, a)) paths.

Lemma wp_scan {B} dir p (f : list string -> repo_prog B) Q w :
  wp (f (scanned dir p w)) Q w -> wp (bind (scan dir p) f) Q w.
Proof.
  intros Hf x w' [-> Hx]. simpl. unfold scanned in Hf. destruct (bool_decide (dir ∈ rw_dirs w)).
  - destruct Hx as (l & Hl & ->). simpl in *.
    replace (sort ((λ n, (dir ++ "/" ++ n)%string) <$> List.filter p (l.*1))) with
      (sort ((λ n, (dir ++ "/" ++ n)%string) <$> List.filter p ((listing dir w).*1))); [done|].
    apply sort_permutation. apply fmap_Permutation. clear Hf.
    assert ((listing dir w).*1 ≡ₚ l.*1) as Hp by (by rewrite Hl).
    induction Hp as [|a l1 l2 _ IH|a b l1|l1 l2 l3 _ IH1 _ IH2]; simpl; [done| | |by etrans].
    + destruct (p a); [by constructor|done].
    + destruct (p a), (p b); [constructor|done..].
  - destruct Hx as [e ->]. simpl. exact Hf.
Qed.

Section IndexLemmas.
Context (L : libraries).

Definition apt_text (w : repo_world) (paths : list string) : string :=
  concat_str ((fun '(p, d, c) => apt_stanza p c (compute_data_checksums L d)) <$> parsed_files (deb_of L) w paths).

(** A parser answers a failed read with an error. *)
Lemma deb_of_err e : deb_of L (Err e) = Err e.
Proof. done. Qed.

Lemma wp_apt_packages paths content w :
  wp (apt_packages L paths content) (fun r w' => r = Ok (content ++ apt_text w paths)%string /\ w' = w) w.
Proof.
  revert content. induction paths as [|p paths IH]; intros content.
  - simpl. unfold apt_text. simpl. by rewrite str_app_nil_r.
  - cbn [apt_packages]. apply wp_read. unfold apt_text, parsed_files in *. cbn [omap list_omap].
    destruct (rw_files w !! p) as [d|] eqn:Hp; cbn [mbind option_bind].
    + destruct (deb_of L (Ok d)) as [c|e]; cbn [ok mbind option_bind]; [|apply IH].
      unfold bind_ok, compute_file_checksums. cbn [bind]. apply wp_bind. apply wp_read. rewrite Hp. simpl.
      specialize (IH (content ++ apt_stanza p c (compute_data_checksums L d))%string).
      eapply wp_mono; [|exact IH]. intros r w' [-> ->]. by rewrite str_app_assoc.
    + intros e. apply IH.
Qed.
End IndexLemmas.

(** ** apt: the index of a suite *)

(** Two paths below the same directory that differ. *)
Ltac path_ne :=
  let H := fresh in intros H; unfold apt_binary in H; rewrite ?str_app_assoc in H;
  apply str_app_inj in H; discriminate H.

Definition made_dirs (p : string) (w : repo_world) : repo_world :=
  with_dirs (fun ds => list_to_set (ancestors p) ∪ ds) w.

(** The index of the suite that the pool of [w] calls for. *)
Definition apt_index (L : libraries) (repo_dir suite : string) (w : repo_world) : string :=
  apt_text L w (scanned (apt_pool repo_dir) (apt_file suite) w).

Definition release_sums (c c_gz : file_checksums) : string * string * string :=
  ((release_line (fc_md5 c) (fc_size c) "main/binary-amd64/Packages" ++
    release_line (fc_md5 c_gz) (fc_size c_gz) "main/binary-amd64/Packages.gz")%string,
   (release_line (fc_sha1 c) (fc_size c) "main/binary-amd64/Packages" ++
    release_line (fc_sha1 c_gz) (fc_size c_gz) "main/binary-amd64/Packages.gz")%string,
   (release_line (fc_sha256 c) (fc_size c) "main/binary-amd64/Packages" ++
    release_line (fc_sha256 c_gz) (fc_size c_gz) "main/binary-amd64/Packages.gz")%string).

(** What the directory of a suite holds when its index is up to date. *)
Record apt_published (L : libraries) (repo_dir suite : string) (text : string) (w : repo_world) : Prop := {
  published_packages : rw_files w !! (apt_binary repo_dir suite ++ "/Packages")%string = Some (as_bytes text);
  published_gz : rw_files w !! (apt_binary repo_dir suite ++ "/Packages.gz")%string = Some (lib_gzip L (as_bytes text));
  published_release : exists now, rw_files w !! (apt_dists repo_dir suite ++ "/Release")%string =
    Some (as_bytes (release_text L suite now
      (release_sums (compute_data_checksums L (as_bytes text)) (compute_data_checksums L (lib_gzip L (as_bytes text))))))
}.

Definition apt_outputs (repo_dir suite : string) : list string :=
  [apt_binary repo_dir suite ++ "/Packages"; apt_binary repo_dir suite ++ "/Packages.gz";
   apt_dists repo_dir suite ++ "/Release"; apt_dists repo_dir suite ++ "/InRelease";
   apt_dists repo_dir suite ++ "/Release.gpg"]%string.

Lemma file_name_child dir n : n <> ""%string -> n <> "."%string -> n <> ".."%string -> contains_char "/" n = false ->
  file_name (dir ++ "/" ++ n) = Some n.
Proof.
  intros H1 H2 H3 Hc. unfold file_name.
  assert (forall s, split_by (Ascii.eqb "/") (s ++ "/" ++ n) = split_by (Ascii.eqb "/") s ++ [n]) as Hsplit.
  { assert (split_by (Ascii.eqb "/") n = [n]) as Hn.
    { unfold contains_char in Hc. rewrite negb_false_iff in Hc. clear -Hc. induction n as [|c n IH]; [done|].
      cbn [str_forallb] in Hc. apply andb_true_iff in Hc as [Hx Hc]. cbn [split_by].
      rewrite (IH Hc). destruct (Ascii.eqb_spec "/" c) as [<-|]; [done|done]. }
    intros s. induction s as [|c s IH].
    - change ("" ++ "/" ++ n)%string with (String "/" n). cbn [split_by]. by rewrite Hn.
    - change (String c s ++ "/" ++ n)%string with (String c (s ++ "/" ++ n)). cbn [split_by]. rewrite IH.
      destruct (Ascii.eqb "/" c); [done|]. pose proof (split_by_nonempty (Ascii.eqb "/") s).
      by destruct (split_by (Ascii.eqb "/") s). }
  rewrite Hsplit, List.filter_app. cbn [List.filter].
  destruct (String.eqb_spec n ""), (String.eqb_spec n "."); try done. cbn [orb negb].
  rewrite last_snoc. by destruct (String.eqb_spec n "..").
Qed.

Section AptTheorems.
Context (L : libraries).

Lemma wp_release binary_dir suite c c_gz w :
  rw_files w !! (binary_dir ++ "/Packages")%string = Some c ->
  rw_files w !! (binary_dir ++ "/Packages.gz")%string = Some c_gz ->
  wp (generate_apt_release L binary_dir suite) (fun r w' => w' = w /\ exists now,
    r = Ok (release_text L suite now (release_sums (compute_data_checksums L c) (compute_data_checksums L c_gz)))) w.
Proof.
  intros Hc Hgz. unfold generate_apt_release. apply wp_now. intros now.
  apply wp_bind. unfold release_checksums, compute_file_checksums, bind_ok. cbn [bind].
  do 2 (apply wp_bind). apply wp_read. rewrite Hc. cbn [wp]. do 3 (apply wp_bind). apply wp_read. rewrite Hgz. cbn [wp bind].
  split; [done|]. exists now. cbn [fst snd]. by rewrite !str_app_nil_r.
Qed.

Lemma generate_apt_metadata_ok repo_dir suite w :
  wp (generate_apt_metadata L repo_dir suite) (fun r w' => r = Ok tt ->
    apt_published L repo_dir suite (apt_index L repo_dir suite (made_dirs (apt_binary repo_dir suite) w)) w' /\
    rw_dirs w' = rw_dirs (made_dirs (apt_binary repo_dir suite) w) /\
    forall p, p ∉ apt_outputs repo_dir suite -> rw_files w' !! p = rw_files w !! p) w.
Proof.
  unfold generate_apt_metadata, bind_ok. cbv zeta. apply wp_create_dir_all; [|done].
  change (with_dirs (fun ds => list_to_set (ancestors (apt_binary repo_dir suite)) ∪ ds) w)
    with (made_dirs (apt_binary repo_dir suite) w).
  set (w1 := made_dirs (apt_binary repo_dir suite) w). apply wp_scan.
  eapply wp_bind_eq; [apply wp_apt_packages|]. cbv beta iota.
  change ("" ++ apt_text L w1 (scanned (apt_pool repo_dir) (apt_file suite) w1))%string with (apt_index L repo_dir suite w1).
  set (text := apt_index L repo_dir suite w1).
  apply wp_write; [|done]. apply wp_write; [|done]. apply wp_bind.
  eapply wp_mono; [|eapply wp_release].
  2:{ simpl. rewrite lookup_insert_ne by path_ne. by rewrite lookup_insert_eq. }
  2:{ simpl. by rewrite lookup_insert_eq. }
  intros r w2 [-> [now ->]]. cbv beta iota. apply wp_write; [|done]. apply wp_clearsign. intros _ w3 H3.
  apply wp_detached. intros _ w4 H4. cbn [wp]. intros _.
  assert (forall p, p ∉ [apt_dists repo_dir suite ++ "/InRelease"; apt_dists repo_dir suite ++ "/Release.gpg"]%string ->
    rw_files w4 !! p = rw_files (with_files (<[(apt_dists repo_dir suite ++ "/Release")%string :=
      as_bytes (release_text L suite now (release_sums (compute_data_checksums L (as_bytes text))
        (compute_data_checksums L (lib_gzip L (as_bytes text)))))]>)
      (with_files (<[(apt_binary repo_dir suite ++ "/Packages.gz")%string := lib_gzip L (as_bytes text)]>)
      (with_files (<[(apt_binary repo_dir suite ++ "/Packages")%string := as_bytes text]>) w1))) !! p) as Hkeep.
  { intros p Hp. rewrite !not_elem_of_cons in Hp. destruct Hp as (Hp1 & Hp2 & _).
    rewrite (touched_lookup _ _ _ _ H4) by done. by rewrite (touched_lookup _ _ _ _ H3) by done. }
  split_and!.
  - split.
    + rewrite Hkeep. 2:{ rewrite !not_elem_of_cons. split_and!; [path_ne|path_ne|apply not_elem_of_nil]. }
      cbn [with_files rw_files]. rewrite lookup_insert_ne by path_ne. rewrite lookup_insert_ne by path_ne. by rewrite lookup_insert_eq.
    + rewrite Hkeep. 2:{ rewrite !not_elem_of_cons. split_and!; [path_ne|path_ne|apply not_elem_of_nil]. }
      cbn [with_files rw_files]. rewrite lookup_insert_ne by path_ne. by rewrite lookup_insert_eq.
    + exists now. rewrite Hkeep. 2:{ rewrite !not_elem_of_cons. split_and!; [path_ne|path_ne|apply not_elem_of_nil]. }
      cbn [with_files rw_files]. by rewrite lookup_insert_eq.
  - rewrite (touched_dirs _ _ _ H4), (touched_dirs _ _ _ H3). done.
  - intros p Hp. unfold apt_outputs in Hp. rewrite !not_elem_of_cons in Hp. destruct Hp as (? & ? & ? & ? & ? & _).
    rewrite Hkeep by (rewrite !not_elem_of_cons; split_and!; (done || apply not_elem_of_nil)).
    cbn [with_files rw_files]. by rewrite !lookup_insert_ne by done.
Qed.

(** Every package of the pool that belongs to the suite and can be read has its
    stanza in the index. *)
Lemma apt_index_complete repo_dir suite w name d c :
  apt_pool repo_dir ∈ rw_dirs w -> rw_files w !! (apt_pool repo_dir ++ "/" ++ name)%string = Some d ->
  name <> ""%string -> contains_char "/" name = false -> apt_file suite name = true -> deb_of L (Ok d) = Ok c ->
  exists pre post, apt_index L repo_dir suite w =
    (pre ++ apt_stanza (apt_pool repo_dir ++ "/" ++ name) c (compute_data_checksums L d) ++ post)%string.
Proof.
  intros Hdir Hfile Hne Hslash Hsuite Hparse. unfold apt_index, scanned. rewrite bool_decide_true by done.
  assert ((apt_pool repo_dir ++ "/" ++ name)%string ∈
    sort ((fun n => apt_pool repo_dir ++ "/" ++ n)%string <$> List.filter (apt_file suite) (fst <$> listing (apt_pool repo_dir) w))) as Hin.
  { rewrite elem_of_sort. apply list_elem_of_fmap. exists name. split; [done|].
    apply list_elem_of_In, filter_In. split; [|done]. apply list_elem_of_In, list_elem_of_fmap. exists (name, false). split; [done|].
    apply listing_files. exists (apt_pool repo_dir ++ "/" ++ name)%string, d. split; [done|]. by apply child_spec. }
  revert Hin. generalize (sort ((fun n => apt_pool repo_dir ++ "/" ++ n)%string <$> List.filter (apt_file suite) (fst <$> listing (apt_pool repo_dir) w))).
  intros paths Hin. unfold apt_text. induction paths as [|p paths IH]; [by apply not_elem_of_nil in Hin|].
  unfold parsed_files in *. cbn [omap list_omap]. apply elem_of_cons in Hin as [<-|Hin].
  - rewrite Hfile. cbn [mbind option_bind]. rewrite Hparse. cbn [ok mbind option_bind fmap list_fmap concat_str].
    by eexists ""%string, _.
  - destruct (IH Hin) as (pre & post & Heq).
    destruct (d' ← rw_files w !! p; a ← ok (deb_of L (Ok d')); Some (p, d', a)) as [[[p' d'] c']|].
    + rewrite fmap_cons. cbn [concat_str]. rewrite Heq. eexists (_ ++ pre)%string, post. by rewrite str_app_assoc.
    + by exists pre, post.
Qed.
End AptTheorems.

(** ** pacman: the latest package of each name *)

(** The packages the directory holds, in the order of their paths. *)
Definition pacman_pool (L : libraries) (w : repo_world) (paths : list string) : list (pacman_info * string) :=
  (fun '(p, _, i) => (i, p)) <$> parsed_files (pacman_of L) w paths.
Definition latest_of (pkgs : list (pacman_info * string)) : btree string (pacman_info * string) :=
  foldl (fun m '(i, p) => keep_latest m i p) [] pkgs.

(** [e] is one of the packages called [name], and none of them is newer. *)
Definition is_latest (pkgs : list (pacman_info * string)) (name : string) (e : pacman_info * string) : Prop :=
  e ∈ pkgs /\ pi_pkgname e.1 = name /\
  forall e', e' ∈ pkgs -> pi_pkgname e'.1 = name -> compare_versions (pi_pkgver e'.1) (pi_pkgver e.1) <> Gt.

Lemma keep_latest_wf m i p : bt_wf m -> bt_wf (keep_latest m i p).
Proof. intros Hm. unfold keep_latest. cbv zeta. case_match; [by apply bt_insert_wf|done]. Qed.

Lemma latest_of_wf pkgs : bt_wf (latest_of pkgs).
Proof.
  unfold latest_of. assert (bt_wf (K := string) (V := pacman_info * string) []) as Hnil by constructor.
  revert Hnil. generalize (@nil (string * (pacman_info * string))). induction pkgs as [|[i p] pkgs IH]; intros m Hm; [done|].
  simpl. apply IH. by apply keep_latest_wf.
Qed.

Lemma keep_latest_get m i p name :
  bt_get name (keep_latest m i p) =
  if String.eqb (pi_pkgname i) name then
    match bt_get name m with
    | Some e => if bool_decide (compare_versions (pi_pkgver i) (pi_pkgver e.1) = Gt) then Some (i, p) else Some e
    | None => Some (i, p)
    end
  else bt_get name m.
Proof.
  unfold keep_latest. cbv zeta. destruct (String.eqb_spec (pi_pkgname i) name) as [<-|Hne].
  - destruct (bt_get (pi_pkgname i) m) as [[e q]|] eqn:Hget; cbn [fst]; [|by rewrite bt_get_insert].
    destruct (bool_decide _); [by rewrite bt_get_insert|done].
  - destruct (match bt_get (pi_pkgname i) m with Some (existing, _) => _ | None => true end); [|done].
    by rewrite bt_get_insert_ne.
Qed.

Lemma compare_refl_not_gt v : compare_versions v v <> Gt.
Proof. unfold compare_versions. by rewrite compare_from_refl. Qed.

Lemma compare_gt_flip a b : compare_versions a b = Gt -> compare_versions b a <> Gt.
Proof. intros H. unfold compare_versions in *. rewrite Nat.max_comm, compare_from_antisym, H. done. Qed.

Lemma is_latest_step pkgs name i p e : pi_pkgname i = name -> is_latest pkgs name e ->
  Forall (fun e => numeric_version (pi_pkgver e.1)) ((i, p) :: pkgs) ->
  is_latest (pkgs ++ [(i, p)]) name
    (if bool_decide (compare_versions (pi_pkgver i) (pi_pkgver e.1) = Gt) then (i, p) else e).
Proof.
  intros Hi (Hin & Hname & Hmax) Hnum. rewrite Forall_cons in Hnum. destruct Hnum as [Hni Hnum].
  rewrite Forall_forall in Hnum. case_bool_decide as Hgt.
  - split_and!; [set_solver|done|]. intros e' He' Hn'. rewrite elem_of_app, list_elem_of_singleton in He'. destruct He' as [He'| ->].
    + eapply compare_numeric_trans; [by apply Hnum|by apply (Hnum e)|done|by apply Hmax|by apply compare_gt_flip].
    + apply compare_refl_not_gt.
  - split_and!; [set_solver|done|]. intros e' He' Hn'. rewrite elem_of_app, list_elem_of_singleton in He'.
    destruct He' as [He'| ->]; [by apply Hmax|done].
Qed.

Lemma latest_of_get pkgs name : Forall (fun e => numeric_version (pi_pkgver e.1)) pkgs ->
  match bt_get name (latest_of pkgs) with
  | Some e => is_latest pkgs name e
  | None => forall e, e ∈ pkgs -> pi_pkgname e.1 <> name
  end.
Proof.
  induction pkgs as [|[i p] pkgs IH] using rev_ind; intros Hnum; [simpl; set_solver|].
  unfold latest_of in *. rewrite foldl_app. cbn [foldl]. rewrite keep_latest_get.
  rewrite Forall_app, Forall_singleton in Hnum. destruct Hnum as [Hnum Hi]. specialize (IH Hnum).
  destruct (String.eqb_spec (pi_pkgname i) name) as [Heq|Hne].
  - destruct (bt_get name _) as [e|].
    + pose proof (is_latest_step pkgs name i p e Heq IH ltac:(by constructor)) as Hs. by destruct (bool_decide _).
    + split_and!; [set_solver|done|]. intros e' He' Hn'. rewrite elem_of_app, list_elem_of_singleton in He'.
      destruct He' as [He'| ->]; [by apply IH in He'|apply compare_refl_not_gt].
  - destruct (bt_get name _) as [e|].
    + destruct IH as (Hin & Hn & Hmax). split_and!; [set_solver|done|]. intros e' He' Hn'.
      rewrite elem_of_app, list_elem_of_singleton in He'. destruct He' as [He'| ->]; [by apply Hmax|done].
    + intros e' He'. rewrite elem_of_app, list_elem_of_singleton in He'. destruct He' as [He'| ->]; [by apply IH|done].
Qed.

Section PacmanTheorems.
Context (L : libraries).

Lemma wp_pacman_packages paths m w :
  wp (pacman_packages L paths m) (fun r w' =>
    r = foldl (fun m '(i, p) => keep_latest m i p) m (pacman_pool L w paths) /\ w' = w) w.
Proof.
  revert m. induction paths as [|p paths IH]; intros m; [done|].
  cbn [pacman_packages]. apply wp_read. unfold pacman_pool, parsed_files in *. cbn [omap list_omap].
  destruct (rw_files w !! p) as [d|]; cbn [mbind option_bind].
  - destruct (pacman_of L (Ok d)) as [i|e]; cbn [ok mbind option_bind]; [|apply IH]. rewrite fmap_cons. apply IH.
  - intros e. apply IH.
Qed.

(** Where its two writes succeed, the pacman database is written as zstd and as
    gzip of one archive, and both are made of the packages of the directory alone; every other file is kept.  Where
    versions are dotted numbers the database has exactly one entry for each name in
    the directory, and no package of the directory with that name is newer (2.6.10
    wins over 2.6.9). *)
Theorem pacman_database_spec repo_dir w tar zst :
  let pkgs := pacman_pool L w (scanned (pacman_repo repo_dir) pacman_file w) in
  lib_tar L (pacman_tar (latest_of pkgs)) = Ok tar -> lib_zstd L tar = Ok zst ->
  Forall (fun e => numeric_version (pi_pkgver e.1)) pkgs ->
  wp (generate_pacman_metadata L repo_dir) (fun r w' => r = Ok tt ->
    rw_files w' = <[(pacman_repo repo_dir ++ "/lpa-repo.db")%string := lib_gzip L tar]>
                    (<[(pacman_repo repo_dir ++ "/lpa-repo.db.tar.zst")%string := zst]> (rw_files w))) w /\
  NoDup (latest_of pkgs).*1 /\
  forall name, match bt_get name (latest_of pkgs) with
               | Some e => is_latest pkgs name e
               | None => forall e, e ∈ pkgs -> pi_pkgname e.1 <> name
               end.
Proof.
  intros pkgs Htar Hzst Hnum. split_and!.
  - unfold generate_pacman_metadata, bind_ok. cbv zeta. apply wp_scan.
    eapply wp_bind_eq; [apply wp_pacman_packages|]. fold pkgs. change (foldl _ [] pkgs) with (latest_of pkgs).
    cbn [bind]. rewrite Htar. cbn [bind]. rewrite Hzst. apply wp_write; [|done].
    intros x w' Hx ->. cbn in Hx. by subst.
  - apply bt_wf_NoDup, latest_of_wf.
  - intros name. by apply latest_of_get.
Qed.
End PacmanTheorems.

(** The pruning of the pool compares versions as strings: of 2.6.9 and 2.6.10 it
    removes the newer one. *)
Lemma prune_removes_newer :
  stale_files [("/pool/a_2.6.9_u2404_.deb", "2.6.9"); ("/pool/a_2.6.10_u2404_.deb", "2.6.10")]%string =
  ["/pool/a_2.6.10_u2404_.deb"%string].
Proof. reflexivity. Qed.

(** ** Theorems: apt *)

(** After the index of a suite was made without an error, Packages, Packages.gz and
    the sums in Release agree with each other and with the pool, no other file but
    the two signatures has changed, and every readable .deb of the pool whose name
    has the suite's token (or, for u2404, the manager's own packages) has a stanza
    with its control fields, its path and its checksums. *)
Theorem apt_metadata_spec L repo_dir suite w :
  wp (generate_apt_metadata L repo_dir suite) (fun r w' => r = Ok tt ->
    (forall p, p ∉ apt_outputs repo_dir suite -> rw_files w' !! p = rw_files w !! p) /\
    exists text, apt_published L repo_dir suite text w' /\
      forall name d c, apt_pool repo_dir ∈ rw_dirs w ->
        rw_files w !! (apt_pool repo_dir ++ "/" ++ name)%string = Some d ->
        name <> ""%string -> contains_char "/" name = false -> apt_file suite name = true ->
        deb_of L (Ok d) = Ok c ->
        exists pre post, text =
          (pre ++ apt_stanza (apt_pool repo_dir ++ "/" ++ name) c (compute_data_checksums L d) ++ post)%string) w.
Proof.
  eapply wp_mono; [|apply generate_apt_metadata_ok]. intros r w' Hr Hok. destruct (Hr Hok) as (Hpub & _ & Hkeep).
  split; [done|]. eexists. split; [exact Hpub|]. intros name d c Hdir Hfile Hne Hslash Hsuite Hparse.
  apply apt_index_complete; try done. simpl. set_solver.
Qed.

(** ** Theorems: the directories of suites that are no longer served *)

Definition dists (repo_dir : string) : string := (repo_dir ++ "/apt/dists")%string.
(** A path in a directory of [apt/dists] that is not a suite. *)
Definition stale (repo_dir p : string) : Prop :=
  exists name, (name ∉ APT_SUITES) /\ name <> ""%string /\ contains_char "/" name = false /\ within (dists repo_dir ++ "/" ++ name) p = true.

Lemma within_self p : within p p = true.
Proof. unfold within. by rewrite String.eqb_refl. Qed.

Lemma not_within_child p n : within (p ++ "/" ++ n) p = false.
Proof.
  assert (forall q, (String.length q < String.length (p ++ "/" ++ n))%nat -> within (p ++ "/" ++ n) q = false) as Hshort.
  { intros q Hq. unfold within. destruct (String.eqb_spec (p ++ "/" ++ n) q) as [<-|_]; [lia|]. cbn [orb]. unfold starts_with.
    destruct (strip_prefix ((p ++ "/" ++ n) ++ "/") q) as [t|] eqn:Hs; [|done].
    apply strip_prefix_app in Hs. subst q. rewrite !str_length_app in Hq. simpl in Hq. lia. }
  apply Hshort. rewrite !str_length_app. simpl. lia.
Qed.

(** What pruning does to the world, entry by entry. *)
Lemma wp_prune_dirs repo_dir entries removed w :
  (forall n, (n, true) ∈ entries -> n <> ""%string /\ contains_char "/" n = false) ->
  wp (prune_dirs (dists repo_dir) entries removed) (fun r w' =>
    (forall p, ~ stale repo_dir p -> rw_files w' !! p = rw_files w !! p) /\
    (forall q, q ∈ rw_dirs w' -> q ∈ rw_dirs w) /\
    (forall q, q ∈ rw_dirs w -> ~ stale repo_dir q -> q ∈ rw_dirs w') /\
    (dom (rw_files w') ⊆ dom (rw_files w)) /\
    (forall n, (n, true) ∈ entries -> n ∉ APT_SUITES -> (dists repo_dir ++ "/" ++ n)%string ∉ rw_dirs w')) w.
Proof.
  revert removed w. induction entries as [|[name is_dir] rest IH]; intros removed w Hok; cbn [prune_dirs].
  { simpl. split_and!; set_solver. }
  assert (forall n, (n, true) ∈ rest -> n <> ""%string /\ contains_char "/" n = false) as Hok' by (intros; apply Hok; set_solver).
  destruct (negb is_dir || bool_decide (name ∈ APT_SUITES)) eqn:Hkeep.
  - eapply wp_mono; [|by apply IH]. intros r w' (H1 & H2 & H3 & H4 & H5). split_and!; try done.
    intros n [Heq|Hin]%elem_of_cons Hn; [|by apply H5]. injection Heq as -> <-. simpl in Hkeep.
    apply bool_decide_eq_true in Hkeep. done.
  - apply orb_false_iff in Hkeep as [Hdir Hns]. apply negb_false_iff in Hdir as ->. apply bool_decide_eq_false in Hns.
    destruct (Hok name ltac:(left)) as [Hne Hslash].
    intros x w1 Hx. cbn [repo_sem exec] in Hx. set (p0 := (dists repo_dir ++ "/" ++ name)%string) in *.
    assert (forall p, within p0 p = true -> stale repo_dir p) as Hstale by (intros p Hp; by exists name).
    assert ((forall p, ~ stale repo_dir p -> rw_files w1 !! p = rw_files w !! p) /\
      (forall q, q ∈ rw_dirs w1 -> q ∈ rw_dirs w) /\ (forall q, q ∈ rw_dirs w -> ~ stale repo_dir q -> q ∈ rw_dirs w1) /\
      dom (rw_files w1) ⊆ dom (rw_files w) /\ p0 ∉ rw_dirs w1) as (G1 & G2 & G3 & G4 & G5).
    { case_bool_decide as Hd.
      - destruct Hx as [_ ->]. simpl. split_and!.
        + intros p Hp. destruct (rw_files w !! p) as [d|] eqn:Hd'.
          * apply map_lookup_filter_Some. split; [done|]. simpl. destruct (within p0 p) eqn:Hw; [|done]. exfalso. auto.
          * apply map_lookup_filter_None. by left.
        + intros q Hq. set_solver.
        + intros q Hq Hns'. apply elem_of_filter. split; [|done]. destruct (within p0 q) eqn:Hw; [|done]. exfalso. auto.
        + apply dom_filter_subseteq.
        + rewrite elem_of_filter. rewrite within_self. by intros [? _].
      - destruct Hx as [-> _]. by split_and!. }
    eapply wp_mono; [|by apply IH]. intros r w' (H1 & H2 & H3 & H4 & H5). split_and!.
    + intros p Hp. by rewrite H1, G1.
    + auto.
    + auto.
    + by etrans.
    + intros n [Heq|Hin]%elem_of_cons Hn; [|by apply H5]. injection Heq as ->. intros Hin. by apply G5, H2.
Qed.

Lemma prune_dirs_none dists_dir entries removed w :
  Forall (fun '(n, is_dir) => is_dir = true -> n ∈ APT_SUITES) entries ->
  wp (prune_dirs dists_dir entries removed) (fun r w' => r = removed /\ w' = w) w.
Proof.
  induction 1 as [|[n is_dir] entries Hn _ IH]; [done|]. cbn [prune_dirs].
  destruct is_dir; simpl; [|done]. by rewrite bool_decide_true by auto.
Qed.

(** At start-up the directories of suites that are no longer served are removed
    with what is in them, and nothing else; a second run finds nothing to do. *)
Theorem prune_suite_dirs_spec repo_dir w :
  dists repo_dir ∉ dom (rw_files w) ->
  wp (prune_stale_apt_suite_dirs repo_dir) (fun r w' => is_ok r = true /\
    (forall p, ~ stale repo_dir p -> rw_files w' !! p = rw_files w !! p) /\
    (forall q, q ∈ rw_dirs w -> ~ stale repo_dir q -> q ∈ rw_dirs w') /\
    (forall n, child (dists repo_dir) (dists repo_dir ++ "/" ++ n) = Some n -> n ∉ APT_SUITES ->
               dists repo_dir ∈ rw_dirs w -> (dists repo_dir ++ "/" ++ n)%string ∉ rw_dirs w') /\
    wp (prune_stale_apt_suite_dirs repo_dir) (fun r' w'' => r' = Ok 0 /\ w'' = w') w') w.
Proof.
  intros Hnf. unfold prune_stale_apt_suite_dirs at 1. cbv zeta. fold (dists repo_dir). apply wp_exists.
  destruct (decide (dists repo_dir ∈ rw_dirs w)) as [Hdir|Hdir].
  2:{ rewrite bool_decide_false by tauto. simpl. split_and!; try done.
      unfold prune_stale_apt_suite_dirs. cbv zeta. fold (dists repo_dir).
      intros x w' [-> ->]. rewrite bool_decide_false by tauto. done. }
  rewrite bool_decide_true by auto. simpl (negb true). cbv iota. unfold bind_ok.
  intros x w0 [-> Hx]. rewrite bool_decide_true in Hx by done. destruct Hx as (l & Hl & ->).
  assert (forall n, (n, true) ∈ l -> n <> ""%string /\ contains_char "/" n = false) as Hok.
  { intros n Hn. rewrite Hl in Hn. unfold listing in Hn. rewrite elem_of_app, !list_elem_of_omap in Hn.
    destruct Hn as [([q d] & _ & Hq)|(q & _ & Hq)]; simpl in Hq.
    - destruct (child _ q); simplify_eq/=.
    - destruct (child (dists repo_dir) q) eqn:Hc; simplify_eq/=. by apply child_spec in Hc as (_ & ? & ?). }
  cbn [bind trigger]. apply wp_bind. eapply wp_mono; [|by apply wp_prune_dirs].
  intros n w1 (H1 & H2 & H3 & H4 & H5). simpl. split_and!; try done.
  - intros n' Hc Hns Hd. destruct (decide ((dists repo_dir ++ "/" ++ n')%string ∈ rw_dirs w)) as [Hin|Hin]; [|auto].
    apply H5; [|done]. rewrite Hl. unfold listing. rewrite elem_of_app, !list_elem_of_omap. right.
    exists (dists repo_dir ++ "/" ++ n')%string. rewrite elem_of_elements. split; [done|].
    change (child (dists repo_dir) (dists repo_dir ++ "/" ++ n')%string = Some n') in Hc. by rewrite Hc.
  - assert (dists repo_dir ∈ rw_dirs w1) as Hd1.
    { apply H3; [done|]. intros (n' & _ & _ & _ & Hw). by rewrite not_within_child in Hw. }
    unfold prune_stale_apt_suite_dirs. cbv zeta. fold (dists repo_dir). apply wp_exists.
    rewrite bool_decide_true by auto. simpl (negb true). cbv iota. unfold bind_ok.
    intros x w2 [-> Hx]. rewrite bool_decide_true in Hx by done. destruct Hx as (l2 & Hl2 & ->).
    cbn [bind trigger]. eapply wp_bind_eq; [apply prune_dirs_none|done].
    apply Forall_forall. intros [n' b] Hin ->. rewrite Hl2 in Hin.
    destruct (decide (n' ∈ APT_SUITES)) as [|Hns]; [done|exfalso].
    unfold listing in Hin. rewrite elem_of_app, !list_elem_of_omap in Hin.
    destruct Hin as [([q d] & _ & Hq)|(q & Hq & Hc)]; simpl in *; [by destruct (child _ q); simplify_eq/=|].
    destruct (child (dists repo_dir) q) as [m|] eqn:Hcq; simplify_eq/=. apply elem_of_elements in Hq.
    pose proof Hcq as Hcs. apply child_spec in Hcs as (-> & Hne & Hslash).
    apply (H5 n'); [|done|done]. rewrite Hl. unfold listing. rewrite elem_of_app, !list_elem_of_omap. right.
    exists (dists repo_dir ++ "/" ++ n')%string. rewrite elem_of_elements, Hcq. split; [|done]. by apply H2.
Qed.

(** ** Witnesses: a pool of two versions and a disk with an old suite *)

(** Archives are texts: a package is its own .PKGINFO. *)
Definition toy_libs : libraries := {|
  lib_gunzip := Ok; lib_unxz := Ok; lib_unzstd := Ok; lib_gzip := fun v => v; lib_zstd := Ok; lib_gz_consumed := toy_consumed;
  lib_untar := fun v => [Ok ("./control"%string, Ok v)]; lib_untar_gz := fun v => [Ok (".PKGINFO"%string, Ok v)];
  lib_untar_multi_gz := fun v => [Ok (".PKGINFO"%string, Ok v)]; lib_untar_zst := fun v => [Ok (".PKGINFO"%string, Ok v)];
  lib_tar := toy_tar; lib_md5 := fun _ => "md5"%string; lib_sha1 := fun _ => "sha1"%string;
  lib_sha256 := fun v => of_bytes v; lib_sha1_base64 := fun _ => "c2hhMQ"%string;
  lib_rsa_sign := toy_sign; lib_http_date := fun n => dec n
|}.

Definition toy_pkg (version : string) : vec_u8 := as_bytes ("pkgname = agent" ++ nl ++ "pkgver = " ++ version ++ nl).
Definition toy_pool : repo_world :=
  RepoWorld (list_to_map [("/r/pacman/x86_64/agent-2.6.10.pkg.tar.zst"%string, toy_pkg "2.6.10");
                          ("/r/pacman/x86_64/agent-2.6.9.pkg.tar.zst"%string, toy_pkg "2.6.9")])
            {["/r/pacman/x86_64"%string]} ∅ ∅ None.
Definition toy_pkgs : list (pacman_info * string) :=
  pacman_pool toy_libs toy_pool (scanned (pacman_repo "/r") pacman_file toy_pool).
Definition toy_db : vec_u8 := default [] (ok (lib_tar toy_libs (pacman_tar (latest_of toy_pkgs)))).

Lemma pacman_database_spec_witness :
  pi_pkgver <$> (fst <$> toy_pkgs) = ["2.6.10"; "2.6.9"]%string /\
  (fun e => pi_pkgver e.2.1) <$> latest_of toy_pkgs = ["2.6.10"%string] /\
  wp (generate_pacman_metadata toy_libs "/r") (fun r w' => r = Ok tt ->
    rw_files w' = <[(pacman_repo "/r" ++ "/lpa-repo.db")%string := lib_gzip toy_libs toy_db]>
                    (<[(pacman_repo "/r" ++ "/lpa-repo.db.tar.zst")%string := toy_db]> (rw_files toy_pool))) toy_pool.
Proof.
  split; [vm_compute; reflexivity|]. split; [vm_compute; reflexivity|].
  assert (lib_tar toy_libs (pacman_tar (latest_of toy_pkgs)) = Ok toy_db) as Htar by (vm_compute; reflexivity).
  assert (pi_pkgver <$> (fst <$> toy_pkgs) = ["2.6.10"; "2.6.9"]%string) as Hvs by (vm_compute; reflexivity).
  assert (Forall numeric_version (pi_pkgver <$> (fst <$> toy_pkgs))) as Hnum.
  { rewrite Hvs. assert (forall i j k, u64_list [i; j; k] -> numeric_version (render [i; j; k])) as H
      by (intros; eexists; split; [done|reflexivity]).
    constructor; [|constructor; [|constructor]].
    - exact (H 2 6 10 ltac:(repeat constructor; done)).
    - exact (H 2 6 9 ltac:(repeat constructor; done)). }
  rewrite !Forall_fmap in Hnum.
  exact (proj1 (pacman_database_spec toy_libs "/r" toy_pool toy_db toy_db Htar eq_refl Hnum)).
Defined.

Definition toy_disk : repo_world :=
  RepoWorld {["/r/apt/dists/trixie/Release"%string := []]}
            {["/r/apt/dists"%string; "/r/apt/dists/trixie"%string; "/r/apt/dists/u2404"%string]} ∅ ∅ None.

Lemma prune_suite_dirs_spec_witness :
  stale "/r" "/r/apt/dists/trixie/Release" /\
  wp (prune_stale_apt_suite_dirs "/r") (fun r w' => is_ok r = true /\
    (forall p, ~ stale "/r" p -> rw_files w' !! p = rw_files toy_disk !! p) /\
    (forall q, q ∈ rw_dirs toy_disk -> ~ stale "/r" q -> q ∈ rw_dirs w') /\
    (forall n, child (dists "/r") (dists "/r" ++ "/" ++ n) = Some n -> n ∉ APT_SUITES ->
               dists "/r" ∈ rw_dirs toy_disk -> (dists "/r" ++ "/" ++ n)%string ∉ rw_dirs w') /\
    wp (prune_stale_apt_suite_dirs "/r") (fun r' w'' => r' = Ok 0 /\ w'' = w') w') toy_disk.
Proof.
  split.
  - exists "trixie"%string. split_and!; [by vm_compute; intros H; repeat apply elem_of_cons in H as [|H]; [..|by apply not_elem_of_nil in H]|done|done|done].
  - apply prune_suite_dirs_spec. unfold toy_disk, dists. simpl. set_solver.
Defined.
