(* ===== verification/Upgrades.v ===== *)
(** * Self-upgrades on request (pm-web/src/routes/upgrades.rs)

    Which versions of the agent the repository has for a host, and the jobs that
    an operator's request creates: one per version, with one entry per host. *)

From S2P Require Import Prelude Ordering Version Rbac Conc Schema Windows Statements SelfUpgrade JobExecutor JobsApi.
From S2P Require Import RepoWorld RepoIndex.

(** ** The operating system of a host *)

Definition map_os_to_distro (os_name : string) : option (string * option string) :=
  let lower := to_ascii_lowercase os_name in
  let has s := str_contains s lower in
  if starts_with "ubuntu" lower then
    if has "24.04"%string then Some ("apt", Some "u2404")%string
    else if has "22.04"%string then Some ("apt", Some "u2204")%string
    else if has "26.04"%string then Some ("apt", Some "u2604")%string
    else Some ("apt"%string, None)
  else if starts_with "debian" lower then
    if has "12"%string || has "bookworm"%string then Some ("apt", Some "debian12")%string
    else if has "13"%string || has "trixie"%string then Some ("apt", Some "debian13")%string
    else Some ("apt"%string, None)
  else if starts_with "fedora" lower || starts_with "almalinux" lower then Some ("dnf"%string, Some DNF_CODENAME)
  else if starts_with "alpine" lower then Some ("apk"%string, Some APK_CODENAME)
  else if starts_with "arch" lower then Some ("pacman", Some "x86_64")%string
  else None.

(** ** The effects: statements on hosts and packages, and those of the job routes *)

(** [RepoAvailableVersion] *)
Record available_version : Type := AvailableVersion {
  av_version : string; av_distro : string; av_codename : option string; av_file_name : string; av_published_at : option Z
}.

Inductive upgrade_eff : Type -> Type :=
| JobEff {X} (e : eff X) : upgrade_eff X
(** [SELECT os_name, agent_version FROM hosts WHERE id = $1] *)
| SelHostOs (host : uuid) : upgrade_eff (result (option (option string * option string)) string)
(** [SELECT DISTINCT version FROM repo_packages WHERE ...] *)
| SelVersions (distro : string) (codename : option string) : upgrade_eff (result (list string) string)
(** [SELECT DISTINCT ON (version) ... FROM repo_packages WHERE ...] *)
| SelAvailable (distro : string) (codename : option string) : upgrade_eff (result (list available_version) string).

Fixpoint job_part {A} (p : prog eff A) : prog upgrade_eff A :=
  match p with
  | Ret a => Ret a
  | Vis e k => Vis (JobEff e) (fun x => job_part (k x))
  end.

(** An error of the database ends the request with 500. *)
Definition db_or_internal {A B} (p : prog upgrade_eff (result A string)) (f : A -> prog upgrade_eff (result B api_err))
    : prog upgrade_eff (result B api_err) :=
  let! r := p in match r with Ok a => f a | Err _ => Ret (Err err_internal) end.

(** ** The versions for a host *)

Definition sort_repo_versions_desc (versions : list available_version) : list available_version :=
  sort_by (fun a b => compare_versions (av_version b) (av_version a)) versions.

Definition resolve_host_distro (host : uuid) : prog upgrade_eff (result (option (string * option string)) api_err) :=
  db_or_internal (trigger (SelHostOs host)) (fun row =>
    match row ≫= fst with
    | None => Ret (Ok None)
    | Some os_name => Ret (Ok (map_os_to_distro os_name))
    end).

Definition list_available_versions (host : uuid) : prog upgrade_eff (result (list available_version) api_err) :=
  let!? d := resolve_host_distro host in
  match d with
  | None => Ret (Ok [])
  | Some (distro, codename) =>
      db_or_internal (trigger (SelAvailable distro codename)) (fun versions =>
        Ret (Ok (sort_repo_versions_desc versions)))
  end.

(** ** The request *)

Record upgrade_request : Type := UpgradeRequest {
  ur_hosts : list uuid; ur_target : option string; ur_immediate : bool; ur_window : option uuid
}.

(** [s.split('-').next()] *)
Definition before_dash (s : string) : string := take_until (Ascii.eqb "-") s.

(** The version to go to, of those there are; the first is the latest. *)
Definition resolve_version (target : option string) (available : list string) : result string string :=
  match target with
  | Some tv =>
      if existsb (String.eqb tv) available then Ok tv
      else Err ("Version '" ++ tv ++ "' not available for this host's OS")%string
  | None => match available with v :: _ => Ok v | [] => Err "index out of bounds"%string end
  end.

(** Nothing to do if the host has it already. *)
Definition check_current (agent_version : option string) (version : string) : result string string :=
  match agent_version with
  | Some current =>
      if String.eqb (before_dash current) (before_dash version)
      then Err ("Host is already at version " ++ version)%string else Ok version
  | None => Ok version
  end.

Definition choose_version (target agent_version : option string) (versions : list string) : result string string :=
  match versions with
  | [] => Err "No packages available for this host's OS in the repo"%string
  | _ =>
      let? version := resolve_version target (sort_by (fun a b => compare_versions b a) versions) in
      check_current agent_version version
  end.

(** One host: the version it is upgraded to, or the reason why it is skipped. *)
Definition resolve_host (target : option string) (host : uuid) : prog upgrade_eff (result (result string string) api_err) :=
  db_or_internal (trigger (SelHostOs host)) (fun row =>
    match row with
    | None => Ret (Ok (Err "Host not found"%string))
    | Some (None, _) => Ret (Ok (Err "Host has no OS information"%string))
    | Some (Some os_name, agent_version) =>
        match map_os_to_distro os_name with
        | None => Ret (Ok (Err ("Unsupported OS: " ++ os_name)%string))
        | Some (distro, codename) =>
            db_or_internal (trigger (SelVersions distro codename)) (fun versions =>
              Ret (Ok (choose_version target agent_version versions)))
        end
    end).

Fixpoint resolve_hosts (target : option string) (hosts : list uuid) (skipped valid : list (uuid * string))
    : prog upgrade_eff (result (list (uuid * string) * list (uuid * string)) api_err) :=
  match hosts with
  | [] => Ret (Ok (skipped, valid))
  | host :: rest =>
      let!? r := resolve_host target host in
      match r with
      | Err reason => resolve_hosts target rest (skipped ++ [(host, reason)]) valid
      | Ok version => resolve_hosts target rest skipped (valid ++ [(host, version)])
      end
  end.

(** [groups.entry(version).or_default().push(host)] *)
Definition push_host (groups : btree string (list uuid)) (hv : uuid * string) : btree string (list uuid) :=
  bt_insert hv.2 (default [] (bt_get hv.2 groups) ++ [hv.1]) groups.
Definition group_hosts (valid : list (uuid * string)) : btree string (list uuid) := foldl push_host [] valid.

Definition upgrade_selection (version : string) : json :=
  JObj [("target_version", JStr version); ("restart", JBool true); ("restart_delay_seconds", JNum 5)]%string.

(** The loop over the groups.  [first] is the first job, if there is one yet (no
    job has the nil id), [total] the number of hosts. *)
Fixpoint insert_groups (auth : auth_user) (window : option uuid) (immediate : bool) (groups : list (string * list uuid))
    (first : option uuid) (total : Z) : prog eff (result (option uuid * Z) api_err) :=
  match groups with
  | [] => Ret (Ok (first, total))
  | (version, hosts) :: rest =>
      let! j := sql (InsJob SelfUpgrade (Some (au_id auth)) None window immediate (upgrade_selection version) "" false 0) in
      match j with
      | Err _ => Ret (Err err_internal)
      | Ok job =>
          let!? _ := insert_host_rows job hosts in
          insert_groups auth window immediate rest (Some (default job first)) (total + Z.of_nat (length hosts))
      end
  end.

(** The part of the request that writes: the jobs and the audit entry. *)
Definition create_upgrade_jobs (auth : auth_user) (window : option uuid) (immediate : bool) (valid : list (uuid * string))
    : prog eff (result (option uuid * Z) api_err) :=
  let!? created := insert_groups auth window immediate (group_hosts valid) None 0 in
  trigger (LogEvent (if (1 <? length valid)%nat then "batch_upgrade_triggered" else "upgrade_triggered")
             (default 0%N created.1)) ;;
  Ret (Ok created).

(** [TriggerUpgradeResponse] *)
Record upgrade_response : Type := UpgradeResponse { up_job : option uuid; up_host_count : Z; up_skipped : list (uuid * string) }.

Definition trigger_upgrade (auth : auth_user) (req : upgrade_request) : prog upgrade_eff (result upgrade_response api_err) :=
  if negb (can_write (au_role auth)) then Ret (Err err_forbidden)
  else if bool_decide (ur_hosts req = []) then Ret (Err err_bad_request)
  else
    let!? sv := resolve_hosts (ur_target req) (ur_hosts req) [] [] in
    let '(skipped, valid) := sv in
    match valid with
    | [] => Ret (Ok (UpgradeResponse None 0 skipped))
    | _ =>
        let!? created := job_part (create_upgrade_jobs auth (ur_window req) (ur_immediate req) valid) in
        Ret (Ok (UpgradeResponse created.1 created.2 skipped))
    end.
