(* ===== verification/Hosts.v ===== *)
(** * Hosts, groups and discovery (pm-web/src/routes/hosts.rs, groups.rs, discovery.rs)

    The inventory: hosts, groups, who is in which group and what a scan of a
    network found; its routes, the filtered listing with its generated SQL, and
    the rule by which users who are no administrators see hosts.  Name resolution,
    connections and the order and pattern matching of the database are effects or
    parameters. *)

From S2P Require Import Prelude Ordering Rbac Conc Upgrades.

(** ** Tables *)

(** [hosts] with the number of missing patches of [host_patch_data]. *)
Record host_rec : Type := HostRec {
  in_fqdn : string; in_ip : string; in_name : string; in_port : Z; in_notes : string; in_reboot_paused : bool;
  in_os_name : option string; in_agent_version : option string; in_health : string; in_patch_count : option Z
}.
Record group_rec : Type := GroupRec { gr_name : string; gr_description : string }.
(** [discovery_results] *)
Record found_rec : Type := FoundRec { fd_scan : uuid; fd_ip : string; fd_fqdn : option string; fd_port : Z; fd_registered : bool }.

Record inventory : Type := Inventory {
  iv_hosts : gmap uuid host_rec; iv_groups : gmap uuid group_rec; iv_users : gset uuid;
  (** pairs of a host and a group, and of a user and a group *)
  iv_host_groups : gset (uuid * uuid); iv_user_groups : gset (uuid * uuid);
  iv_found : gmap uuid found_rec
}.

Definition with_hosts (m : gmap uuid host_rec) (v : inventory) : inventory :=
  Inventory m (iv_groups v) (iv_users v) (iv_host_groups v) (iv_user_groups v) (iv_found v).
Definition with_groups (m : gmap uuid group_rec) (v : inventory) : inventory :=
  Inventory (iv_hosts v) m (iv_users v) (iv_host_groups v) (iv_user_groups v) (iv_found v).
Definition with_host_groups (s : gset (uuid * uuid)) (v : inventory) : inventory :=
  Inventory (iv_hosts v) (iv_groups v) (iv_users v) s (iv_user_groups v) (iv_found v).
Definition with_user_groups (s : gset (uuid * uuid)) (v : inventory) : inventory :=
  Inventory (iv_hosts v) (iv_groups v) (iv_users v) (iv_host_groups v) s (iv_found v).
Definition with_found (m : gmap uuid found_rec) (v : inventory) : inventory :=
  Inventory (iv_hosts v) (iv_groups v) (iv_users v) (iv_host_groups v) (iv_user_groups v) m.

(** The two halves of the access rule: a common group, or no group at all. *)
Definition in_common_group (host user : uuid) (v : inventory) : bool :=
  bool_decide (set_Exists (fun hg => hg.1 = host /\ (user, hg.2) ∈ iv_user_groups v) (iv_host_groups v)).
Definition ungrouped (host : uuid) (v : inventory) : bool :=
  bool_decide (set_Forall (fun hg => hg.1 <> host) (iv_host_groups v)).

(** ** The filters of the listing *)

Record host_list_query : Type := HostListQuery {
  hq_search : option string; hq_health_status : option string; hq_patches_missing : option string;
  hq_limit : option Z; hq_offset : option Z; hq_sort_by : option string; hq_order : option string
}.

(** The ORDER BY fragment of a sort key; unknown keys have none. *)
Definition resolve_sort_fragment (sort_by order : string) : option string :=
  let key k := String.eqb sort_by k in
  column ← (if key "fqdn" then Some "h.fqdn"
            else if key "display_name" then Some "h.display_name"
            else if key "ip_address" then Some "host(h.ip_address)"
            else if key "os" then Some "h.os_name"
            else if key "health_status" then Some "h.health_status"
            else if key "health_check_status" then Some "health_check_status"
            else if key "crl_status" then Some "h.crl_status"
            else if key "agent_version" then Some "h.agent_version"
            else if key "patches_missing" then Some "patches_missing"
            else if key "pending_reboot" then Some "h.pending_reboot"
            else None);
  Some (column ++ " " ++ (if String.eqb (to_ascii_lowercase order) "desc" then "DESC" else "ASC"))%string.

Definition order_fragment (q : host_list_query) : string :=
  default "h.fqdn ASC"%string
    (match hq_sort_by q with
     | Some field => resolve_sort_fragment field (default "asc"%string (hq_order q))
     | None => None
     end).

Inductive host_filter : Type := FSearch (search : string) | FStatus (status : string) | FMissing | FUpToDate.

(** The SQL template and the value of a filter. *)
Definition hf_sql (f : host_filter) : string :=
  match f with
  | FSearch _ => "(h.fqdn ILIKE ${p} OR h.display_name ILIKE ${p})"
  | FStatus _ => "h.health_status = ${p}"
  | FMissing => "COALESCE(hpd.patch_count, 0) > 0"
  | FUpToDate => "COALESCE(hpd.patch_count, 0) = 0"
  end.
Definition hf_bind (f : host_filter) : string :=
  match f with FSearch s => "%" ++ s ++ "%" | FStatus s => s | _ => "" end.

Definition non_empty (s : option string) : option string := s ← s; if String.eqb s "" then None else Some s.

Definition host_filters (q : host_list_query) : list host_filter :=
  match non_empty (hq_search q) with Some s => [FSearch s] | None => [] end ++
  match non_empty (hq_health_status q) with Some s => [FStatus s] | None => [] end ++
  match hq_patches_missing q with
  | Some pm => if String.eqb pm "missing" then [FMissing] else if String.eqb pm "uptodate" then [FUpToDate] else []
  | None => []
  end.

(** [s.replace(pat, by)]; more fuel than characters is enough. *)
Fixpoint replace_str (fuel : nat) (pat by_ s : string) : string :=
  match fuel with
  | O => s
  | S fuel' =>
      match s with
      | EmptyString => ""
      | String c s' =>
          match strip_prefix pat s with
          | Some rest => by_ ++ replace_str fuel' pat by_ rest
          | None => String c (replace_str fuel' pat by_ s')
          end
      end
  end.
Definition place (sql : string) (idx : Z) : string := replace_str (S (String.length sql)) "${p}" ("$" ++ dec idx) sql.
Definition takes_value (f : host_filter) : bool := str_contains "${p}" (hf_sql f).

(** The templates with their numbers, and how many numbers they took. *)
Fixpoint place_all (filters : list host_filter) (idx : Z) : list string * Z :=
  match filters with
  | [] => ([], idx)
  | f :: fs =>
      let '(parts, last) := place_all fs (if takes_value f then idx + 1 else idx) in
      (place (hf_sql f) idx :: parts, last)
  end.
Definition assign_placeholders (filters : list host_filter) (start : Z) : string * Z :=
  let '(parts, last) := place_all filters start in
  if bool_decide (parts = []) then (""%string, 0) else ((" AND " ++ String.concat " AND " parts)%string, last - start).

(** The values bound for the filters, in order. *)
Definition filter_values (filters : list host_filter) : list string := hf_bind <$> List.filter takes_value filters.

(** ** What the queries select

    The condition behind WHERE as the database reads it: AND binds tighter than OR. *)
Inductive host_cond : Type :=
| CTrue | CFilter (f : host_filter) | CInGroupOf (user : uuid) | CUngrouped
| CAnd (a b : host_cond) | COr (a b : host_cond).

Definition and_filters (c : host_cond) (filters : list host_filter) : host_cond :=
  List.fold_left (fun c f => CAnd c (CFilter f)) filters c.

(** [WHERE 1=1{filter_clause}] for administrators,
    [WHERE EXISTS (...) OR NOT EXISTS (...){filter_clause}] for others. *)
Definition list_cond (auth : auth_user) (filters : list host_filter) : host_cond :=
  if is_admin (au_role auth) then and_filters CTrue filters
  else COr (CInGroupOf (au_id auth)) (and_filters CUngrouped filters).
(** [WHERE (EXISTS (...) OR NOT EXISTS (...)){count_filter}] *)
Definition count_cond (auth : auth_user) (filters : list host_filter) : host_cond :=
  if is_admin (au_role auth) then and_filters CTrue filters
  else and_filters (COr (CInGroupOf (au_id auth)) CUngrouped) filters.

(** ** Statements *)

Record create_host_request : Type := CreateHostRequest {
  ch_fqdn : string; ch_display_name : option string; ch_agent_port : option Z; ch_notes : option string; ch_group_ids : option (list uuid)
}.
Record update_host_request : Type := UpdateHostRequest {
  uh_fqdn : option string; uh_ip_address : option string; uh_display_name : option string; uh_reboot_paused : option bool
}.

Inductive host_stmt : Type -> Type :=
| SelCommonGroup (host user : uuid) : host_stmt bool
| SelUngrouped (host : uuid) : host_stmt bool
(** [SELECT DISTINCT] for all but administrators. *)
| SelHosts (distinct : bool) (c : host_cond) (order : string) (limit offset : Z) : host_stmt (list (uuid * host_rec))
| CountHosts (c : host_cond) : host_stmt Z
| SelLatestVersion (distro : string) (codename : option string) : host_stmt (option string)
| InsHost (h : host_rec) : host_stmt uuid
(** [ON CONFLICT DO NOTHING RETURNING id] *)
| InsNewHost (h : host_rec) : host_stmt uuid
| InsHostGroup (host group : uuid) : host_stmt unit
| SelHost (id : uuid) : host_stmt (option host_rec)
| SelHostFqdn (id : uuid) : host_stmt (option string)
| DelHost (id : uuid) : host_stmt Z
| UpdHost (id : uuid) (req : update_host_request) : host_stmt (option host_rec)
| SelGroupsOfHost (host : uuid) : host_stmt (list (uuid * group_rec))
| DelHostGroup (host group : uuid) : host_stmt unit
| SelHostExists (id : uuid) : host_stmt bool
| NotifyRefresh (id : uuid) : host_stmt unit
| SelGroups : host_stmt (list (uuid * group_rec))
| InsGroup (name description : string) : host_stmt uuid
| SelGroup (id : uuid) : host_stmt (option group_rec)
| CountGroupHosts (id : uuid) : host_stmt Z
| CountGroupUsers (id : uuid) : host_stmt Z
| UpdGroup (id : uuid) (name description : option string) : host_stmt Z
| DelGroup (id : uuid) : host_stmt Z
| InsUserGroup (user group : uuid) : host_stmt unit
| DelUserGroup (user group : uuid) : host_stmt unit
| InsFound (f : found_rec) : host_stmt unit
| SelFound (id : uuid) : host_stmt (option found_rec)
| SelFoundOfScan (scan : uuid) : host_stmt (list (uuid * found_rec))
| UpdFoundRegistered (id : uuid) : host_stmt unit.

Definition duplicate_key : string := "duplicate key value violates unique constraint".
Definition foreign_key : string := "violates foreign key constraint".
Definition no_rows : string := "no rows returned".

(** ** What PostgreSQL refuses

    There is no operator between the enumeration [h.health_status] and a text
    parameter; and what a [SELECT DISTINCT] is ordered by must be one of the
    expressions that it selects, or the name it gives to one. *)
Fixpoint compares_status (c : host_cond) : bool :=
  match c with
  | CFilter (FStatus _) => true
  | CAnd a b | COr a b => compares_status a || compares_status b
  | _ => false
  end.

Definition select_list : list string :=
  ["h.id"; "h.fqdn"; "host(h.ip_address)"; "ip_address"; "h.display_name"; "h.os_family"; "h.os_name"; "h.health_status";
   "h.agent_version"; "patches_missing"; "health_check_status"; "h.registered_at"; "h.crl_status"; "upgrade_available";
   "latest_version"; "pending_reboot"; "reboot_paused"; "package_db_clean"]%string.
Definition selects (order : string) : bool := existsb (fun e => starts_with (e ++ " ") order) select_list.

Definition refused_listing (distinct : bool) (c : host_cond) (order : string) (limit offset : Z) : option string :=
  if compares_status c then Some "operator does not exist: host_health_status = text"%string
  else if distinct && negb (selects order) then Some "for SELECT DISTINCT, ORDER BY expressions must appear in select list"%string
  else if (limit <? 0) || (offset <? 0) then Some "LIMIT and OFFSET must not be negative"%string
  else None.

Section Database.
(** The database's ILIKE, its reading of an [inet] value, its order of the rows
    by an ORDER BY fragment, and the versions in the package tables. *)
Context (ilike : string -> string -> bool) (inet : string -> option string)
        (order_by : string -> uuid * host_rec -> uuid * host_rec -> comparison)
        (latest : string -> option string -> option string).

(** What a filter says; the database refuses to evaluate [FStatus]. *)
Definition filter_holds (f : host_filter) (h : host_rec) : bool :=
  match f with
  | FSearch _ => ilike (hf_bind f) (in_fqdn h) || ilike (hf_bind f) (in_name h)
  | FStatus s => String.eqb (in_health h) s
  | FMissing => 0 <? default 0 (in_patch_count h)
  | FUpToDate => default 0 (in_patch_count h) =? 0
  end.

Fixpoint cond_holds (v : inventory) (c : host_cond) (kv : uuid * host_rec) : bool :=
  match c with
  | CTrue => true
  | CFilter f => filter_holds f kv.2
  | CInGroupOf user => in_common_group kv.1 user v
  | CUngrouped => ungrouped kv.1 v
  | CAnd a b => cond_holds v a kv && cond_holds v b kv
  | COr a b => cond_holds v a kv || cond_holds v b kv
  end.

Definition selected (c : host_cond) (v : inventory) : list (uuid * host_rec) :=
  List.filter (cond_holds v c) (map_to_list (iv_hosts v)).

(** [hosts_fqdn_ip_unique] *)
Definition same_address (a b : host_rec) : bool := String.eqb (in_fqdn a) (in_fqdn b) && String.eqb (in_ip a) (in_ip b).
Definition address_taken (h : host_rec) (m : gmap uuid host_rec) : bool :=
  existsb (fun kv => same_address h kv.2) (map_to_list m).
Definition group_name_taken (name : string) (m : gmap uuid group_rec) : bool :=
  existsb (fun kv => String.eqb (gr_name kv.2) name) (map_to_list m).

Definition with_ip (h : host_rec) (ip : string) : host_rec :=
  HostRec (in_fqdn h) ip (in_name h) (in_port h) (in_notes h) (in_reboot_paused h) (in_os_name h) (in_agent_version h) (in_health h) (in_patch_count h).

(** COALESCE of each given column. *)
Definition updated_host (h : host_rec) (req : update_host_request) (ip : option string) : host_rec :=
  HostRec (default (in_fqdn h) (uh_fqdn req)) (default (in_ip h) ip) (default (in_name h) (uh_display_name req)) (in_port h) (in_notes h)
    (default (in_reboot_paused h) (uh_reboot_paused req)) (in_os_name h) (in_agent_version h) (in_health h) (in_patch_count h).

Definition insert_host (h : host_rec) (taken : string) (v : inventory) : result uuid string * inventory :=
  match inet (in_ip h) with
  | None => (Err "invalid input syntax for type inet"%string, v)
  | Some ip =>
      if address_taken (with_ip h ip) (iv_hosts v) then (Err taken, v)
      else let id := fresh (dom (iv_hosts v)) in (Ok id, with_hosts (<[id := with_ip h ip]> (iv_hosts v)) v)
  end.

(** The row is read in the state before the update ([WITH updated AS (UPDATE ...)]). *)
Definition update_host_row (id : uuid) (req : update_host_request) (v : inventory) : result (option host_rec) string * inventory :=
  match match uh_ip_address req with Some s => Some <$> inet s | None => Some None end with
  | None => (Err "invalid input syntax for type inet"%string, v)
  | Some ip =>
      match iv_hosts v !! id with
      | None => (Ok None, v)
      | Some h =>
          let h' := updated_host h req ip in
          if address_taken h' (delete id (iv_hosts v)) then (Err duplicate_key, v)
          else (Ok (Some h), with_hosts (<[id := h']> (iv_hosts v)) v)
      end
  end.

Definition by_name (a b : uuid * group_rec) : comparison := str_cmp (gr_name a.2) (gr_name b.2).

Definition exec_host_stmt {X} (q : host_stmt X) (v : inventory) : result X string * inventory :=
  match q in host_stmt Y return result Y string * inventory with
  | SelCommonGroup host user => (Ok (in_common_group host user v), v)
  | SelUngrouped host => (Ok (ungrouped host v), v)
  | SelHosts distinct c order limit offset =>
      (match refused_listing distinct c order limit offset with
       | Some e => Err e
       | None => Ok (take (Z.to_nat limit) (drop (Z.to_nat offset) (sort_by (order_by order) (selected c v))))
       end, v)
  | CountHosts c =>
      (if compares_status c then Err "operator does not exist: host_health_status = text"%string
       else Ok (Z.of_nat (length (selected c v))), v)
  | SelLatestVersion distro codename => (Ok (latest distro codename), v)
  | InsHost h => insert_host h duplicate_key v
  | InsNewHost h => insert_host h no_rows v
  | InsHostGroup host group =>
      if bool_decide (is_Some (iv_hosts v !! host)) && bool_decide (is_Some (iv_groups v !! group))
      then (Ok tt, with_host_groups ({[(host, group)]} ∪ iv_host_groups v) v) else (Err foreign_key, v)
  | SelHost id => (Ok (iv_hosts v !! id), v)
  | SelHostFqdn id => (Ok (in_fqdn <$> iv_hosts v !! id), v)
  | DelHost id =>
      if bool_decide (is_Some (iv_hosts v !! id)) then
        (Ok 1, with_host_groups (filter (fun hg => hg.1 <> id) (iv_host_groups v)) (with_hosts (delete id (iv_hosts v)) v))
      else (Ok 0, v)
  | UpdHost id req => update_host_row id req v
  | SelGroupsOfHost host =>
      (Ok (sort_by by_name (List.filter (fun kv => bool_decide ((host, kv.1) ∈ iv_host_groups v)) (map_to_list (iv_groups v)))), v)
  | DelHostGroup host group => (Ok tt, with_host_groups (iv_host_groups v ∖ {[(host, group)]}) v)
  | SelHostExists id => (Ok (bool_decide (is_Some (iv_hosts v !! id))), v)
  | NotifyRefresh _ => (Ok tt, v)
  | SelGroups => (Ok (sort_by by_name (map_to_list (iv_groups v))), v)
  | InsGroup name description =>
      if group_name_taken name (iv_groups v) then (Err duplicate_key, v)
      else let id := fresh (dom (iv_groups v)) in (Ok id, with_groups (<[id := GroupRec name description]> (iv_groups v)) v)
  | SelGroup id => (Ok (iv_groups v !! id), v)
  | CountGroupHosts id => (Ok (Z.of_nat (size (filter (fun hg => hg.2 = id) (iv_host_groups v)))), v)
  | CountGroupUsers id => (Ok (Z.of_nat (size (filter (fun ug => ug.2 = id) (iv_user_groups v)))), v)
  | UpdGroup id name description =>
      match iv_groups v !! id with
      | None => (Ok 0, v)
      | Some g =>
          let g' := GroupRec (default (gr_name g) name) (default (gr_description g) description) in
          if group_name_taken (gr_name g') (delete id (iv_groups v)) then (Err duplicate_key, v)
          else (Ok 1, with_groups (<[id := g']> (iv_groups v)) v)
      end
  | DelGroup id =>
      if bool_decide (is_Some (iv_groups v !! id)) then
        (Ok 1, with_user_groups (filter (fun ug => ug.2 <> id) (iv_user_groups v))
                 (with_host_groups (filter (fun hg => hg.2 <> id) (iv_host_groups v)) (with_groups (delete id (iv_groups v)) v)))
      else (Ok 0, v)
  | InsUserGroup user group =>
      if bool_decide (user ∈ iv_users v) && bool_decide (is_Some (iv_groups v !! group))
      then (Ok tt, with_user_groups ({[(user, group)]} ∪ iv_user_groups v) v) else (Err foreign_key, v)
  | DelUserGroup user group => (Ok tt, with_user_groups (iv_user_groups v ∖ {[(user, group)]}) v)
  | InsFound f => (Ok tt, with_found (<[fresh (dom (iv_found v)) := f]> (iv_found v)) v)
  | SelFound id => (Ok (iv_found v !! id), v)
  | SelFoundOfScan scan => (Ok (List.filter (fun kv => bool_decide (fd_scan kv.2 = scan)) (map_to_list (iv_found v))), v)
  | UpdFoundRegistered id =>
      (Ok tt, with_found (alter (fun f => FoundRec (fd_scan f) (fd_ip f) (fd_fqdn f) (fd_port f) true) id (iv_found v)) v)
  end.
End Database.

(** ** Effects *)

Inductive host_eff : Type -> Type :=
| HostSql {X} (q : host_stmt X) : host_eff (result X string)
(** [to_socket_addrs] on a name: the addresses. *)
| DnsLookup (name : string) : host_eff (result (list string) string)
| HostEvent (action : string) (id : uuid) : host_eff unit
| NewScanId : host_eff uuid
(** [task::spawn] of a scan of these addresses. *)
| SpawnScan (scan : uuid) (ips : list string) (port : Z) : host_eff unit
(** [TcpStream::connect_timeout] *)
| TcpProbe (ip : string) (port : Z) : host_eff bool.

Definition host_error {A} (status : Z) (ecode : string) : prog host_eff (result A api_err) := Ret (Err (ApiErr status ecode)).
(** A failing statement is answered with the given error. *)
Definition hsql_or {X} (e : api_err) (q : host_stmt X) : prog host_eff (result X api_err) :=
  let! r := trigger (HostSql q) in Ret (match r with Ok x => Ok x | Err _ => Err e end).
Definition database_error : api_err := ApiErr 500 "internal_error".
Definition conflict : api_err := ApiErr 409 "conflict".
Definition hsql {X} (q : host_stmt X) : prog host_eff (result X api_err) := hsql_or database_error q.

(** Run [p] for a caller with write access. *)
Definition writer {A} (auth : auth_user) (p : prog host_eff (result A api_err)) : prog host_eff (result A api_err) :=
  if negb (can_write (au_role auth)) then host_error 403 "forbidden" else p.

(** ** Hosts *)

Definition operator_can_access_host (user host : uuid) : prog host_eff (result bool string) :=
  let!? in_group := trigger (HostSql (SelCommonGroup host user)) in
  if in_group : bool then Ret (Ok true) else trigger (HostSql (SelUngrouped host)).

(** Administrators see all hosts; a failing query refuses the others. *)
Definition with_access {A} (auth : auth_user) (host : uuid) (p : prog host_eff (result A api_err)) : prog host_eff (result A api_err) :=
  if is_admin (au_role auth) then p
  else
    let! r := operator_can_access_host (au_id auth) host in
    if match r with Ok b => b | Err _ => false end then p else host_error 403 "forbidden".

Record host_item : Type := HostItem { hi_id : uuid; hi_host : host_rec; hi_upgrade_available : bool; hi_latest : option string }.

Definition os_pair (h : host_rec) : option (string * option string) := os ← in_os_name h; map_os_to_distro os.

(** One query per distinct pair; what fails or finds nothing leaves no entry. *)
Fixpoint latest_by_pair (pairs : list (string * option string)) : prog host_eff (gmap (string * option string) string) :=
  match pairs with
  | [] => Ret ∅
  | (distro, codename) :: pairs' =>
      let! r := trigger (HostSql (SelLatestVersion distro codename)) in
      let! m := latest_by_pair pairs' in
      Ret (match r with Ok (Some v) => <[(distro, codename) := v]> m | _ => m end)
  end.

Definition normalized (v : string) : string := match split_by (Ascii.eqb "-") v with s :: _ => s | [] => v end.

Definition summary (m : gmap (string * option string) string) (kv : uuid * host_rec) : host_item :=
  match os_pair kv.2 ≫= fun p => m !! p with
  | Some v =>
      HostItem kv.1 kv.2 (match in_agent_version kv.2 with Some cur => negb (String.eqb (normalized cur) (normalized v)) | None => false end) (Some v)
  | None => HostItem kv.1 kv.2 false None
  end.

Definition compute_upgrade_available (hosts : list (uuid * host_rec)) : prog host_eff (list host_item) :=
  let! m := latest_by_pair (remove_dups (omap (fun kv => os_pair kv.2) hosts)) in
  Ret (summary m <$> hosts).

Record host_list : Type := HostList { hl_hosts : list host_item; hl_total : Z; hl_limit : Z; hl_offset : Z }.

Definition list_hosts (auth : auth_user) (q : host_list_query) : prog host_eff (result host_list api_err) :=
  let limit := Z.min (default 50 (hq_limit q)) 200 in
  let offset := default 0 (hq_offset q) in
  let filters := host_filters q in
  let!? hosts := hsql (SelHosts (negb (is_admin (au_role auth))) (list_cond auth filters) (order_fragment q) limit offset) in
  let! total := trigger (HostSql (CountHosts (count_cond auth filters))) in
  let! items := compute_upgrade_available hosts in
  Ret (Ok (HostList items (match total with Ok n => n | Err _ => 0 end) limit offset)).

(** [resolve_fqdn]: an address is itself, a name its first address. *)
Definition resolve_fqdn (is_ip : string -> bool) (fqdn : string) : prog host_eff (result string string) :=
  if is_ip fqdn then Ret (Ok fqdn)
  else
    let! r := trigger (DnsLookup fqdn) in
    Ret (match r with
         | Ok (a :: _) => Ok a
         | Ok [] => Err ("No addresses found for " ++ fqdn)%string
         | Err _ => Err ("Failed to resolve FQDN: " ++ fqdn)%string
         end).

(** Groups that cannot be joined are passed over. *)
Definition join_groups (host : uuid) (groups : option (list uuid)) : prog host_eff unit :=
  for_each (default [] groups) (fun g => trigger (HostSql (InsHostGroup host g)) ;; Ret tt).

Definition register_host (is_ip : string -> bool) (auth : auth_user) (req : create_host_request) : prog host_eff (result uuid api_err) :=
  writer auth (
    let! ip := resolve_fqdn is_ip (ch_fqdn req) in
    match ip with
    | Err _ => host_error 400 "fqdn_resolution_failed"
    | Ok ip =>
        let!? id := hsql_or conflict (InsHost (HostRec (ch_fqdn req) ip (default (ch_fqdn req) (ch_display_name req))
          (default 12443 (ch_agent_port req)) (default ""%string (ch_notes req)) false None None "pending" None)) in
        join_groups id (ch_group_ids req) ;;
        trigger (HostEvent "host_registered" id) ;;
        Ret (Ok id)
    end).

Definition get_host (auth : auth_user) (id : uuid) : prog host_eff (result host_rec api_err) :=
  with_access auth id (
    let!? h := hsql (SelHost id) in
    match h with None => host_error 404 "not_found" | Some h => Ret (Ok h) end).

Definition remove_host (auth : auth_user) (id : uuid) : prog host_eff (result unit api_err) :=
  writer auth (
    let! _ := trigger (HostSql (SelHostFqdn id)) in
    let!? rows := hsql (DelHost id) in
    if rows =? 0 then host_error 404 "not_found"
    else trigger (HostEvent "host_removed" id) ;; Ret (Ok tt)).

(** The toggle is logged whether the host exists or not. *)
Definition update_host (auth : auth_user) (id : uuid) (req : update_host_request) : prog host_eff (result host_rec api_err) :=
  writer auth (
    let!? h := hsql_or conflict (UpdHost id req) in
    match uh_reboot_paused req with Some _ => trigger (HostEvent "host_updated" id) | None => Ret tt end ;;
    match h with None => host_error 404 "not_found" | Some h => Ret (Ok h) end).

Definition list_host_groups (auth : auth_user) (id : uuid) : prog host_eff (result (list (uuid * group_rec)) api_err) :=
  with_access auth id (hsql (SelGroupsOfHost id)).

Definition add_host_to_group (auth : auth_user) (id group : uuid) : prog host_eff (result unit api_err) :=
  writer auth (
    let!? _ := hsql (InsHostGroup id group) in
    trigger (HostEvent "group_membership_changed" id) ;; Ret (Ok tt)).

Definition remove_host_from_group (auth : auth_user) (id group : uuid) : prog host_eff (result unit api_err) :=
  writer auth (
    let!? _ := hsql (DelHostGroup id group) in
    trigger (HostEvent "group_membership_changed" id) ;; Ret (Ok tt)).

Definition refresh_host (auth : auth_user) (id : uuid) : prog host_eff (result unit api_err) :=
  writer auth (
    let!? there := hsql (SelHostExists id) in
    if negb there then host_error 404 "not_found" else hsql (NotifyRefresh id)).

(** ** Groups *)

Definition list_groups : prog host_eff (result (list (uuid * group_rec)) api_err) := hsql SelGroups.

Definition create_group (auth : auth_user) (name : string) (description : option string) : prog host_eff (result uuid api_err) :=
  writer auth (
    let!? id := hsql_or conflict (InsGroup name (default ""%string description)) in
    trigger (HostEvent "group_created" id) ;; Ret (Ok id)).

(** A count that fails is shown as zero. *)
Definition get_group (id : uuid) : prog host_eff (result (group_rec * Z * Z) api_err) :=
  let!? g := hsql (SelGroup id) in
  match g with
  | None => host_error 404 "not_found"
  | Some g =>
      let! hosts := trigger (HostSql (CountGroupHosts id)) in
      let! users := trigger (HostSql (CountGroupUsers id)) in
      let count r := match r with Ok n => n | Err _ => 0 end in
      Ret (Ok (g, count hosts, count users))
  end.

Definition update_group (auth : auth_user) (id : uuid) (name description : option string) : prog host_eff (result unit api_err) :=
  writer auth (
    let!? rows := hsql (UpdGroup id name description) in
    if rows =? 0 then host_error 404 "not_found" else Ret (Ok tt)).

Definition delete_group (auth : auth_user) (id : uuid) : prog host_eff (result unit api_err) :=
  writer auth (
    let!? rows := hsql (DelGroup id) in
    if rows =? 0 then host_error 404 "not_found"
    else trigger (HostEvent "group_deleted" id) ;; Ret (Ok tt)).

Definition add_user_to_group (auth : auth_user) (id user : uuid) : prog host_eff (result unit api_err) :=
  writer auth (
    let!? _ := hsql (InsUserGroup user id) in
    trigger (HostEvent "group_membership_changed" id) ;; Ret (Ok tt)).

Definition remove_user_from_group (auth : auth_user) (id user : uuid) : prog host_eff (result unit api_err) :=
  writer auth (
    let!? _ := hsql (DelUserGroup user id) in
    trigger (HostEvent "group_membership_changed" id) ;; Ret (Ok tt)).

(** ** Discovery *)

(** [agent_port.unwrap_or(12443) as u16]; the addresses of the range come from
    the reader of CIDR notation. *)
Definition start_cidr_scan (cidr_hosts : string -> option (list string)) (auth : auth_user) (cidr : string) (agent_port : option Z) : prog host_eff (result uuid api_err) :=
  writer auth (
    match cidr_hosts cidr with
    | None => host_error 400 "bad_request"
    | Some ips =>
        let! scan := trigger NewScanId in
        trigger (SpawnScan scan ips (default 12443 agent_port mod 2 ^ 16)) ;;
        trigger (HostEvent "discovery_scan_started" scan) ;;
        Ret (Ok scan)
    end).

(** A numeric address resolves to itself, and that is no name. *)
Definition dns_lookup_for_ip (ip : string) : option string :=
  let resolved := ip in if String.eqb resolved ip then None else Some resolved.

(** "{ip}:{port}" is the text of a socket address for an IPv4 address only. *)
Definition probe_and_store (scan : uuid) (ip : string) (port : Z) : prog host_eff unit :=
  let! open := if contains_char ":" ip then Ret false else trigger (TcpProbe ip port) in
  if negb open then Ret tt
  else trigger (HostSql (InsFound (FoundRec scan ip (dns_lookup_for_ip ip) port false))) ;; Ret tt.

(** The tasks of [run_cidr_scan]; the semaphore only delays them. *)
Definition run_cidr_scan (scan : uuid) (ips : list string) (port : Z) : list (prog host_eff unit) :=
  (fun ip => probe_and_store scan ip port) <$> ips.

Definition get_scan_results (scan : uuid) : prog host_eff (result (list (uuid * found_rec)) api_err) := hsql (SelFoundOfScan scan).

Definition register_discovered_host (auth : auth_user) (id : uuid) (display_name : option string) (groups : option (list uuid)) : prog host_eff (result uuid api_err) :=
  writer auth (
    let!? row := hsql (SelFound id) in
    match row with
    | None => host_error 404 "not_found"
    | Some f =>
        let fqdn := default (fd_ip f) (fd_fqdn f) in
        let!? host := hsql_or conflict (InsNewHost (HostRec fqdn (fd_ip f) (default fqdn display_name) (fd_port f) "" false None None "pending" None)) in
        join_groups host groups ;;
        trigger (HostSql (UpdFoundRegistered id)) ;;
        trigger (HostEvent "host_registered" host) ;;
        Ret (Ok host)
    end).
