(* ===== verification/HostFlow.v ===== *)
(** * Hosts and groups: theorems

    Who sees which hosts and who can change that, what the listing answers, and
    how its SQL is numbered. *)

From S2P Require Import Prelude Ordering Rbac Conc Upgrades Hosts.

(** ** The numbering of placeholders *)

Lemma place_search s idx : place (hf_sql (FSearch s)) idx =
  ("(h.fqdn ILIKE $" ++ dec idx ++ " OR h.display_name ILIKE $" ++ dec idx ++ ")")%string.
Proof. reflexivity. Qed.
Lemma place_status s idx : place (hf_sql (FStatus s)) idx = ("h.health_status = $" ++ dec idx)%string.
Proof. unfold place. cbn -[dec]. by rewrite str_app_nil_r. Qed.

Lemma place_all_last filters start : (place_all filters start).2 = start + Z.of_nat (length (filter_values filters)).
Proof.
  revert start. induction filters as [|f fs IH]; intros start; cbn [place_all]; [cbn; lia|].
  specialize (IH (if takes_value f then start + 1 else start)). destruct (place_all fs _) as [parts last]. cbn [snd] in *. rewrite IH.
  unfold filter_values. cbn [List.filter]. destruct (takes_value f); cbn [fmap list_fmap length]; lia.
Qed.

Lemma place_all_lookup filters start i f : filters !! i = Some f ->
  exists n : nat, (place_all filters start).1 !! i = Some (place (hf_sql f) (start + Z.of_nat n)) /\
    (takes_value f = true -> filter_values filters !! n = Some (hf_bind f)).
Proof.
  revert start i. induction filters as [|g fs IH]; intros start i Hi; [done|]. cbn [place_all].
  destruct (place_all fs _) as [parts last] eqn:Hp. destruct i as [|i].
  - injection Hi as ->. exists 0%nat. rewrite Z.add_0_r. split; [done|]. intros Ht. unfold filter_values. cbn [List.filter]. by rewrite Ht.
  - destruct (IH (if takes_value g then start + 1 else start) i Hi) as (n & Hn & Hv). rewrite Hp in Hn. cbn [fst] in *.
    exists (if takes_value g then S n else n). split.
    + simpl. rewrite Hn. f_equal. f_equal. destruct (takes_value g); lia.
    + intros Ht. unfold filter_values in *. cbn [List.filter]. destruct (takes_value g); [|by apply Hv]. simpl. by apply Hv.
Qed.

(** In the clause of the filters, the number in each template is that of the
    filter's own value among those that are bound, counted from [start]; the
    numbers behind them, for the page and the user, are free. *)
Theorem placeholders_match filters start :
  (assign_placeholders filters start).2 = Z.of_nat (length (filter_values filters)) /\
  forall i f, filters !! i = Some f ->
    exists n : nat, (place_all filters start).1 !! i = Some (place (hf_sql f) (start + Z.of_nat n)) /\
      (takes_value f = true -> filter_values filters !! n = Some (hf_bind f) /\
         start + Z.of_nat n < start + (assign_placeholders filters start).2).
Proof.
  assert ((assign_placeholders filters start).2 = Z.of_nat (length (filter_values filters))) as Hlast.
  { pose proof (place_all_last filters start) as Hl. unfold assign_placeholders. destruct (place_all filters start) as [parts last] eqn:Hp. cbn [snd] in Hl.
    destruct (bool_decide_reflect (parts = [])) as [->|]; cbn [snd]; [|lia]. destruct filters as [|f fs]; [done|].
    cbn [place_all] in Hp. destruct (place_all fs _) as [ps l]. by injection Hp. }
  split; [exact Hlast|]. intros i f Hi. destruct (place_all_lookup filters start i f Hi) as (n & Hn & Hv). exists n. split; [done|].
  intros Ht. split; [by apply Hv|]. rewrite Hlast. apply Hv in Ht. apply lookup_lt_Some in Ht. lia.
Qed.

Lemma placeholders_match_witness :
  place_all [FSearch "web"; FMissing; FStatus "healthy"] 2 =
    (["(h.fqdn ILIKE $2 OR h.display_name ILIKE $2)"; "COALESCE(hpd.patch_count, 0) > 0"; "h.health_status = $3"]%string, 4) /\
  (exists n : nat, (place_all [FSearch "web"; FMissing; FStatus "healthy"] 2).1 !! 2%nat = Some (place (hf_sql (FStatus "healthy")) (2 + Z.of_nat n)) /\
    (takes_value (FStatus "healthy") = true -> filter_values [FSearch "web"; FMissing; FStatus "healthy"] !! n = Some "healthy"%string /\
       2 + Z.of_nat n < 2 + (assign_placeholders [FSearch "web"; FMissing; FStatus "healthy"] 2).2)).
Proof.
  split; [by vm_compute|].
  apply (proj2 (placeholders_match [FSearch "web"; FMissing; FStatus "healthy"] 2) 2%nat (FStatus "healthy")). reflexivity.
Defined.

Section World.
Context (ilike : string -> string -> bool) (inet : string -> option string)
        (order_by : string -> uuid * host_rec -> uuid * host_rec -> comparison)
        (latest : string -> option string -> option string).

#[local] Notation stmt_of q v := (exec_host_stmt ilike inet order_by latest q v).

(** The database answers; the other effects leave it alone. *)
Definition inventory_works : EffectSem host_eff inventory := fun X e v x v' =>
  match e in host_eff Y return Y -> Prop with
  | HostSql q => fun x => x = (stmt_of q v).1 /\ v' = (stmt_of q v).2
  | _ => fun _ => v' = v
  end x.

(** It may also fail, before or after a statement took effect. *)
Definition inventory_faults : EffectSem host_eff inventory := fun X e v x v' =>
  match e in host_eff Y return Y -> Prop with
  | HostSql q => fun x => (x = (stmt_of q v).1 /\ v' = (stmt_of q v).2) \/
                          exists err, x = Err err /\ (v' = v \/ v' = (stmt_of q v).2)
  | _ => fun _ => v' = v
  end x.

#[local] Notation hwp := (@wp _ _ inventory_works _).

Lemma hwp_bind_ok {A B} (p : prog host_eff (result A api_err)) (f : A -> prog host_eff (result B api_err)) (Q : result B api_err -> inventory -> Prop) v :
  hwp p (fun r s => match r with Ok a => hwp (f a) Q s | Err e => Q (Err e) s end) v -> hwp (bind_ok p f) Q v.
Proof. intros Hp. apply wp_bind. eapply wp_mono; [|exact Hp]. by intros [a|e]. Qed.

Lemma hwp_stmt {X} (q : host_stmt X) Q v : Q (stmt_of q v).1 (stmt_of q v).2 -> hwp (trigger (HostSql q)) Q v.
Proof. intros HQ x s (-> & ->). exact HQ. Qed.

Lemma hwp_hsql_or {X} e (q : host_stmt X) Q v :
  Q (match (stmt_of q v).1 with Ok x => Ok x | Err _ => Err e end) (stmt_of q v).2 -> hwp (hsql_or e q) Q v.
Proof. intros HQ. apply wp_bind, hwp_stmt. exact HQ. Qed.

(** ** Who sees a host *)

Definition accessible (auth : auth_user) (host : uuid) (v : inventory) : bool :=
  is_admin (au_role auth) || in_common_group host (au_id auth) v || ungrouped host v.

Lemma get_host_spec auth id v :
  hwp (get_host auth id) (fun r s => s = v /\
    r = if accessible auth id v then match iv_hosts v !! id with Some h => Ok h | None => Err (ApiErr 404 "not_found") end
        else Err (ApiErr 403 "forbidden")) v.
Proof.
  assert (hwp (let!? h := hsql (SelHost id) in match h with None => host_error 404 "not_found" | Some h => Ret (Ok h) end)
    (fun r s => s = v /\ r = match iv_hosts v !! id with Some h => Ok h | None => Err (ApiErr 404 "not_found") end) v) as Hget.
  { apply hwp_bind_ok, hwp_hsql_or. cbn [exec_host_stmt fst snd]. by destruct (iv_hosts v !! id). }
  unfold get_host, with_access, accessible. destruct (is_admin (au_role auth)); [exact Hget|]. cbn [orb].
  apply wp_bind. unfold operator_can_access_host, bind_ok. apply wp_bind, hwp_stmt. cbn [exec_host_stmt fst snd].
  destruct (in_common_group id (au_id auth) v); cbn [orb wp]; [exact Hget|]. apply hwp_stmt. cbn [exec_host_stmt fst snd].
  destruct (ungrouped id v); [exact Hget|]. done.
Qed.

(** A caller may look at the host. *)
Definition sees (auth : auth_user) (id : uuid) (v : inventory) : Prop :=
  hwp (get_host auth id) (fun r s => is_ok r = true) v.

Lemma sees_accessible auth id v : is_Some (iv_hosts v !! id) -> sees auth id v <-> accessible auth id v = true.
Proof.
  intros [h Hh]. pose proof (get_host_spec auth id v) as Hs. rewrite Hh in Hs. unfold sees. split.
  - intros Hok. destruct (accessible auth id v) eqn:Ha; [done|]. exfalso.
    assert (may (H := inventory_works) (get_host auth id) (fun _ _ => True) v) as Hmay.
    { eapply (@run_may host_eff inventory inventory_works _ (fun X e v => match e in host_eff Y return Y * inventory with
        | HostSql q => stmt_of q v | DnsLookup _ => (Err ""%string, v) | HostEvent _ _ => (tt, v) | NewScanId => (0%N, v)
        | SpawnScan _ _ _ => (tt, v) | TcpProbe _ _ => (false, v) end)); [|done]. by intros X []. }
    destruct (wp_may _ _ _ _ (wp_conj _ _ _ _ Hok Hs) Hmay) as (r & s & [Hr [_ ->]] & _). done.
  - intros Ha. rewrite Ha in Hs. eapply wp_mono; [|exact Hs]. by intros r s [_ ->].
Qed.

(** ** The listing *)

Lemma and_filters_holds v c filters kv :
  cond_holds ilike v (and_filters c filters) kv = cond_holds ilike v c kv && forallb (fun f => filter_holds ilike f kv.2) filters.
Proof.
  unfold and_filters. revert c. induction filters as [|f fs IH]; intros c; cbn [fold_left forallb]; [by rewrite andb_true_r|].
  rewrite IH. cbn [cond_holds]. by rewrite andb_assoc.
Qed.

Lemma list_cond_accessible auth filters v kv :
  cond_holds ilike v (list_cond auth filters) kv = true -> accessible auth kv.1 v = true.
Proof.
  unfold list_cond, accessible. destruct (is_admin (au_role auth)); [done|]. cbn [cond_holds orb]. rewrite and_filters_holds. cbn [cond_holds].
  destruct (in_common_group kv.1 (au_id auth) v); [done|]. cbn [orb]. by intros [? _]%andb_true_iff.
Qed.

Lemma list_cond_unfiltered auth v kv : cond_holds ilike v (list_cond auth []) kv = accessible auth kv.1 v.
Proof. unfold list_cond, accessible, and_filters. destruct (is_admin (au_role auth)); [done|]. by cbn. Qed.

Lemma count_cond_accessible auth filters v kv :
  cond_holds ilike v (count_cond auth filters) kv = accessible auth kv.1 v && forallb (fun f => filter_holds ilike f kv.2) filters.
Proof. unfold count_cond, accessible. destruct (is_admin (au_role auth)); rewrite and_filters_holds; cbn [cond_holds orb]; done. Qed.

(** *** Versions *)

Lemma latest_by_pair_spec pairs v :
  hwp (latest_by_pair pairs) (fun m s => s = v /\ forall p, m !! p = if bool_decide (p ∈ pairs) then latest p.1 p.2 else None) v.
Proof.
  revert v. induction pairs as [|[d c] pairs IH]; intros v; cbn [latest_by_pair].
  - split; [done|]. intros p. by rewrite lookup_empty, bool_decide_false by set_solver.
  - apply wp_bind, hwp_stmt. cbn [exec_host_stmt fst snd]. apply wp_bind. eapply wp_mono; [|apply IH].
    intros m s [-> Hm]. cbn [wp]. split; [done|]. intros p.
    destruct (decide (p = (d, c))) as [->|Hne].
    + rewrite bool_decide_true by by left. cbn [fst snd]. destruct (latest d c) as [ver|] eqn:Hl; [by rewrite lookup_insert_eq|].
      rewrite Hm. case_bool_decide; [by cbn|done].
    + transitivity (m !! p); [by destruct (latest d c); [rewrite lookup_insert_ne|]|]. rewrite Hm.
      rewrite (bool_decide_ext (p ∈ (d, c) :: pairs) (p ∈ pairs)); [done|]. rewrite elem_of_cons. naive_solver.
Qed.

Definition latest_of_host (h : host_rec) : option string := os_pair h ≫= fun p => latest p.1 p.2.

Lemma compute_upgrade_available_spec hosts v :
  hwp (compute_upgrade_available hosts) (fun items s => s = v /\
    exists m, items = summary m <$> hosts /\ forall kv, kv ∈ hosts -> os_pair kv.2 ≫= (fun p => m !! p) = latest_of_host kv.2) v.
Proof.
  unfold compute_upgrade_available. apply wp_bind. eapply wp_mono; [|apply latest_by_pair_spec].
  intros m s [-> Hm]. cbn [wp]. split; [done|]. exists m. split; [done|]. intros kv Hkv. unfold latest_of_host.
  destruct (os_pair kv.2) as [p|] eqn:Hp; [|done]. cbn [mbind option_bind]. rewrite Hm, bool_decide_true; [done|].
  apply elem_of_remove_dups, list_elem_of_omap. by exists kv.
Qed.

(** What an entry shows. *)
Definition shows (v : inventory) (it : host_item) : Prop :=
  iv_hosts v !! hi_id it = Some (hi_host it) /\ hi_latest it = latest_of_host (hi_host it).

Lemma summary_shows v m kv : iv_hosts v !! kv.1 = Some kv.2 -> os_pair kv.2 ≫= (fun p => m !! p) = latest_of_host kv.2 ->
  shows v (summary m kv) /\ hi_id (summary m kv) = kv.1.
Proof. intros Hkv Hm. unfold summary, shows. rewrite Hm. destruct (latest_of_host kv.2) eqn:Hl; cbn; by rewrite Hl. Qed.

Lemma selected_In c v kv : kv ∈ selected ilike c v <-> iv_hosts v !! kv.1 = Some kv.2 /\ cond_holds ilike v c kv = true.
Proof.
  unfold selected. rewrite list_elem_of_In, List.filter_In, <- list_elem_of_In. destruct kv as [id h]. rewrite elem_of_map_to_list. cbn. tauto.
Qed.

Lemma page_In c order limit offset v kv :
  kv ∈ take limit (drop offset (sort_by (order_by order) (selected ilike c v))) -> kv ∈ selected ilike c v.
Proof.
  set (l := sort_by _ _). intros Hkv. rewrite <- (sort_by_perm (order_by order) (selected ilike c v)). fold l.
  rewrite <- (take_drop offset l), <- (take_drop limit (drop offset l)), !elem_of_app. by right; left.
Qed.

Lemma selected_length c v : (length (selected ilike c v) <= size (iv_hosts v))%nat.
Proof. unfold selected. rewrite <- length_map_to_list. apply List.filter_length_le. Qed.

(** *** Requests that the database refuses *)

Lemma compares_status_filters c filters :
  compares_status (and_filters c filters) = compares_status c || existsb (fun f => match f with FStatus _ => true | _ => false end) filters.
Proof.
  unfold and_filters. revert c. induction filters as [|f fs IH]; intros c; cbn [List.fold_left existsb]; [by rewrite orb_false_r|].
  rewrite IH. cbn [compares_status]. destruct f; by rewrite ?orb_false_r, ?orb_true_r.
Qed.

Lemma status_filters q : existsb (fun f => match f with FStatus _ => true | _ => false end) (host_filters q) =
  bool_decide (is_Some (non_empty (hq_health_status q))).
Proof.
  unfold host_filters. rewrite !existsb_app.
  destruct (non_empty (hq_search q)), (non_empty (hq_health_status q)), (hq_patches_missing q) as [pm|]; cbn;
    repeat case_match; by rewrite ?bool_decide_true, ?bool_decide_false by first [by eexists|by intros [? [=]]].
Qed.

Lemma list_cond_status auth q : compares_status (list_cond auth (host_filters q)) = bool_decide (is_Some (non_empty (hq_health_status q))).
Proof. unfold list_cond. case_match; cbn [compares_status]; by rewrite compares_status_filters, status_filters. Qed.
Lemma count_cond_status auth q : compares_status (count_cond auth (host_filters q)) = bool_decide (is_Some (non_empty (hq_health_status q))).
Proof. unfold count_cond. case_match; by rewrite compares_status_filters, status_filters. Qed.

(** Every sort key but one is an expression that the listing selects. *)
Lemma order_selected q : selects (order_fragment q) = negb (bool_decide (hq_sort_by q = Some "pending_reboot"%string)).
Proof.
  unfold order_fragment. destruct (hq_sort_by q) as [key|]; [|done]. unfold resolve_sort_fragment. cbv zeta.
  repeat (match goal with |- context [String.eqb key ?k] => destruct (String.eqb_spec key k) as [->|?] end;
    [destruct (String.eqb (to_ascii_lowercase _) "desc"); reflexivity|]).
  cbn [mbind option_bind default from_option]. rewrite bool_decide_false; [done|]. by intros [= ->].
Qed.

(** The requests that the database refuses whatever it holds: a filter by health,
    a sort by pending reboots from all but administrators, a negative page. *)
Definition unanswerable (auth : auth_user) (q : host_list_query) : Prop :=
  is_Some (non_empty (hq_health_status q)) \/
  (is_admin (au_role auth) = false /\ hq_sort_by q = Some "pending_reboot"%string) \/
  default 50 (hq_limit q) < 0 \/ default 0 (hq_offset q) < 0.

Lemma refused_unanswerable auth q :
  is_Some (refused_listing (negb (is_admin (au_role auth))) (list_cond auth (host_filters q)) (order_fragment q)
             (Z.min (default 50 (hq_limit q)) 200) (default 0 (hq_offset q))) <-> unanswerable auth q.
Proof.
  unfold refused_listing, unanswerable. rewrite list_cond_status, order_selected, negb_involutive.
  case_bool_decide as Hs; [by split; auto|].
  destruct (is_admin (au_role auth)), (bool_decide_reflect (hq_sort_by q = Some "pending_reboot"%string)) as [Hr|Hr]; cbn [negb andb];
    try (by split; auto); destruct (_ || _) eqn:Hneg; (split; [intros [e He]; try done|]).
  all: try (right; right; lia).
  all: try (by eexists).
  all: intros [?|[[??]|[?|?]]]; try done; lia.
Qed.

(** C28. Every answer of the listing shows only hosts that its caller may look at;
    without filters, a page that is long enough shows all of them.  The total
    counts the hosts that the caller may look at and that pass every filter; and
    the latest version beside a host is that of its system's packages.  There is
    no answer but an internal error exactly for a filter by health, for a sort by
    pending reboots of a caller who is no administrator, and for a negative page. *)
Theorem listing_respects_access auth q v :
  hwp (list_hosts auth q) (fun r s => s = v /\
    match r with
    | Err e => e = database_error /\ unanswerable auth q
    | Ok l =>
        ~ unanswerable auth q /\
        (forall it, it ∈ hl_hosts l -> shows v it /\ sees auth (hi_id it) v) /\
        hl_total l = Z.of_nat (length (List.filter (fun kv => accessible auth kv.1 v && forallb (fun f => filter_holds ilike f kv.2) (host_filters q))
                                         (map_to_list (iv_hosts v)))) /\
        (host_filters q = [] -> default 0 (hq_offset q) = 0 -> Z.of_nat (size (iv_hosts v)) <= Z.min (default 50 (hq_limit q)) 200 ->
         forall id, is_Some (iv_hosts v !! id) -> sees auth id v -> exists it, it ∈ hl_hosts l /\ hi_id it = id)
    end) v.
Proof.
  pose proof (refused_unanswerable auth q) as Href.
  unfold list_hosts. cbv zeta. set (limit := Z.min _ 200) in *. set (offset := default 0 _) in *. set (filters := host_filters q) in *.
  apply hwp_bind_ok, hwp_hsql_or. cbn [exec_host_stmt fst snd].
  destruct (refused_listing _ _ _ _ _) as [e|]; [split_and!; [done..|by apply Href; eexists]|].
  assert (~ unanswerable auth q) as Hans by (intros Hu; by apply Href in Hu as [? ?]).
  set (rows := take _ _). apply wp_bind, hwp_stmt. cbn [exec_host_stmt fst snd].
  unfold filters at 1. rewrite count_cond_status, bool_decide_false by (intros ?; apply Hans; by left). apply wp_bind.
  eapply wp_mono; [|apply compute_upgrade_available_spec]. intros items s (-> & m & -> & Hm). cbn [wp]. split; [done|]. cbn [hl_hosts hl_total].
  assert (forall kv, kv ∈ rows -> iv_hosts v !! kv.1 = Some kv.2 /\ cond_holds ilike v (list_cond auth filters) kv = true) as Hrows.
  { intros kv Hkv. apply selected_In. by eapply page_In. }
  split_and!; [exact Hans|..].
  - intros it Hit. apply list_elem_of_fmap in Hit as (kv & -> & Hkv). destruct (Hrows kv Hkv) as [Hh Hc].
    destruct (summary_shows v m kv Hh (Hm kv Hkv)) as [Hs ->]. split; [exact Hs|].
    apply sees_accessible; [by eexists|]. by eapply list_cond_accessible.
  - f_equal. unfold selected. f_equal. apply List.filter_ext. intros kv. apply count_cond_accessible.
  - intros Hf Ho Hsz id [h Hh] Hsees. apply sees_accessible in Hsees; [|by eexists].
    assert ((id, h) ∈ rows) as Hin.
    { unfold rows. pose proof (selected_length (list_cond auth filters) v) as Hlen. rewrite Ho. change (Z.to_nat 0) with 0%nat. rewrite drop_0, take_ge.
      - rewrite sort_by_perm. apply selected_In. split; [done|]. by rewrite Hf, list_cond_unfiltered.
      - rewrite (Permutation_length (sort_by_perm (order_by (order_fragment q)) (selected ilike (list_cond auth filters) v))). lia. }
    exists (summary m (id, h)). split; [by apply list_elem_of_fmap_2|]. by destruct (summary_shows v m (id, h) Hh (Hm _ Hin)) as [_ ->].
Qed.

(** ** Who can change the inventory *)

(** An effect that does not write, and starts no task. *)
Definition host_reads (X : Type) (e : host_eff X) : Prop :=
  match e with
  | HostSql q =>
      match q with
      | InsHost _ | InsNewHost _ | InsHostGroup _ _ | DelHost _ | UpdHost _ _ | DelHostGroup _ _ | InsGroup _ _ | UpdGroup _ _ _
      | DelGroup _ | InsUserGroup _ _ | DelUserGroup _ _ | InsFound _ | UpdFoundRegistered _ => False
      | _ => True
      end
  | SpawnScan _ _ _ => False
  | _ => True
  end.

Lemma host_reads_keep v0 : @keeps _ _ inventory_faults host_reads (fun v => v = v0).
Proof. intros X e v x v' He -> Hx. destruct e as [Y q| | | | |]; try exact Hx. destruct Hx as [[_ ->]|(err & _ & [-> | ->])]; [|done|]; by destruct q. Qed.
End World.

#[local] Hint Extern 1 (host_reads _ _) => exact I : only.

(** ** Requests *)

Inductive host_request : Type :=
| ListHosts (auth : auth_user) (q : host_list_query)
| RegisterHost (auth : auth_user) (req : create_host_request)
| GetHost (auth : auth_user) (id : uuid)
| RemoveHost (auth : auth_user) (id : uuid)
| UpdateHost (auth : auth_user) (id : uuid) (req : update_host_request)
| ListHostGroups (auth : auth_user) (id : uuid)
| AddHostToGroup (auth : auth_user) (id group : uuid)
| RemoveHostFromGroup (auth : auth_user) (id group : uuid)
| RefreshHost (auth : auth_user) (id : uuid)
| ListGroups (auth : auth_user)
| CreateGroup (auth : auth_user) (name : string) (description : option string)
| GetGroup (auth : auth_user) (id : uuid)
| UpdateGroup (auth : auth_user) (id : uuid) (name description : option string)
| DeleteGroup (auth : auth_user) (id : uuid)
| AddUserToGroup (auth : auth_user) (id user : uuid)
| RemoveUserFromGroup (auth : auth_user) (id user : uuid)
| StartScan (auth : auth_user) (cidr : string) (port : option Z)
| ScanResults (auth : auth_user) (scan : uuid)
| RegisterFound (auth : auth_user) (id : uuid) (name : option string) (groups : option (list uuid)).

Definition requester (rq : host_request) : auth_user :=
  match rq with
  | ListHosts a _ | RegisterHost a _ | GetHost a _ | RemoveHost a _ | UpdateHost a _ _ | ListHostGroups a _ | AddHostToGroup a _ _
  | RemoveHostFromGroup a _ _ | RefreshHost a _ | ListGroups a | CreateGroup a _ _ | GetGroup a _ | UpdateGroup a _ _ _
  | DeleteGroup a _ | AddUserToGroup a _ _ | RemoveUserFromGroup a _ _ | StartScan a _ _ | ScanResults a _ | RegisterFound a _ _ _ => a
  end.

Definition silent {A} (p : prog host_eff A) : prog host_eff unit := p ;; Ret tt.

Definition serve_host (is_ip : string -> bool) (cidr_hosts : string -> option (list string)) (rq : host_request) : prog host_eff unit :=
  match rq with
  | ListHosts a q => silent (list_hosts a q)
  | RegisterHost a req => silent (register_host is_ip a req)
  | GetHost a id => silent (get_host a id)
  | RemoveHost a id => silent (remove_host a id)
  | UpdateHost a id req => silent (update_host a id req)
  | ListHostGroups a id => silent (list_host_groups a id)
  | AddHostToGroup a id g => silent (add_host_to_group a id g)
  | RemoveHostFromGroup a id g => silent (remove_host_from_group a id g)
  | RefreshHost a id => silent (refresh_host a id)
  | ListGroups _ => silent list_groups
  | CreateGroup a n d => silent (create_group a n d)
  | GetGroup _ id => silent (get_group id)
  | UpdateGroup a id n d => silent (update_group a id n d)
  | DeleteGroup a id => silent (delete_group a id)
  | AddUserToGroup a id u => silent (add_user_to_group a id u)
  | RemoveUserFromGroup a id u => silent (remove_user_from_group a id u)
  | StartScan a c p => silent (start_cidr_scan cidr_hosts a c p)
  | ScanResults _ s => silent (get_scan_results s)
  | RegisterFound a id n g => silent (register_discovered_host a id n g)
  end.

(** The tasks that an effect starts. *)
Definition scan_spawned (X : Type) (e : host_eff X) : list (prog host_eff unit) :=
  match e with SpawnScan scan ips port => run_cidr_scan scan ips port | _ => [] end.

Lemma latest_by_pair_reads pairs : only host_reads (latest_by_pair pairs).
Proof. induction pairs as [|[d c] pairs IH]; cbn [latest_by_pair]; [done|]. apply only_bind; [done|]. intros r. by apply only_bind. Qed.

Lemma writer_refuses {A} auth (p : prog host_eff (result A api_err)) : can_write (au_role auth) = false -> writer auth p = host_error 403 "forbidden".
Proof. unfold writer. by intros ->. Qed.

Lemma with_access_reads {A} auth id (p : prog host_eff (result A api_err)) : only host_reads p -> only host_reads (with_access auth id p).
Proof. intros Hp. unfold with_access, operator_can_access_host, host_error. only_auto. Qed.

Lemma refused_reads is_ip ch rq : can_write (au_role (requester rq)) = false -> only host_reads (serve_host is_ip ch rq).
Proof.
  intros Hw. destruct rq; cbn [serve_host requester] in *; unfold silent;
    unfold register_host, remove_host, update_host, add_host_to_group, remove_host_from_group, refresh_host, create_group, update_group, delete_group,
      add_user_to_group, remove_user_from_group, start_cidr_scan, register_discovered_host;
    rewrite ?(writer_refuses _ _ Hw); (apply only_bind; [|done]).
  all: unfold get_host, list_host_groups, list_groups, get_group, get_scan_results; try apply with_access_reads;
    unfold hsql, hsql_or, host_error; try solve [only_auto].
  unfold list_hosts, compute_upgrade_available, hsql, hsql_or. cbv zeta. apply only_bind_ok; [only_auto|]. intros hosts.
  apply only_bind; [done|]. intros total. apply only_bind; [|done]. apply only_bind; [apply latest_by_pair_reads|done].
Qed.

(** C29. In every interleaving of requests, with failing statements, callers without
    write access change nothing: no host, group, membership or scan result, and
    so nothing of what anyone may see; nor do they start a scan. *)
Theorem reporters_change_nothing ilike inet order_by latest is_ip ch v v' ts ts' :
  (forall p, p ∈ ts -> exists rq, can_write (au_role (requester rq)) = false /\ p = serve_host is_ip ch rq) ->
  rtc (@cstep _ _ (inventory_faults ilike inet order_by latest) _ scan_spawned
         (fun p => exists rq, can_write (au_role (requester rq)) = false /\ p = serve_host is_ip ch rq)) (v, ts) (v', ts') ->
  v' = v.
Proof.
  intros Hts Hr. pose proof (host_reads_keep ilike inet order_by latest v) as Hk.
  assert (forall p, (exists rq, can_write (au_role (requester rq)) = false /\ p = serve_host is_ip ch rq) ->
    @gsafe _ _ (inventory_faults ilike inet order_by latest) _ host_reads (fun s => s = v) p) as Hg
    by (intros p (rq & Hw & ->); apply only_gsafe; [exact Hk|by apply refused_reads]).
  destruct (@gsafe_reachable_spawn _ _ (inventory_faults ilike inet order_by latest) _ scan_spawned
    (fun p => exists rq, can_write (au_role (requester rq)) = false /\ p = serve_host is_ip ch rq) host_reads (fun s => s = v) (v, ts) (v', ts')) as [Hv _];
    [|exact Hg|exact Hr|done| |exact Hv].
  - intros X e He. by destruct e.
  - apply Forall_forall. intros p Hp. apply Hg, (Hts p Hp).
Qed.

(** *** At work *)

(** Patterns without wildcards, addresses as they are, rows as they come. *)
Definition demo_ilike (pattern s : string) : bool := String.eqb pattern ("%" ++ s ++ "%").
Definition demo_inet (s : string) : option string := Some s.
Definition demo_order (_ : string) (a b : uuid * host_rec) : comparison := N.compare a.1 b.1.
Definition demo_latest (d : string) (c : option string) : option string := Some "2.0.0-1"%string.

Definition host_answers (X : Type) (e : host_eff X) (v : inventory) : X * inventory :=
  match e in host_eff Y return Y * inventory with
  | HostSql q => exec_host_stmt demo_ilike demo_inet demo_order demo_latest q v
  | DnsLookup _ => (Ok ["10.0.0.9"%string], v)
  | HostEvent _ _ => (tt, v)
  | NewScanId => (77%N, v)
  | SpawnScan _ _ _ => (tt, v)
  | TcpProbe _ _ => (true, v)
  end.

Lemma host_answers_ok X (e : host_eff X) v :
  inventory_faults demo_ilike demo_inet demo_order demo_latest X e v (host_answers X e v).1 (host_answers X e v).2.
Proof. destruct e; [by left|done..]. Qed.

Definition demo_host (fqdn ip : string) (patches : Z) : host_rec :=
  HostRec fqdn ip fqdn 12443 "" false (Some "Ubuntu 24.04") (Some "1.0.0") "healthy" (Some patches).
(** Host 1 is in group 10, host 2 in none; user 6 is in group 10. *)
Definition demo_inventory : inventory :=
  Inventory {[1%N := demo_host "a.example" "10.0.0.1" 0; 2%N := demo_host "b.example" "10.0.0.2" 3]}
    {[10%N := GroupRec "web" ""]} {[5%N; 6%N]} {[(1%N, 10%N)]} {[(6%N, 10%N)]} ∅.
Definition demo_operator (id : uuid) : auth_user := AuthUser id "op" Operator.
Definition demo_reporter : auth_user := AuthUser 5%N "rep" Reporter.

Definition reporter_tasks : list (prog host_eff unit) :=
  serve_host (fun _ => true) (fun _ => Some ["10.0.0.7"%string]) <$>
    [RemoveHost demo_reporter 1%N; ListHosts demo_reporter (HostListQuery None None None None None None None); StartScan demo_reporter "10.0.0.0/24" None].

Definition reporter_run : option (inventory * list (prog host_eff unit)) :=
  interleave scan_spawned host_answers [1;1;1]%nat (demo_inventory, reporter_tasks).

Lemma reporters_change_nothing_witness : fst <$> reporter_run = Some demo_inventory.
Proof.
  destruct reporter_run as [[v' ts']|] eqn:Hrun; [|by vm_compute in Hrun]. cbn [fmap option_fmap option_map fst]. f_equal.
  apply (reporters_change_nothing demo_ilike demo_inet demo_order demo_latest (fun _ => true) (fun _ => Some ["10.0.0.7"%string])
    demo_inventory v' reporter_tasks ts').
  - intros p Hp. apply list_elem_of_fmap in Hp as (rq & -> & Hrq). exists rq. split; [|done].
    repeat (apply elem_of_cons in Hrq as [->|Hrq]; [done|]). by apply elem_of_nil in Hrq.
  - apply (interleave_reachable scan_spawned _ host_answers [1;1;1]%nat); [exact host_answers_ok|exact Hrun].
Defined.

(** An operator's filters leave the hosts of its groups in the list and not in
    the total: asked for hosts with missing patches, it is shown host 1, which
    misses none, and told that there are none but host 2. *)
Theorem filters_leave_group_hosts :
  exists l, (run host_answers (list_hosts (demo_operator 6%N) (HostListQuery None None (Some "missing"%string) None None None None)) demo_inventory).1 = Ok l /\
    (hi_id <$> hl_hosts l) = [1%N; 2%N] /\ hl_total l = 1.
Proof. eexists. split; [by vm_compute|]. by split. Qed.

(** An operator who may not look at a host adds itself to the host's group and may. *)
Theorem operator_admits_itself :
  let v' := (run host_answers (add_user_to_group (demo_operator 5%N) 10%N 5%N) demo_inventory).2 in
  (run host_answers (get_host (demo_operator 5%N) 1%N) demo_inventory).1 = Err (ApiErr 403 "forbidden") /\
  is_ok (run host_answers (get_host (demo_operator 5%N) 1%N) v').1 = true.
Proof. by vm_compute. Qed.

(** Deleting its only group shows a host to everyone, also to reporters. *)
Theorem deleted_group_opens_hosts :
  let v' := (run host_answers (delete_group (demo_operator 6%N) 10%N) demo_inventory).2 in
  (run host_answers (get_host demo_reporter 1%N) demo_inventory).1 = Err (ApiErr 403 "forbidden") /\
  is_ok (run host_answers (get_host demo_reporter 1%N) v').1 = true.
Proof. by vm_compute. Qed.

(** The answer to an update is the row before it. *)
Theorem update_answers_old_row :
  let r := run host_answers (update_host (demo_operator 5%N) 2%N (UpdateHostRequest (Some "c.example"%string) None None None)) demo_inventory in
  (exists h, r.1 = Ok h /\ in_fqdn h = "b.example"%string) /\ (exists h, iv_hosts r.2 !! 2%N = Some h /\ in_fqdn h = "c.example"%string).
Proof. cbv zeta. split; eexists; (split; [by vm_compute|done]). Qed.
