(* ===== verification/Ca.v ===== *)
(** * The certificate authority (pm-ca/src/ca.rs, pm-web/src/routes/ca.rs)

    Issuing, renewing, revoking and reissuing certificates, the revocation list
    and the routes over them.  Random bytes, keys, signatures, hex, X.509 encoding and
    parsing, files and the system's commands are effects or parameters; what is
    signed is a value here. *)

From S2P Require Import Prelude Ordering Rbac Conc.

(** ** What is signed *)

Inductive key_usage : Type := KeyCertSign | CrlSign | DigitalSignature.
Inductive ext_key_usage : Type := ClientAuth | ServerAuth.
Inductive san : Type := DnsName (name : string) | IpName (ip : string).

(** [CertificateParams] *)
Record cert_params : Type := CertParams {
  cp_serial : list N; cp_not_before : Z; cp_not_after : Z; cp_common_name : string; cp_organization : option string;
  cp_is_ca : bool; cp_key_usages : list key_usage; cp_extended : list ext_key_usage; cp_sans : list san
}.
(** [CertificateRevocationListParams]: serial numbers with the second of their revocation. *)
Record crl_params : Type := CrlParams { cl_this_update : Z; cl_next_update : Z; cl_number : list N; cl_revoked : list (list N * Z) }.

(** ** Tables *)

Inductive cert_status : Type := CertActive | CertRevoked | CertExpired.
#[global] Instance cert_status_eq_dec : EqDecision cert_status.
Proof. solve_decision. Defined.
Definition cert_status_str (s : cert_status) : string :=
  match s with CertActive => "active" | CertRevoked => "revoked" | CertExpired => "expired" end.

(** [certificates]; without a host, the row of the root. *)
Record cert_row : Type := CertRow {
  ct_host : option uuid; ct_serial : string; ct_common_name : string; ct_status : cert_status; ct_issued_at : Z;
  ct_expires_at : Z; ct_revoked_at : option Z; ct_pem : string
}.

Record ca_db : Type := CaDb { cb_now : Z; cb_hosts : gmap uuid (string * string); cb_certs : gmap uuid cert_row }.
Definition with_certs (m : gmap uuid cert_row) (d : ca_db) : ca_db := CaDb (cb_now d) (cb_hosts d) m.
Definition ca_at (t : Z) (d : ca_db) : ca_db := CaDb t (cb_hosts d) (cb_certs d).

Definition revoke_row (now : Z) (r : cert_row) : cert_row :=
  CertRow (ct_host r) (ct_serial r) (ct_common_name r) CertRevoked (ct_issued_at r) (ct_expires_at r) (Some now) (ct_pem r).
Definition active_of (host : uuid) (r : cert_row) : bool := bool_decide (ct_host r = Some host) && bool_decide (ct_status r = CertActive).

(** What the deletion of a host does here: its certificates go with it. *)
Definition host_gone (host : uuid) (d : ca_db) : ca_db :=
  CaDb (cb_now d) (delete host (cb_hosts d)) (filter (fun kv => ct_host kv.2 <> Some host) (cb_certs d)).

Inductive ca_stmt : Type -> Type :=
| InsCert (host : option uuid) (serial common_name : string) (expires_at : Z) (pem : string) : ca_stmt unit
| UpdRevoke (id : uuid) : ca_stmt Z
| UpdRevokeHost (host : uuid) : ca_stmt Z
| SelForRenewal (id : uuid) : ca_stmt (option uuid * string)
(** [ip_address::text] shows the length of the network (32 for a host), [host(ip_address)] does not. *)
| SelHostIpText (host : uuid) : ca_stmt string
| SelHostIp (host : uuid) : ca_stmt string
| SelHostFqdnIp (host : uuid) : ca_stmt (string * string)
| SelRevoked : ca_stmt (list (string * Z))
| CountRevoked : ca_stmt Z
| SelCerts (host : option uuid) (status : option string) : ca_stmt (list (uuid * cert_row))
| SelClientPem (host : uuid) : ca_stmt (option string).

Definition no_rows_err : string := "no rows returned by a query that expected to return at least one row".

Definition on_crl (now : Z) (r : cert_row) : bool :=
  bool_decide (ct_status r = CertRevoked) && (now <? ct_expires_at r).
Definition revoked_rows (now : Z) (m : gmap uuid cert_row) : list (string * Z) :=
  sort_by (fun a b => Z.compare a.2 b.2)
    (omap (fun kv => if on_crl now kv.2 then t ← ct_revoked_at kv.2; Some (ct_serial kv.2, t) else None) (map_to_list m)).

Definition newest_first (a b : uuid * cert_row) : comparison := Z.compare (ct_issued_at b.2) (ct_issued_at a.2).

Definition matches {A} (eqb : A -> A -> bool) (want : option A) (got : A) : bool :=
  match want with Some x => eqb x got | None => true end.

Definition exec_ca_stmt {X} (q : ca_stmt X) (d : ca_db) : result X string * ca_db :=
  match q in ca_stmt Y return result Y string * ca_db with
  | InsCert host serial cn expires pem =>
      if existsb (fun kv => String.eqb (ct_serial kv.2) serial) (map_to_list (cb_certs d)) then (Err "duplicate key value violates unique constraint"%string, d)
      else if match host with Some h => bool_decide (is_Some (cb_hosts d !! h)) | None => true end then
        (Ok tt, with_certs (<[fresh (dom (cb_certs d)) := CertRow host serial cn CertActive (cb_now d) expires None pem]> (cb_certs d)) d)
      else (Err "violates foreign key constraint"%string, d)
  | UpdRevoke id =>
      match cb_certs d !! id with
      | Some r => (Ok 1, with_certs (<[id := revoke_row (cb_now d) r]> (cb_certs d)) d)
      | None => (Ok 0, d)
      end
  | UpdRevokeHost host =>
      (Ok (Z.of_nat (size (filter (fun kv => active_of host kv.2 = true) (cb_certs d)))),
       with_certs ((fun r => if active_of host r then revoke_row (cb_now d) r else r) <$> cb_certs d) d)
  | SelForRenewal id => (match cb_certs d !! id with Some r => Ok (ct_host r, ct_common_name r) | None => Err no_rows_err end, d)
  | SelHostIpText host => (match cb_hosts d !! host with Some h => Ok (h.2 ++ "/32")%string | None => Err no_rows_err end, d)
  | SelHostIp host => (match cb_hosts d !! host with Some h => Ok h.2 | None => Err no_rows_err end, d)
  | SelHostFqdnIp host => (match cb_hosts d !! host with Some h => Ok h | None => Err no_rows_err end, d)
  | SelRevoked => (Ok (revoked_rows (cb_now d) (cb_certs d)), d)
  | CountRevoked => (Ok (Z.of_nat (size (filter (fun kv => on_crl (cb_now d) kv.2 = true) (cb_certs d)))), d)
  | SelCerts host status =>
      (Ok (sort_by newest_first
             (List.filter (fun kv => (match host with Some h => bool_decide (ct_host kv.2 = Some h) | None => true end) &&
                                     matches String.eqb status (cert_status_str (ct_status kv.2))) (map_to_list (cb_certs d)))), d)
  | SelClientPem host =>
      (Ok ((fun kv => ct_pem kv.2) <$> head (sort_by newest_first
             (List.filter (fun kv => active_of host kv.2 && negb (ends_with "-server" (ct_common_name kv.2))) (map_to_list (cb_certs d))))), d)
  end.

(** ** Effects *)

Inductive ca_eff : Type -> Type :=
| CaSql {X} (q : ca_stmt X) : ca_eff (result X string)
(** [OsRng.fill_bytes] on a buffer of that size. *)
| RandomBytes (n : nat) : ca_eff (list N)
| CaNow : ca_eff Z
(** A new key pair, as the PEM of the private key. *)
| GenerateKey : ca_eff (result string string)
(** Signing by the authority's key: the text of the certificate or the list. *)
| SignCert (p : cert_params) (key_pem : string) : ca_eff (result string string)
| SelfSign (p : cert_params) (key_pem : string) : ca_eff (result string string)
| SignCrl (p : crl_params) : ca_eff (result string string)
| ParseKeyPem (pem : string) : ca_eff (result unit string)
| ParseCaCertPem (pem : string) : ca_eff (result unit string)
| CaFileExists (path : string) : ca_eff bool
| CaReadFile (path : string) : ca_eff (result string string)
| CaWriteFile (path contents : string) : ca_eff (result unit string)
| CaSetMode (path : string) (mode : Z) : ca_eff (result unit string)
| CaCreateDirs (path : string) : ca_eff (result unit string)
(** [hostname -f] *)
| HostnameF : ca_eff (result string string)
| RestartServices : ca_eff unit
| CaEvent (action target : string) : ca_eff unit.

(** [.context(msg)?] *)
Definition ctx {A} (msg : string) (p : prog ca_eff (result A string)) : prog ca_eff (result A string) :=
  let! r := p in Ret (match r with Ok a => Ok a | Err _ => Err msg end).
Definition casql {X} (msg : string) (q : ca_stmt X) : prog ca_eff (result X string) := ctx msg (trigger (CaSql q)).
Definition fail {A} (msg : string) : prog ca_eff (result A string) := Ret (Err msg).

(** ** Issuing *)

Definition days (n : Z) : Z := n * day_us.

Record issued : Type := Issued {
  is_cert_pem : string; is_key_pem : string; is_serial : string; is_expires_at : Z;
  is_server_cert_pem : string; is_server_key_pem : string; is_server_serial : string
}.

Section Authority.
(** Serial numbers are kept as lower-case hex.  [parse::<IpAddr>], and the readers
    of X.509: common name, DNS names and end of validity. *)
Context (hex_encode : list N -> string) (hex_decode : string -> option (list N)).
Context (parse_ip : string -> option string) (parse_x509 : string -> result (option string * list string * Z) string).

Definition make_serial : prog ca_eff (list N) := trigger (RandomBytes 16).

(** The parameters with the common fields, the serial number in hex and the
    time of expiry for the table; the clock is read three times. *)
Definition base_params (cn : string) (validity_days : Z) : prog ca_eff (cert_params * string * Z) :=
  let! serial := make_serial in
  let! now := trigger CaNow in
  let! not_before := trigger CaNow in
  let! not_after := trigger CaNow in
  Ret (CertParams serial not_before (not_after + days validity_days) cn None false [] [] [], hex_encode serial, now + days validity_days).

Definition leaf (p : cert_params) (ext : ext_key_usage) (sans : list san) : cert_params :=
  CertParams (cp_serial p) (cp_not_before p) (cp_not_after p) (cp_common_name p) None false [DigitalSignature] [ext] sans.

(** [Ia5String::try_from] *)
Definition ia5 (s : string) : bool := str_forallb (fun c => code c <? 128) s.

(** The address without the length of its network. *)
Definition strip_mask (ip : string) : string := match split_by (Ascii.eqb "/") ip with s :: _ => s | [] => ip end.


Definition server_sans (hostname ip_address : string) : list san :=
  DnsName hostname :: match parse_ip (strip_mask ip_address) with Some ip => [IpName ip] | None => [] end.

Definition issue_server_cert (host : uuid) (hostname ip_address : string) : prog ca_eff (result (string * string * string * Z) string) :=
  let!? key := ctx "generate server key pair" (trigger GenerateKey) in
  let server_cn := (hostname ++ "-server")%string in
  let! b := base_params server_cn 365 in
  let '(p, serial_hex, expires_at) := b in
  if negb (ia5 hostname) then fail "hostname is not valid IA5"
  else
    let!? cert := ctx "sign server cert with CA" (trigger (SignCert (leaf p ServerAuth (server_sans hostname ip_address)) key)) in
    let!? _ := casql "insert server cert into database" (InsCert (Some host) serial_hex server_cn expires_at cert) in
    Ret (Ok (cert, key, serial_hex, expires_at)).

Definition issue_client_cert (host : uuid) (hostname ip_address : string) : prog ca_eff (result issued string) :=
  let!? key := ctx "generate client key pair" (trigger GenerateKey) in
  let! b := base_params hostname 365 in
  let '(p, serial_hex, expires_at) := b in
  let!? cert := ctx "sign client cert with CA" (trigger (SignCert (leaf p ClientAuth []) key)) in
  let!? _ := casql "insert client cert into database" (InsCert (Some host) serial_hex hostname expires_at cert) in
  let!? server := issue_server_cert host hostname ip_address in
  let '(server_cert, server_key, server_serial, _) := server in
  Ret (Ok (Issued cert key serial_hex expires_at server_cert server_key server_serial)).

Definition issue_web_tls_cert (hostname : string) : prog ca_eff (result (string * string) string) :=
  let!? key := ctx "generate web TLS key pair" (trigger GenerateKey) in
  let! b := base_params hostname 365 in
  let '(p, _, _) := b in
  if negb (ia5 hostname) then fail "hostname is not valid IA5"
  else
    let!? cert := ctx "sign web TLS cert with CA" (trigger (SignCert (leaf p ServerAuth [DnsName hostname]) key)) in
    Ret (Ok (cert, key)).

(** ** Revoking and renewing *)

(** "certificate not found: {id}" *)
Definition cert_not_found (id : uuid) : string := ("certificate not found: " ++ uuid_str id)%string.

Definition revoke_cert (id : uuid) : prog ca_eff (result unit string) :=
  let!? rows := casql "revoke certificate in database" (UpdRevoke id) in
  if rows =? 0 then fail (cert_not_found id) else Ret (Ok tt).

Definition renew_cert (id : uuid) : prog ca_eff (result issued string) :=
  let!? row := casql "fetch certificate for renewal" (SelForRenewal id) in
  match row with
  | (None, _) => fail "certificate has no host_id (cannot renew root CA)"
  | (Some host, common_name) =>
      let!? ip := casql "fetch host IP address for renewal" (SelHostIpText host) in
      let!? _ := revoke_cert id in
      issue_client_cert host common_name ip
  end.

(** ** The revocation list *)

(** [i64::to_be_bytes] *)
Definition be_bytes (n : Z) : list N := (fun i => Z.to_N (Z.shiftr (n mod 2 ^ 64) (8 * Z.of_nat i) mod 256)) <$> [7;6;5;4;3;2;1;0]%nat.
(** [timestamp()] *)
Definition unix_seconds (t : Z) : Z := t / second_us.

Fixpoint revoked_entries (rows : list (string * Z)) : option (list (list N * Z)) :=
  match rows with
  | [] => Some []
  | (serial_hex, revoked_at) :: rows' =>
      serial ← hex_decode serial_hex;
      rest ← revoked_entries rows';
      Some ((serial, unix_seconds revoked_at) :: rest)
  end.

Definition generate_crl : prog ca_eff (result string string) :=
  let!? rows := casql "query revoked certificates for CRL" SelRevoked in
  match revoked_entries rows with
  | None => fail "serial_number is not valid hex"
  | Some entries =>
      let! now := trigger CaNow in
      let! number := trigger CaNow in
      ctx "sign CRL with CA key" (trigger (SignCrl (CrlParams now (now + 24 * hour_us) (be_bytes (unix_seconds number)) entries)))
  end.

(** ** The root *)

Definition root_name : string := "Patch Manager Root CA".

(** [write_protected]: the contents first, the mode then. *)
Definition write_protected (path contents : string) : prog ca_eff (result unit string) :=
  let!? _ := trigger (CaWriteFile path contents) in
  trigger (CaSetMode path 384).

(** [CertAuthority::init]: the certificate and the key that it holds from then on. *)
Definition init (base_dir : string) : prog ca_eff (result (string * string) string) :=
  let key_path := (base_dir ++ "/ca.key")%string in
  let crt_path := (base_dir ++ "/ca.crt")%string in
  let! has_key := trigger (CaFileExists key_path) in
  let! has_crt := if has_key : bool then trigger (CaFileExists crt_path) else Ret false in
  if has_crt : bool then
    let!? key := ctx "read ca.key" (trigger (CaReadFile key_path)) in
    let!? crt := ctx "read ca.crt" (trigger (CaReadFile crt_path)) in
    let!? _ := ctx "parse CA private-key PEM" (trigger (ParseKeyPem key)) in
    let!? _ := ctx "parse CA certificate PEM" (trigger (ParseCaCertPem crt)) in
    Ret (Ok (crt, key))
  else
    let!? _ := ctx "create CA directory" (trigger (CaCreateDirs base_dir)) in
    let!? key := ctx "generate CA key pair" (trigger GenerateKey) in
    let! serial := make_serial in
    let! now := trigger CaNow in
    let! not_before := trigger CaNow in
    let! not_after := trigger CaNow in
    let p := CertParams serial not_before (not_after + days 3650) root_name (Some "Patch Manager"%string) true [KeyCertSign; CrlSign] [] [] in
    let!? crt := ctx "self-sign CA certificate" (trigger (SelfSign p key)) in
    let!? _ := ctx "write ca.key" (write_protected key_path key) in
    let!? _ := ctx "write ca.crt" (write_protected crt_path crt) in
    let!? _ := casql "insert root CA cert into database" (InsCert None (hex_encode serial) root_name (now + days 3650) crt) in
    Ret (Ok (crt, key)).

(** ** Routes *)

Definition ca_refuse {A} (status : Z) (ecode : string) : prog ca_eff (result A api_err) := Ret (Err (ApiErr status ecode)).
Definition ca_internal : api_err := ApiErr 500 "internal_error".

Definition require_write_access {A} (auth : auth_user) (p : prog ca_eff (result A api_err)) : prog ca_eff (result A api_err) :=
  if negb (can_write (au_role auth)) then ca_refuse 403 "forbidden" else p.

(** An error of the authority is answered with 500. *)
Definition or_internal {A} (p : prog ca_eff (result A string)) : prog ca_eff (result A api_err) :=
  let! r := p in Ret (match r with Ok a => Ok a | Err _ => Err ca_internal end).
(** ... or with 404 when its text says "not found". *)
Definition or_not_found {A} (p : prog ca_eff (result A string)) : prog ca_eff (result A api_err) :=
  let! r := p in
  Ret (match r with Ok a => Ok a | Err msg => Err (if str_contains "not found" msg then ApiErr 404 "not_found" else ca_internal) end).
(** ... or, of a query, with 404 when there are no rows. *)
Definition or_no_rows {X} (q : ca_stmt X) : prog ca_eff (result X api_err) :=
  let! r := trigger (CaSql q) in
  Ret (match r with Ok a => Ok a | Err msg => Err (if str_contains "no rows" msg then ApiErr 404 "not_found" else ca_internal) end).

Definition download_root_ca (root_pem : string) : prog ca_eff string :=
  trigger (CaEvent "certificate_downloaded" "root_ca") ;; Ret root_pem.

Definition list_certificates (host : option uuid) (status : option string) : prog ca_eff (result (list (uuid * cert_row)) api_err) :=
  or_internal (trigger (CaSql (SelCerts host status))).

Definition download_client_cert (auth : auth_user) (host : uuid) : prog ca_eff (result string api_err) :=
  require_write_access auth (
    let!? pem := or_internal (trigger (CaSql (SelClientPem host))) in
    match pem with
    | Some pem => trigger (CaEvent "certificate_downloaded" (uuid_str host)) ;; Ret (Ok pem)
    | None => ca_refuse 404 "not_found"
    end).

Definition issue_client_cert_route (auth : auth_user) (host : uuid) (hostname : string) : prog ca_eff (result issued api_err) :=
  require_write_access auth (
    let!? ip := or_no_rows (SelHostIp host) in
    let!? i := or_internal (issue_client_cert host hostname ip) in
    trigger (CaEvent "certificate_issued" (uuid_str host)) ;; Ret (Ok i)).

Definition renew_cert_route (auth : auth_user) (id : uuid) : prog ca_eff (result issued api_err) :=
  require_write_access auth (
    let!? i := or_not_found (renew_cert id) in
    trigger (CaEvent "certificate_renewed" (uuid_str id)) ;; Ret (Ok i)).

Definition reissue_host_cert (auth : auth_user) (host : uuid) : prog ca_eff (result issued api_err) :=
  require_write_access auth (
    let!? row := or_no_rows (SelHostFqdnIp host) in
    let!? _ := or_internal (trigger (CaSql (UpdRevokeHost host))) in
    let!? i := or_internal (issue_client_cert host row.1 row.2) in
    trigger (CaEvent "certificate_reissued" (uuid_str host)) ;; Ret (Ok i)).

Definition revoke_cert_route (auth : auth_user) (id : uuid) : prog ca_eff (result unit api_err) :=
  require_write_access auth (
    let!? _ := or_not_found (revoke_cert id) in
    trigger (CaEvent "certificate_revoked" (uuid_str id)) ;; Ret (Ok tt)).

(** [get_crl] (routes/pki.rs) *)
Definition get_crl : prog ca_eff (result string api_err) := or_internal generate_crl.

(** *** Health *)

Record web_tls_health : Type := WebTlsHealth {
  wt_cn : option string; wt_sans : list string; wt_expiry : option Z; wt_days : option Z; wt_is_fqdn : bool; wt_exists : bool; wt_error : option string
}.
Record crl_health : Type := CrlHealth { kl_status : string; kl_revoked_count : option Z; kl_error : option string }.

(** [num_days()] rounds towards zero. *)
Definition parse_web_tls_cert (pem : string) : prog ca_eff web_tls_health :=
  match parse_x509 pem with
  | Err e => Ret (WebTlsHealth None [] None None false true (Some e))
  | Ok (cn, sans, not_after) =>
      let! now := trigger CaNow in
      Ret (WebTlsHealth cn sans (Some not_after) (Some (Z.quot (not_after - now) day_us))
             (match cn with Some c => contains_char "." c | None => false end) true None)
  end.

Definition check_crl_status : prog ca_eff crl_health :=
  let! r := generate_crl in
  match r with
  | Ok _ =>
      let! n := trigger (CaSql CountRevoked) in
      trigger CaNow ;;
      Ret (CrlHealth "available" (Some (match n with Ok n => n | Err _ => 0 end)) None)
  | Err e => Ret (CrlHealth "error" None (Some e))
  end.

Definition determine_health (web : web_tls_health) (crl : crl_health) : string :=
  if negb (wt_exists web) || bool_decide (is_Some (wt_error web)) || String.eqb (kl_status crl) "error" then "critical"
  else
    match wt_days web with
    | Some n => if n <? 0 then "critical" else if (n <? 30) || negb (wt_is_fqdn web) then "warning" else "healthy"
    | None => "healthy"
    end.

Definition cert_health (cert_path : string) : prog ca_eff (web_tls_health * crl_health * string) :=
  let! file := trigger (CaReadFile cert_path) in
  let! web := match file with
              | Ok pem => parse_web_tls_cert pem
              | Err _ => Ret (WebTlsHealth None [] None None false false None)
              end in
  let! crl := check_crl_status in
  Ret (web, crl, determine_health web crl).

(** *** A new certificate for the web server *)

(** [Path::parent] of the configured paths. *)
Definition regenerate_certs (parent : string -> option string) (auth : auth_user) (cert_path key_path : string)
    : prog ca_eff (result (web_tls_health * string) api_err) :=
  require_write_access auth (
    let!? out := or_internal (trigger HostnameF) in
    let fqdn := trim out in
    if String.eqb fqdn "" then Ret (Err ca_internal)
    else
      let!? made := or_internal (issue_web_tls_cert fqdn) in
      let '(cert_pem, key_pem) := made in
      let!? _ := match parent cert_path with Some dir => or_internal (trigger (CaCreateDirs dir)) | None => Ret (Ok tt) end in
      let!? _ := match parent key_path with Some dir => or_internal (trigger (CaCreateDirs dir)) | None => Ret (Ok tt) end in
      let!? _ := or_internal (trigger (CaWriteFile cert_path cert_pem)) in
      let!? _ := or_internal (trigger (CaWriteFile key_path key_pem)) in
      trigger (CaSetMode key_path 384) ;;
      let!? _ := or_internal generate_crl in
      trigger RestartServices ;;
      let! parsed := parse_web_tls_cert cert_pem in
      trigger (CaEvent "certificate_reissued" "web_tls") ;;
      Ret (Ok (parsed, fqdn))).
End Authority.
