(* ===== verification/CaFlow.v ===== *)
(** * The certificate authority: theorems

    Revoked certificates stay on every revocation list until they expire, the
    routes make no authority sign another, and what a reissue leaves. *)

From S2P Require Import Prelude Ordering Rbac Conc Ca.

(** ** The world *)

(** All that happens before [horizon]: time passes, hosts come and go (but none
    that has certificates), statements may fail before or after they took effect. *)
Definition ca_world (horizon : Z) : EffectSem ca_eff ca_db := fun X e d x d' =>
  exists d1, cb_now d <= cb_now d1 < horizon /\ cb_certs d1 = cb_certs d /\
    match e in ca_eff Y return Y -> Prop with
    | CaSql q => fun x => (x = (exec_ca_stmt q d1).1 /\ d' = (exec_ca_stmt q d1).2) \/
                          exists err, x = Err err /\ (d' = d1 \/ d' = (exec_ca_stmt q d1).2)
    | CaNow => fun t => t = cb_now d1 /\ d' = d1
    | RandomBytes n => fun l => length l = n /\ Forall (fun b => b < 256)%N l /\ d' = d1
    | _ => fun _ => d' = d1
    end x.

(** ** Requests *)

Inductive ca_request : Type :=
| DownloadRoot
| ListCerts (host : option uuid) (status : option string)
| DownloadClient (auth : auth_user) (host : uuid)
| IssueCert (auth : auth_user) (host : uuid) (hostname : string)
| RenewCert (auth : auth_user) (id : uuid)
| ReissueCert (auth : auth_user) (host : uuid)
| RevokeCert (auth : auth_user) (id : uuid)
| GetCrl
| CertHealth
| Regenerate (auth : auth_user)
(** The authority's part of the approval of an enrolment. *)
| EnrolIssue (host : uuid) (fqdn ip : string)
| EnrolCrl.

Record ca_setup : Type := CaSetup {
  su_hex : list N -> string; su_unhex : string -> option (list N);
  su_parse_ip : string -> option string; su_parse_x509 : string -> result (option string * list string * Z) string;
  su_root_pem : string; su_cert_path : string; su_key_path : string; su_parent : string -> option string
}.

Definition quiet {A} (p : prog ca_eff A) : prog ca_eff unit := p ;; Ret tt.

Definition serve_ca (su : ca_setup) (rq : ca_request) : prog ca_eff unit :=
  match rq with
  | DownloadRoot => quiet (download_root_ca (su_root_pem su))
  | ListCerts host status => quiet (list_certificates host status)
  | DownloadClient auth host => quiet (download_client_cert auth host)
  | IssueCert auth host hostname => quiet (issue_client_cert_route (su_hex su) (su_parse_ip su) auth host hostname)
  | RenewCert auth id => quiet (renew_cert_route (su_hex su) (su_parse_ip su) auth id)
  | ReissueCert auth host => quiet (reissue_host_cert (su_hex su) (su_parse_ip su) auth host)
  | RevokeCert auth id => quiet (revoke_cert_route auth id)
  | GetCrl => quiet (get_crl (su_unhex su))
  | CertHealth => quiet (cert_health (su_unhex su) (su_parse_x509 su) (su_cert_path su))
  | Regenerate auth => quiet (regenerate_certs (su_hex su) (su_unhex su) (su_parse_x509 su) (su_parent su) auth (su_cert_path su) (su_key_path su))
  | EnrolIssue host fqdn ip => quiet (issue_client_cert (su_hex su) (su_parse_ip su) host fqdn ip)
  | EnrolCrl => quiet (generate_crl (su_unhex su))
  end.

Ltac ca_unfold := unfold quiet, download_root_ca, list_certificates, download_client_cert, issue_client_cert_route, renew_cert_route, reissue_host_cert,
  revoke_cert_route, get_crl, cert_health, regenerate_certs, require_write_access, or_internal, or_not_found, or_no_rows, ca_refuse, renew_cert, revoke_cert,
  issue_client_cert, issue_server_cert, issue_web_tls_cert, base_params, make_serial, check_crl_status, parse_web_tls_cert, generate_crl, casql, ctx, fail.

(** ** No request makes another authority *)

Definition signs_leaf (X : Type) (e : ca_eff X) : Prop :=
  match e with
  | SignCert p _ => cp_is_ca p = false /\ cp_key_usages p = [DigitalSignature] /\
                    (cp_extended p = [ServerAuth] \/ cp_extended p = [ClientAuth] /\ cp_sans p = [])
  | SelfSign _ _ => False
  | _ => True
  end.
#[local] Hint Extern 1 (signs_leaf _ _) => (cbn; tauto) : only.

(** What the routes have the authority sign is a certificate for digital
    signatures that is no authority's, and serves either as a server's or, without
    alternative names, as a client's. *)
Theorem leaf_certificates_only su rq : only signs_leaf (serve_ca su rq).
Proof. destruct rq; cbn [serve_ca]; ca_unfold; only_auto. Qed.

(** ** Revoked certificates are on the list *)

Section Revoked.
Context (horizon : Z) (id : uuid) (serial : string) (bytes : list N) (su : ca_setup).
Context (Hserial : su_unhex su serial = Some bytes).

Definition is_revoked (d : ca_db) : Prop :=
  exists r t, cb_certs d !! id = Some r /\ ct_status r = CertRevoked /\ ct_serial r = serial /\
    ct_revoked_at r = Some t /\ horizon <= ct_expires_at r.

(** A list that is signed has the serial number on it. *)
Definition on_list (X : Type) (e : ca_eff X) : Prop :=
  match e with SignCrl p => bytes ∈ fst <$> cl_revoked p | _ => True end.
Definition no_list (X : Type) (e : ca_eff X) : Prop := match e with SignCrl _ => False | _ => True end.

Lemma stmt_is_revoked {X} (q : ca_stmt X) d : is_revoked d -> is_revoked (exec_ca_stmt q d).2.
Proof using Type.
  intros (r & t & Hr & Hst & Hser & Hrev & Hexp). destruct q; cbn [exec_ca_stmt]; try (by exists r, t).
  - destruct (existsb _ _); [by exists r, t|]. destruct (match host with Some _ => _ | None => _ end); [|by exists r, t]. cbn [snd with_certs].
    exists r, t. cbn [with_certs cb_certs]. rewrite lookup_insert_ne; [done|]. intros Heq. pose proof (is_fresh (dom (cb_certs d))) as Hf.
    rewrite Heq in Hf. apply Hf, elem_of_dom. by exists r.
  - destruct (cb_certs d !! id0) as [r0|] eqn:Hr0; [|by exists r, t]. destruct (decide (id0 = id)) as [->|Hne].
    + rewrite Hr in Hr0. injection Hr0 as <-. exists (revoke_row (cb_now d) r), (cb_now d). cbn [snd with_certs cb_certs]. by rewrite lookup_insert_eq.
    + exists r, t. cbn [snd with_certs cb_certs]. by rewrite lookup_insert_ne.
  - exists r, t. cbn [snd with_certs cb_certs]. rewrite lookup_fmap, Hr. cbn [fmap option_fmap option_map]. unfold active_of. rewrite Hst, (bool_decide_false (CertRevoked = CertActive)) by done.
    by rewrite andb_false_r.
Qed.

Lemma is_revoked_env d d1 : cb_certs d1 = cb_certs d -> is_revoked d -> is_revoked d1.
Proof using Type. unfold is_revoked. by intros ->. Qed.

Lemma world_is_revoked X (e : ca_eff X) d x d' : is_revoked d -> ca_world horizon X e d x d' -> is_revoked d'.
Proof using Type.
  intros Hd (d1 & _ & Hc & Hx). apply (is_revoked_env _ _ Hc) in Hd.
  destruct e; try (by subst); [|by destruct Hx as (_ & _ & ->)|by destruct Hx as [_ ->]].
  destruct Hx as [[_ ->]|(err & _ & [-> | ->])]; [by apply stmt_is_revoked|done|by apply stmt_is_revoked].
Qed.

#[local] Notation cgsafe := (@gsafe _ _ (ca_world horizon) _ on_list is_revoked).

Lemma no_list_safe {A} (p : prog ca_eff A) : only no_list p -> cgsafe p.
Proof using Type.
  intros Hp. apply only_gsafe.
  - intros X e d x d' _. apply world_is_revoked.
  - eapply only_mono; [|exact Hp]. intros X e. by destruct e.
Qed.

Lemma revoked_in_rows d : cb_now d < horizon -> is_revoked d -> exists t, (serial, t) ∈ revoked_rows (cb_now d) (cb_certs d).
Proof using Type.
  intros Hnow (r & t & Hr & Hst & Hser & Hrev & Hexp). exists t. unfold revoked_rows. rewrite sort_by_perm. apply list_elem_of_omap.
  exists (id, r). split; [by apply elem_of_map_to_list|]. cbn [snd]. unfold on_crl. rewrite Hst, bool_decide_true by done.
  assert ((cb_now d <? ct_expires_at r) = true) as -> by lia. cbn [andb]. by rewrite Hrev, Hser.
Qed.

Lemma revoked_entries_in rows entries t : (serial, t) ∈ rows -> revoked_entries (su_unhex su) rows = Some entries -> bytes ∈ fst <$> entries.
Proof using Hserial.
  revert entries. induction rows as [|[s u] rows IH]; intros entries Hin; [by apply elem_of_nil in Hin|]. cbn [revoked_entries].
  intros (bs & Hs & (rest & Hrest & [= <-])%bind_Some)%bind_Some. apply elem_of_cons in Hin as [[= <- <-]|Hin].
  - rewrite Hserial in Hs. injection Hs as <-. by left.
  - cbn [fmap list_fmap]. right. by apply (IH rest).
Qed.

Lemma generate_crl_safe : cgsafe (generate_crl (su_unhex su)).
Proof using Hserial.
  unfold generate_crl, casql, ctx. cbn [bind_ok bind trigger]. split; [exact I|]. intros d x d' Hd Hx. split; [by eapply world_is_revoked|].
  destruct Hx as (d1 & Hnow & Hc & [[-> ->]|(err & -> & _)]); cbn [exec_ca_stmt fst]; [|done].
  apply (is_revoked_env _ _ Hc) in Hd. destruct (revoked_in_rows d1 ltac:(lia) Hd) as [t Hin].
  destruct (revoked_entries _ _) as [entries|] eqn:He; [|done]. apply (revoked_entries_in _ _ _ Hin) in He.
  split; [exact I|]. intros d2 now d3 H2 Hx2. split; [by eapply world_is_revoked|].
  split; [exact I|]. intros d4 number d5 H4 Hx4. split; [by eapply world_is_revoked|].
  split; [exact He|]. intros d6 r d7 H6 Hx6. split; [by eapply world_is_revoked|done].
Qed.

#[local] Hint Extern 1 (no_list _ _) => exact I : only.

Lemma serve_ca_safe rq : cgsafe (serve_ca su rq).
Proof using Hserial.
  assert (forall A (p : prog ca_eff A), cgsafe p -> cgsafe (quiet p)) as Hq by (intros A p Hp; by apply gsafe_bind).
  destruct rq; cbn [serve_ca]; try (apply no_list_safe; ca_unfold; solve [only_auto]).
  - apply Hq, gsafe_bind; [apply generate_crl_safe|done].
  - apply Hq. unfold cert_health. apply gsafe_bind; [apply no_list_safe; only_auto|]. intros file.
    apply gsafe_bind; [apply no_list_safe; ca_unfold; only_auto|]. intros web. apply gsafe_bind; [|done].
    unfold check_crl_status. apply gsafe_bind; [apply generate_crl_safe|]. intros r. apply no_list_safe. only_auto.
  - apply Hq. unfold regenerate_certs, require_write_access. destruct (negb _); [done|].
    repeat (apply gsafe_bind; [solve [apply no_list_safe; ca_unfold; only_auto
                                     | apply gsafe_bind; [apply generate_crl_safe|done]]|]; intros; try case_match; try done; cbv zeta; try case_match; try done).
  - apply Hq, generate_crl_safe.
Qed.
(** An answer of success means that the row is revoked. *)
Lemma revoke_cert_route_spec auth r d :
  cb_certs d !! id = Some r -> ct_serial r = serial -> horizon <= ct_expires_at r ->
  @wp _ _ (ca_world horizon) _ (revoke_cert_route auth id) (fun a d1 => a = Ok tt -> is_revoked d1) d.
Proof using Type.
  intros Hr Hser Hexp. unfold revoke_cert_route, require_write_access. destruct (negb _); [done|].
  unfold or_not_found, revoke_cert, casql, ctx. cbn [bind_ok bind trigger wp]. intros x d' (d1 & _ & Hc & Hx). rewrite <- Hc in Hr.
  destruct Hx as [[-> ->]|(err & -> & _)]; cbn [exec_ca_stmt]; [|by cbn [bind_ok bind wp]; case_match; intros; cbn in *].
  rewrite Hr. cbn [fst snd Z.eqb bind_ok bind wp]. intros [] d3 H3 _.
  refine (world_is_revoked _ (CaEvent "certificate_revoked" (uuid_str id)) (with_certs _ _) tt d3 _ H3).
  exists (revoke_row (cb_now d1) r), (cb_now d1). cbn [with_certs cb_certs]. by rewrite lookup_insert_eq.
Qed.
End Revoked.

(** C30. A certificate that was revoked with success is on every revocation list that
    a request signs which starts after the revocation, until [horizon], before
    which the certificate does not expire: whatever such requests interleave,
    whichever statements fail, and while hosts come and go, except its own.  (A
    request that read the rows before the revocation may still sign a list
    without it, and deleting the host takes its certificates off the list.) *)
Theorem revoked_on_every_crl horizon su id bytes auth r d d1 d' ts' p k :
  su_unhex su (su_hex su bytes) = Some bytes ->
  cb_certs d !! id = Some r -> ct_serial r = su_hex su bytes -> horizon <= ct_expires_at r ->
  @may _ _ (ca_world horizon) _ (revoke_cert_route auth id) (fun a s => a = Ok tt /\ s = d1) d ->
  rtc (@cstep _ _ (ca_world horizon) _ (fun _ _ => []) (fun q => exists rq, q = serve_ca su rq)) (d1, []) (d', ts') ->
  Vis (SignCrl p) k ∈ ts' ->
  bytes ∈ fst <$> cl_revoked p.
Proof.
  intros Hhex Hr Hser Hexp Hmay Hrun Hin.
  destruct (wp_may _ _ _ _ (revoke_cert_route_spec horizon id (su_hex su bytes) auth r d Hr Hser Hexp) Hmay) as (a & t & Hrev & -> & ->).
  destruct (@gsafe_reachable _ _ (ca_world horizon) _ (fun _ _ => []) (fun q => exists rq, q = serve_ca su rq) (on_list bytes)
              (is_revoked horizon id (su_hex su bytes)) (d1, []) (d', ts')) as [_ Hts]; [by constructor| |exact Hrun|by apply Hrev|by constructor|].
  - intros q [rq ->]. by apply serve_ca_safe.
  - by apply (proj1 (Forall_forall _ _) Hts _ Hin).
Qed.

(** *** At work

    A hex encoding whose reader gives the bytes back. *)

Definition hex_byte (b : N) : string := String (hex_digit (b / 16)) (String (hex_digit (b mod 16)) "").
Definition hex_encode (bytes : list N) : string := String.concat "" (hex_byte <$> bytes).

Definition hex_value (c : ascii) : option N :=
  if is_ascii_digit c then Some (Z.to_N (code c - 48))
  else if (97 <=? code c) && (code c <=? 102) then Some (Z.to_N (code c - 87))
  else if (65 <=? code c) && (code c <=? 70) then Some (Z.to_N (code c - 55))
  else None.
Fixpoint hex_decode (s : string) : option (list N) :=
  match s with
  | EmptyString => Some []
  | String c (String d s') => hi ← hex_value c; lo ← hex_value d; l ← hex_decode s'; Some ((16 * hi + lo)%N :: l)
  | _ => None
  end.

Lemma hex_value_digit n : (n < 16)%N -> hex_value (hex_digit n) = Some n.
Proof.
  intros Hn. assert (exists k : nat, n = N.of_nat k /\ (k < 16)%nat) as (k & -> & Hk) by (exists (N.to_nat n); lia).
  do 16 (destruct k as [|k]; [done|]). lia.
Qed.

Lemma hex_encode_cons b bs : hex_encode (b :: bs) = (hex_byte b ++ hex_encode bs)%string.
Proof. unfold hex_encode. destruct bs; [cbn -[hex_byte]; by rewrite str_app_nil_r|done]. Qed.

Lemma hex_decode_encode bytes : Forall (fun b => b < 256)%N bytes -> hex_decode (hex_encode bytes) = Some bytes.
Proof.
  induction 1 as [|b bs Hb _ IH]; [done|]. rewrite hex_encode_cons. unfold hex_byte. cbn [String.append hex_decode].
  rewrite !hex_value_digit, IH by (try apply N.Div0.div_lt_upper_bound; try apply N.mod_lt; lia). cbn [mbind option_bind].
  f_equal. f_equal. symmetry. apply N.div_mod'.
Qed.

Definition ca_answers (X : Type) (e : ca_eff X) (d : ca_db) : X * ca_db :=
  match e in ca_eff Y return Y * ca_db with
  | CaSql q => exec_ca_stmt q d
  | RandomBytes n => (replicate n 7%N, d)
  | CaNow => (cb_now d, d)
  | GenerateKey => (Ok "key"%string, d)
  | SignCert p _ => (Ok (hex_encode (cp_serial p)), d)
  | SelfSign p _ => (Ok (hex_encode (cp_serial p)), d)
  | SignCrl p => (Ok (String.concat "," ((fun e => hex_encode e.1) <$> cl_revoked p)), d)
  | ParseKeyPem _ | ParseCaCertPem _ => (Ok tt, d)
  | CaFileExists _ => (false, d)
  | CaReadFile _ => (Err "not found"%string, d)
  | CaWriteFile _ _ => (Ok tt, d)
  | CaSetMode _ _ => (Ok tt, d)
  | CaCreateDirs _ => (Ok tt, d)
  | HostnameF => (Ok "manager.example"%string, d)
  | RestartServices => (tt, d)
  | CaEvent _ _ => (tt, d)
  end.

Lemma ca_answers_ok horizon X (e : ca_eff X) d : cb_now d < horizon -> ca_world horizon X e d (ca_answers X e d).1 (ca_answers X e d).2.
Proof.
  intros Hd. exists d. split; [lia|]. split; [done|]. destruct e; try done; [by left|]. split_and!; [cbn [fst ca_answers]; by rewrite length_replicate| |done].
  cbn [fst ca_answers]. by apply Forall_replicate.
Qed.

Definition one_cert : cert_row := CertRow (Some 1%N) "0aff" "a.example" CertActive 0 (days 365) None "pem".
Definition one_cert_db : ca_db := CaDb 5000000 {[1%N := ("a.example"%string, "10.0.0.1"%string)]} {[9%N := one_cert]}.
Definition ca_operator : auth_user := AuthUser 5%N "op" Operator.
Definition after_revoke : ca_db := (run ca_answers (revoke_cert_route ca_operator 9%N) one_cert_db).2.
Definition demo_setup : ca_setup := CaSetup hex_encode hex_decode (fun _ => None) (fun _ => Err ""%string) "" "" "" (fun _ => None).
Definition demo_list : crl_params := CrlParams 5000000 (5000000 + 24 * hour_us) [0; 0; 0; 0; 0; 0; 0; 5]%N [([10; 255]%N, 5)].

Lemma revoked_on_every_crl_witness : [10; 255]%N ∈ fst <$> cl_revoked demo_list.
Proof.
  eapply (revoked_on_every_crl day_us demo_setup 9%N [10; 255]%N ca_operator one_cert one_cert_db after_revoke after_revoke _ demo_list).
  - by apply hex_decode_encode; repeat constructor.
  - by vm_compute.
  - by vm_compute.
  - by vm_compute.
  - exists (Ok 1), after_revoke. split; [by apply (ca_answers_ok _ _ (CaSql (UpdRevoke 9%N)))|].
    exists tt, after_revoke. split; [by apply (ca_answers_ok _ _ (CaEvent "certificate_revoked" "9"))|]. by split.
  - eapply rtc_l; [apply cstep_start; by exists GetCrl|]. cbn [app].
    eapply rtc_l; [by eapply (cstep_effect _ _ _ _ [] []), (ca_answers_ok _ _ (CaSql SelRevoked))|].
    eapply rtc_l; [by eapply (cstep_effect _ _ _ _ [] []), (ca_answers_ok _ _ CaNow)|].
    eapply rtc_l; [by eapply (cstep_effect _ _ _ _ [] []), (ca_answers_ok _ _ CaNow)|].
    apply rtc_refl.
  - left.
Defined.

(** A host that is removed takes its revoked certificates off the list, though
    they have not expired. *)
Theorem removed_host_leaves_crl :
  exists r, cb_certs after_revoke !! 9%N = Some r /\ on_crl (cb_now after_revoke) r = true /\
    (run ca_answers (generate_crl hex_decode) after_revoke).1 = Ok "0aff"%string /\
    (run ca_answers (generate_crl hex_decode) (host_gone 1%N after_revoke)).1 = Ok ""%string.
Proof. eexists. by vm_compute. Qed.

(** ** What a reissue leaves *)

(** Alone: a statement takes effect or fails without one. *)
Definition ca_alone : EffectSem ca_eff ca_db := fun X e d x d' =>
  match e in ca_eff Y return Y -> Prop with
  | CaSql q => fun x => (x = (exec_ca_stmt q d).1 /\ d' = (exec_ca_stmt q d).2) \/ exists err, x = Err err /\ d' = d
  | _ => fun _ => d' = d
  end x.

#[local] Notation awp := (@wp _ _ ca_alone _).

Definition new_cert (host : uuid) (cn serial : string) (r : cert_row) : Prop :=
  ct_host r = Some host /\ ct_status r = CertActive /\ ct_common_name r = cn /\ ct_serial r = serial.

(** A row was added with that name and that serial number, which no other has. *)
Definition row_added (host : uuid) (cn serial : string) (d d' : ca_db) : Prop :=
  cb_hosts d' = cb_hosts d /\ exists id r, cb_certs d !! id = None /\ cb_certs d' = <[id := r]> (cb_certs d) /\ new_cert host cn serial r.

Lemma ins_cert_spec msg host serial cn expires pem d :
  awp (casql msg (InsCert (Some host) serial cn expires pem))
    (fun r d' => match r with Ok _ => row_added host cn serial d d' | Err _ => d' = d end) d.
Proof.
  unfold casql, ctx. cbn [bind trigger wp]. intros x d' [[-> ->]|(err & -> & ->)]; [|done]. cbn [exec_ca_stmt].
  destruct (existsb _ _); [done|]. destruct (bool_decide _); [|done]. cbn [fst snd with_certs]. split; [done|].
  eexists (fresh (dom (cb_certs d))), _. split; [|by split]. apply not_elem_of_dom, is_fresh.
Qed.

(** Parts of a program that leave the tables as they are. *)
Definition reads_only (X : Type) (e : ca_eff X) : Prop := match e with CaSql _ => False | _ => True end.
#[local] Hint Extern 1 (reads_only _ _) => exact I : only.

Section Issue.
Context (hex_encode : list N -> string) (parse_ip : string -> option string).

Lemma reads_only_wp {A B} (p : prog ca_eff A) (f : A -> prog ca_eff B) Q d :
  only reads_only p -> (forall a, awp (f a) Q d) -> awp (bind p f) Q d.
Proof using Type.
  intros Hp Hf. apply wp_bind. induction p as [a|X e k IH]; [apply Hf|]. destruct Hp as [He Hk]. intros x d' Hx. assert (d' = d) as ->; [by destruct e|].
  by apply IH.
Qed.

Lemma issue_server_cert_spec host hostname ip d :
  awp (issue_server_cert hex_encode parse_ip host hostname ip)
    (fun r d' => match r with Ok (_, _, serial, _) => row_added host (hostname ++ "-server") serial d d' | Err _ => d' = d end) d.
Proof using Type.
  unfold issue_server_cert. apply reads_only_wp; [unfold ctx; only_auto|]. intros [key|]; [|done].
  apply reads_only_wp; [unfold base_params, make_serial; only_auto|]. intros [[p serial] expires]. case_match; [done|].
  apply reads_only_wp; [unfold ctx; only_auto|]. intros [cert|]; [|done].
  apply wp_bind. eapply wp_mono; [|apply ins_cert_spec]. by intros [[]|] d'.
Qed.

Lemma issue_client_cert_spec host hostname ip d :
  awp (issue_client_cert hex_encode parse_ip host hostname ip)
    (fun r d' => match r with
      | Ok i => exists d1, row_added host hostname (is_serial i) d d1 /\ row_added host (hostname ++ "-server") (is_server_serial i) d1 d'
      | Err _ => d' = d \/ exists serial, row_added host hostname serial d d'
      end) d.
Proof using Type.
  unfold issue_client_cert. apply reads_only_wp; [unfold ctx; only_auto|]. intros [key|]; [|by left].
  apply reads_only_wp; [unfold base_params, make_serial; only_auto|]. intros [[p serial] expires].
  apply reads_only_wp; [unfold ctx; only_auto|]. intros [cert|]; [|by left].
  apply wp_bind. eapply wp_mono; [|apply ins_cert_spec]. intros [[]|] d1 H1; [|by left].
  apply wp_bind. eapply wp_mono; [|apply issue_server_cert_spec]. intros [[[[c k] s] e]|] d2 H2; cbn [wp]; [by exists d1|subst; right; by eexists].
Qed.
End Issue.

(** The rows after the host's active certificates were revoked. *)
Definition all_revoked (host : uuid) (d : ca_db) : gmap uuid cert_row :=
  (fun r => if active_of host r then revoke_row (cb_now d) r else r) <$> cb_certs d.

Lemma all_revoked_active host d id r : all_revoked host d !! id = Some r -> active_of host r = false.
Proof.
  unfold all_revoked. rewrite lookup_fmap, fmap_Some. intros (r0 & _ & ->). destruct (active_of host r0) eqn:Ha; [|done].
  unfold active_of. cbn [revoke_row ct_host ct_status]. rewrite (bool_decide_false (CertRevoked = CertActive)) by done. by rewrite andb_false_r.
Qed.

(** Rows of other hosts stay what they are. *)
Definition others_kept (host : uuid) (m m' : gmap uuid cert_row) : Prop :=
  forall id r, m !! id = Some r -> ct_host r <> Some host -> m' !! id = Some r.

Lemma all_revoked_others host d : others_kept host (cb_certs d) (all_revoked host d).
Proof.
  intros id r Hr Hh. unfold all_revoked. rewrite lookup_fmap, Hr. cbn [fmap option_fmap option_map]. unfold active_of.
  by rewrite bool_decide_false.
Qed.

Lemma row_added_others host m cn serial d d' :
  row_added host cn serial d d' -> others_kept host m (cb_certs d) -> others_kept host m (cb_certs d').
Proof.
  intros (_ & id & r & Hid & -> & _) Hm id' r' Hr' Hh. specialize (Hm id' r' Hr' Hh).
  rewrite lookup_insert_ne; [done|]. intros ->. by rewrite Hid in Hm.
Qed.

Lemma row_added_active host cn serial d d' id r :
  row_added host cn serial d d' -> cb_certs d' !! id = Some r -> active_of host r = true ->
  new_cert host cn serial r \/ cb_certs d !! id = Some r.
Proof.
  intros (_ & id0 & r0 & Hid & -> & Hn) Hr Ha. apply lookup_insert_Some in Hr as [[-> ->]|[_ Hr]]; [by left|by right].
Qed.

(** A reissue that succeeds leaves the host exactly two active certificates, of
    the serial numbers that it answers, one for its name and one for its server;
    one that fails leaves everything as it was, or the host with one active
    certificate, a new one for its name, or none.  Other hosts' certificates stay. *)
Theorem reissue_host_cert_spec hex parse_ip auth host d :
  awp (reissue_host_cert hex parse_ip auth host) (fun a d' =>
    others_kept host (cb_certs d) (cb_certs d') /\
    match a with
    | Ok i => exists fqdn ip, cb_hosts d !! host = Some (fqdn, ip) /\
        (forall id r, cb_certs d' !! id = Some r -> active_of host r = true ->
           new_cert host fqdn (is_serial i) r \/ new_cert host (fqdn ++ "-server") (is_server_serial i) r) /\
        exists id1 id2 r1 r2, id1 <> id2 /\ cb_certs d' !! id1 = Some r1 /\ cb_certs d' !! id2 = Some r2 /\
          new_cert host fqdn (is_serial i) r1 /\ new_cert host (fqdn ++ "-server") (is_server_serial i) r2
    | Err _ => cb_certs d' = cb_certs d \/ exists fqdn ip serial, cb_hosts d !! host = Some (fqdn, ip) /\
        forall id r, cb_certs d' !! id = Some r -> active_of host r = true -> new_cert host fqdn serial r
    end) d.
Proof.
  unfold reissue_host_cert, require_write_access. destruct (negb _); [by split; [intros ?|left]|].
  unfold or_no_rows. cbn [bind_ok bind trigger wp]. intros x d1 [[-> ->]|(err & -> & ->)]; [|by split; [intros ?|left]].
  cbn [exec_ca_stmt fst snd]. destruct (cb_hosts d !! host) as [[fqdn ip]|] eqn:Hh; [|by split; [intros ?|left]].
  unfold or_internal at 1. cbn [bind_ok bind trigger wp]. intros x d2 [[-> ->]|(err & -> & ->)]; [|by split; [intros ?|left]].
  cbn [exec_ca_stmt fst snd bind]. change (_ <$> cb_certs d) with (all_revoked host d).
  apply wp_bind. unfold or_internal. apply wp_bind. eapply wp_mono; [|apply issue_client_cert_spec].
  pose proof (all_revoked_others host d) as Hot. pose proof (all_revoked_active host d) as Hact.
  set (d0 := with_certs _ _). intros [i|err] d'; cbn [wp].
  - intros (d3 & H3 & H4) [] d5 H5. assert (d5 = d') as -> by exact H5. split; [by apply (row_added_others _ _ _ _ _ _ H4), (row_added_others _ _ _ _ _ _ H3)|]. exists fqdn, ip. split; [done|]. split.
    + intros id r Hr Ha. apply (row_added_active _ _ _ _ _ _ _ H4) in Hr as [Hr|Hr]; [by right| |done].
      apply (row_added_active _ _ _ _ _ _ _ H3) in Hr as [Hr|Hr]; [by left| |done]. apply Hact in Hr. congruence.
    + destruct H3 as (_ & id1 & r1 & Hid1 & Hc3 & Hn1), H4 as (_ & id2 & r2 & Hid2 & Hc4 & Hn2). rewrite Hc3 in Hc4, Hid2.
      apply lookup_insert_None in Hid2 as [_ Hne]. exists id1, id2, r1, r2. rewrite Hc4.
      split_and!; [done|by rewrite lookup_insert_ne, lookup_insert_eq|by rewrite lookup_insert_eq|done|done].
  - intros [-> | (serial & H3)].
    + split; [done|]. right. exists fqdn, ip, "". split; [done|]. intros id r Hr Ha. apply Hact in Hr. congruence.
    + split; [by apply (row_added_others _ _ _ _ _ _ H3)|]. right. exists fqdn, ip, serial. split; [done|].
      intros id r Hr Ha. apply (row_added_active _ _ _ _ _ _ _ H3) in Hr as [Hr|Hr]; [done| |done]. apply Hact in Hr. congruence.
Qed.
