(* ===== verification/Settings.v ===== *)
(** * Settings, secrets and e-mail (pm-web/src/routes/settings.rs, pm-core/src/crypto.rs, pm-worker/src/email.rs)

    The table [system_config], the row of [oidc_config] and the allow-list in
    memory; the routes that show and change them, the tests of the identity
    provider and of the mail server, the key of the secrets, and the worker's
    notifications.  AES-GCM, HTTP, mail transport, serde_json's lists and the
    parsers of addresses and mailboxes are effects or parameters. *)

From S2P Require Import Prelude Rbac AuditLog Conc Buffers.

(** ** Data *)

(** [oidc_config]; the secret is a ciphertext with its nonce. *)
Record oidc_row : Type := OidcRow {
  od_enabled : bool; od_provider : string; od_name : string; od_discovery : string; od_client_id : string;
  od_secret : option (vec_u8 * vec_u8); od_redirect : string; od_scopes : string
}.
(** [CHECK (provider_type IN (...))] *)
Definition oidc_row_ok (r : oidc_row) : bool :=
  existsb (String.eqb (od_provider r)) ["keycloak"; "azure"; "custom"]%string.

Record oidc_view : Type := OidcView {
  ov_enabled : bool; ov_provider : string; ov_name : string; ov_discovery : string; ov_client_id : string;
  ov_secret : string; ov_redirect : string; ov_scopes : string
}.
Record smtp_config : Type := SmtpConfig { sc_enabled : bool; sc_host : string; sc_port : Z; sc_username : string; sc_from : string; sc_tls_mode : string }.
Record notification_config : Type := NotificationConfig { nc_email_enabled : bool; nc_email_from : string; nc_recipients : list string }.
Record settings_response : Type := SettingsResponse {
  sr_oidc : oidc_view; sr_smtp : smtp_config; sr_health_poll : Z; sr_patch_poll : Z; sr_ip_whitelist : list string;
  sr_web_tls_strategy : string; sr_notification : notification_config; sr_callback_url : string
}.

Record oidc_update : Type := OidcUpdate {
  ou_enabled : option bool; ou_provider : option string; ou_name : option string; ou_discovery : option string;
  ou_client_id : option string; ou_secret : option string; ou_redirect : option string; ou_scopes : option string
}.
Record smtp_update : Type := SmtpUpdate {
  su_enabled : option bool; su_host : option string; su_port : option Z; su_username : option string; su_password : option string;
  su_from : option string; su_tls_mode : option string
}.
Record polling_update : Type := PollingUpdate { pu_health : option Z; pu_patch : option Z }.
Record notification_update : Type := NotificationUpdate { nu_email_enabled : option bool; nu_email_from : option string; nu_recipients : option (list string) }.
Record update_settings_request : Type := UpdateSettings {
  us_oidc : option oidc_update; us_smtp : option smtp_update; us_polling : option polling_update; us_ip_whitelist : option (list string);
  us_web_tls_strategy : option string; us_notification : option notification_update
}.

(** ** Statements *)

Inductive set_stmt : Type -> Type :=
| SelConfig : set_stmt (gmap string string)
| SelKeys (keys : list string) : set_stmt (gmap string string)
| SelKey (key : string) : set_stmt (option string)
| UpdKey (key value : string) : set_stmt unit
| DelKey (key : string) : set_stmt unit
| InsKey (key value : string) : set_stmt unit
| SelOidc : set_stmt (option oidc_row)
(** Of a secret the two columns are set, without one they are not mentioned. *)
| UpdOidc (u : oidc_update) (secret : option (vec_u8 * vec_u8)) : set_stmt unit.

Definition updated_oidc (u : oidc_update) (secret : option (vec_u8 * vec_u8)) (r : oidc_row) : oidc_row :=
  OidcRow (default (od_enabled r) (ou_enabled u)) (default (od_provider r) (ou_provider u)) (default (od_name r) (ou_name u))
    (default (od_discovery r) (ou_discovery u)) (default (od_client_id r) (ou_client_id u))
    (match secret with Some s => Some s | None => od_secret r end) (default (od_redirect r) (ou_redirect u)) (default (od_scopes r) (ou_scopes u)).

(** The tables and the configuration of the middleware. *)
Record settings_state {net : Type} : Type := SettingsState { st_config : gmap string string; st_oidc : option oidc_row; st_auth : @auth_config net }.
Arguments settings_state : clear implicits.
Arguments SettingsState {net}.

Definition with_config {net} (m : gmap string string) (s : settings_state net) : settings_state net := SettingsState m (st_oidc s) (st_auth s).
Definition with_oidc {net} (r : option oidc_row) (s : settings_state net) : settings_state net := SettingsState (st_config s) r (st_auth s).
Definition with_auth {net} (a : auth_config) (s : settings_state net) : settings_state net := SettingsState (st_config s) (st_oidc s) a.

Definition exec_set_stmt {net X} (q : set_stmt X) (s : settings_state net) : result X string * settings_state net :=
  match q in set_stmt Y return result Y string * settings_state net with
  | SelConfig => (Ok (st_config s), s)
  | SelKeys keys => (Ok (filter (fun kv => kv.1 ∈ keys) (st_config s)), s)
  | SelKey key => (Ok (st_config s !! key), s)
  | UpdKey key value => (Ok tt, with_config (alter (fun _ => value) key (st_config s)) s)
  | DelKey key => (Ok tt, with_config (delete key (st_config s)) s)
  | InsKey key value =>
      match st_config s !! key with
      | Some _ => (Err "duplicate key value violates unique constraint"%string, s)
      | None => (Ok tt, with_config (<[key := value]> (st_config s)) s)
      end
  | SelOidc => (Ok (st_oidc s), s)
  | UpdOidc u secret =>
      match st_oidc s with
      | None => (Ok tt, s)
      | Some r => let r' := updated_oidc u secret r in
                  if oidc_row_ok r' then (Ok tt, with_oidc (Some r') s) else (Err "violates check constraint"%string, s)
      end
  end.

(** ** Effects *)

Record http_answer : Type := HttpAnswer { ha_status : Z; ha_status_text : string; ha_json : option json }.
Definition is_success (a : http_answer) : bool := (200 <=? ha_status a) && (ha_status a <? 300).

Inductive tls_mode : Type := Tls | StartTls | PlainText.
Record transport : Type := Transport { tp_tls : tls_mode; tp_host : string; tp_port : Z; tp_credentials : option (string * string) }.
Record mail : Type := Mail { ml_from : string; ml_to : list string; ml_bcc : list string; ml_subject : string; ml_body : string }.

Inductive set_eff : Type -> Type :=
| SetSql {X} (q : set_stmt X) : set_eff (result X string)
(** [secret_key::get] *)
| SecretKey : set_eff (result vec_u8 string)
(** [OsRng.fill_bytes] *)
| SetRandom (n : nat) : set_eff vec_u8
(** [AuthConfig::update_ip_whitelist] *)
| ApplyWhitelist (entries : list string) : set_eff unit
| HttpClient : set_eff (result unit string)
| HttpGet (url : string) : set_eff (result http_answer string)
| SendMail (t : transport) (m : mail) : set_eff (result unit string)
| AuditVerify : set_eff integrity_result
| AuditRepair : set_eff repair_result
| SetEvent (action : string) : set_eff unit.

(** ** Hex *)

(** [format!("{:02x}", b)] of every byte. *)
Definition hex_encode (v : vec_u8) : string := String.concat "" ((fun b => hex_nibbles 2 (N_of_ascii b) "") <$> v).

(** [u8::from_str_radix(s, 16)] on two characters; a plus sign may come first. *)
Definition hex_digit_value (c : ascii) : option N :=
  if is_ascii_digit c then Some (Z.to_N (code c - 48))
  else if (97 <=? code c) && (code c <=? 102) then Some (Z.to_N (code c - 87))
  else if (65 <=? code c) && (code c <=? 70) then Some (Z.to_N (code c - 55))
  else None.
Definition radix16 (c d : ascii) : option ascii :=
  if Ascii.eqb c "+" then ascii_of_N <$> hex_digit_value d
  else hi ← hex_digit_value c; lo ← hex_digit_value d; Some (ascii_of_N (16 * hi + lo)%N).

(** The pairs [&s[i..i + 2]]; the end of one inside of a character is a panic. *)
Definition within_char (s : string) : bool :=
  match s with String c _ => (128 <=? code c) && (code c <? 192) | EmptyString => false end.
Fixpoint hex_pairs (s : string) : option (list (option ascii)) :=
  match s with
  | String c (String d s') => if within_char s' then None else rest ← hex_pairs s'; Some (radix16 c d :: rest)
  | _ => Some []
  end.
Definition even_length (s : string) : bool := Nat.even (String.length s).

(** settings.rs: pairs that are no number are left out. *)
Definition hex_decode (s : string) : option vec_u8 :=
  if negb (even_length s) then Some [] else match hex_pairs s with Some l => Some (omap (fun x => x) l) | None => None end.
(** email.rs: at the first that is no number the whole text is invalid. *)
Fixpoint hex_decode_from (s : string) : option (option vec_u8) :=
  match s with
  | String c (String d s') =>
      if within_char s' then None
      else match radix16 c d with
           | None => Some None
           | Some b => match hex_decode_from s' with Some (Some v) => Some (Some (b :: v)) | r => r end
           end
  | _ => Some (Some [])
  end.
Definition hex_decode_strict (s : string) : option (option vec_u8) :=
  if negb (even_length s) then Some None else hex_decode_from s.

(** ** Secrets (pm-core/src/crypto.rs) *)

Inductive key_eff : Type -> Type :=
| KeyExists : key_eff bool
| KeyRead : key_eff (result vec_u8 string)
| KeyRandom (n : nat) : key_eff vec_u8
| KeyMkdir : key_eff (result unit string)
| KeyWrite (v : vec_u8) : key_eff (result unit string)
| KeyMode (mode : Z) : key_eff (result unit string).

Definition load_or_create_key : prog key_eff (result vec_u8 string) :=
  let! there := trigger KeyExists in
  if there : bool then
    let!? v := trigger KeyRead in
    if negb (length v =? 32)%nat then Ret (Err ("Invalid key length: expected 32 bytes, got " ++ dec (Z.of_nat (length v)))%string)
    else Ret (Ok v)
  else
    let! key := trigger (KeyRandom 32) in
    let!? _ := trigger KeyMkdir in
    let!? _ := trigger (KeyWrite key) in
    let!? _ := trigger (KeyMode 384) in
    Ret (Ok key).

Section Routes.
(** AES-256-GCM (key, nonce, text); the reader and writer of a JSON list of texts;
    networks, addresses and mailboxes; the checks of the mail library on a host's
    name and a message; the callback URL of the configuration file. *)
Context (aes_encrypt aes_decrypt : vec_u8 -> vec_u8 -> vec_u8 -> option vec_u8).
Context (to_json : list string -> string) (from_json : string -> option (list string)).
Context (is_net is_ip : string -> bool) (parse_mailbox : string -> result string string).
Context (relay_ok : string -> result unit string) (body_ok : mail -> result unit string).
Context (callback_url : string).

Definition encrypt (plaintext : string) (key : vec_u8) : prog set_eff (result (vec_u8 * vec_u8) string) :=
  let! nonce := trigger (SetRandom 12) in
  Ret (match aes_encrypt key nonce (as_bytes plaintext) with
       | Some c => Ok (c, nonce)
       | None => Err "Encryption failed"%string
       end).

(** A nonce that has not twelve bytes is a panic ([Nonce::from_slice]). *)
Definition decrypt (ciphertext nonce key : vec_u8) : option (result string string) :=
  if negb (length nonce =? 12)%nat then None
  else Some (match aes_decrypt key nonce ciphertext with
             | None => Err "Decryption failed"%string
             | Some v => if is_utf8 v then Ok (of_bytes v) else Err "UTF-8 error"%string
             end).

(** ** Reading *)

Definition MASKED : string := "********".

Definition set_refuse {A} (status : Z) (ecode : string) : prog set_eff (result A api_err) := Ret (Err (ApiErr status ecode)).
Definition set_internal : api_err := ApiErr 500 "internal_error".
(** A panic of the handler: the connection ends without an answer. *)
Definition set_panic : api_err := ApiErr 0 "panic".

Definition write_access_required {A} (auth : auth_user) (p : prog set_eff (result A api_err)) : prog set_eff (result A api_err) :=
  if negb (can_write (au_role auth)) then set_refuse 403 "forbidden" else p.
Definition admin_required {A} (auth : auth_user) (p : prog set_eff (result A api_err)) : prog set_eff (result A api_err) :=
  if negb (is_admin (au_role auth)) then set_refuse 403 "forbidden_role" else p.

(** What fails is answered with 500. *)
Definition or_500 {A} (p : prog set_eff (result A string)) : prog set_eff (result A api_err) :=
  let! r := p in Ret (match r with Ok a => Ok a | Err _ => Err set_internal end).
Definition ssql {X} (q : set_stmt X) : prog set_eff (result X api_err) := or_500 (trigger (SetSql q)).

Definition load_system_config : prog set_eff (result (gmap string string) api_err) := ssql SelConfig.

Definition config_get (cfg : gmap string string) (key : string) : string := default "" (cfg !! key).
Definition json_list_of (s : string) : list string := default [] (from_json s).

Definition build_settings_response (cfg : gmap string string) (oidc : oidc_view) : settings_response :=
  let get := config_get cfg in
  SettingsResponse oidc
    (SmtpConfig (String.eqb (get "smtp_enabled") "true") (get "smtp_host") (default 587 (parse_u16 (get "smtp_port"))) (get "smtp_username")
       (get "smtp_from") (get "smtp_tls_mode"))
    (default 300 (parse_u64 (get "health_poll_interval_secs"))) (default 1800 (parse_u64 (get "patch_poll_interval_secs")))
    (json_list_of (get "ip_whitelist")) (get "web_tls_strategy")
    (NotificationConfig (String.eqb (get "notification_email_enabled") "true") (get "notification_email_from")
       (json_list_of (get "notification_email_recipients")))
    (get "sso_callback_url").

Definition update_config_key (key value : string) : prog set_eff (result unit api_err) := ssql (UpdKey key value).

Definition oidc_view_of (row : option oidc_row) : oidc_view :=
  match row with
  | Some r => OidcView (od_enabled r) (od_provider r) (od_name r) (od_discovery r) (od_client_id r)
                (match od_secret r with None => "" | Some _ => MASKED end) (od_redirect r) (od_scopes r)
  | None => OidcView false "azure" "Azure AD" "" "" "" "" "openid profile email"
  end.
Definition fetch_oidc_config : prog set_eff (result oidc_view api_err) :=
  let!? row := ssql SelOidc in Ret (Ok (oidc_view_of row)).

(** The settings with the callback URL, which is not in the table. *)
Definition answer_settings : prog set_eff (result settings_response api_err) :=
  let!? cfg := load_system_config in
  let cfg := <["sso_callback_url" := callback_url]> cfg in
  let!? oidc := fetch_oidc_config in
  Ret (Ok (build_settings_response cfg oidc)).

Definition get_settings (auth : auth_user) : prog set_eff (result settings_response api_err) :=
  write_access_required auth answer_settings.

(** ** Changing *)

Definition bool_str (b : bool) : string := if b then "true" else "false".

(** [if let Some(v) = field { update_config_key(...).await?; }] *)
Definition set_field {A} (key : string) (show : A -> string) (v : option A) : prog set_eff (result unit api_err) :=
  match v with Some a => update_config_key key (show a) | None => Ret (Ok tt) end.
Definition when_some {A} (v : option A) (f : A -> prog set_eff (result unit api_err)) : prog set_eff (result unit api_err) :=
  match v with Some a => f a | None => Ret (Ok tt) end.
Definition logged (action : string) : prog set_eff (result unit api_err) := trigger (SetEvent action) ;; Ret (Ok tt).

(** The mask and the empty text leave a secret as it is. *)
Definition update_oidc (u : oidc_update) : prog set_eff (result unit api_err) :=
  let!? secret :=
    match ou_secret u with
    | Some s =>
        if negb (String.eqb s MASKED) && negb (String.eqb s "") then
          let!? key := or_500 (trigger SecretKey) in
          let!? enc := or_500 (encrypt s key) in
          Ret (Ok (Some enc))
        else Ret (Ok None)
    | None => Ret (Ok None)
    end in
  let!? _ := ssql (UpdOidc u secret) in
  logged "oidc_config_updated".

Definition set_smtp_password (v : string) : prog set_eff (result unit api_err) :=
  if String.eqb v MASKED then Ret (Ok tt)
  else
    let!? key := or_500 (trigger SecretKey) in
    let!? enc := or_500 (encrypt v key) in
    let!? _ := ssql (DelKey "smtp_password") in
    let!? _ := ssql (InsKey "smtp_password_encrypted" (hex_encode enc.1)) in
    ssql (InsKey "smtp_password_nonce" (hex_encode enc.2)).

Definition update_smtp (u : smtp_update) : prog set_eff (result unit api_err) :=
  let!? _ := set_field "smtp_enabled" bool_str (su_enabled u) in
  let!? _ := set_field "smtp_host" id (su_host u) in
  let!? _ := set_field "smtp_port" dec (su_port u) in
  let!? _ := set_field "smtp_username" id (su_username u) in
  let!? _ := when_some (su_password u) set_smtp_password in
  let!? _ := set_field "smtp_from" id (su_from u) in
  let!? _ := set_field "smtp_tls_mode" id (su_tls_mode u) in
  logged "smtp_config_updated".

Definition update_polling (u : polling_update) : prog set_eff (result unit api_err) :=
  let!? _ := set_field "health_poll_interval_secs" dec (pu_health u) in
  let!? _ := set_field "patch_poll_interval_secs" dec (pu_patch u) in
  logged "config_changed".

Definition store_whitelist (entries : list string) : prog set_eff (result unit api_err) :=
  let!? _ := update_config_key "ip_whitelist" (to_json entries) in
  trigger (ApplyWhitelist entries) ;;
  logged "ip_whitelist_updated".

Definition update_tls_strategy (v : string) : prog set_eff (result unit api_err) :=
  let!? _ := update_config_key "web_tls_strategy" v in
  logged "config_changed".

Definition update_notification (u : notification_update) : prog set_eff (result unit api_err) :=
  let!? _ := set_field "notification_email_enabled" bool_str (nu_email_enabled u) in
  let!? _ := set_field "notification_email_from" id (nu_email_from u) in
  let!? _ := set_field "notification_email_recipients" to_json (nu_recipients u) in
  logged "config_changed".

(** The sections one after the other; the first failure ends the request and
    leaves what was written before. *)
Definition update_settings (auth : auth_user) (req : update_settings_request) : prog set_eff (result settings_response api_err) :=
  admin_required auth (
    let!? _ := when_some (us_oidc req) update_oidc in
    let!? _ := when_some (us_smtp req) update_smtp in
    let!? _ := when_some (us_polling req) update_polling in
    let!? _ := when_some (us_ip_whitelist req) store_whitelist in
    let!? _ := when_some (us_web_tls_strategy req) update_tls_strategy in
    let!? _ := when_some (us_notification req) update_notification in
    answer_settings).

Definition get_ip_whitelist (auth : auth_user) : prog set_eff (result (list string) api_err) :=
  write_access_required auth (
    let!? value := ssql (SelKey "ip_whitelist") in
    Ret (Ok (json_list_of (default "" value)))).

Definition update_ip_whitelist_route (auth : auth_user) (entries : list string) : prog set_eff (result (list string) api_err) :=
  admin_required auth (
    if negb (forallb (fun e => is_net e || is_ip e) entries) then set_refuse 400 "bad_request"
    else
      let!? _ := store_whitelist entries in
      Ret (Ok entries)).

(** ** Tests *)

Record test_answer : Type := TestAnswer { ta_success : bool; ta_message : string; ta_issuer : option (string * string) }.
Definition tested (ok : bool) (msg : string) : prog set_eff (result test_answer api_err) := Ret (Ok (TestAnswer ok msg None)).

Record oidc_discovery : Type := OidcDiscovery {
  dc_issuer : string; dc_authorization : string; dc_token : string; dc_jwks : string; dc_userinfo : option string
}.
Definition field_text (key : string) (body : json) : option string := v ← json_get key body; json_as_str v.

Definition discover_oidc (auth : auth_user) (discovery_url : string) : prog set_eff (result oidc_discovery api_err) :=
  admin_required auth (
    if String.eqb discovery_url "" then set_refuse 400 "bad_request"
    else
      let!? _ := or_500 (trigger HttpClient) in
      let! resp := trigger (HttpGet discovery_url) in
      match resp with
      | Ok a =>
          if is_success a then
            let body := default (JObj []) (ha_json a) in
            trigger (SetEvent "oidc_discover_performed") ;;
            let text k := default "" (field_text k body) in
            Ret (Ok (OidcDiscovery (text "issuer") (text "authorization_endpoint") (text "token_endpoint") (text "jwks_uri")
                       (field_text "userinfo_endpoint" body)))
          else set_refuse 502 "discovery_failed"
      | Err _ => set_refuse 502 "discovery_failed"
      end).

Definition test_oidc (auth : auth_user) : prog set_eff (result test_answer api_err) :=
  admin_required auth (
    let!? row := ssql SelOidc in
    match row with
    | None => tested false "OIDC is not configured"
    | Some r =>
        if negb (od_enabled r) then tested false "OIDC is not enabled"
        else if String.eqb (od_discovery r) "" then tested false "OIDC discovery URL is not set"
        else
          let!? _ := or_500 (trigger HttpClient) in
          let! resp := trigger (HttpGet (od_discovery r)) in
          match resp with
          | Ok a =>
              if is_success a then
                let issuer := default "" (field_text "issuer" (default (JObj []) (ha_json a))) in
                let label := if String.eqb (od_provider r) "keycloak" then "Keycloak"
                             else if String.eqb (od_provider r) "azure" then "Azure AD" else "OIDC" in
                trigger (SetEvent "oidc_test_performed") ;;
                Ret (Ok (TestAnswer true (label ++ " provider verified successfully") (Some (issuer, od_provider r))))
              else tested false ("Failed to reach OIDC provider: HTTP " ++ ha_status_text a)
          | Err e => tested false ("Failed to reach OIDC provider: " ++ e)
          end
    end).
Definition test_azure_sso_compat (auth : auth_user) : prog set_eff (result test_answer api_err) := test_oidc auth.

(** ** Mail *)

(** [build_transport] (email.rs); send_smtp_test builds the same. *)
Definition build_transport (mode host : string) (port : Z) (username password : string) : result transport string :=
  let credentials := if String.eqb username "" then None else Some (username, password) in
  if String.eqb mode "tls" then
    match relay_ok host with
    | Ok _ => Ok (Transport Tls host port credentials)
    | Err e => Err ("TLS relay error: " ++ e)%string
    end
  else if String.eqb mode "starttls" then
    match relay_ok host with
    | Ok _ => Ok (Transport StartTls host port credentials)
    | Err e => Err ("STARTTLS relay error: " ++ e)%string
    end
  else Ok (Transport PlainText host port credentials).

(** Mailboxes that parse. *)
Definition mailboxes (l : list string) : list string := omap (fun s => match parse_mailbox s with Ok m => Some m | Err _ => None end) l.

Definition send_smtp_test (host : string) (port : Z) (username password from mode : string) (recipients : list string) : prog set_eff (result unit string) :=
  match parse_mailbox from with
  | Err e => Ret (Err ("Invalid from address: " ++ e)%string)
  | Ok from =>
      let text := "This is a test email from Linux Patch Manager."%string in
      let body := match recipients with
                  | [] => text
                  | _ => (text ++ bytes [10%N; 10%N] ++ "Sent to: " ++ String.concat ", " recipients)%string
                  end in
      let m := Mail from [from] (mailboxes recipients) ("Linux Patch Manager " ++ bytes [226; 128; 148]%N ++ " SMTP Test") body in
      match body_ok m with
      | Err e => Ret (Err ("Failed to build email: " ++ e)%string)
      | Ok _ =>
          match build_transport mode host port username password with
          | Err e => Ret (Err e)
          | Ok t =>
              let! r := trigger (SendMail t m) in
              Ret (match r with Ok _ => Ok tt | Err e => Err ("SMTP send error: " ++ e)%string end)
          end
      end
  end.

Definition test_smtp (auth : auth_user) : prog set_eff (result test_answer api_err) :=
  write_access_required auth (
    let!? cfg := load_system_config in
    let get := config_get cfg in
    if negb (bool_decide (cfg !! "smtp_enabled"%string = Some "true"%string)) then tested false "SMTP is not enabled"
    else
      let host := get "smtp_host" in
      let port := default 587 (s ← cfg !! "smtp_port"%string; parse_u16 s) in
      let!? password :=
        match cfg !! "smtp_password_encrypted"%string, cfg !! "smtp_password_nonce"%string with
        | Some enc_hex, Some nonce_hex =>
            let!? key := or_500 (trigger SecretKey) in
            Ret (match hex_decode enc_hex, hex_decode nonce_hex with
                 | Some enc, Some nonce =>
                     match decrypt enc nonce key with
                     | Some (Ok p) => Ok p
                     | Some (Err _) => Ok ""%string
                     | None => Err set_panic
                     end
                 | _, _ => Err set_panic
                 end)
        | _, _ => Ret (Ok ""%string)
        end in
      let from := get "smtp_from" in
      let mode := default "starttls"%string (cfg !! "smtp_tls_mode"%string) in
      let recipients := json_list_of (get "notification_email_recipients") in
      if String.eqb host "" || String.eqb from "" then tested false "SMTP host or from address is not configured"
      else
        let! r := send_smtp_test host port (get "smtp_username") password from mode recipients in
        match r with
        | Ok _ =>
            tested true ("Test email sent successfully to from address" ++
              match recipients with [] => "" | _ => " and " ++ dec (Z.of_nat (length recipients)) ++ " recipient(s)" end)
        | Err e => tested false ("Failed to send test email: " ++ e)
        end).

(** ** The audit log *)

Definition audit_integrity (auth : auth_user) : prog set_eff (result integrity_result api_err) :=
  write_access_required auth (
    let! r := trigger AuditVerify in
    trigger (SetEvent "audit_integrity_verified") ;;
    Ret (Ok r)).
Definition audit_integrity_repair (auth : auth_user) : prog set_eff (result repair_result api_err) :=
  admin_required auth (
    let! r := trigger AuditRepair in
    trigger (SetEvent "audit_chain_repaired") ;;
    Ret (Ok r)).

(** ** The worker's notifications (email.rs) *)

Record smtp_settings : Type := SmtpSettings {
  ss_enabled : bool; ss_host : string; ss_port : Z; ss_username : string; ss_password : string; ss_from : string; ss_tls_mode : string
}.

Definition smtp_keys : list string :=
  ["smtp_enabled"; "smtp_host"; "smtp_port"; "smtp_username"; "smtp_password_encrypted"; "smtp_password_nonce"; "smtp_from"; "smtp_tls_mode"]%string.
Definition notification_keys : list string :=
  ["notification_email_enabled"; "notification_email_from"; "notification_email_recipients"]%string.

(** Rows, or none when the query fails. *)
Definition load_keys (keys : list string) : prog set_eff (gmap string string) :=
  let! r := trigger (SetSql (SelKeys keys)) in Ret (match r with Ok m => m | Err _ => ∅ end).

(** [None] is a panic. *)
Definition load_smtp_settings : prog set_eff (option smtp_settings) :=
  let! rows := load_keys smtp_keys in
  let get := config_get rows in
  let enc_hex := get "smtp_password_encrypted" in
  let nonce_hex := get "smtp_password_nonce" in
  let! password :=
    if negb (String.eqb enc_hex "") && negb (String.eqb nonce_hex "") then
      match hex_decode_strict enc_hex, hex_decode_strict nonce_hex with
      | Some enc, Some nonce =>
          let! key := trigger SecretKey in
          Ret (match enc, nonce, key with
               | Some enc, Some nonce, Ok key =>
                   match decrypt enc nonce key with
                   | Some (Ok p) => Some p
                   | Some (Err _) => Some ""%string
                   | None => None
                   end
               | _, _, _ => Some ""%string
               end)
      | _, _ => Ret None
      end
    else Ret (Some ""%string) in
  Ret (p ← password;
       Some (SmtpSettings (String.eqb (get "smtp_enabled") "true") (get "smtp_host") (default 587 (parse_u16 (get "smtp_port")))
               (get "smtp_username") p (get "smtp_from") (get "smtp_tls_mode"))).

Definition load_notification_settings : prog set_eff notification_config :=
  let! rows := load_keys notification_keys in
  let get := config_get rows in
  Ret (NotificationConfig (String.eqb (get "notification_email_enabled") "true") (get "notification_email_from")
         (json_list_of (get "notification_email_recipients"))).

Definition send_email (subject body : string) : prog set_eff (option bool) :=
  let! smtp := load_smtp_settings in
  match smtp with
  | None => Ret None
  | Some smtp =>
      if negb (ss_enabled smtp) then Ret (Some false)
      else
        let! notif := load_notification_settings in
        if negb (nc_email_enabled notif) then Ret (Some false)
        else if bool_decide (nc_recipients notif = []) then Ret (Some false)
        else
          let from := if String.eqb (nc_email_from notif) "" then ss_from smtp else nc_email_from notif in
          match parse_mailbox from with
          | Err _ => Ret (Some false)
          | Ok from =>
              let m := Mail from (mailboxes (nc_recipients notif)) [] subject body in
              match body_ok m with
              | Err _ => Ret (Some false)
              | Ok _ =>
                  match build_transport (ss_tls_mode smtp) (ss_host smtp) (ss_port smtp) (ss_username smtp) (ss_password smtp) with
                  | Err _ => Ret (Some false)
                  | Ok t => let! r := trigger (SendMail t m) in Ret (Some (match r with Ok _ => true | Err _ => false end))
                  end
              end
          end
  end.

(** The entry in the log is written whether the mail was sent or not. *)
Definition notify_by_mail (action subject body : string) : prog set_eff (option bool) :=
  let! sent := send_email subject body in
  match sent with
  | None => Ret None
  | Some b => trigger (SetEvent action) ;; Ret (Some b)
  end.

Definition newline : string := bytes [10%N].
Definition send_patch_failure_email (fqdn job error_message : string) : prog set_eff (option bool) :=
  notify_by_mail "email_notification_sent" ("[Patch Manager] Patch Failed on " ++ fqdn)
    ("Patch operation failed on host: " ++ fqdn ++ newline ++ "Job ID: " ++ job ++ newline ++ "Error: " ++ error_message ++ newline ++ newline ++
     "Please review the job details in the Patch Manager dashboard.").
Definition send_job_completion_email (job : string) (hosts succeeded failed : Z) : prog set_eff (option bool) :=
  notify_by_mail "email_notification_sent" ("[Patch Manager] Job " ++ job ++ " Completed")
    ("Patch job completed: " ++ job ++ newline ++ "Total hosts: " ++ dec hosts ++ newline ++ "Succeeded: " ++ dec succeeded ++ newline ++
     "Failed: " ++ dec failed ++ newline ++ newline ++ "Please review the job details in the Patch Manager dashboard.").
Definition send_maintenance_window_reminder_email (fqdn label start_at : string) : prog set_eff (option bool) :=
  notify_by_mail "maintenance_window_reminder" ("[Patch Manager] Upcoming Maintenance Window: " ++ label)
    ("Maintenance window reminder:" ++ newline ++ "Host: " ++ fqdn ++ newline ++ "Window: " ++ label ++ newline ++ "Starts at: " ++ start_at ++
     newline ++ newline ++ "Patch operations will begin at the scheduled time.").
End Routes.
