(* ===== verification/SettingsFlow.v ===== *)
(** * Settings, secrets and e-mail: theorems

    What the settings say back is what they are; the first password of the mail
    server is used and never replaced; who may change them; and what becomes of
    the allow-list. *)

From stdpp Require Import fin_maps.
From S2P Require Import Prelude Rbac AuditLog Conc Buffers Settings.

(** ** Hex reads back *)

Lemma secret_hex_digit n : (n < 16)%N -> hex_digit_value (hex_digit n) = Some n /\ Ascii.eqb (hex_digit n) "+" = false.
Proof.
  intros Hn. assert (exists k : nat, n = N.of_nat k /\ (k < 16)%nat) as (k & -> & Hk) by (exists (N.to_nat n); lia).
  do 16 (destruct k as [|k]; [done|]). lia.
Qed.

Lemma hex_digit_ascii n : (n < 16)%N -> code (hex_digit n) < 128.
Proof.
  intros Hn. assert (exists k : nat, n = N.of_nat k /\ (k < 16)%nat) as (k & -> & Hk) by (exists (N.to_nat n); lia).
  do 16 (destruct k as [|k]; [done|]). lia.
Qed.

Definition hex_byte (b : ascii) : string := hex_nibbles 2 (N_of_ascii b) "".

Lemma hex_byte_eq b : hex_byte b = String (hex_digit (N_of_ascii b / 16)) (String (hex_digit (N_of_ascii b mod 16)) "").
Proof.
  unfold hex_byte. cbn [hex_nibbles]. pose proof (N_ascii_bounded b). rewrite (N.mod_small (N_of_ascii b / 16)); [done|].
  by apply N.Div0.div_lt_upper_bound.
Qed.

Lemma radix16_byte b : radix16 (hex_digit (N_of_ascii b / 16)) (hex_digit (N_of_ascii b mod 16)) = Some b.
Proof.
  pose proof (N_ascii_bounded b) as Hb. unfold radix16.
  destruct (secret_hex_digit (N_of_ascii b / 16)) as [Hh ->]; [by apply N.Div0.div_lt_upper_bound|].
  destruct (secret_hex_digit (N_of_ascii b mod 16)) as [Hl _]; [by apply N.mod_lt|]. rewrite Hh, Hl. cbn [mbind option_bind].
  f_equal. rewrite <- (N.div_mod' (N_of_ascii b) 16). apply ascii_N_embedding.
Qed.

Lemma secret_hex_cons b v : hex_encode (b :: v) = (hex_byte b ++ hex_encode v)%string.
Proof. unfold hex_encode. destruct v; [cbn -[hex_nibbles]; by rewrite str_app_nil_r|done]. Qed.

Lemma within_hex v : within_char (hex_encode v) = false.
Proof.
  destruct v as [|b v]; [done|]. rewrite secret_hex_cons, hex_byte_eq. cbn [String.append within_char].
  pose proof (N_ascii_bounded b). pose proof (hex_digit_ascii (N_of_ascii b / 16) ltac:(by apply N.Div0.div_lt_upper_bound)). lia.
Qed.

Lemma hex_even v : even_length (hex_encode v) = true.
Proof. induction v as [|b v IH]; [done|]. rewrite secret_hex_cons, hex_byte_eq. exact IH. Qed.

Lemma secret_hex_read_back v : hex_decode (hex_encode v) = Some v.
Proof.
  unfold hex_decode. rewrite hex_even. cbn [negb]. enough (hex_pairs (hex_encode v) = Some (Some <$> v)) as ->.
  { f_equal. induction v as [|b v IH]; [done|]. cbn. by rewrite IH. }
  induction v as [|b v IH]; [done|]. rewrite secret_hex_cons, hex_byte_eq. cbn [String.append hex_pairs].
  rewrite within_hex, IH, radix16_byte. done.
Qed.

Lemma hex_strict_encode v : hex_decode_strict (hex_encode v) = Some (Some v).
Proof.
  unfold hex_decode_strict. rewrite hex_even. cbn [negb].
  induction v as [|b v IH]; [done|]. rewrite secret_hex_cons, hex_byte_eq. cbn [String.append hex_decode_from].
  by rewrite within_hex, radix16_byte, IH.
Qed.

Lemma hex_encode_empty v : hex_encode v = ""%string -> v = [].
Proof. destruct v as [|b v]; [done|]. by rewrite secret_hex_cons, hex_byte_eq. Qed.

(** ** The world *)

Section World.
Context {ip net : Type} (parse_net : string -> option net) (contains : net -> ip -> bool) (parse_ip : string -> option ip).
Context (aes_encrypt aes_decrypt : vec_u8 -> vec_u8 -> vec_u8 -> option vec_u8).
Context (to_json : list string -> string) (from_json : string -> option (list string)).
Context (is_ip : string -> bool) (parse_mailbox : string -> result string string).
Context (relay_ok : string -> result unit string) (body_ok : mail -> result unit string).
Context (callback_url : string) (secret_key : vec_u8).

Definition is_net (e : string) : bool := match parse_net e with Some _ => true | None => false end.

(** Nobody else acts, statements succeed and the key of the secrets is there. *)
Definition settings_alone : EffectSem set_eff (settings_state net) := fun X e s x s' =>
  match e in set_eff Y return Y -> Prop with
  | SetSql q => fun x => x = (exec_set_stmt q s).1 /\ s' = (exec_set_stmt q s).2
  | SecretKey => fun x => x = Ok secret_key /\ s' = s
  | SetRandom n => fun x => length x = n /\ s' = s
  | ApplyWhitelist entries => fun _ => s' = with_auth (update_ip_whitelist parse_net entries (st_auth s)) s
  | _ => fun _ => s' = s
  end x.

#[local] Notation swp := (@wp _ _ settings_alone _).

Lemma setting_bind_ok {A B Er} (p : prog set_eff (result A Er)) (f : A -> prog set_eff (result B Er)) Q s :
  swp p (fun r t => match r with Ok a => swp (f a) Q t | Err e => Q (Err e) t end) s -> swp (bind_ok p f) Q s.
Proof using Type. intros Hp. apply wp_bind. eapply wp_mono; [|exact Hp]. by intros [a|e] t. Qed.

Lemma swp_ssql {X} (q : set_stmt X) Q s :
  Q (match (exec_set_stmt q s).1 with Ok a => Ok a | Err _ => Err set_internal end) (exec_set_stmt q s).2 -> swp (ssql q) Q s.
Proof using Type. intros Hq x s' [-> ->]. exact Hq. Qed.

Lemma swp_set_field {A} (P : gmap string string -> Prop) key (show : A -> string) o s :
  (forall value m, P m -> P (alter (fun _ => value) key m)) -> P (st_config s) ->
  swp (set_field key show o) (fun r s' => r = Ok tt /\ P (st_config s')) s.
Proof using Type. intros Hk Hs. destruct o as [a|]; [|by split]. apply swp_ssql. cbn [exec_set_stmt fst snd]. split; [done|]. by apply Hk. Qed.

Lemma swp_secret_key s : swp (or_500 (trigger SecretKey)) (fun r t => r = Ok secret_key /\ t = s) s.
Proof using Type. by intros x t [-> ->]. Qed.

(** *** What GET answers, put back *)

(** The form as it is sent when nothing was changed in it. *)
Definition echo (v : settings_response) : update_settings_request :=
  let o := sr_oidc v in let m := sr_smtp v in let n := sr_notification v in
  UpdateSettings
    (Some (OidcUpdate (Some (ov_enabled o)) (Some (ov_provider o)) (Some (ov_name o)) (Some (ov_discovery o)) (Some (ov_client_id o))
             (Some (ov_secret o)) (Some (ov_redirect o)) (Some (ov_scopes o))))
    (Some (SmtpUpdate (Some (sc_enabled m)) (Some (sc_host m)) (Some (sc_port m)) (Some (sc_username m)) None (Some (sc_from m)) (Some (sc_tls_mode m))))
    (Some (PollingUpdate (Some (sr_health_poll v)) (Some (sr_patch_poll v)))) (Some (sr_ip_whitelist v)) (Some (sr_web_tls_strategy v))
    (Some (NotificationUpdate (Some (nc_email_enabled n)) (Some (nc_email_from n)) (Some (nc_recipients n)))).

Definition view (s : settings_state net) : settings_response :=
  build_settings_response from_json (<["sso_callback_url" := callback_url]> (st_config s)) (oidc_view_of (st_oidc s)).

Definition setting_keys : list string :=
  ["smtp_enabled"; "smtp_host"; "smtp_port"; "smtp_username"; "smtp_from"; "smtp_tls_mode"; "health_poll_interval_secs"; "patch_poll_interval_secs";
   "ip_whitelist"; "web_tls_strategy"; "notification_email_enabled"; "notification_email_from"; "notification_email_recipients"]%string.

Section Echo.
Context (v : settings_response) (row : option oidc_row) (config0 : gmap string string).
Context (Hjson : forall l, from_json (to_json l) = Some l).

(** The settings say [v], and the rest is as it was. *)
Definition says (au : auth_config) (s : settings_state net) : Prop :=
  view s = v /\ st_oidc s = row /\ st_auth s = au /\ forall k, k ∉ setting_keys -> st_config s !! k = config0 !! k.
Definition keeps_saying (au au' : auth_config) (p : prog set_eff (result unit api_err)) : Prop :=
  forall s, says au s -> swp p (fun r s' => r = Ok tt /\ says au' s') s.

Lemma saying_bind_ok au au1 au2 (p q : prog set_eff (result unit api_err)) :
  keeps_saying au au1 p -> keeps_saying au1 au2 q -> keeps_saying au au2 (bind_ok p (fun _ => q)).
Proof using Type. intros Hp Hq s Hs. apply setting_bind_ok. eapply wp_mono; [|exact (Hp s Hs)]. intros r t [-> Ht]. by apply Hq. Qed.

Lemma saying_logged au action : keeps_saying au au (logged action).
Proof using Type. intros s Hs [] s' Hx. assert (s' = s) as -> by exact Hx. by split. Qed.

Lemma saying_key au key value :
  key ∈ setting_keys ->
  (forall s, view s = v -> view (with_config (alter (fun _ => value) key (st_config s)) s) = v) ->
  keeps_saying au au (update_config_key key value).
Proof using Type.
  intros Hk Hv s (Hs & Hr & Ha & Ho). apply swp_ssql. cbn [exec_set_stmt fst snd]. split; [done|]. split_and!; [by apply Hv|done|done|].
  intros k Hn. cbn [with_config st_config]. rewrite lookup_alter_ne by (by intros ->). by apply Ho.
Qed.

Lemma get_alter_ne key value k (m : gmap string string) :
  key <> k -> config_get (<["sso_callback_url" := callback_url]> (alter (fun _ => value) key m)) k = config_get (<["sso_callback_url" := callback_url]> m) k.
Proof using Type.
  intros Hk. unfold config_get. destruct (decide (k = "sso_callback_url"%string)) as [->|Hn]; [by rewrite !lookup_insert_eq|].
  by rewrite !lookup_insert_ne, lookup_alter_ne by done.
Qed.

Lemma get_alter_eq key value (m : gmap string string) :
  key <> "sso_callback_url"%string ->
  config_get (<["sso_callback_url" := callback_url]> (alter (fun _ => value) key m)) key = value \/
  (config_get (<["sso_callback_url" := callback_url]> (alter (fun _ => value) key m)) key = ""%string /\
   config_get (<["sso_callback_url" := callback_url]> m) key = ""%string).
Proof using Type.
  intros Hk. unfold config_get. rewrite !lookup_insert_ne, lookup_alter_eq by done. destruct (m !! key) as [x|]; [by left|by right].
Qed.

Lemma bool_str_true b : String.eqb (bool_str b) "true" = b.
Proof using Type. by destruct b. Qed.

Lemma parse_default_dec mx d t : 0 <= d <= mx -> default d (parse_unsigned mx (dec (default d (parse_unsigned mx t)))) = default d (parse_unsigned mx t).
Proof using Type.
  intros Hd. rewrite parse_unsigned_dec; [done|]. destruct (parse_unsigned mx t) as [n|] eqn:Hn; [by eapply parse_unsigned_bounds|done].
Qed.

Lemma json_list_of_to_json l : json_list_of from_json (to_json l) = l.
Proof using Hjson. unfold json_list_of. by rewrite Hjson. Qed.

(** Each field put back as it was read. *)
Ltac say_field key :=
  apply saying_key; [by repeat (try (left; reflexivity); right)|];
  intros s Hs; rewrite <- Hs; unfold view, build_settings_response; cbn [with_config st_config st_oidc];
  repeat match goal with |- context [config_get (<[_ := _]> (alter _ key _)) ?k] => rewrite (get_alter_ne key _ k) by done end;
  let E := fresh "E" in
  match goal with |- context [alter (fun _ => ?value) key ?m] =>
    destruct (get_alter_eq key value m ltac:(done)) as [-> | [-> E]]
  end; [|by rewrite E];
  cbn [sr_smtp sr_notification sr_ip_whitelist sr_health_poll sr_patch_poll sr_web_tls_strategy
       sc_enabled sc_host sc_port sc_username sc_from sc_tls_mode nc_email_enabled nc_email_from nc_recipients id];
  rewrite ?bool_str_true, ?json_list_of_to_json; try done; try (unfold parse_u16, parse_u64; by rewrite parse_default_dec).

Lemma saying_smtp au :
  let m := sr_smtp v in
  keeps_saying au au (update_smtp aes_encrypt
    (SmtpUpdate (Some (sc_enabled m)) (Some (sc_host m)) (Some (sc_port m)) (Some (sc_username m)) None (Some (sc_from m)) (Some (sc_tls_mode m)))).
Proof using Hjson.
  cbv zeta. unfold update_smtp, set_field. cbn [su_enabled su_host su_port su_username su_password su_from su_tls_mode when_some].
  eapply saying_bind_ok; [say_field "smtp_enabled"%string|]. eapply saying_bind_ok; [say_field "smtp_host"%string|].
  eapply saying_bind_ok; [say_field "smtp_port"%string|]. eapply saying_bind_ok; [say_field "smtp_username"%string|].
  eapply saying_bind_ok; [by intros s Hs|].
  eapply saying_bind_ok; [say_field "smtp_from"%string|]. eapply saying_bind_ok; [say_field "smtp_tls_mode"%string|].
  apply saying_logged.
Qed.

Lemma saying_polling au : keeps_saying au au (update_polling (PollingUpdate (Some (sr_health_poll v)) (Some (sr_patch_poll v)))).
Proof using Type.
  unfold update_polling, set_field. cbn [pu_health pu_patch].
  eapply saying_bind_ok; [say_field "health_poll_interval_secs"%string|]. eapply saying_bind_ok; [say_field "patch_poll_interval_secs"%string|].
  apply saying_logged.
Qed.

Lemma saying_whitelist au :
  keeps_saying au (update_ip_whitelist parse_net (sr_ip_whitelist v) au) (store_whitelist to_json (sr_ip_whitelist v)).
Proof using Hjson.
  unfold store_whitelist. eapply saying_bind_ok; [say_field "ip_whitelist"%string|].
  intros s (Hs & Hr & <- & Ho). cbn [bind trigger wp]. intros [] s' Hx.
  assert (s' = with_auth (update_ip_whitelist parse_net (sr_ip_whitelist v) (st_auth s)) s) as -> by exact Hx. by apply saying_logged.
Qed.

Lemma saying_strategy au : keeps_saying au au (update_tls_strategy (sr_web_tls_strategy v)).
Proof using Type. unfold update_tls_strategy. eapply saying_bind_ok; [say_field "web_tls_strategy"%string|apply saying_logged]. Qed.

Lemma saying_notification au :
  let n := sr_notification v in
  keeps_saying au au (update_notification to_json (NotificationUpdate (Some (nc_email_enabled n)) (Some (nc_email_from n)) (Some (nc_recipients n)))).
Proof using Hjson.
  cbv zeta. unfold update_notification, set_field. cbn [nu_email_enabled nu_email_from nu_recipients].
  eapply saying_bind_ok; [say_field "notification_email_enabled"%string|]. eapply saying_bind_ok; [say_field "notification_email_from"%string|].
  eapply saying_bind_ok; [say_field "notification_email_recipients"%string|]. apply saying_logged.
Qed.

Lemma updated_same r :
  let o := oidc_view_of (Some r) in
  updated_oidc (OidcUpdate (Some (ov_enabled o)) (Some (ov_provider o)) (Some (ov_name o)) (Some (ov_discovery o)) (Some (ov_client_id o))
    (Some (ov_secret o)) (Some (ov_redirect o)) (Some (ov_scopes o))) None r = r.
Proof using Type. by destruct r. Qed.

Lemma saying_oidc au :
  sr_oidc v = oidc_view_of row -> (forall r, row = Some r -> oidc_row_ok r = true) ->
  keeps_saying au au (update_oidc aes_encrypt
    (OidcUpdate (Some (ov_enabled (sr_oidc v))) (Some (ov_provider (sr_oidc v))) (Some (ov_name (sr_oidc v))) (Some (ov_discovery (sr_oidc v)))
       (Some (ov_client_id (sr_oidc v))) (Some (ov_secret (sr_oidc v))) (Some (ov_redirect (sr_oidc v))) (Some (ov_scopes (sr_oidc v))))).
Proof using Type.
  intros -> Hok. unfold update_oidc. cbn [ou_secret].
  assert (negb (String.eqb (ov_secret (oidc_view_of row)) MASKED) && negb (String.eqb (ov_secret (oidc_view_of row)) "") = false) as ->
    by (destruct row as [r|]; [cbn [oidc_view_of ov_secret]; by destruct (od_secret r)|done]).
  cbn [bind_ok bind]. eapply (saying_bind_ok au au au); [|apply saying_logged].
  intros s (Hs & Hr & Ha & Ho). apply swp_ssql. cbn [exec_set_stmt]. destruct (st_oidc s) as [r|] eqn:Hsr.
  2:{ split; [done|]. cbn [snd]. unfold says. by rewrite Hsr. }
  rewrite <- Hr in *. rewrite updated_same, Hok by done. split; [done|]. unfold says, view in *. cbn [snd with_oidc st_config st_oidc st_auth].
  by rewrite Hsr in Hs.
Qed.
End Echo.

Definition oidc_ok (s : settings_state net) : Prop := forall r, st_oidc s = Some r -> oidc_row_ok r = true.

Lemma answer_settings_spec s : swp (answer_settings from_json callback_url) (fun r s' => r = Ok (view s) /\ s' = s) s.
Proof using Type.
  unfold answer_settings, load_system_config, fetch_oidc_config. apply setting_bind_ok, swp_ssql. cbn [exec_set_stmt fst snd].
  apply setting_bind_ok, setting_bind_ok, swp_ssql. by cbn [exec_set_stmt fst snd wp].
Qed.

(** C31. What the settings say, sent back unchanged, changes nothing: the answer is
    the same, the client secret stays, hidden behind its mask, and no other key of
    the table is touched; the allow-list in force becomes the one in the table. *)
Theorem settings_echo auth s :
  is_admin (au_role auth) = true -> oidc_ok s -> (forall l, from_json (to_json l) = Some l) ->
  swp (get_settings from_json callback_url auth) (fun r s1 => s1 = s /\ exists v, r = Ok v /\
    swp (update_settings aes_encrypt to_json from_json callback_url auth (echo v)) (fun r' s' => r' = Ok v /\
      st_oidc s' = st_oidc s /\ (forall k, k ∉ setting_keys -> st_config s' !! k = st_config s !! k) /\
      st_auth s' = update_ip_whitelist parse_net (sr_ip_whitelist v) (st_auth s)) s) s.
Proof using Type.
  intros Hadm Hok Hjson. assert (can_write (au_role auth) = true) as Hw by by destruct (au_role auth).
  unfold get_settings, write_access_required. rewrite Hw. cbn [negb].
  eapply wp_mono; [|apply answer_settings_spec]. intros r s1 [-> ->]. split; [done|]. exists (view s). split; [done|].
  unfold update_settings, admin_required. rewrite Hadm. cbn [negb echo us_oidc us_smtp us_polling us_ip_whitelist us_web_tls_strategy us_notification when_some].
  set (v := view s). set (au := st_auth s). assert (says v (st_oidc s) (st_config s) au s) as Hs by done.
  assert (sr_oidc v = oidc_view_of (st_oidc s)) as Ho by done.
  pose proof (saying_oidc v (st_oidc s) (st_config s) au Ho Hok s Hs) as H1.
  apply setting_bind_ok. eapply wp_mono; [|exact H1]. intros r s2 [-> H2].
  apply setting_bind_ok. eapply wp_mono; [|exact (saying_smtp v _ _ Hjson au s2 H2)]. intros r s3 [-> H3].
  apply setting_bind_ok. eapply wp_mono; [|exact (saying_polling v _ _ au s3 H3)]. intros r s4 [-> H4].
  apply setting_bind_ok. eapply wp_mono; [|exact (saying_whitelist v _ _ Hjson au s4 H4)]. intros r s5 [-> H5].
  apply setting_bind_ok. eapply wp_mono; [|exact (saying_strategy v _ _ _ s5 H5)]. intros r s6 [-> H6].
  apply setting_bind_ok. eapply wp_mono; [|exact (saying_notification v _ _ Hjson _ s6 H6)]. intros r s7 [-> (H7 & Hr7 & Ha7 & Hc7)].
  eapply wp_mono; [|apply answer_settings_spec]. intros r s8 [-> ->]. by rewrite H7.
Qed.

(** ** Requests and notifications *)

Inductive settings_request : Type :=
| GetSettings (auth : auth_user) | PutSettings (auth : auth_user) (req : update_settings_request)
| Discover (auth : auth_user) (url : string) | TestOidc (auth : auth_user) | TestSmtp (auth : auth_user)
| GetWhitelist (auth : auth_user) | PutWhitelist (auth : auth_user) (entries : list string)
| VerifyAudit (auth : auth_user) | RepairAudit (auth : auth_user)
(** The worker's mail on a failure or the end of a job. *)
| WorkerMail (action subject body : string).

Definition quiet {A} (p : prog set_eff A) : prog set_eff unit := p ;; Ret tt.

Definition serve_settings (rq : settings_request) : prog set_eff unit :=
  match rq with
  | GetSettings auth => quiet (get_settings from_json callback_url auth)
  | PutSettings auth req => quiet (update_settings aes_encrypt to_json from_json callback_url auth req)
  | Discover auth url => quiet (discover_oidc auth url)
  | TestOidc auth => quiet (test_oidc auth)
  | TestSmtp auth => quiet (test_smtp aes_decrypt from_json parse_mailbox relay_ok body_ok auth)
  | GetWhitelist auth => quiet (get_ip_whitelist from_json auth)
  | PutWhitelist auth entries => quiet (update_ip_whitelist_route to_json is_net is_ip auth entries)
  | VerifyAudit auth => quiet (audit_integrity auth)
  | RepairAudit auth => quiet (audit_integrity_repair auth)
  | WorkerMail action subject body => quiet (notify_by_mail aes_decrypt from_json parse_mailbox relay_ok body_ok action subject body)
  end.

(** Statements fail before or after they took effect; the key may be unreadable. *)
Definition settings_faults : EffectSem set_eff (settings_state net) := fun X e s x s' =>
  match e in set_eff Y return Y -> Prop with
  | SetSql q => fun x => (x = (exec_set_stmt q s).1 /\ s' = (exec_set_stmt q s).2) \/
                         exists err, x = Err err /\ (s' = s \/ s' = (exec_set_stmt q s).2)
  | SecretKey => fun x => (x = Ok secret_key \/ exists err, x = Err err) /\ s' = s
  | SetRandom n => fun x => length x = n /\ s' = s
  | ApplyWhitelist entries => fun _ => s' = with_auth (update_ip_whitelist parse_net entries (st_auth s)) s
  | _ => fun _ => s' = s
  end x.

(** *** The password of the mail server *)

Ltac settings_unfold := unfold update_ip_whitelist_route, get_settings, update_settings, update_oidc, update_smtp, set_smtp_password, update_polling, store_whitelist, update_tls_strategy,
  update_notification, discover_oidc, test_oidc, tested, get_ip_whitelist, audit_integrity, audit_integrity_repair, answer_settings,
  load_system_config, fetch_oidc_config, write_access_required, admin_required, set_refuse, when_some, set_field, update_config_key, ssql, logged, encrypt, or_500.

Section Password.
Context (pass : string) (Hutf8 : is_utf8 (as_bytes pass) = true).

(** The table holds the password, encrypted. *)
Definition holds_password (m : gmap string string) : Prop :=
  exists c n, m !! "smtp_password_encrypted"%string = Some (hex_encode c) /\ m !! "smtp_password_nonce"%string = Some (hex_encode n) /\
    length n = 12%nat /\ c <> [] /\ aes_decrypt secret_key n c = Some (as_bytes pass).
Definition password_kept (s : settings_state net) : Prop := holds_password (st_config s).

(** No statement overwrites it; and a mail authenticates with it, or, when it
    cannot be read, with an empty one. *)
Definition uses_password (X : Type) (e : set_eff X) : Prop :=
  match e with
  | SetSql (UpdKey k _) | SetSql (DelKey k) => k <> "smtp_password_encrypted"%string /\ k <> "smtp_password_nonce"%string
  | SendMail t _ => forall u q, tp_credentials t = Some (u, q) -> q = pass \/ q = ""%string
  | _ => True
  end.
#[local] Hint Extern 1 (uses_password _ _) => cbn; done : only.

Lemma holds_password_alter key value m :
  key <> "smtp_password_encrypted"%string -> key <> "smtp_password_nonce"%string -> holds_password m -> holds_password (alter (fun _ => value) key m).
Proof using Type. intros H1 H2 (c & n & Hc & Hn & Hr). exists c, n. by rewrite !lookup_alter_ne. Qed.

Lemma stmt_keeps_password {X} (q : set_stmt X) s : uses_password _ (SetSql q) -> password_kept s -> password_kept (exec_set_stmt q s).2.
Proof using Type.
  unfold password_kept. intros Hq Hs. destruct q; cbn [exec_set_stmt uses_password] in *; try done.
  - apply holds_password_alter; [apply Hq|apply Hq|done].
  - destruct Hs as (c & n & Hc & Hn & Hr). exists c, n. cbn [snd with_config st_config]. by rewrite !lookup_delete_ne by (destruct Hq; done).
  - destruct (st_config s !! key) as [x|] eqn:Hk; [done|]. destruct Hs as (c & n & Hc & Hn & Hr). exists c, n. cbn [snd with_config st_config].
    rewrite !lookup_insert_ne by (intros ->; congruence). done.
  - destruct (st_oidc s) as [r|]; [|done]. cbv zeta. by destruct (oidc_row_ok _).
Qed.

Lemma password_keeps : @keeps _ _ settings_faults uses_password password_kept.
Proof using Type.
  intros X e s x s' He Hs Hx. destruct e; try (by rewrite Hx); try (by destruct Hx as [_ ->]).
  destruct Hx as [[_ ->]|(err & _ & [-> | ->])]; [by apply stmt_keeps_password|done|by apply stmt_keeps_password].
Qed.

#[local] Notation pgsafe := (@gsafe _ _ settings_faults _ uses_password password_kept).
#[local] Notation pgpost := (@gpost _ _ settings_faults _ uses_password password_kept).

Lemma only_uses {A} (p : prog set_eff A) : only uses_password p -> pgpost p (fun _ => True).
Proof using Type. apply only_gpost, password_keeps. Qed.

Lemma decrypt_password c n :
  length n = 12%nat -> aes_decrypt secret_key n c = Some (as_bytes pass) -> decrypt aes_decrypt c n secret_key = Some (Ok pass).
Proof using Hutf8. intros Hn Hd. unfold decrypt. rewrite Hn. cbn [Nat.eqb negb]. by rewrite Hd, Hutf8, of_as_bytes. Qed.

Lemma transport_password mode host port user password t u q :
  build_transport relay_ok mode host port user password = Ok t -> tp_credentials t = Some (u, q) -> q = password.
Proof using Type.
  unfold build_transport. intros Ht. assert (tp_credentials t = if String.eqb user "" then None else Some (user, password)) as ->
    by (repeat (case_match; try done); by injection Ht as <-). destruct (String.eqb user ""); [done|]. by intros [= _ ->].
Qed.

Lemma send_test_uses host port user password from mode recipients :
  password = pass \/ password = ""%string ->
  only uses_password (send_smtp_test parse_mailbox relay_ok body_ok host port user password from mode recipients).
Proof using Type.
  intros Hp. unfold send_smtp_test. destruct (parse_mailbox from) as [m|]; [|done]. cbv zeta. destruct (body_ok _) as [[]|]; [|done].
  destruct (build_transport _ _ _ _ _ _) as [t|] eqn:Ht; [|done]. apply only_bind; [|done]. apply only_trigger. cbn.
  intros u q Hq. by rewrite (transport_password _ _ _ _ _ _ _ _ Ht Hq).
Qed.

Lemma secret_key_post : pgpost (or_500 (trigger SecretKey)) (fun r => forall k, r = Ok k -> k = secret_key).
Proof using Type.
  unfold or_500. apply (gpost_bind _ _ _ _ (fun r => forall k, r = Ok k -> k = secret_key)).
  - apply gpost_trigger; [apply password_keeps|done|]. by intros s x s' _ [[-> | [err ->]] _] k [= <-].
  - intros [k|err] Hk; cbn [gpost]; intros k' [= <-]. by apply Hk.
Qed.

Lemma test_smtp_safe auth : pgsafe (test_smtp aes_decrypt from_json parse_mailbox relay_ok body_ok auth).
Proof using Hutf8.
  unfold test_smtp, write_access_required. destruct (negb _); [done|]. apply (gpost_gsafe _ _ _ (fun _ => True)). unfold bind_ok at 1.
  apply (gpost_bind _ _ _ _ (fun r => forall cfg, r = Ok cfg -> holds_password cfg)).
  { unfold load_system_config, ssql, or_500. apply (gpost_bind _ _ _ _ (fun r => forall cfg, r = Ok cfg -> holds_password cfg)).
    - apply gpost_trigger; [apply password_keeps|done|]. intros s x s' Hs [[-> _]|(err & -> & _)] cfg [= <-]. exact Hs.
    - intros [cfg|err] Hc; cbn [gpost]; intros cfg' [= <-]. by apply Hc. }
  intros [cfg|err] Hc; [|done]. destruct (Hc cfg eq_refl) as (c & n & Hec & Hen & Hl & Hne & Hd). cbv zeta.
  destruct (negb _); [done|]. rewrite Hec, Hen. unfold bind_ok at 1.
  apply (gpost_bind _ _ _ _ (fun r => forall p, r = Ok p -> p = pass)).
  { unfold bind_ok. eapply gpost_bind; [apply secret_key_post|]. intros [k|err] Hk; cbn [gpost]; [|done].
    rewrite (Hk k eq_refl), !secret_hex_read_back. rewrite decrypt_password by done. by intros p [= <-]. }
  intros [password|err] Hp; [|done]. rewrite (Hp password eq_refl). destruct (_ || _); [done|]. apply only_uses.
  apply only_bind; [apply send_test_uses; by left|]. intros [|]; done.
Qed.

Lemma load_keys_post keys :
  pgpost (load_keys keys) (fun m => m = ∅ \/ exists m0, holds_password m0 /\ m = filter (fun kv => kv.1 ∈ keys) m0).
Proof using Type.
  unfold load_keys. apply (gpost_bind _ _ _ _ (fun r => forall m, r = Ok m -> exists m0, holds_password m0 /\ m = filter (fun kv => kv.1 ∈ keys) m0)).
  - apply gpost_trigger; [apply password_keeps|done|]. intros s x s' Hs [[-> _]|(err & -> & _)] m [= <-]. by exists (st_config s).
  - intros [m|err] Hm; cbn [gpost]; [right; by apply Hm|by left].
Qed.

Lemma load_smtp_post :
  pgpost (load_smtp_settings aes_decrypt) (fun o => forall ss, o = Some ss -> ss_password ss = pass \/ ss_password ss = ""%string).
Proof using Hutf8.
  unfold load_smtp_settings. eapply gpost_bind; [apply load_keys_post|]. intros rows Hrows. cbv zeta.
  apply (gpost_bind _ _ _ _ (fun o => forall p, o = Some p -> p = pass \/ p = ""%string)).
  2:{ intros [p|] Hp; cbn [gpost mbind option_bind]; [|done]. intros ss [= <-]. cbn [ss_password]. by apply Hp. }
  destruct Hrows as [->|(m & (c & n & Hec & Hen & Hl & Hne & Hd) & ->)].
  { unfold config_get. rewrite !lookup_empty. cbn [default from_option String.eqb negb andb gpost]. intros p [= <-]. by right. }
  unfold config_get. rewrite !(map_lookup_filter_Some_2 _ m _ _ Hec), !(map_lookup_filter_Some_2 _ m _ _ Hen)
    by (cbn [fst]; by repeat (try (left; reflexivity); right)). cbn [default from_option id].
  destruct (_ && _); [|cbn [gpost]; intros p [= <-]; by right]. rewrite !hex_strict_encode.
  apply (gpost_bind _ _ _ _ (fun r => forall k, r = Ok k -> k = secret_key)).
  - apply gpost_trigger; [apply password_keeps|done|]. by intros s x s' _ [[-> | [err ->]] _] k [= <-].
  - intros [k|err] Hk; cbn [gpost]; [|by intros p [= <-]; right]. rewrite (Hk k eq_refl), decrypt_password by done. intros p [= <-]. by left.
Qed.

Lemma mail_safe action subject body : pgsafe (notify_by_mail aes_decrypt from_json parse_mailbox relay_ok body_ok action subject body).
Proof using Hutf8.
  unfold notify_by_mail. apply (gpost_gsafe _ _ _ (fun _ => True)). apply (gpost_bind _ _ _ _ (fun _ => True)).
  2:{ intros [b|] _; [|exact I]. apply only_uses. apply only_bind; [by apply only_trigger|done]. }
  unfold send_email. eapply gpost_bind; [apply load_smtp_post|]. intros [ss|] Hss; [|exact I]. specialize (Hss ss eq_refl).
  destruct (negb _); [exact I|]. apply only_uses.
  apply only_bind; [unfold load_notification_settings, load_keys; only_auto|]. intros notif.
  destruct (negb _); [done|]. destruct (bool_decide _); [done|]. cbv zeta. destruct (parse_mailbox _) as [from|]; [|done].
  destruct (body_ok _) as [[]|]; [|done]. destruct (build_transport _ _ _ _ _ _) as [t|] eqn:Ht; [|done].
  apply only_bind; [|done]. apply only_trigger. cbn. intros u q Hq. by rewrite (transport_password _ _ _ _ _ _ _ _ Ht Hq).
Qed.

Lemma serve_settings_safe rq : pgsafe (serve_settings rq).
Proof using Hutf8.
  destruct rq; cbn [serve_settings]; unfold quiet; (apply gsafe_bind; [|done]);
    try (apply only_gsafe; [apply password_keeps|settings_unfold; solve [only_auto]]).
  - apply test_smtp_safe.
  - apply mail_safe.
Qed.

(** Setting the first password leaves it in the table, if it succeeds. *)
Lemma first_password_stored u s auth :
  (forall key nonce text c, length nonce = 12%nat -> aes_encrypt key nonce text = Some c -> c <> [] /\ aes_decrypt key nonce c = Some text) ->
  su_password u = Some pass -> pass <> MASKED ->
  st_config s !! "smtp_password_encrypted"%string = None -> st_config s !! "smtp_password_nonce"%string = None ->
  swp (update_settings aes_encrypt to_json from_json callback_url auth (UpdateSettings None (Some u) None None None None))
    (fun r s' => (exists v, r = Ok v) -> password_kept s') s.
Proof using Type.
  intros Haes Hu Hm Hc Hn. unfold update_settings, admin_required. destruct (negb _); [by intros [v ?]|].
  cbn [us_oidc us_smtp us_polling us_ip_whitelist us_web_tls_strategy us_notification when_some bind_ok bind].
  pose (free := fun m : gmap string string => m !! "smtp_password_encrypted"%string = None /\ m !! "smtp_password_nonce"%string = None).
  assert (free (st_config s)) as Hs by done. clear Hc Hn.
  assert (forall key value m, key <> "smtp_password_encrypted"%string -> key <> "smtp_password_nonce"%string -> free m -> free (alter (fun _ => value) key m))
    as Hfree by (intros key value m Hk1 Hk2 [H1 H2]; unfold free; by rewrite !lookup_alter_ne).
  apply setting_bind_ok. unfold update_smtp.
  do 4 (apply setting_bind_ok; eapply wp_mono; [|apply (swp_set_field free); [by intros; apply Hfree|exact Hs]]; clear Hs; intros ? ? [-> Hs]).
  destruct Hs as [Hc Hn].
  apply setting_bind_ok. rewrite Hu. cbn [when_some]. unfold set_smtp_password. rewrite (proj2 (String.eqb_neq _ _) Hm).
  apply setting_bind_ok. eapply wp_mono; [|apply swp_secret_key]. intros r' w [-> ->].
  apply setting_bind_ok. unfold or_500, encrypt. intros nonce w [Hl ->]. cbn [bind wp].
  destruct (aes_encrypt secret_key nonce (as_bytes pass)) as [c|] eqn:Henc; [|by intros [v ?]]. destruct (Haes _ _ _ _ Hl Henc) as [Hne Hdec].
  apply setting_bind_ok, swp_ssql. cbn [exec_set_stmt fst snd]. apply setting_bind_ok, swp_ssql. cbn [exec_set_stmt with_config st_config].
  rewrite lookup_delete_ne, Hc by done. cbn [fst snd with_config st_config]. apply swp_ssql. cbn [exec_set_stmt with_config st_config].
  rewrite lookup_insert_ne, lookup_delete_ne, Hn by done. cbn [fst snd].
  match goal with |- swp _ _ ?t => set (s2 := t) end.
  assert (password_kept s2) as H2.
  { exists c, nonce. subst s2. cbn [with_config st_config]. rewrite lookup_insert_ne, !lookup_insert_eq by done. done. }
  clearbody s2. do 2 (apply setting_bind_ok; eapply wp_mono; [|apply (swp_set_field holds_password); [by intros; apply holds_password_alter|exact H2]];
    clear H2; intros ? ? [-> H2]).
  intros [] w Ht. assert (password_kept w) as H3 by by rewrite Ht. cbn [bind wp].
  eapply wp_mono; [|apply answer_settings_spec]. by intros ? ? [-> ->] _.
Qed.
End Password.

(** The first task's next effect. *)
Definition sends_other (pass : string) (p : prog set_eff unit) : Prop :=
  match p with
  | Vis (SendMail t _) _ => exists u q, tp_credentials t = Some (u, q) /\ q <> pass /\ q <> ""%string
  | _ => False
  end.

(** C32. Where no password of the mail server is stored, one that a request sets with
    success, the request changing the mail settings only, is not replaced:
    whatever requests and notifications start afterwards and interleave, with
    failing statements, it stays in the table, and mail is sent with no other
    password than it or the empty one (which is used when the key or the
    decryption fails).  Also a later request for a new password leaves it. *)
Theorem first_password_used pass u s auth :
  is_utf8 (as_bytes pass) = true ->
  (forall key nonce text c, length nonce = 12%nat -> aes_encrypt key nonce text = Some c -> c <> [] /\ aes_decrypt key nonce c = Some text) ->
  su_password u = Some pass -> pass <> MASKED ->
  st_config s !! "smtp_password_encrypted"%string = None -> st_config s !! "smtp_password_nonce"%string = None ->
  swp (update_settings aes_encrypt to_json from_json callback_url auth (UpdateSettings None (Some u) None None None None))
    (fun r s' => (exists v, r = Ok v) ->
      forall s'' ts, rtc (@cstep _ _ settings_faults _ (fun _ _ => []) (fun p => exists rq, p = serve_settings rq)) (s', []) (s'', ts) ->
        password_kept pass s'' /\ Forall (fun p => ~ sends_other pass p) ts) s.
Proof using Type.
  intros Hutf8 Haes Hu Hm Hc Hn. eapply wp_mono; [|by eapply first_password_stored].
  intros r s' Hs Hok s'' ts Hr. specialize (Hs Hok).
  destruct (@gsafe_reachable _ _ settings_faults _ (fun _ _ => []) (fun p => exists rq, p = serve_settings rq) (uses_password pass)
              (password_kept pass) (s', []) (s'', ts)) as [Hk Hts]; [by constructor| |exact Hr|exact Hs|by constructor|].
  - intros p [rq ->]. by apply serve_settings_safe.
  - split; [exact Hk|]. eapply Forall_impl; [exact Hts|]. intros [a|X e k]; [by intros _ []|]. intros [He _]. destruct e; try by intros [].
    intros (u' & q & Hq & Hp & He'). by destruct (He u' q Hq).
Qed.

(** ... and is refused with 500 once the two rows are there. *)
Theorem second_password_refused auth u q s c :
  is_admin (au_role auth) = true -> su_password u = Some q -> q <> MASKED ->
  st_config s !! "smtp_password_encrypted"%string = Some c ->
  swp (update_settings aes_encrypt to_json from_json callback_url auth (UpdateSettings None (Some u) None None None None))
    (fun r s' => r = Err set_internal) s.
Proof using Type.
  intros Hadm Hu Hm Hc. unfold update_settings, admin_required. rewrite Hadm. cbn [negb us_oidc us_smtp when_some bind_ok bind].
  pose (there := fun m : gmap string string => m !! "smtp_password_encrypted"%string = Some c). assert (there (st_config s)) as Hs by done. clear Hc.
  apply setting_bind_ok. unfold update_smtp.
  do 4 (apply setting_bind_ok; eapply wp_mono; [|apply (swp_set_field there); [by intros; unfold there; rewrite lookup_alter_ne|exact Hs]]; clear Hs; intros ? ? [-> Hs]).
  apply setting_bind_ok. rewrite Hu. cbn [when_some]. unfold set_smtp_password. rewrite (proj2 (String.eqb_neq _ _) Hm).
  apply setting_bind_ok. eapply wp_mono; [|apply swp_secret_key]. intros r' w [-> ->].
  apply setting_bind_ok. unfold or_500, encrypt. intros nonce w [Hl ->]. cbn [bind wp]. destruct (aes_encrypt _ _ _); [|done].
  apply setting_bind_ok, swp_ssql. cbn [exec_set_stmt fst snd]. apply setting_bind_ok, swp_ssql. cbn [exec_set_stmt with_config st_config].
  by rewrite lookup_delete_ne, Hs.
Qed.

(** *** The allow-list *)

(** Replacing the allow-list: only administrators may, every entry has to be a
    network or an address, and the table and the middleware then have the
    entries.  Where all of them are networks, a request passes exactly if there are
    none or its address is in one. *)
Theorem allow_list_update auth entries s :
  (forall l, from_json (to_json l) = Some l) -> is_Some (st_config s !! "ip_whitelist"%string) ->
  swp (update_ip_whitelist_route to_json is_net is_ip auth entries) (fun r s' =>
    match r with
    | Err e => s' = s /\ (is_admin (au_role auth) = false /\ e = ApiErr 403 "forbidden_role" \/
                          is_admin (au_role auth) = true /\ e = ApiErr 400 "bad_request" /\ exists x, x ∈ entries /\ is_net x || is_ip x = false)
    | Ok l => l = entries /\ is_admin (au_role auth) = true /\
        json_list_of from_json (config_get (st_config s') "ip_whitelist") = entries /\
        (forallb is_net entries = true -> forall h peer,
           check_ip contains parse_ip (st_auth s') h peer = Ok tt <->
           entries = [] \/ exists a, resolve_client_ip contains parse_ip h peer (ac_trusted_proxies (st_auth s)) = Some a /\
             exists e n, e ∈ entries /\ parse_net e = Some n /\ contains n a = true)
    end) s.
Proof using Type.
  intros Hjson [old Hold]. unfold update_ip_whitelist_route, admin_required. destruct (is_admin _); cbn [negb]; [|split; [done|by left]].
  destruct (forallb (fun e => is_net e || is_ip e) entries) eqn:Hall; cbn [negb].
  2:{ split; [done|]. right. split_and!; [done|done|]. by apply forallb_false. }
  apply setting_bind_ok. unfold store_whitelist, update_config_key. apply setting_bind_ok, swp_ssql. cbn [exec_set_stmt fst snd bind trigger wp].
  intros [] s1 H1. assert (s1 = with_auth (update_ip_whitelist parse_net entries (st_auth s)) (with_config (alter (fun _ => to_json entries) "ip_whitelist"%string (st_config s)) s)) as -> by exact H1.
  intros [] s2 H2. match type of H2 with exec _ ?t _ _ => assert (s2 = t) as -> by exact H2 end. cbn [wp]. split; [done|]. split; [done|]. split.
  - cbn [with_auth with_config st_config]. unfold config_get, json_list_of. rewrite lookup_alter_eq, Hold. cbn. by rewrite Hjson.
  - cbn [with_auth st_auth]. intros Hnets h peer. rewrite check_ip_ok. cbn [update_ip_whitelist ac_ip_whitelist ac_trusted_proxies].
    unfold parse_nets. split.
    + intros [Hnil|(a & Ha & n & Hn & Hc)].
      * left. destruct entries as [|e es]; [done|]. cbn in Hnil, Hnets. unfold is_net in Hnets. by destruct (parse_net e).
      * right. apply list_elem_of_omap in Hn as (e & He & Hp). exists a. split; [done|]. by exists e, n.
    + intros [->|(a & Ha & e & n & He & Hp & Hc)]; [by left|]. right. exists a. split; [done|]. exists n. split; [|done].
      apply list_elem_of_omap. by exists e.
Qed.

(** A bare address is accepted, dropped by the middleware, and so an allow-list
    of nothing else lets everybody in. *)
Theorem bare_address_opens_allow_list auth e s :
  is_admin (au_role auth) = true -> is_ip e = true -> parse_net e = None ->
  swp (update_ip_whitelist_route to_json is_net is_ip auth [e]) (fun r s' =>
    r = Ok [e] /\ forall h peer, check_ip contains parse_ip (st_auth s') h peer = Ok tt) s.
Proof using Type.
  intros Hadm Hip Hnet. unfold update_ip_whitelist_route, admin_required. rewrite Hadm. cbn [negb forallb]. rewrite Hip, orb_true_r. cbn [negb andb].
  apply setting_bind_ok. unfold store_whitelist, update_config_key. apply setting_bind_ok, swp_ssql. cbn [exec_set_stmt fst snd bind trigger wp].
  intros [] s1 H1 [] s2 H2. split; [done|]. intros h peer. match type of H2 with exec _ ?t _ _ => assert (s2 = t) as -> by exact H2 end.
  match type of H1 with exec _ ?t _ _ => assert (s1 = with_auth (update_ip_whitelist parse_net [e] (st_auth s)) t) as -> by exact H1 end.
  cbn [with_auth st_auth]. apply unparsable_allow_list_allows_all. by repeat constructor.
Qed.

(** *** Who changes the settings *)

Definition sender (rq : settings_request) : option auth_user :=
  match rq with
  | GetSettings a | PutSettings a _ | Discover a _ | TestOidc a | TestSmtp a | GetWhitelist a | PutWhitelist a _ | VerifyAudit a | RepairAudit a => Some a
  | WorkerMail _ _ _ => None
  end.
Definition no_admin (rq : settings_request) : Prop := forall a, sender rq = Some a -> is_admin (au_role a) = false.

Definition settings_reads (X : Type) (e : set_eff X) : Prop :=
  match e with
  | SetSql (UpdKey _ _) | SetSql (DelKey _) | SetSql (InsKey _ _) | SetSql (UpdOidc _ _) | ApplyWhitelist _ | AuditRepair => False
  | _ => True
  end.
#[local] Hint Extern 1 (settings_reads _ _) => exact I : only.

Lemma settings_reads_keep s0 : @keeps _ _ settings_faults settings_reads (fun s => s = s0).
Proof using Type.
  intros X e s x s' He -> Hx. destruct e; try done; try (by rewrite Hx); try (by destruct Hx as [_ ->]).
  destruct q; try done; by destruct Hx as [[_ ->]|(err & _ & [-> | ->])].
Qed.

Lemma send_test_reads host port user password from mode recipients :
  only settings_reads (send_smtp_test parse_mailbox relay_ok body_ok host port user password from mode recipients).
Proof using Type. unfold send_smtp_test. only_auto. Qed.

Lemma send_email_reads subject body : only settings_reads (send_email aes_decrypt from_json parse_mailbox relay_ok body_ok subject body).
Proof using Type. unfold send_email, load_smtp_settings, load_notification_settings, load_keys. only_auto. Qed.
#[local] Hint Resolve send_test_reads send_email_reads : only.

Lemma no_admin_reads rq : no_admin rq -> only settings_reads (serve_settings rq).
Proof using Type.
  unfold no_admin. destruct rq; cbn [serve_settings sender]; intros Hna; try specialize (Hna _ eq_refl); unfold quiet; apply only_bind; try done;
    settings_unfold; rewrite ?Hna; cbn [negb]; try solve [only_auto].
  - unfold test_smtp, write_access_required, load_system_config, tested, set_refuse, ssql, or_500. only_auto.
  - unfold notify_by_mail. only_auto.
Qed.

(** C33. In every interleaving of requests of callers that are no administrators and
    of the worker's notifications, with failing statements, no setting, no secret
    and no allow-list changes, and none is about to rewrite the audit log. *)
Theorem settings_guarded s s' ts ts' :
  (forall p, p ∈ ts -> exists rq, no_admin rq /\ p = serve_settings rq) ->
  rtc (@cstep _ _ settings_faults _ (fun _ _ => []) (fun p => exists rq, no_admin rq /\ p = serve_settings rq)) (s, ts) (s', ts') ->
  s' = s /\ Forall (fun p => forall k, p <> Vis AuditRepair k) ts'.
Proof using Type.
  intros Hts Hr.
  assert (forall p, (exists rq, no_admin rq /\ p = serve_settings rq) -> @gsafe _ _ settings_faults _ settings_reads (fun t => t = s) p) as Hg
    by (intros p (rq & Hna & ->); by apply only_gsafe; [apply settings_reads_keep|apply no_admin_reads]).
  destruct (@gsafe_reachable _ _ settings_faults _ (fun _ _ => []) (fun p => exists rq, no_admin rq /\ p = serve_settings rq) settings_reads (fun t => t = s) (s, ts) (s', ts'))
    as [Hs Hts']; [by constructor|exact Hg|exact Hr|done| |].
  - apply Forall_forall. intros p Hp. by apply Hg, Hts.
  - split; [exact Hs|]. eapply Forall_impl; [exact Hts'|]. intros p Hp k ->. by destruct Hp.
Qed.
End World.

(** ** At work

    Lists of texts with every character marked, a cipher that adds one byte. *)

Fixpoint mark (t : string) : string :=
  match t with EmptyString => ";" | String c t' => String "." (String c (mark t')) end.
Definition demo_to_json (l : list string) : string := List.fold_right (fun t acc => mark t ++ acc)%string ""%string l.
Fixpoint demo_from_json (s : string) : option (list string) :=
  match s with
  | EmptyString => Some []
  | String a s1 =>
      if Ascii.eqb a ";" then l ← demo_from_json s1; Some (""%string :: l)
      else match s1 with
           | String c s2 => match demo_from_json s2 with Some (t :: l) => Some (String c t :: l) | _ => None end
           | EmptyString => None
           end
  end.

Lemma demo_json l : demo_from_json (demo_to_json l) = Some l.
Proof.
  induction l as [|t l IH]; [done|]. cbn [demo_to_json List.fold_right]. fold (demo_to_json l).
  induction t as [|c t IHt]; [cbn; by rewrite IH|]. cbn [mark String.append demo_from_json Ascii.eqb]. cbn. by rewrite IHt.
Qed.

Definition demo_encrypt (key nonce text : vec_u8) : option vec_u8 := Some ("x"%char :: text).
Definition demo_decrypt (key nonce c : vec_u8) : option vec_u8 := match c with _ :: text => Some text | [] => None end.

Lemma demo_aes key nonce text c : length nonce = 12%nat -> demo_encrypt key nonce text = Some c -> c <> [] /\ demo_decrypt key nonce c = Some text.
Proof. by intros _ [= <-]. Qed.

Definition demo_settings : settings_state (Z * Z) := SettingsState
  (list_to_map [("smtp_enabled", "true"); ("smtp_host", "mail.example"); ("smtp_port", "+25"); ("smtp_username", "manager"); ("smtp_from", "a@b.c");
     ("smtp_tls_mode", "tls"); ("health_poll_interval_secs", "x"); ("ip_whitelist", demo_to_json ["10/20"]); ("web_tls_strategy", "internal_ca")]%string)
  (Some (OidcRow true "azure" "Azure AD" "https://login.example" "id" (Some (["c"%char], ["n"%char])) "" "openid"))
  (AuthConfig "key" [] []).
Definition demo_admin : auth_user := AuthUser 1%N "root" Admin.
Definition demo_operator : auth_user := AuthUser 2%N "op" Operator.

Definition settings_answers (X : Type) (e : set_eff X) (s : settings_state (Z * Z)) : X * settings_state (Z * Z) :=
  match e in set_eff Y return Y * settings_state (Z * Z) with
  | SetSql q => exec_set_stmt q s
  | SecretKey => (Ok [], s)
  | SetRandom n => (replicate n "r"%char, s)
  | ApplyWhitelist entries => (tt, with_auth (update_ip_whitelist demo_parse_net entries (st_auth s)) s)
  | HttpClient => (Ok tt, s)
  | HttpGet _ => (Err "unreachable"%string, s)
  | SendMail _ _ => (Ok tt, s)
  | AuditVerify => (IntegrityResult true 0 [], s)
  | AuditRepair => (RepairResult true 0 0 0 [], s)
  | SetEvent _ => (tt, s)
  end.

Lemma settings_answers_ok X (e : set_eff X) s :
  settings_faults demo_parse_net [] X e s (settings_answers X e s).1 (settings_answers X e s).2.
Proof. destruct e; try done; [by left|by split; [left|]|split; [apply length_replicate|done]]. Qed.

Lemma settings_echo_witness :
  @wp _ _ (settings_alone demo_parse_net []) _ (get_settings demo_from_json "https://manager/callback" demo_admin) (fun r s1 => s1 = demo_settings /\
    exists v, r = Ok v /\
    @wp _ _ (settings_alone demo_parse_net []) _ (update_settings demo_encrypt demo_to_json demo_from_json "https://manager/callback" demo_admin (echo v))
      (fun r' s' => r' = Ok v /\ st_oidc s' = st_oidc demo_settings /\
        (forall k, k ∉ setting_keys -> st_config s' !! k = st_config demo_settings !! k) /\
        st_auth s' = update_ip_whitelist demo_parse_net (sr_ip_whitelist v) (st_auth demo_settings)) demo_settings) demo_settings.
Proof.
  apply (settings_echo demo_parse_net demo_encrypt demo_to_json demo_from_json "https://manager/callback" [] demo_admin demo_settings);
    [done| |exact demo_json]. intros r [= <-]. by vm_compute.
Defined.

Definition new_password : smtp_update := SmtpUpdate None None None None (Some "secret"%string) None None.

Lemma first_password_used_witness :
  @wp _ _ (settings_alone demo_parse_net []) _
    (update_settings demo_encrypt demo_to_json demo_from_json "" demo_admin (UpdateSettings None (Some new_password) None None None None))
    (fun r s' => (exists v, r = Ok v) ->
      forall s'' ts, rtc (@cstep _ _ (settings_faults demo_parse_net []) _ (fun _ _ => [])
        (fun p => exists rq, p = serve_settings demo_parse_net demo_encrypt demo_decrypt demo_to_json demo_from_json (fun _ => false) (fun m => Ok m)
                                   (fun _ => Ok tt) (fun _ => Ok tt) "" rq)) (s', []) (s'', ts) ->
        password_kept demo_decrypt [] "secret" s'' /\ Forall (fun p => ~ sends_other "secret" p) ts) demo_settings /\
  exists v, (run settings_answers (update_settings demo_encrypt demo_to_json demo_from_json "" demo_admin (UpdateSettings None (Some new_password) None None None None))
    demo_settings).1 = Ok v.
Proof.
  split; [|eexists; by vm_compute].
  apply (first_password_used demo_parse_net demo_encrypt demo_decrypt demo_to_json demo_from_json (fun _ => false) (fun m => Ok m) (fun _ => Ok tt) (fun _ => Ok tt) "" []
    "secret" new_password demo_settings demo_admin); [by vm_compute|exact demo_aes|done|done|by vm_compute|by vm_compute].
Defined.

Lemma allow_list_update_witness :
  @wp _ _ (settings_alone demo_parse_net []) _ (update_ip_whitelist_route demo_to_json (is_net demo_parse_net) (fun _ => false) demo_admin ["10/20"; "30/40"]%string)
    (fun r s' => match r with
      | Err e => s' = demo_settings /\ (is_admin (au_role demo_admin) = false /\ e = ApiErr 403 "forbidden_role" \/
          is_admin (au_role demo_admin) = true /\ e = ApiErr 400 "bad_request" /\
          exists x, x ∈ ["10/20"; "30/40"]%string /\ is_net demo_parse_net x || false = false)
      | Ok l => l = ["10/20"; "30/40"]%string /\ is_admin (au_role demo_admin) = true /\
          json_list_of demo_from_json (config_get (st_config s') "ip_whitelist") = ["10/20"; "30/40"]%string /\
          (forallb (is_net demo_parse_net) ["10/20"; "30/40"]%string = true -> forall h peer,
             check_ip demo_contains demo_parse_ip (st_auth s') h peer = Ok tt <->
             ["10/20"; "30/40"]%string = [] \/ exists a, resolve_client_ip demo_contains demo_parse_ip h peer (ac_trusted_proxies (st_auth demo_settings)) = Some a /\
               exists e n, e ∈ ["10/20"; "30/40"]%string /\ demo_parse_net e = Some n /\ demo_contains n a = true)
      end) demo_settings.
Proof.
  apply (allow_list_update demo_parse_net demo_contains demo_parse_ip demo_to_json demo_from_json (fun _ => false) [] demo_admin ["10/20"; "30/40"]%string demo_settings);
    [exact demo_json|]. eexists. by vm_compute.
Defined.

Definition demo_serve : settings_request -> prog set_eff unit :=
  serve_settings demo_parse_net demo_encrypt demo_decrypt demo_to_json demo_from_json (fun _ => false) (fun m => Ok m) (fun _ => Ok tt) (fun _ => Ok tt) "".
Definition operator_tasks : list (prog set_eff unit) :=
  demo_serve <$> [PutWhitelist demo_operator ["10/20"%string]; TestSmtp demo_operator; GetSettings demo_operator].
Definition operator_run : option (settings_state (Z * Z) * list (prog set_eff unit)) :=
  interleave (fun _ _ => []) settings_answers [1; 2; 1; 2]%nat (demo_settings, operator_tasks).

Lemma settings_guarded_witness : fst <$> operator_run = Some demo_settings.
Proof.
  destruct operator_run as [[s' ts']|] eqn:Hrun; [|by vm_compute in Hrun]. cbn [fmap option_fmap option_map fst]. f_equal.
  refine (proj1 (settings_guarded demo_parse_net demo_encrypt demo_decrypt demo_to_json demo_from_json (fun _ => false) (fun m => Ok m) (fun _ => Ok tt)
    (fun _ => Ok tt) "" [] demo_settings s' operator_tasks ts' _ _)).
  - intros p Hp. apply list_elem_of_fmap in Hp as (rq & -> & Hrq). exists rq. split; [|done].
    repeat (apply elem_of_cons in Hrq as [->|Hrq]; [by intros a [= <-]|]). by apply elem_of_nil in Hrq.
  - apply (interleave_reachable (fun _ _ => []) _ settings_answers [1; 2; 1; 2]%nat); [exact settings_answers_ok|exact Hrun].
Defined.

(** ** The key of the secrets *)

(** The file, and what is random. *)
Record key_file : Type := KeyFile { kf_content : option vec_u8; kf_random : nat }.
Definition key_answers (X : Type) (e : key_eff X) (s : key_file) : X * key_file :=
  match e in key_eff Y return Y * key_file with
  | KeyExists => (match kf_content s with Some _ => true | None => false end, s)
  | KeyRead => (match kf_content s with Some v => Ok v | None => Err "not found"%string end, s)
  | KeyRandom n => (replicate n (ascii_of_nat (kf_random s)), KeyFile (kf_content s) (S (kf_random s)))
  | KeyMkdir => (Ok tt, s)
  | KeyWrite v => (Ok tt, KeyFile (Some v) (kf_random s))
  | KeyMode _ => (Ok tt, s)
  end.

(** A key that was made is found again ... *)
Theorem key_found_again s : forall k s', run key_answers load_or_create_key s = (Ok k, s') ->
  length k = 32%nat /\ kf_content s' = Some k /\ run key_answers load_or_create_key s' = (Ok k, s').
Proof.
  intros k s'. unfold load_or_create_key. destruct s as [[v|] r]; cbn [bind_ok bind trigger run key_answers kf_content kf_random].
  - destruct (Nat.eqb_spec (length v) 32) as [Hv|]; cbn [negb run]; [|done]. intros [= <- <-]. cbn [kf_content bind_ok bind trigger run key_answers].
    rewrite (proj2 (Nat.eqb_eq _ _) Hv). done.
  - intros [= <- <-]. by cbn.
Qed.

(** ... but two processes that start at the same time, the web server and the
    worker, may end with different keys, of which the file has one: what the other
    encrypts cannot be read. *)
Theorem racing_processes_disagree :
  exists s' k1 k2, interleave (fun _ _ => []) key_answers [0; 1; 0; 0; 0; 0; 1; 1; 1; 1]%nat (KeyFile None 65, [load_or_create_key; load_or_create_key])
    = Some (s', [Ret (Ok k1); Ret (Ok k2)]) /\ k1 <> k2 /\ kf_content s' = Some k2.
Proof. eexists _, _, _. split; [by vm_compute|]. by split. Qed.
