(* ===== verification/Pollers.v ===== *)
(** * The pollers of the worker (pm-worker/src/health_poller.rs, patch_poller.rs, refresh_listener.rs, audit_verifier.rs)

    The tasks that keep the status and the patches of the hosts: a cycle of the
    health poller and of the patch poller, which spawn a task for each host; the
    refresh of a host on demand; and the daily check of the audit log.  The rules
    of a poll are those of Health.v; here are its statements and calls, so that
    the tasks interleave.  Agents and clock are effects, the parsers of times and
    identifiers parameters. *)

From S2P Require Import Prelude Conc SelfUpgrade AuditLog Health.

(** ** Data *)

(** [Patch], [PatchesData], [Package], [PackagesData] of the agent's answers. *)
Record patch : Type := Patch {
  pt_name : string; pt_current : string; pt_available : string; pt_severity : string; pt_description : string;
  pt_cve_ids : list string; pt_requires_reboot : bool
}.
Record patches_data : Type := PatchesData {
  pd_patches : list patch; pd_total : Z; pd_security_updates : Z; pd_requires_reboot : bool
}.
Record package : Type := Package {
  pk_name : string; pk_version : string; pk_status : string; pk_upgradable : bool; pk_latest : option string;
  pk_description : string; pk_cve_ids : list string
}.
Record packages_data : Type := PackagesData { kd_packages : list package; kd_total : Z }.

(** A row of [hosts]: its address and what the pollers write. *)
Record fleet_host : Type := FleetHost { fh_ip : string; fh_port : Z; fh_cols : health_columns; fh_last_patch_at : option Z }.

(** A row of [host_health_data]; no data is the empty object. *)
Record health_sample : Type := HealthSample {
  hs_host : uuid; hs_polled_at : Z; hs_status : host_health_status; hs_payload : option health_data
}.
(** A row of [host_patch_data], of which a host has at most one. *)
Record patch_row : Type := PatchRow {
  pw_patches : list patch; pw_packages : list package; pw_patch_count : Z; pw_cve_count : Z; pw_polled_at : Z
}.
(** The tables; the audit events of hosts, in order. *)
Record fleet_db : Type := FleetDb {
  fd_now : Z; fd_hosts : gmap uuid fleet_host; fd_health : list health_sample; fd_patches : gmap uuid patch_row;
  fd_events : list (uuid * audit_action)
}.

(** ** Statements and effects *)

Inductive fleet_stmt : Type -> Type :=
(** The rows a cycle starts from; their order only orders the tasks it spawns. *)
| SelFleet : fleet_stmt (list (uuid * fleet_host))
| SelFleetHost (id : uuid) : fleet_stmt (option fleet_host)
| InsHealth (id : uuid) (st : host_health_status) (payload : option health_data) : fleet_stmt unit
(** The update of a poll, with COALESCE on all but the status, the reboot flag
    and the count. *)
| UpdPolled (id : uuid) (st : host_health_status) (data : option health_data) (info : option system_info) (failures : Z) : fleet_stmt unit
| UpdStatus (id : uuid) (st : host_health_status) : fleet_stmt unit
| UpsertPatches (id : uuid) (patches : list patch) (packages : list package) (patch_count cve_count : Z) : fleet_stmt unit
| UpdLastPatch (id : uuid) : fleet_stmt unit.

(** What the pollers spawn. *)
Inductive poll_task : Type :=
| HealthTask (id : uuid) (row : fleet_host) | PatchTask (id : uuid) (row : fleet_host) | RefreshTask (id : uuid) (row : fleet_host).

Inductive poll_eff : Type -> Type :=
| FleetSql {X} (q : fleet_stmt X) : poll_eff (result X string)
| LoadCerts : poll_eff (result unit string)
(** [AgentClient::new], and the calls of the agent of a host. *)
| NewClient (id : uuid) (ip : string) (port : Z) : poll_eff (result unit agent_err)
| AskHealth (id : uuid) : poll_eff (result health_data agent_err)
| AskInfo (id : uuid) : poll_eff (result system_info agent_err)
| AskPatches (id : uuid) : poll_eff (result patches_data agent_err)
| AskPackages (id : uuid) : poll_eff (result packages_data agent_err)
| PollClock : poll_eff Z
| PollEvent (id : uuid) (action : audit_action) : poll_eff unit
| SpawnPoll (t : poll_task) : poll_eff unit.

(** [as i32] *)
Definition as_i32 (n : Z) : Z := (n + 2 ^ 31) mod 2 ^ 32 - 2 ^ 31.
(** [as u16] *)
Definition as_u16 (n : Z) : Z := n mod 2 ^ 16.

Section Pollers.
Context (parse_rfc3339 : string -> option Z) (parse_uuid : string -> option uuid).

(** ** The store *)

Definition with_fleet (m : gmap uuid fleet_host) (d : fleet_db) : fleet_db := FleetDb (fd_now d) m (fd_health d) (fd_patches d) (fd_events d).
Definition with_cols (c : health_columns) (h : fleet_host) : fleet_host := FleetHost (fh_ip h) (fh_port h) c (fh_last_patch_at h).

(** [SET health_status = $2, last_health_at = NOW()] *)
Definition set_status (now : Z) (st : host_health_status) (c : health_columns) : health_columns :=
  HealthColumns st (Some now) (hc_agent_version c) (hc_os_family c) (hc_os_name c) (hc_arch c) (hc_crl_status c) (hc_crl_age_seconds c)
    (hc_crl_next_update c) (hc_gpg_key_status c) (hc_gpg_key_expires_at c) (hc_pending_reboot c) (hc_package_db_clean c)
    (hc_consecutive_failures c) (hc_registered_at c).

(** The foreign keys refuse a row of a host that is gone. *)
Definition exec_fleet_stmt {X} (q : fleet_stmt X) (d : fleet_db) : result X string * fleet_db :=
  match q in fleet_stmt Y return result Y string * fleet_db with
  | SelFleet => (Ok (map_to_list (fd_hosts d)), d)
  | SelFleetHost id => (Ok (fd_hosts d !! id), d)
  | InsHealth id st payload =>
      match fd_hosts d !! id with
      | None => (Err "violates foreign key constraint"%string, d)
      | Some _ => (Ok tt, FleetDb (fd_now d) (fd_hosts d) (fd_health d ++ [HealthSample id (fd_now d) st payload]) (fd_patches d) (fd_events d))
      end
  | UpdPolled id st data info failures =>
      (Ok tt, with_fleet (alter (fun h => with_cols (polled_columns parse_rfc3339 (fd_now d) (fh_cols h) data info st failures) h) id (fd_hosts d)) d)
  | UpdStatus id st => (Ok tt, with_fleet (alter (fun h => with_cols (set_status (fd_now d) st (fh_cols h)) h) id (fd_hosts d)) d)
  | UpsertPatches id patches packages n k =>
      match fd_hosts d !! id with
      | None => (Err "violates foreign key constraint"%string, d)
      | Some _ => (Ok tt, FleetDb (fd_now d) (fd_hosts d) (fd_health d) (<[id := PatchRow patches packages n k (fd_now d)]> (fd_patches d)) (fd_events d))
      end
  | UpdLastPatch id =>
      (Ok tt, with_fleet (alter (fun h => FleetHost (fh_ip h) (fh_port h) (fh_cols h) (Some (fd_now d))) id (fd_hosts d)) d)
  end.

Definition fsql {X} (q : fleet_stmt X) : prog poll_eff (result X string) := trigger (FleetSql q).

(** ** The health poller (health_poller.rs) *)

(** What the agent says: the natural status and the data that came with it. *)
Definition ask_agent (id : uuid) (row : fleet_host) : prog poll_eff (host_health_status * option health_data * option system_info) :=
  let! client := trigger (NewClient id (fh_ip row) (as_u16 (fh_port row))) in
  match client with
  | Err _ => Ret (Unreachable, None, None)
  | Ok _ =>
      let! health := trigger (AskHealth id) in
      let '(status, data) :=
        match health with
        | Ok data => (Healthy, Some data)
        | Err ETimeout | Err (EConnect _) => (Unreachable, None)
        | Err _ => (Degraded, None)
        end in
      if bool_decide (status = Unreachable) then Ret (status, data, None)
      else
        let! info := trigger (AskInfo id) in
        Ret (status, data, match info with Ok i => Some i | Err _ => None end)
  end.

(** One poll of one host, on the row that the cycle read. *)
Definition poll_and_store_health (id : uuid) (row : fleet_host) : prog poll_eff host_health_status :=
  let! answer := ask_agent id row in
  let '(natural, data, info) := answer in
  let host := fh_cols row in
  let crl := d ← data; hd_crl_status d in
  let! now := trigger PollClock in
  let effective := apply_crl_health_rules now natural crl (hc_registered_at host) in
  let '(failures, status) := apply_hysteresis natural effective (hc_consecutive_failures host) in
  fsql (InsHealth id natural data) ;;
  let! r := fsql (UpdPolled id status data info failures) in
  match r with
  | Err _ => Ret status
  | Ok _ =>
      for_each (match crl with Some c => crl_audit_events (hc_crl_status host) c | None => [] end) (fun a => trigger (PollEvent id a)) ;;
      Ret status
  end.

(** One tick: a task for every host; their statuses are only counted and logged. *)
Definition health_tick : prog poll_eff unit :=
  let! certs := trigger LoadCerts in
  match certs with
  | Err _ => Ret tt
  | Ok _ =>
      let! rows := fsql SelFleet in
      match rows with
      | Err _ => Ret tt
      | Ok rows => for_each rows (fun r => trigger (SpawnPoll (HealthTask r.1 r.2)))
      end
  end.

(** ** The patch poller (patch_poller.rs) *)

Definition cve_count (patches : list patch) : Z := Z.of_nat (length (filter (fun p => pt_cve_ids p <> []) patches)).

(** [tokio::join!] of the two calls, whose order does not matter. *)
Definition ask_patches (id : uuid) : prog poll_eff (result patches_data agent_err * result packages_data agent_err) :=
  let! patches := trigger (AskPatches id) in
  let! packages := trigger (AskPackages id) in
  Ret (patches, packages).

Definition store_patches (id : uuid) (p : patches_data) (k : packages_data) : prog poll_eff bool :=
  let! r := fsql (UpsertPatches id (pd_patches p) (kd_packages k) (as_i32 (pd_total p)) (as_i32 (cve_count (pd_patches p)))) in
  match r with
  | Err _ => Ret false
  | Ok _ => fsql (UpdLastPatch id) ;; Ret true
  end.

Definition poll_host_patches (id : uuid) (row : fleet_host) : prog poll_eff bool :=
  let! client := trigger (NewClient id (fh_ip row) (as_u16 (fh_port row))) in
  match client with
  | Err _ => Ret false
  | Ok _ =>
      let! answers := ask_patches id in
      match answers with
      | (Ok p, Ok k) => store_patches id p k
      | _ => Ret false
      end
  end.

Definition patch_tick : prog poll_eff unit :=
  let! certs := trigger LoadCerts in
  match certs with
  | Err _ => Ret tt
  | Ok _ =>
      let! rows := fsql SelFleet in
      match rows with
      | Err _ => Ret tt
      | Ok rows => for_each rows (fun r => trigger (SpawnPoll (PatchTask r.1 r.2)))
      end
  end.

(** ** The refresh on demand (refresh_listener.rs) *)

Definition persist_health (id : uuid) (status : host_health_status) (payload : option health_data) : prog poll_eff unit :=
  fsql (InsHealth id status payload) ;;
  fsql (UpdStatus id status) ;;
  Ret tt.

Definition refresh_poll (id : uuid) (row : fleet_host) : prog poll_eff unit :=
  let! client := trigger (NewClient id (fh_ip row) (as_u16 (fh_port row))) in
  match client with
  | Err _ => persist_health id Unreachable None
  | Ok _ =>
      let! health := trigger (AskHealth id) in
      let '(status, data) :=
        match health with
        | Ok data => (Healthy, Some data)
        | Err ETimeout | Err (EConnect _) => (Unreachable, None)
        | Err _ => (Degraded, None)
        end in
      persist_health id status data ;;
      let! answers := ask_patches id in
      match answers with
      | (Ok p, Ok k) => store_patches id p k ;; Ret tt
      | _ => Ret tt
      end
  end.

(** One notification of the channel [refresh_requested]. *)
Definition on_refresh (payload : string) : prog poll_eff unit :=
  match parse_uuid payload with
  | None => Ret tt
  | Some id =>
      let! host := fsql (SelFleetHost id) in
      match host with
      | Ok (Some row) =>
          let! certs := trigger LoadCerts in
          match certs with
          | Err _ => Ret tt
          | Ok _ => trigger (SpawnPoll (RefreshTask id row))
          end
      | _ => Ret tt
      end
  end.

(** ** Together *)

Definition poll_body (t : poll_task) : prog poll_eff unit :=
  match t with
  | HealthTask id row => poll_and_store_health id row ;; Ret tt
  | PatchTask id row => poll_host_patches id row ;; Ret tt
  | RefreshTask id row => refresh_poll id row
  end.
Definition poll_spawned (X : Type) (e : poll_eff X) : list (prog poll_eff unit) :=
  match e with SpawnPoll t => [poll_body t] | _ => [] end.

(** A tick of a poller or a notification. *)
Inductive poll_entry : prog poll_eff unit -> Prop :=
| entry_health : poll_entry health_tick
| entry_patch : poll_entry patch_tick
| entry_refresh payload : poll_entry (on_refresh payload).
End Pollers.

(** ** The daily check of the audit log (audit_verifier.rs) *)

Section Verifier.
Context (sha256_hex : string -> string) (show_json : json -> string) (rfc3339 : Z -> string)
  (jsonb : json -> json) (inet_host : string -> string).

Definition error_details (e : integrity_error) : json :=
  JObj [("row_id", JNum (ie_row e)); ("expected_hash", JStr (ie_expected e)); ("actual_hash", JStr (ie_actual e))]%string.

(** The event that a pass writes; it shows ten errors at most. *)
Definition verified_event (r : integrity_result) (now : Z) : event :=
  Event AuditIntegrityVerified None None (Some "audit_log"%string) None
    (JObj [("intact", JBool (ir_intact r)); ("rows_checked", JNum (ir_rows_checked r)); ("error_count", JNum (Z.of_nat (length (ir_errors r))));
           ("errors", JArr (error_details <$> take 10 (ir_errors r)))]%string) None None now.

Definition verify_once (now : Z) (l : audit_log) : integrity_result * audit_log :=
  let r := verify_integrity sha256_hex show_json rfc3339 l in
  (r, write_audit_row sha256_hex show_json rfc3339 jsonb inet_host (verified_event r now) l).
End Verifier.
