(* ===== verification/PollerFlow.v ===== *)
(** * The pollers: theorems

    What one poll leaves, and that it is what Health.v says; what the statuses
    that the pollers show say of the agents, however the pollers interleave; what
    a refresh on demand does to the hysteresis; and that checking the audit log
    keeps its verdict. *)

From S2P Require Import Prelude Conc SelfUpgrade AuditLog Health Pollers.

Section World.
Context (parse_rfc3339 : string -> option Z) (parse_uuid : string -> option uuid).

(** The agents that ever answer a health request; those that always can be
    reached and never call their revocation list invalid. *)
Context (answers reachable : uuid -> Prop).

Definition shown (id : uuid) (st : host_health_status) (d : fleet_db) : Prop :=
  exists h, fd_hosts d !! id = Some h /\ hc_status (fh_cols h) = st.

(** What the rest of the program does between two effects: time passes, hosts
    come as pending, go, or change in columns but the status. *)
Definition fleet_env (d d1 : fleet_db) : Prop :=
  fd_now d <= fd_now d1 /\ forall id st, shown id st d1 -> st = PendingHealth \/ shown id st d.
Definition fleet_quiet (d d1 : fleet_db) : Prop := d1 = d.

Definition log_poll_event (id : uuid) (a : audit_action) (d : fleet_db) : fleet_db :=
  FleetDb (fd_now d) (fd_hosts d) (fd_health d) (fd_patches d) (fd_events d ++ [(id, a)]).

Definition fleet_step (env : fleet_db -> fleet_db -> Prop) (faulty : Prop) : EffectSem poll_eff fleet_db := fun X e d x d' =>
  exists d1, env d d1 /\
    match e in poll_eff Y return Y -> Prop with
    | FleetSql q => fun x =>
        (x = (exec_fleet_stmt parse_rfc3339 q d1).1 /\ d' = (exec_fleet_stmt parse_rfc3339 q d1).2) \/
        (faulty /\ exists m, x = Err m /\ (d' = d1 \/ d' = (exec_fleet_stmt parse_rfc3339 q d1).2))
    | NewClient id _ _ => fun x => (reachable id -> x = Ok tt) /\ d' = d1
    | AskHealth id => fun x =>
        d' = d1 /\
        match x with
        | Ok data => answers id /\ (reachable id -> hd_crl_status data <> Some "invalid"%string)
        | Err ETimeout | Err (EConnect _) => ~ reachable id
        | Err _ => True
        end
    | PollClock => fun x => x = fd_now d1 /\ d' = d1
    | PollEvent id a => fun _ => d' = log_poll_event id a d1
    | _ => fun _ => d' = d1
    end x.

(** Everything at once, with failing statements; and nobody else. *)
Definition fleet_world : EffectSem poll_eff fleet_db := fleet_step fleet_env True.
Definition fleet_alone : EffectSem poll_eff fleet_db := fleet_step fleet_quiet False.

(** ** One poll is what Health.v says *)

Lemma alter_lookup_insert {A} (f : A -> A) (m : gmap uuid A) i x : m !! i = Some x -> alter f i m = <[i := f x]> m.
Proof using Type. intros Hi. rewrite <- (insert_id m i x) at 1 by done. by rewrite alter_insert_eq. Qed.

#[local] Notation awp := (@wp _ _ fleet_alone _).

Lemma awp_fsql {X} (q : fleet_stmt X) Q d :
  Q (exec_fleet_stmt parse_rfc3339 q d).1 (exec_fleet_stmt parse_rfc3339 q d).2 -> awp (fsql q) Q d.
Proof using Type. intros HQ x d' (d1 & -> & [[-> ->]|[[] _]]). exact HQ. Qed.

(** The answers of a poll, as Health.v takes them. *)
Lemma ask_agent_alone id row d :
  awp (ask_agent id row) (fun r d' => d' = d /\ exists ans, pa_update ans = Ok tt /\ r = natural_status ans) d.
Proof using Type.
  unfold ask_agent. intros c d1 (d0 & -> & _ & ->). cbn [bind]. destruct c as [[]|e].
  2:{ split; [done|]. by exists (PollAnswers (Err e) (Err e) None (Ok tt)). }
  intros x d2 (d0 & -> & -> & _). cbn [bind]. destruct x as [data|err].
  - rewrite bool_decide_eq_false_2 by done. intros info d3 (d0 & -> & ->). split; [done|].
    exists (PollAnswers (Ok tt) (Ok data) (match info with Ok i => Some i | Err _ => None end) (Ok tt)). by destruct info.
  - enough (forall st, st = Unreachable \/ st = Degraded ->
      natural_status (PollAnswers (Ok tt) (Err err) None (Ok tt)) = (st, None, None) ->
      (st = Degraded -> forall i, natural_status (PollAnswers (Ok tt) (Err err) i (Ok tt)) = (st, None, i)) ->
      awp (if bool_decide (st = Unreachable) then Ret (st, None, None)
           else let! info := trigger (AskInfo id) in Ret (st, None, match info with Ok i => Some i | Err _ => None end))
        (fun r d' => d' = d /\ exists ans, pa_update ans = Ok tt /\ r = natural_status ans) d) as Hst
      by (destruct err; apply Hst; auto; intros [=]).
    intros st [-> | ->] Hn Hi; cbn -[natural_status].
    + split; [done|]. by eexists (PollAnswers (Ok tt) (Err err) None (Ok tt)).
    + intros info d3 (d0 & -> & ->). split; [done|]. eexists (PollAnswers (Ok tt) (Err err) _ (Ok tt)). split; [done|]. by rewrite Hi.
Qed.

Lemma events_alone id actions d :
  awp (for_each actions (fun a => trigger (PollEvent id a)))
    (fun _ d' => d' = FleetDb (fd_now d) (fd_hosts d) (fd_health d) (fd_patches d) (fd_events d ++ ((id,.) <$> actions))) d.
Proof using Type.
  revert d. induction actions as [|a actions IH]; intros d; [by destruct d; cbn; rewrite app_nil_r|].
  intros [] d1 (d0 & -> & ->). eapply wp_mono; [|apply IH]. intros [] d2 ->. unfold log_poll_event. cbn. by rewrite <- (assoc_L (++)).
Qed.

(** A poll of a host that is not disturbed is the poll of Health.v: its status
    and row, with the natural status and what the agent said added to the history,
    and the events of the revocation list logged; no other host or table changes. *)
Theorem poll_refines id row d :
  fd_hosts d !! id = Some row ->
  awp (poll_and_store_health id row) (fun status d' => exists ans,
    let '(status', cols, events) := poll_host_health parse_rfc3339 (fd_now d) (fh_cols row) ans in
    status = status' /\
    d' = FleetDb (fd_now d) (<[id := with_cols cols row]> (fd_hosts d))
           (fd_health d ++ [HealthSample id (fd_now d) (natural_status ans).1.1 (natural_status ans).1.2])
           (fd_patches d) (fd_events d ++ ((id,.) <$> events))) d.
Proof using Type.
  intros Hrow. unfold poll_and_store_health. apply wp_bind. eapply wp_mono; [|apply ask_agent_alone].
  intros r d1 (-> & ans & Hup & ->). destruct (natural_status ans) as [[natural data] info] eqn:Hn.
  intros now d1 (d0 & -> & -> & ->). cbn [bind].
  destruct (apply_hysteresis natural _ _) as [failures status] eqn:Hh.
  apply wp_bind, awp_fsql. cbn [exec_fleet_stmt]. rewrite Hrow. cbn [snd].
  apply wp_bind, awp_fsql. cbn [exec_fleet_stmt fst snd with_fleet fd_hosts fd_now fd_health fd_patches fd_events].
  apply wp_bind. eapply wp_mono; [|apply events_alone]. intros [] d2 ->. exists ans.
  unfold poll_host_health. rewrite Hn, Hh, Hup. split; [done|]. cbn [fd_now fd_hosts fd_health fd_patches fd_events]. f_equal.
  by rewrite (alter_lookup_insert _ _ _ row).
Qed.
(** ** What a shown status says *)

Definition told (id : uuid) (st : host_health_status) : Prop :=
  (st = Healthy -> answers id) /\ (st = Unreachable -> ~ reachable id).
Definition truthful (d : fleet_db) : Prop := forall id st, shown id st d -> told id st.

(** The updates of a status say what the agent has told. *)
Definition poll_ok (X : Type) (e : poll_eff X) : Prop :=
  match e with
  | FleetSql (UpdPolled id st _ _ _) | FleetSql (UpdStatus id st) => told id st
  | _ => True
  end.
#[local] Hint Extern 1 (poll_ok _ _) => exact I : only.

Lemma env_truthful d d1 : fleet_env d d1 -> truthful d -> truthful d1.
Proof using Type. intros [_ He] Hd id st [-> | Hs]%He; [by split|by apply Hd]. Qed.

Lemma alter_truthful f id d :
  (forall h, told id (hc_status (fh_cols (f h)))) \/ (forall h, hc_status (fh_cols (f h)) = hc_status (fh_cols h)) ->
  truthful d -> truthful (with_fleet (alter f id (fd_hosts d)) d).
Proof using Type.
  intros Hf Hd id' st (h & Hh & <-). cbn [with_fleet fd_hosts] in Hh. apply lookup_alter_Some in Hh as [(<- & h0 & Hh0 & ->)|[_ Hh]].
  - destruct Hf as [Hf|Hf]; [apply Hf|]. rewrite Hf. apply Hd. by exists h0.
  - apply Hd. by exists h.
Qed.

Lemma exec_truthful {X} (q : fleet_stmt X) d : poll_ok _ (FleetSql q) -> truthful d -> truthful (exec_fleet_stmt parse_rfc3339 q d).2.
Proof using Type.
  intros Hq Hd. destruct q; cbn [exec_fleet_stmt snd]; try exact Hd; try (destruct (fd_hosts d !! id); exact Hd); apply alter_truthful; try exact Hd.
  - by left.
  - by left.
  - by right.
Qed.

Lemma poll_keeps : @keeps _ _ fleet_world poll_ok truthful.
Proof using Type.
  intros X e d x d' He Hd (d1 & Henv & Hx). pose proof (env_truthful d d1 Henv Hd) as H1.
  destruct e; try (by rewrite Hx); try (by destruct Hx as [_ ->]); try (by destruct Hx as [-> _]).
  destruct Hx as [[_ ->]|(_ & m & _ & [-> | ->])]; [by apply exec_truthful|done|by apply exec_truthful].
Qed.

#[local] Notation pgpost := (@gpost _ _ fleet_world _ poll_ok truthful).

Lemma poll_quiet {A} (p : prog poll_eff A) : only poll_ok p -> pgpost p (fun _ => True).
Proof using Type. apply only_gpost, poll_keeps. Qed.

Lemma new_client_post id ip port : pgpost (trigger (NewClient id ip port)) (fun c => reachable id -> c = Ok tt).
Proof using Type. apply gpost_trigger; [apply poll_keeps|done|]. by intros s x s' _ (d1 & _ & Hc & _). Qed.

(** A health request: the status that health_poller.rs and refresh_listener.rs
    read off the answer. *)
Definition status_of (r : result health_data agent_err) : host_health_status * option health_data :=
  match r with
  | Ok data => (Healthy, Some data)
  | Err ETimeout | Err (EConnect _) => (Unreachable, None)
  | Err _ => (Degraded, None)
  end.
Definition told_data (id : uuid) (data : option health_data) : Prop :=
  forall h, data = Some h -> answers id /\ (reachable id -> hd_crl_status h <> Some "invalid"%string).

Lemma ask_health_post id :
  pgpost (trigger (AskHealth id)) (fun r => told id (status_of r).1 /\ told_data id (status_of r).2).
Proof using Type.
  apply gpost_trigger; [apply poll_keeps|done|]. intros s x s' _ (d1 & _ & _ & Hx). unfold told, told_data.
  destruct x as [h|[]]; cbn; split_and!; try done; naive_solver.
Qed.

Lemma ask_agent_post id row :
  pgpost (ask_agent id row) (fun r => let '(natural, data, _) := r in told id natural /\ told_data id data).
Proof using Type.
  unfold ask_agent. eapply gpost_bind; [apply new_client_post|]. intros [[]|e] Hc.
  2:{ split; [|done]. split; [done|]. intros _ Hr. by specialize (Hc Hr). }
  eapply gpost_bind; [apply ask_health_post|]. intros r Hr. cbn beta in Hr. fold (status_of r). destruct (status_of r) as [st data]. case_bool_decide; [exact Hr|].
  eapply gpost_bind; [by apply poll_quiet, only_trigger|]. by intros info _.
Qed.

(** The rules of the revocation list and the hysteresis say no more. *)
Lemma rules_told id now natural data row failures :
  told id natural -> told_data id data ->
  told id (apply_hysteresis natural (apply_crl_health_rules now natural (d ← data; hd_crl_status d) row) failures).2.
Proof using Type.
  intros Hn Hd. set (crl := d ← data; hd_crl_status d).
  assert (told id (apply_crl_health_rules now natural crl row)) as He.
  { unfold apply_crl_health_rules. destruct crl as [c|] eqn:Hc; [|done]. destruct (String.eqb_spec c "invalid") as [->|].
    - split; [done|]. intros _ Hr. destruct data as [h|]; [|done]. by apply (proj2 (Hd h eq_refl)).
    - repeat case_match; try done; by split. }
  unfold apply_hysteresis. cbn [snd]. repeat case_match; done.
Qed.

Lemma events_only {A} (actions : list A) (f : A -> prog poll_eff unit) : (forall a, only poll_ok (f a)) -> only poll_ok (for_each actions f).
Proof using Type. intros Hf. induction actions as [|a actions IH]; [done|]. apply only_bind; [apply Hf|done]. Qed.

Lemma store_patches_quiet id p k : only poll_ok (store_patches id p k).
Proof using Type. unfold store_patches, fsql. only_auto. Qed.
#[local] Hint Resolve store_patches_quiet : only.

Lemma persist_gsafe id st data : told id st -> pgpost (persist_health id st data) (fun _ => True).
Proof using Type. intros Hst. apply poll_quiet. unfold persist_health, fsql. repeat (split; [done|intros]). done. Qed.

Lemma task_truthful t : pgpost (poll_body t) (fun _ => True).
Proof using Type.
  destruct t as [id row|id row|id row]; cbn [poll_body].
  - unfold poll_and_store_health. eapply gpost_bind; [|done]. eapply gpost_bind; [apply ask_agent_post|].
    intros [[natural data] info] [Hn Hd]. eapply gpost_bind; [by apply poll_quiet, only_trigger|]. intros now _.
    pose proof (rules_told id now natural data (hc_registered_at (fh_cols row)) (hc_consecutive_failures (fh_cols row)) Hn Hd) as Hst.
    destruct (apply_hysteresis natural _ _) as [failures st]. cbn [snd] in Hst. apply poll_quiet. unfold fsql.
    split; [done|]. intros ?. split; [exact Hst|]. intros r. cbn [bind]. destruct r as [[]|e]; [|exact I]. apply only_bind; [by apply events_only|done].
  - eapply gpost_bind; [|done]. apply poll_quiet. unfold poll_host_patches, ask_patches. only_auto.
  - unfold refresh_poll. eapply gpost_bind; [apply new_client_post|]. intros [[]|e] Hc.
    2:{ apply persist_gsafe. split; [done|]. intros _ Hr. by specialize (Hc Hr). }
    eapply gpost_bind; [apply ask_health_post|]. intros r [Hr _]. fold (status_of r). destruct (status_of r) as [st data].
    eapply gpost_bind; [by apply persist_gsafe|]. intros _ _. apply poll_quiet. unfold ask_patches. only_auto.
Qed.

Lemma entry_truthful p : poll_entry parse_uuid p -> pgpost p (fun _ => True).
Proof using Type.
  intros Hp. apply poll_quiet. destruct Hp; unfold health_tick, patch_tick, on_refresh, fsql.
  - split; [done|]. intros [[]|]; [|done]. split; [done|]. intros [rows|]; [|done]. by apply events_only.
  - split; [done|]. intros [[]|]; [|done]. split; [done|]. intros [rows|]; [|done]. by apply events_only.
  - destruct (parse_uuid payload); [|done]. only_auto.
Qed.

(** C34. The statuses that the pollers show are true to the agents: in every
    interleaving of ticks, refreshes and their tasks, with failing statements and
    the rest of the program at work, a host is shown as healthy only if its agent
    has answered a health request, and as unreachable only if it could not be
    reached or called its revocation list invalid. *)
Theorem shown_status_true d d' ts :
  truthful d ->
  rtc (@cstep _ _ fleet_world _ poll_spawned (poll_entry parse_uuid)) (d, []) (d', ts) ->
  forall id, (shown id Healthy d' -> answers id) /\ (reachable id -> ~ shown id Unreachable d').
Proof using Type.
  intros Hd Hr.
  destruct (@gsafe_reachable_spawn _ _ fleet_world _ poll_spawned (poll_entry parse_uuid) poll_ok truthful (d, []) (d', ts)) as [Hd' _];
    [|by intros p Hp; eapply gpost_gsafe, entry_truthful|exact Hr|exact Hd|by constructor|].
  - intros X e _. destruct e; cbn [poll_spawned]; try constructor; [|constructor]. eapply gpost_gsafe, task_truthful.
  - intros id. split.
    + intros Hs. by destruct (Hd' id _ Hs) as [Ha _]; apply Ha.
    + intros Hreach Hs. by destruct (Hd' id _ Hs) as [_ Hu]; apply Hu.
Qed.

(** ** A refresh and the hysteresis *)

(** The agent of every host times out, and nobody else acts. *)
Definition fleet_silent : EffectSem poll_eff fleet_db := fun X e d x d' =>
  fleet_alone X e d x d' /\
  match e in poll_eff Y return Y -> Prop with
  | NewClient _ _ _ => fun x => x = Ok tt
  | AskHealth _ => fun x => x = Err ETimeout
  | AskPatches _ => fun x => x = Err ETimeout
  | _ => fun _ => True
  end x.
#[local] Notation qwp := (@wp _ _ fleet_silent _).

Lemma qwp_fsql {X} (q : fleet_stmt X) Q d :
  Q (exec_fleet_stmt parse_rfc3339 q d).1 (exec_fleet_stmt parse_rfc3339 q d).2 -> qwp (fsql q) Q d.
Proof using Type. intros HQ x d' [(d1 & -> & [[-> ->]|[[] _]]) _]. exact HQ. Qed.

(** A refresh does not count failures: one time-out shows a healthy host as
    unreachable, and the next time-out, that of the poller, as degraded. *)
Theorem refresh_bypasses_hysteresis id row d :
  fd_hosts d !! id = Some row -> hc_consecutive_failures (fh_cols row) = 0 ->
  qwp (refresh_poll id row) (fun _ d1 =>
    shown id Unreachable d1 /\
    forall row1, fd_hosts d1 !! id = Some row1 -> qwp (poll_and_store_health id row1) (fun _ d2 => shown id Degraded d2) d1) d.
Proof using Type.
  intros Hrow Hf. unfold refresh_poll. intros x d1 [(d0 & -> & _ & ->) ->]. cbn [bind]. intros x d1 [(d0 & -> & -> & _) ->]. cbn [bind].
  unfold persist_health. apply wp_bind, wp_bind, qwp_fsql. cbn [exec_fleet_stmt]. rewrite Hrow. cbn [snd].
  apply wp_bind, qwp_fsql. cbn [exec_fleet_stmt snd with_fleet fd_hosts fd_now fd_health fd_patches fd_events wp].
  rewrite (alter_lookup_insert _ _ _ row) by done.
  intros x d1 [(d0 & -> & ->) ->]. cbn [bind]. intros k d1 [(d0 & -> & ->) _]. cbn [bind wp]. split.
  - eexists. cbn [with_fleet fd_hosts]. by rewrite lookup_insert_eq.
  - intros row1. cbn [with_fleet fd_hosts]. rewrite lookup_insert_eq. intros [= <-].
    intros x d1 [(d0 & -> & _ & ->) ->]. cbn [bind]. intros x d1 [(d0 & -> & -> & _) ->]. cbn [bind].
    rewrite bool_decide_eq_true_2 by done. cbn [bind]. intros now d1 [(d0 & -> & -> & ->) _].
    cbn [bind with_cols fh_cols set_status hc_consecutive_failures mbind option_bind]. rewrite Hf. cbn -[exec_fleet_stmt fsql].
    apply wp_bind, qwp_fsql. cbn [exec_fleet_stmt with_fleet fd_hosts]. rewrite lookup_insert_eq. cbn [snd].
    apply wp_bind, qwp_fsql. cbn [exec_fleet_stmt fst snd with_fleet fd_hosts]. cbn. eexists.
    cbn [with_fleet fd_hosts]. rewrite lookup_alter_eq, lookup_insert_eq. split; [done|]. cbn. by rewrite bool_decide_eq_true_2.
Qed.
End World.

(** ** The check of the audit log *)

Section Verifier.
Context (sha256_hex : string -> string) (show_json : json -> string) (rfc3339 : Z -> string)
  (jsonb : json -> json) (inet_host : string -> string).

Lemma verify_rows_app prev l1 l2 :
  verify_rows sha256_hex show_json rfc3339 prev (l1 ++ l2) =
  verify_rows sha256_hex show_json rfc3339 prev l1 ++ verify_rows sha256_hex show_json rfc3339 (end_hash prev l1) l2.
Proof.
  revert prev. induction l1 as [|r l1 IH]; intros prev; [done|]. cbn [app verify_rows]. rewrite IH, !(assoc_L (++)). do 2 f_equal.
  unfold end_hash. destruct l1; [done|]. cbn. by destruct (last _) eqn:E; [|apply last_None in E].
Qed.

(** A pass over the audit log adds its event and nothing else, and neither hides
    nor repairs nor breaks anything: the next pass finds the same errors, in one
    row more. *)
Theorem verification_pass now l :
  columns_keep show_json jsonb inet_host (verified_event (verify_integrity sha256_hex show_json rfc3339 l) now) ->
  let '(r, l') := verify_once sha256_hex show_json rfc3339 jsonb inet_host now l in
  let r' := verify_integrity sha256_hex show_json rfc3339 l' in
  ir_errors r' = ir_errors r /\ ir_intact r' = ir_intact r /\ ir_rows_checked r' = ir_rows_checked r + 1 /\
  exists row, al_rows l' = al_rows l ++ [row] /\ a_event row = stored jsonb inet_host (verified_event r now).
Proof.
  intros Hk. unfold verify_once, write_audit_row. set (r := verify_integrity _ _ _ l) in *.
  unfold verify_integrity. cbn [al_rows ir_errors ir_intact ir_rows_checked].
  rewrite verify_rows_app. cbn [verify_rows a_prev_hash a_row_hash a_event].
  fold (end_hash "" (al_rows l)). unfold last_hash. fold (end_hash "" (al_rows l)).
  rewrite (stored_chain_hash sha256_hex show_json rfc3339 jsonb inet_host _ _ Hk).
  rewrite !String.eqb_refl, !app_nil_r.
  split_and!; [done|done|rewrite length_app; cbn; lia|by eexists].
Qed.
End Verifier.

(** ** At work

    Two hosts, of which the second never answers; a tick, its tasks, and a
    refresh of the second host that no client can be built for. *)

Definition fleet_row : fleet_host :=
  FleetHost "10.0.0.1" 12443 (HealthColumns PendingHealth None None None None None None None None None None false true 0 0) None.
Definition demo_fleet : fleet_db := FleetDb 0 {[1%N := fleet_row; 2%N := fleet_row]} [] ∅ [].

Definition fleet_answers (X : Type) (e : poll_eff X) (d : fleet_db) : X * fleet_db :=
  match e in poll_eff Y return Y * fleet_db with
  | FleetSql q => exec_fleet_stmt (fun _ => None) q d
  | LoadCerts => (Ok tt, d)
  | NewClient _ _ _ => (Ok tt, d)
  | AskHealth id => (if bool_decide (id = 1%N) then Ok (HealthData "1.0.0" (Some "valid"%string) None None None None) else Err ETimeout, d)
  | AskInfo _ => (Err ETimeout, d)
  | AskPatches _ => (Ok (PatchesData [] 0 0 false), d)
  | AskPackages _ => (Ok (PackagesData [] 0), d)
  | PollClock => (fd_now d, d)
  | PollEvent id a => (tt, log_poll_event id a d)
  | SpawnPoll _ => (tt, d)
  end.

Definition demo_uuid (s : string) : option uuid := if String.eqb s "2" then Some 2%N else None.
Definition demo_reachable (id : uuid) : Prop := id = 1%N.

Lemma fleet_answers_ok X (e : poll_eff X) d :
  fleet_world (fun _ => None) demo_reachable demo_reachable X e d (fleet_answers X e d).1 (fleet_answers X e d).2.
Proof.
  exists d. split; [split; [lia|by right]|]. destruct e; try done; try (by left).
  cbn. split; [done|]. case_bool_decide; [by split|]. by intros ?.
Qed.

Definition fleet_run : option (fleet_db * list (prog poll_eff unit)) :=
  interleave poll_spawned fleet_answers (replicate 4 0 ++ replicate 3 1 ++ [4; 2; 3; 4; 2; 3; 4; 2; 3; 4; 2; 3; 2; 3; 3; 3])%nat
    (demo_fleet, [health_tick; on_refresh demo_uuid "2"]).

Lemma fleet_run_reachable d' ts : fleet_run = Some (d', ts) ->
  rtc (@cstep _ _ (fleet_world (fun _ => None) demo_reachable demo_reachable) _ poll_spawned (poll_entry demo_uuid)) (demo_fleet, []) (d', ts).
Proof.
  intros Hrun. etrans; [apply (starts_reachable poll_spawned _ demo_fleet [health_tick; on_refresh demo_uuid "2"] []); repeat (constructor; [constructor|]); constructor|].
  eapply (interleave_reachable poll_spawned _ fleet_answers); [exact fleet_answers_ok|exact Hrun].
Qed.

Lemma shown_status_true_witness :
  exists d' ts, fleet_run = Some (d', ts) /\ shown 1%N Healthy d' /\ shown 2%N Degraded d' /\
    forall id, (shown id Healthy d' -> demo_reachable id) /\ (demo_reachable id -> ~ shown id Unreachable d').
Proof.
  assert (match fleet_run with
          | Some (d, _) => (hc_status ∘ fh_cols <$> fd_hosts d !! 1%N, hc_status ∘ fh_cols <$> fd_hosts d !! 2%N) = (Some Healthy, Some Degraded)
          | None => False
          end) as Hst by (vm_compute; reflexivity).
  pose proof fleet_run_reachable as Hreach. destruct fleet_run as [[d' ts]|]; [|destruct Hst]. exists d', ts. split; [reflexivity|]. injection Hst as H1 H2.
  apply fmap_Some in H1 as (h1 & H1 & E1). apply fmap_Some in H2 as (h2 & H2 & E2).
  split; [by exists h1|]. split; [by exists h2|].
  apply (shown_status_true (fun _ => None) demo_uuid demo_reachable demo_reachable demo_fleet d' ts).
  - intros id st (h & Hh & <-). vm_compute in Hh. split; intros Hst; exfalso; revert Hst; revert Hh; by repeat case_match; intros [= <-].
  - by apply Hreach.
Defined.
