(* ===== verification/Scenario.v ===== *)
(** * A concrete database and concrete agents

    The small configuration at which the witnesses of the job engine's theorems
    are evaluated: two hosts, a job on both of them, and agents that accept
    every request and whose job status is a parameter. *)

From S2P Require Import Prelude Conc Schema Windows Statements SelfUpgrade JobExecutor.

Definition noon : Z := 12 * hour_us.

Definition host_a : uuid := 1%N.
Definition host_b : uuid := 2%N.
Definition job_1 : uuid := 10%N.
Definition row_a : uuid := 100%N.
Definition row_b : uuid := 101%N.
Definition user_1 : uuid := 7%N.

Definition demo_host (paused clean : bool) : host_row :=
  HostRow "10.0.0.1" 12443 "a.example" (Some "1.0.0"%string) paused clean.

Definition demo_job (kind : job_kind) (st : job_status) : patch_job :=
  PatchJob kind st (Some user_1) None None true (JArr [JStr "curl"]) "" None true 0 0 None None.

Definition demo_row (host : uuid) (st : job_status) (retries : Z) (agent_job : option string) : patch_job_host :=
  PatchJobHost job_1 host st agent_job retries "" None None None (Some 0) None.

(** A job on the two hosts, whose entries have the statuses [sa] and [sb]. *)
Definition demo_db (kind : job_kind) (st sa sb : job_status) : db :=
  Db noon {[job_1 := demo_job kind st]}
     (<[row_a := demo_row host_a sa 0 None]> {[row_b := demo_row host_b sb 0 None]})
     (<[host_a := demo_host false true]> {[host_b := demo_host true true]}) ∅ ∅ ∅ [].

(** The agents accept everything; [status] is what they say of a job. *)
Definition demo_world (status : result agent_job_status agent_err) (X : Type) (e : eff X) (d : db) : X * db :=
  match e in eff Y return Y * db with
  | Sql q => exec_stmt q d
  | UtcNow => (db_now d, d)
  | Sleep _ => (tt, d)
  | LoadCerts => (Ok tt, d)
  | NewClient _ => (Ok tt, d)
  | ApplyPatches _ _ _ _ => (Ok "agent-job"%string, d)
  | RebootHost _ => (Ok "agent-reboot"%string, d)
  | UpdatePackage _ _ => (Ok "agent-upgrade"%string, d)
  | JobStatusOf _ _ => (status, d)
  | Health _ => (Ok "1.0.0"%string, d)
  | LogEvent _ _ => (tt, d)
  | Spawn _ => (tt, d)
  end.

Definition agent_says (st : string) : result agent_job_status agent_err :=
  Ok (AgentJob st (Some "done"%string) None).
