(* ===== verification/JobSafety.v ===== *)
(** * What every interleaving of the job engine keeps

    The tasks of the worker and the job routes of the web server share the
    tables [patch_jobs] and [patch_job_hosts] without any lock.  The
    configurations reachable by any interleaving of their effects, with faulty
    statements, any agent answers and any number of requests, keep the
    invariants of this file: they come from the guards of the statements and
    from what each task knows of the row it read. *)

From S2P Require Import Prelude Conc Schema Windows Statements SelfUpgrade JobExecutor WsRelay.
From S2P Require Import Rbac Scheduler JobsApi Upgrades Scenario.

(** ** The meaning of the effects

    Before an effect the other components may have changed the tables they own
    ([env]).  A faulty statement answers an error, its change applied or not;
    the worker's clock is the database's, unless faults are considered. *)
Definition eff_step (env : db -> db -> Prop) (faulty : Prop) (X : Type) (e : eff X) (s : db) (x : X)
    (s' : db) : Prop :=
  exists s1, env s s1 /\
    match e in eff Y return Y -> Prop with
    | Sql q => fun x =>
        (x = (exec_stmt q s1).1 /\ s' = (exec_stmt q s1).2) \/
        (faulty /\ exists m, x = Err m /\ (s' = s1 \/ s' = (exec_stmt q s1).2))
    | UtcNow => fun t => s' = s1 /\ (faulty \/ t = db_now s1)
    | _ => fun _ => s' = s1
    end x.

(** The pollers, the enrolment and the window routes write the other tables. *)
Definition other_writers (s s1 : db) : Prop :=
  db_jobs s1 = db_jobs s /\ db_pjhs s1 = db_pjhs s /\ db_now s <= db_now s1.

(** A task that runs alone on a database without faults: only time passes. *)
Definition clock_only (s s1 : db) : Prop := exists t, db_now s <= t /\ s1 = set_now t s.

Definition concurrent : EffectSem eff db := eff_step other_writers True.
Definition alone : EffectSem eff db := eff_step clock_only False.

(** ** The tasks *)
Section Tasks.
Context (cfg : worker_config) (show_time : Z -> string) (parse_event : string -> option ws_event).

Definition discard {A} (p : prog eff A) : prog eff unit := bind p (fun _ => skip).

(** Body of a spawned task.  Sending e-mails does not touch the tables; a relay
    starts as an entry task, with the frames it will receive. *)
Definition task_body (t : task) : list (prog eff unit) :=
  match t with
  | TProcessJob job => [process_job job]
  | TExecuteHostJob job host id => [execute_host_job job host id]
  | TPollSingle row => [poll_single_host cfg row]
  | TJobEmails _ _ _ _ => []
  | TRelay _ => []
  end.

Definition spawned (X : Type) (e : eff X) : list (prog eff unit) :=
  match e with Spawn t => task_body t | _ => [] end.

(** What may start at any time: the timers, a notification, a relay on any
    stream, and the requests. *)
Inductive entry : prog eff unit -> Prop :=
| entry_scan : entry (periodic_scan show_time cfg)
| entry_notify job : entry (process_job job)
| entry_scheduler : entry scheduler_tick
| entry_relay_tick active : entry (discard (ws_relay_tick active))
| entry_relay row frames : entry (relay_one_job parse_event row frames)
| entry_relay_poll n row a last : entry (relay_one_job_poll n cfg row a last)
| entry_create auth req : entry (discard (create_job auth req))
| entry_cancel auth id : entry (discard (cancel_job auth id))
| entry_rollback auth id : entry (discard (rollback_job auth id))
| entry_upgrade auth win im valid : entry (discard (create_upgrade_jobs auth win im valid)).

(** The configurations reachable from a database on which no task runs. *)
Definition reachable (d d' : db) : Prop :=
  exists ts, rtc (@cstep _ _ concurrent _ spawned entry) (d, []) (d', ts).
End Tasks.

(** ** The invariants *)

(** The outcome of a host entry: everything but the agent's job id. *)
Definition outcome (r : patch_job_host) : patch_job_host :=
  PatchJobHost (h_job r) (h_host r) (h_status r) None (h_retry_count r) (h_output r) (h_error r)
    (h_retry_next_at r) (h_last_error r) (h_started_at r) (h_completed_at r).

(** [r'] may follow [r]: the entry is of the same job and host, and what
    was terminal has the same outcome. *)
Definition row_follows (r r' : patch_job_host) : Prop :=
  h_job r' = h_job r /\ h_host r' = h_host r /\
  (terminal (h_status r) = true -> outcome r' = outcome r).

Definition retries_bounded (d : db) : Prop :=
  forall id r, db_pjhs d !! id = Some r -> 0 <= h_retry_count r <= 3.

(** Referential integrity: each entry has its job, at most one entry per job
    and host, and at most one active automatic job per window and host. *)
Definition entries_wf (d : db) : Prop :=
  (forall id r, db_pjhs d !! id = Some r -> is_Some (db_jobs d !! h_job r)) /\
  (forall id1 id2 r1 r2, db_pjhs d !! id1 = Some r1 -> db_pjhs d !! id2 = Some r2 ->
     h_job r1 = h_job r2 -> h_host r1 = h_host r2 -> id1 = id2) /\
  auto_index_ok (db_jobs d) = true.

(** A statement sets a retry counter that is in bounds. *)
Definition stmt_ok {X} (q : stmt X) : Prop :=
  match q with UpdPending _ n _ _ => 0 <= n <= 3 | _ => True end.

(** The retry counter of an updated entry. *)
Definition retry_kept (bounded : Prop) (r r' : patch_job_host) : Prop :=
  bounded -> h_retry_count r' = h_retry_count r \/ 0 <= h_retry_count r' <= 3.

(** What a statement may do to the two job tables. *)
Inductive change (bounded : Prop) (d d' : db) : Prop :=
| change_rows :
    db_jobs d' = db_jobs d -> dom (db_pjhs d') = dom (db_pjhs d) ->
    (forall id r r', db_pjhs d !! id = Some r -> db_pjhs d' !! id = Some r' ->
       row_follows r r' /\ retry_kept bounded r r') ->
    change bounded d d'
| change_job :
    db_pjhs d' = db_pjhs d -> dom (db_jobs d) ⊆ dom (db_jobs d') -> auto_index_ok (db_jobs d') = true ->
    change bounded d d'
| new_job jobs :
    db_pjhs d' = db_pjhs d -> jobs = db_jobs d' -> dom (db_jobs d) ⊆ dom jobs ->
    (auto_index_ok (db_jobs d) = true -> auto_index_ok jobs = true) -> change bounded d d'
| new_entry id job host :
    db_jobs d' = db_jobs d -> db_pjhs d !! id = None ->
    db_pjhs d' = <[id := new_pjh job host]> (db_pjhs d) -> is_Some (db_jobs d !! job) ->
    count_where (of_pair job host) (db_pjhs d) <= 0 -> change bounded d d'
| new_auto id job host j :
    db_pjhs d !! id = None -> db_jobs d !! job = None ->
    db_jobs d' = <[job := j]> (db_jobs d) -> auto_index_ok (db_jobs d') = true ->
    db_pjhs d' = <[id := new_pjh job host]> (db_pjhs d) -> change bounded d d'.

(** ** Statements *)

Lemma row_follows_refl r : row_follows r r.
Proof. done. Qed.

Lemma change_refl b d : change b d d.
Proof.
  apply change_rows; [done..|]. intros id r r' Hr Hr'. simplify_eq. split; [done|]. by left.
Qed.

(** An update of some of the rows. *)
Lemma change_update (b : Prop) d sel (f : patch_job_host -> patch_job_host) m :
  (forall k, m !! k = (fun r => if sel k r : bool then f r else r) <$> db_pjhs d !! k) ->
  (forall k r, sel k r = true -> row_follows r (f r) /\ retry_kept b r (f r)) ->
  change b d (set_pjhs m d).
Proof.
  intros Hm Hf. apply change_rows; simpl; [done| |].
  - apply set_eq. intros k. rewrite !elem_of_dom, Hm. by rewrite fmap_is_Some.
  - intros id r r' Hr. rewrite Hm, Hr. simpl. intros [= <-].
    destruct (sel id r) eqn:Hs; [by apply (Hf id)|]. split; [done|]. by left.
Qed.

Lemma change_update_one (b : Prop) d id (g : patch_job_host -> bool) f :
  (forall r, g r = true -> row_follows r (f r) /\ retry_kept b r (f r)) ->
  change b d (on_pjhs (update_one id g f) d).2.
Proof.
  intros Hf. unfold on_pjhs. pose proof (update_one_lookup id g f (db_pjhs d)) as Hl.
  destruct (update_one id g f (db_pjhs d)) as [n m]; simpl in *.
  eapply (change_update b d (fun k r => bool_decide (k = id) && g r) f).
  - intros k. rewrite Hl. by destruct (db_pjhs d !! k).
  - intros k r. rewrite andb_true_iff. intros [_ Hg]. auto.
Qed.

Lemma change_update_where (b : Prop) d (g : patch_job_host -> bool) f :
  (forall r, g r = true -> row_follows r (f r) /\ retry_kept b r (f r)) ->
  change b d (on_pjhs (update_where g f) d).2.
Proof.
  intros Hf. unfold on_pjhs. eapply (change_update b d (fun _ r => g r) f); [|auto].
  intros k. by rewrite <- update_where_lookup.
Qed.

Lemma change_writes_jobs {X} (b : Prop) (d : db) (xd : X * db) :
  db_pjhs xd.2 = db_pjhs d -> dom (db_jobs d) ⊆ dom (db_jobs xd.2) ->
  change b d (writes_jobs xd d).2.
Proof.
  intros Hp Hd. unfold writes_jobs. destruct (auto_index_ok (db_jobs xd.2)) eqn:Hi; simpl.
  - by apply change_job.
  - apply change_refl.
Qed.

Lemma on_jobs_update id g f d :
  db_pjhs (on_jobs (update_one id g f) d).2 = db_pjhs d /\
  dom (db_jobs d) ⊆ dom (db_jobs (on_jobs (update_one id g f) d).2).
Proof.
  unfold on_jobs. pose proof (update_one_lookup id g f (db_jobs d)) as Hl.
  destruct (update_one id g f (db_jobs d)) as [n m]; simpl in *. split; [done|].
  intros k. rewrite !elem_of_dom, Hl. by destruct (db_jobs d !! k).
Qed.

Lemma auto_index_insert_fresh job j m :
  m !! job = None -> active_auto_key j = None -> auto_index_ok m = true ->
  auto_index_ok (<[job := j]> m) = true.
Proof.
  unfold auto_index_ok. rewrite !bool_decide_eq_true. intros Hf Hk Hm.
  rewrite (map_to_list_insert m job j Hf). simpl. by rewrite Hk.
Qed.

Lemma fresh_dom {A} (m : gmap uuid A) : m !! fresh (dom m) = None.
Proof. apply not_elem_of_dom, is_fresh. Qed.

Lemma terminal_guard r : not_terminal r = true -> terminal (h_status r) = true -> False.
Proof. unfold not_terminal. by destruct (terminal (h_status r)). Qed.

(** A guarded update keeps the outcome of terminal rows. *)
Lemma row_update_guarded (b : Prop) r r' :
  h_job r' = h_job r -> h_host r' = h_host r -> terminal (h_status r) = false ->
  retry_kept b r r' -> row_follows r r' /\ retry_kept b r r'.
Proof. intros. split; [|done]. split_and!; [done|done|]. intros Ht. congruence. Qed.

Ltac guarded_update :=
  first [apply change_update_one | apply change_update_where]; intros r Hg;
  unfold of_pair, of_job, not_terminal, has_status in Hg; simplify_eq/=;
  first [ by split; [done | left]
        | apply row_update_guarded; [done | done | by destruct (h_status r); destruct_and?; simplify_eq/=;
              repeat case_bool_decide | first [by left | by right | by intros ?; right] ] ].

Lemma change_same b d d' : db_jobs d' = db_jobs d -> db_pjhs d' = db_pjhs d -> change b d d'.
Proof.
  intros Hj Hp. apply change_rows; [done|by rewrite Hp|]. intros id r r' Hr Hr'.
  rewrite Hp in Hr'. simplify_eq. split; [done|]. by left.
Qed.

Lemma change_host_version b d host v : change b d (writes (upd_host_version host v d)).2.
Proof.
  unfold upd_host_version. destruct (update_one _ _ _ (db_hosts d)) as [n m]. by apply change_same.
Qed.

Lemma change_ins_auto b d win host ar dl : change b d (ins_auto_job win host ar dl d).2.
Proof.
  unfold ins_auto_job. cbn zeta.
  destruct (auto_index_ok _) eqn:Hi; simpl; [|apply change_refl].
  destruct (_ && _); simpl; [|apply change_refl].
  eapply new_auto; simpl; [apply fresh_dom|apply fresh_dom|done|done|done].
Qed.

Lemma active_auto_key_created j u : j_created_by j = Some u -> active_auto_key j = None.
Proof. unfold active_auto_key. intros ->. rewrite (bool_decide_false (Some u = None)) by done. by rewrite andb_false_r. Qed.

Lemma active_auto_key_no_host j : j_auto_host j = None -> active_auto_key j = None.
Proof. unfold active_auto_key. intros ->. by destruct (_ && _), (j_window j). Qed.

Lemma change_ins_job b d k cb p w im sel n ar dl : change b d (ins_job k cb p w im sel n ar dl d).2.
Proof.
  unfold ins_job. destruct (match w with Some _ => _ | None => _ end); simpl; [|apply change_refl].
  eapply new_job; simpl; [done|done|set_solver|].
  apply auto_index_insert_fresh; [apply fresh_dom|by apply active_auto_key_no_host].
Qed.

Lemma change_ins_pjh b d job host : change b d (ins_pjh job host d).2.
Proof.
  unfold ins_pjh. destruct (Z.ltb_spec 0 (count_where (of_pair job host) (db_pjhs d))); simpl;
    [apply change_refl|].
  destruct (bool_decide_reflect (is_Some (db_jobs d !! job))); simpl; [|apply change_refl].
  destruct (bool_decide_reflect (is_Some (db_hosts d !! host))); simpl; [|apply change_refl].
  by eapply new_entry; simpl; [..|done]; [|apply fresh_dom| |].
Qed.

Lemma stmt_change {X} (q : stmt X) d : change (stmt_ok q) d (exec_stmt q d).2.
Proof.
  destruct q; unfold exec_stmt; try apply change_refl;
    try (apply change_writes_jobs; apply on_jobs_update);
    try (unfold writes; cbn [snd]; guarded_update);
    eauto using change_host_version, change_ins_auto, change_ins_job, change_ins_pjh, change_same.
Qed.

Lemma eff_change {env faulty X} (e : eff X) s x s' :
  (forall s s1, env s s1 -> db_jobs s1 = db_jobs s /\ db_pjhs s1 = db_pjhs s) ->
  eff_step env faulty X e s x s' ->
  change (match e with Sql q => stmt_ok q | _ => True end) s s'.
Proof.
  intros Henv (s1 & Hs1 & Hx). destruct (Henv _ _ Hs1) as [Hj Hp].
  destruct e; simpl in *; try (subst s'; by apply change_same); [|by destruct Hx as [-> _]; apply change_same].
  assert (s' = s1 \/ s' = (exec_stmt q s1).2) as [->| ->] by (destruct Hx as [[_ ->]|(_ & m & _ & [->| ->])]; auto).
  - by apply change_same.
  - destruct (stmt_change q s1) as [H1 H2 H3|H1 H2 H3|js H1 H2 H3 H4|id j h H1 H2 H3 H4 H5|id j h r H1 H2 H3 H4 H5];
      rewrite ?Hj, ?Hp in *; [eapply change_rows|eapply change_job|eapply new_job|eapply new_entry|eapply new_auto];
      rewrite ?Hj, ?Hp in *; eauto; congruence.
Qed.

Lemma other_writers_tables s s1 : other_writers s s1 -> db_jobs s1 = db_jobs s /\ db_pjhs s1 = db_pjhs s.
Proof. unfold other_writers. tauto. Qed.

(** What no statement can break, no task can. *)
Lemma safe_any {A} (P : db -> Prop) (p : prog eff A) :
  (forall d d', change False d d' -> P d -> P d') -> @safe eff db concurrent A P p.
Proof.
  intros HP. induction p as [a|X e k IH]; [done|]. intros s x s' Hs Hx. split; [|apply IH].
  eapply HP; [|exact Hs]. pose proof (eff_change e s x s' other_writers_tables Hx) as Hc.
  destruct Hc as [H1 H2 H3|H1 H2 H3|js H1 H2 H3 H4|id j h H1 H2 H3 H4 H5|id j h r H1 H2 H3 H4 H5];
    [eapply change_rows|eapply change_job|eapply new_job|eapply new_entry|eapply new_auto]; eauto.
  intros id r r' Hr Hr'. destruct (H3 _ _ _ Hr Hr'). split; [done|]. by intros ?.
Qed.

(** ** Retry counters: each task sets them in bounds *)

Lemma retries_bounded_change (b : Prop) d d' : b -> change b d d' -> retries_bounded d -> retries_bounded d'.
Proof.
  intros Hb Hc HP id r' Hr'.
  destruct Hc as [H1 H2 H3|H1 H2 H3|js H1 H2 H3 H4|k j h H1 H2 H3 H4 H5|k j h r H1 H2 H3 H4 H5].
  - assert (is_Some (db_pjhs d !! id)) as [r Hr] by (apply elem_of_dom; rewrite <- H2; by apply elem_of_dom).
    destruct (H3 _ _ _ Hr Hr') as [_ Hk]. specialize (HP _ _ Hr). destruct (Hk Hb); lia.
  - rewrite H1 in Hr'. by eapply HP.
  - rewrite H1 in Hr'. by eapply HP.
  - rewrite H3, lookup_insert_Some in Hr'. destruct Hr' as [[_ <-]|[_ Hr']]; [done|by eapply HP].
  - rewrite H5, lookup_insert_Some in Hr'. destruct Hr' as [[_ <-]|[_ Hr']]; [done|by eapply HP].
Qed.

Abbreviation retry_safe := (@safe eff db concurrent _ retries_bounded).

Lemma retry_safe_effect {X} (e : eff X) :
  (match e with Sql q => stmt_ok q | _ => True end) -> retry_safe (trigger e).
Proof.
  intros Hok s x s' Hs Hx. split; [|done].
  eapply retries_bounded_change; [|by eapply eff_change, Hx; apply other_writers_tables|done]. done.
Qed.

Lemma retry_safe_sql {X} (q : stmt X) : stmt_ok q -> retry_safe (sql q).
Proof. apply (retry_safe_effect (Sql q)). Qed.

Lemma retry_safe_spawn t : retry_safe (spawn t).
Proof. by apply retry_safe_effect. Qed.

(** Walk through a task: its binds, loops and branches, down to its effects. *)
Ltac safe_walk :=
  repeat first
    [ progress intros
    | exact I
    | assumption
    | solve [eauto with retry_safe nocore]
    | apply retry_safe_spawn
    | by apply retry_safe_sql
    | by apply retry_safe_effect
    | apply safe_bind
    | apply safe_for_each
    | progress lazy beta iota zeta
    | case_match
    | progress cbn [relay_one_job relay_one_job_poll relay_starts reconnect_loop insert_host_rows] ].

Create HintDb retry_safe.

Lemma retry_safe_sync job : retry_safe (sync_job_status job).
Proof. unfold sync_job_status. safe_walk. Qed.
#[export] Hint Resolve retry_safe_sync : retry_safe.

Lemma retry_safe_failure id msg : retry_safe (handle_host_failure id msg).
Proof.
  unfold handle_host_failure. apply (safe_bind_effect retries_bounded (Sql _)). intros s x s' Hs Hx.
  assert (retries_bounded s') as Hs'.
  { eapply retries_bounded_change; [|by eapply eff_change, Hx; apply other_writers_tables|done]. done. }
  split; [done|]. destruct x as [[row|]|]; [|done..].
  destruct (terminal (ry_status row)); [done|].
  destruct (Z.ltb_spec (ry_count row) 3) as [Hlt|Hge].
  - assert (0 <= ry_count row) as Hc.
    { destruct Hx as (s1 & Henv & [[Hx _]|(_ & m & Hm & _)]); [|done]. simpl in Hx.
      unfold sel_retry_row in Hx. destruct (db_pjhs s1 !! id) as [r|] eqn:Hr; simplify_eq/=.
      destruct Henv as (_ & Hp & _). rewrite Hp in Hr. destruct (Hs _ _ Hr). lia. }
    apply safe_bind; [by apply retry_safe_effect|]. intros now.
    apply safe_bind; [apply retry_safe_sql; simpl; lia|done].
  - safe_walk.
Qed.
#[export] Hint Resolve retry_safe_failure : retry_safe.

Section RetrySafe.
Context (cfg : worker_config) (show_time : Z -> string) (parse_event : string -> option ws_event).

Lemma retry_safe_store id r : retry_safe (store_agent_job id r).
Proof. unfold store_agent_job. safe_walk. Qed.
#[local] Hint Resolve retry_safe_store : retry_safe.

Lemma retry_safe_patch id host a sel ar dl : retry_safe (execute_patch_host_job id host a sel ar dl).
Proof. unfold execute_patch_host_job, expand_packages, reboot_safety_state. safe_walk. Qed.

Lemma retry_safe_reboot id host a : retry_safe (execute_reboot_host_job id host a).
Proof. unfold execute_reboot_host_job, reboot_safety_state, request_reboot. safe_walk. Qed.

Lemma retry_safe_upgrade id a : retry_safe (execute_self_upgrade_host_job id a).
Proof. unfold execute_self_upgrade_host_job. safe_walk. Qed.
#[local] Hint Resolve retry_safe_patch retry_safe_reboot retry_safe_upgrade : retry_safe.

Lemma retry_safe_execute job host id : retry_safe (execute_host_job job host id).
Proof. unfold execute_host_job, check_host_health_checks, health_gate_closed, dispatch_host_job. safe_walk. Qed.

Lemma retry_safe_process job : retry_safe (process_job job).
Proof. unfold process_job. safe_walk. Qed.

Lemma retry_safe_succeeded row out : retry_safe (mark_succeeded row out).
Proof. unfold mark_succeeded. safe_walk. Qed.
#[local] Hint Resolve retry_safe_succeeded : retry_safe.

Lemma retry_safe_finish row v : retry_safe (finish_self_upgrade_success row v).
Proof. unfold finish_self_upgrade_success. safe_walk. Qed.
#[local] Hint Resolve retry_safe_finish : retry_safe.

Lemma retry_safe_reconnect row a : retry_safe (reconnect_confirm_self_upgrade cfg row a).
Proof.
  assert (forall n target old el, retry_safe (reconnect_loop n cfg row a target old el)) as Hloop.
  { intros n target old. induction n as [|n IH]; intros el; safe_walk. }
  unfold reconnect_confirm_self_upgrade, fetch_target_version, fetch_old_version. safe_walk.
Qed.
#[local] Hint Resolve retry_safe_reconnect : retry_safe.

Lemma retry_safe_poll row : retry_safe (poll_single_host cfg row).
Proof.
  unfold poll_single_host, poll_self_upgrade_host, poll_standard_host, fetch_target_version, fetch_old_version.
  safe_walk.
Qed.

Lemma retry_safe_scan : retry_safe (periodic_scan show_time cfg).
Proof.
  unfold periodic_scan, scan_queued_jobs, poll_running_jobs, retry_pending_jobs, fail_timed_out_jobs.
  safe_walk.
Qed.

Lemma retry_safe_scheduler : retry_safe scheduler_tick.
Proof. unfold scheduler_tick, auto_create_patch_jobs, dispatch_open_window_jobs, auto_create_one. safe_walk. Qed.

Lemma retry_safe_event row ev : retry_safe (process_event row ev).
Proof. unfold process_event, update_parent_job_status. safe_walk. Qed.
#[local] Hint Resolve retry_safe_event : retry_safe.

Lemma retry_safe_relay row frames : retry_safe (relay_one_job parse_event row frames).
Proof. induction frames as [|f fs IH]; safe_walk. Qed.

Lemma retry_safe_relay_poll n row a last : retry_safe (relay_one_job_poll n cfg row a last).
Proof. revert last. induction n as [|n IH]; safe_walk. Qed.

Lemma retry_safe_relay_tick active : retry_safe (ws_relay_tick active).
Proof.
  unfold ws_relay_tick. apply safe_bind; [by apply retry_safe_sql|]. intros [rows|]; [|done].
  revert active. induction rows as [|row rows IH]; intros active; safe_walk.
Qed.

Lemma retry_safe_rows job hosts : retry_safe (insert_host_rows job hosts).
Proof. induction hosts as [|h hs IH]; safe_walk. Qed.
#[local] Hint Resolve retry_safe_rows : retry_safe.

Lemma retry_safe_routes auth : (forall req, retry_safe (create_job auth req)) /\
  (forall id, retry_safe (cancel_job auth id)) /\ (forall id, retry_safe (rollback_job auth id)).
Proof. split_and!; intros; unfold create_job, cancel_job, rollback_job; safe_walk. Qed.

Lemma retry_safe_upgrades auth win im valid : retry_safe (create_upgrade_jobs auth win im valid).
Proof.
  assert (forall groups first total, retry_safe (insert_groups auth win im groups first total)) as Hg.
  { induction groups as [|[v hosts] groups IH]; intros first total; cbn [insert_groups]; unfold bind_ok; safe_walk. }
  unfold create_upgrade_jobs, bind_ok. safe_walk.
Qed.

Lemma retry_safe_entry p : entry cfg show_time parse_event p -> retry_safe p.
Proof.
  destruct 1; unfold discard; try (apply safe_bind; [|done]);
    auto using retry_safe_scan, retry_safe_process, retry_safe_scheduler, retry_safe_relay_tick,
      retry_safe_relay, retry_safe_relay_poll, retry_safe_upgrades; apply retry_safe_routes.
Qed.

Lemma retry_safe_spawned X (e : eff X) : Forall retry_safe (spawned cfg X e).
Proof.
  destruct e as [| | | | | | | | | | |t]; try apply Forall_nil_2.
  destruct t; simpl; rewrite ?Forall_singleton; try apply Forall_nil_2;
    auto using retry_safe_process, retry_safe_execute, retry_safe_poll.
Qed.
End RetrySafe.

(** ** The invariants hold in every reachable database *)
Section Reachable.
Context (cfg : worker_config) (show_time : Z -> string) (parse_event : string -> option ws_event).

Lemma reachable_keeps (P : db -> Prop) d d' :
  (forall p, entry cfg show_time parse_event p -> @safe eff db concurrent _ P p) ->
  (forall X (e : eff X), Forall (@safe eff db concurrent _ P) (spawned cfg X e)) ->
  reachable cfg show_time parse_event d d' -> P d -> P d'.
Proof.
  intros Hen Hsp (ts & Hr) Hd.
  by apply (@invariant_reachable eff db concurrent _ _ _ P _ _ Hsp Hen Hr).
Qed.

(** An invariant of the statements is one of the whole engine. *)
Lemma reachable_stmt (P : db -> Prop) d d' :
  (forall d d', change False d d' -> P d -> P d') ->
  reachable cfg show_time parse_event d d' -> P d -> P d'.
Proof.
  intros HP. apply reachable_keeps.
  - intros p _. by apply safe_any.
  - intros X e. apply Forall_forall. intros p _. by apply safe_any.
Qed.
End Reachable.

Lemma row_kept_change (b : Prop) d d' id r0 :
  change b d d' -> (exists r, db_pjhs d !! id = Some r /\ row_follows r0 r) ->
  exists r, db_pjhs d' !! id = Some r /\ row_follows r0 r.
Proof.
  intros Hc (r & Hr & Hj & Hh & Ho).
  destruct Hc as [H1 H2 H3|H1 H2 H3|js H1 H2 H3 H4|k j h H1 H2 H3 H4 H5|k j h r' H1 H2 H3 H4 H5].
  - assert (is_Some (db_pjhs d' !! id)) as [r' Hr'] by (apply elem_of_dom; rewrite H2; by apply elem_of_dom).
    destruct (H3 _ _ _ Hr Hr') as [(Hj' & Hh' & Ho') _]. exists r'. split; [done|].
    split_and!; [congruence|congruence|]. intros Ht. specialize (Ho Ht).
    rewrite Ho'; [done|]. apply (f_equal h_status) in Ho. simpl in Ho. by rewrite Ho.
  - rewrite H1. by exists r.
  - rewrite H1. by exists r.
  - exists r. split; [|done]. rewrite H3, lookup_insert_ne by congruence. done.
  - exists r. split; [|done]. rewrite H5, lookup_insert_ne by congruence. done.
Qed.

Lemma entries_wf_change (b : Prop) d d' : change b d d' -> entries_wf d -> entries_wf d'.
Proof.
  intros Hc (Hfk & Hu & Hi).
  destruct Hc as [H1 H2 H3|H1 H2 H3|js H1 -> H3 H4|k j h H1 H2 H3 H4 H5|k j h r' H1 H2 H3 H4 H5].
  - assert (forall id r', db_pjhs d' !! id = Some r' ->
              exists r, db_pjhs d !! id = Some r /\ h_job r' = h_job r /\ h_host r' = h_host r) as Hback.
    { intros id r' Hr'. assert (is_Some (db_pjhs d !! id)) as [r Hr]
        by (apply elem_of_dom; rewrite <- H2; by apply elem_of_dom).
      destruct (H3 _ _ _ Hr Hr') as [(? & ? & _) _]. eauto. }
    split_and!; [| |by rewrite H1].
    + intros id r' (r & Hr & -> & _)%Hback. rewrite H1. eauto.
    + intros id1 id2 r1' r2' (r1 & Hr1 & -> & ->)%Hback (r2 & Hr2 & -> & ->)%Hback. eauto.
  - split_and!; rewrite ?H1; [|done|done]. intros id r Hr. apply elem_of_dom, H2, elem_of_dom. eauto.
  - split_and!; rewrite ?H1; [|done|auto]. intros id r Hr. apply elem_of_dom, H3, elem_of_dom. eauto.
  - assert (forall id r, db_pjhs d !! id = Some r -> h_job r = j -> h_host r = h -> False) as Hno.
    { intros id r Hr Hj Hh. assert (0 < count_where (of_pair j h) (db_pjhs d)); [|lia].
      apply count_where_pos. exists id, r. split; [done|]. unfold of_pair, of_job.
      by rewrite Hj, Hh, !bool_decide_true. }
    split_and!; rewrite ?H1, ?H3; [| |done].
    + intros id r. rewrite lookup_insert_Some. intros [[_ <-]|[_ Hr]]; [done|eauto].
    + intros id1 id2 r1 r2. rewrite !lookup_insert_Some.
      intros [[<- <-]|[? Hr1]] [[<- <-]|[? Hr2]]; simpl; [done| | |eauto].
      * intros ? ?. exfalso. by eapply (Hno id2).
      * intros ? ?. exfalso. by eapply (Hno id1).
  - split_and!; rewrite ?H3, ?H5; [| |by rewrite <- H3].
    + intros id r. rewrite lookup_insert_Some. intros [[_ <-]|[_ Hr]]; simpl.
      * rewrite lookup_insert_eq. eauto.
      * rewrite lookup_insert_is_Some'. right. eauto.
    + intros id1 id2 r1 r2. rewrite !lookup_insert_Some.
      intros [[<- <-]|[? Hr1]] [[<- <-]|[? Hr2]]; simpl; [done| | |eauto];
        intros Hj; [pose proof (Hfk _ _ Hr2) as [? Hx]|pose proof (Hfk _ _ Hr1) as [? Hx]]; congruence.
Qed.

(** ** Concrete interleavings *)

Lemma demo_world_concurrent status X (e : eff X) s :
  @exec eff db concurrent X e s (demo_world status X e s).1 (demo_world status X e s).2.
Proof.
  exists s. split; [by split_and!|]. destruct e; simpl; auto.
Qed.

(** The database after a schedule of the tasks [ps] (the initial one when the
    schedule names a task that cannot run). *)
Definition sched_db (cfg : worker_config) (status : result agent_job_status agent_err)
    (ps : list (prog eff unit)) (sched : list nat) (d : db) : db :=
  match interleave (spawned cfg) (demo_world status) sched (d, ps) with
  | Some c => c.1
  | None => d
  end.

Lemma sched_db_reachable cfg show_time parse_event status ps sched d :
  Forall (entry cfg show_time parse_event) ps ->
  reachable cfg show_time parse_event d (sched_db cfg status ps sched d).
Proof.
  intros Hps. unfold sched_db. destruct (interleave _ _ sched (d, ps)) as [c|] eqn:Hrun; [|by exists []].
  exists c.2. etrans; [by apply (starts_reachable _ _ d ps [])|].
  destruct c as [d' ts]. eapply (@interleave_reachable eff db concurrent); [|exact Hrun].
  apply demo_world_concurrent.
Qed.

Definition demo_cfg : worker_config := WorkerConfig 3600 300 10 30.
Definition demo_event (_ : string) : option ws_event := None.
Definition demo_user : auth_user := AuthUser user_1 "op" Operator.

(** ** The properties *)

(** C1. A host entry that has reached a terminal status keeps its outcome (status,
    output, error, retry counter, times) whatever the tasks do next, in any
    order, with any answers of the agents and any database errors: a late poll,
    a relayed event, a time-out or a retry cannot change it. *)
Theorem terminal_outcome_frozen cfg show_time parse_event d d' id r :
  reachable cfg show_time parse_event d d' ->
  db_pjhs d !! id = Some r -> terminal (h_status r) = true ->
  exists r', db_pjhs d' !! id = Some r' /\ outcome r' = outcome r.
Proof.
  intros Hreach Hr Ht.
  destruct (reachable_stmt cfg show_time parse_event
              (fun d => exists r', db_pjhs d !! id = Some r' /\ row_follows r r') d d') as (r' & Hr' & _ & _ & Ho).
  - intros d1 d2 Hc. by apply (row_kept_change False).
  - done.
  - by exists r.
  - eauto.
Qed.

(** C2. No interleaving takes the retry counter of a host entry out of [0..3]. *)
Theorem retry_counter_bounded cfg show_time parse_event d d' :
  reachable cfg show_time parse_event d d' ->
  (forall id r, db_pjhs d !! id = Some r -> 0 <= h_retry_count r <= 3) ->
  forall id r, db_pjhs d' !! id = Some r -> 0 <= h_retry_count r <= 3.
Proof.
  intros Hreach. change (retries_bounded d -> retries_bounded d'). revert Hreach. apply reachable_keeps.
  - intros p. apply retry_safe_entry.
  - intros X e. apply retry_safe_spawned.
Qed.

(** C3. Every interleaving keeps the job tables well formed: each host entry has
    its job, a job has at most one entry per host, and at most one active
    automatic job exists per window and host; and the entries themselves never
    change job or host. *)
Theorem job_tables_wf cfg show_time parse_event d d' :
  reachable cfg show_time parse_event d d' -> entries_wf d ->
  entries_wf d' /\
  (forall id r, db_pjhs d !! id = Some r ->
     exists r', db_pjhs d' !! id = Some r' /\ h_job r' = h_job r /\ h_host r' = h_host r).
Proof.
  intros Hreach Hwf. split.
  - revert Hreach Hwf. apply reachable_stmt. apply entries_wf_change.
  - intros id r Hr.
    destruct (reachable_stmt cfg show_time parse_event
                (fun d => exists r', db_pjhs d !! id = Some r' /\ row_follows r r') d d') as (r' & Hr' & Hj & Hh & _);
      [|done|by exists r|eauto].
    intros d1 d2 Hc. by apply (row_kept_change False).
Qed.

(** A cancellation of [job_1] that has read the job before it is dispatched,
    a dispatch, and the relay of the second host's job. *)
Definition race_db : db := demo_db PatchApply Queued Succeeded Queued.
Definition race_tasks : list (prog eff unit) :=
  [discard (cancel_job demo_user job_1); process_job job_1;
   relay_one_job_poll 1 demo_cfg (RelayRow job_1 host_b "agent-job" "b.example") (Agent "10.0.0.2" 12443) None].
Definition cancel_schedule : list nat := ([0; 1; 1; 1] ++ replicate 9 3 ++ replicate 4 0)%nat.
Definition relay_schedule : list nat := replicate 7 2%nat.

Lemma race_tasks_entry show_time parse_event : Forall (entry demo_cfg show_time parse_event) race_tasks.
Proof. repeat constructor. Qed.

Lemma terminal_outcome_frozen_witness :
  let d' := sched_db demo_cfg (agent_says "succeeded") race_tasks cancel_schedule race_db in
  (j_status <$> db_jobs d' !! job_1) = Some Cancelled /\
  exists r', db_pjhs d' !! row_a = Some r' /\ outcome r' = demo_row host_a Succeeded 0 None.
Proof.
  split; [vm_compute; reflexivity|].
  apply (terminal_outcome_frozen demo_cfg (fun _ => ""%string) demo_event race_db _ row_a
           (demo_row host_a Succeeded 0 None)).
  - apply sched_db_reachable. apply race_tasks_entry.
  - reflexivity.
  - reflexivity.
Defined.

Lemma retry_counter_bounded_witness :
  exists r, db_pjhs (sched_db demo_cfg (agent_says "succeeded") race_tasks cancel_schedule race_db) !! row_b = Some r /\
    h_status r = Running /\ 0 <= h_retry_count r <= 3.
Proof.
  eexists. split; [vm_compute; reflexivity|]. split; [reflexivity|].
  apply (retry_counter_bounded demo_cfg (fun _ => ""%string) demo_event race_db
           (sched_db demo_cfg (agent_says "succeeded") race_tasks cancel_schedule race_db)) with (id := row_b).
  - apply sched_db_reachable. apply race_tasks_entry.
  - intros id r. unfold race_db, demo_db; simpl.
    rewrite lookup_insert_Some, lookup_singleton_Some. intros [[_ <-]|[_ [_ <-]]]; simpl; lia.
  - vm_compute. reflexivity.
Defined.

Lemma demo_entries_wf kind st sa sb : entries_wf (demo_db kind st sa sb).
Proof.
  unfold demo_db. split_and!; simpl.
  - intros id r. rewrite lookup_insert_Some, lookup_singleton_Some.
    intros [[_ <-]|[_ [_ <-]]]; simpl; rewrite lookup_singleton_eq; eauto.
  - intros id1 id2 r1 r2. rewrite !lookup_insert_Some, !lookup_singleton_Some.
    intros [[<- <-]|[_ [<- <-]]] [[<- <-]|[_ [<- <-]]]; done.
  - apply bool_decide_eq_true. rewrite map_to_list_singleton. simpl. unfold active_auto_key; simpl.
    rewrite andb_false_r. constructor.
Qed.

Lemma job_tables_wf_witness :
  entries_wf (sched_db demo_cfg (agent_says "succeeded") race_tasks cancel_schedule race_db) /\
  (forall id r, db_pjhs race_db !! id = Some r ->
     exists r', db_pjhs (sched_db demo_cfg (agent_says "succeeded") race_tasks cancel_schedule race_db) !! id
                = Some r' /\ h_job r' = h_job r /\ h_host r' = h_host r).
Proof.
  apply (job_tables_wf demo_cfg (fun _ => ""%string) demo_event race_db).
  - apply sched_db_reachable. apply race_tasks_entry.
  - apply demo_entries_wf.
Defined.

(** A cancellation is not isolated from a dispatch: the cancel route can answer
    success (the job is then cancelled) while the patch runs on a host, and when
    that host finishes, the relay turns the cancelled job into a succeeded one. *)
Theorem cancelled_job_resurrected show_time parse_event :
  exists d1 d2,
    reachable demo_cfg show_time parse_event race_db d1 /\
    reachable demo_cfg show_time parse_event race_db d2 /\
    (j_status <$> db_jobs d1 !! job_1) = Some Cancelled /\
    (h_status <$> db_pjhs d1 !! row_b) = Some Running /\
    (j_status <$> db_jobs d2 !! job_1) = Some Succeeded.
Proof.
  exists (sched_db demo_cfg (agent_says "succeeded") race_tasks cancel_schedule race_db),
    (sched_db demo_cfg (agent_says "succeeded") race_tasks (cancel_schedule ++ relay_schedule) race_db).
  split_and!; [apply sched_db_reachable, race_tasks_entry..| | |]; vm_compute; reflexivity.
Qed.
