(* ===== verification/JobFlow.v ===== *)
(** * What each operation of the job engine does

    The operations of the executor, the relay, the scheduler and the job routes
    run alone on a fault-free database, whatever the agents answer: the
    functional behaviour of each on every branch, against the reference
    definitions of this file. *)

From S2P Require Import Prelude Conc Schema Windows Statements SelfUpgrade JobExecutor WsRelay.
From S2P Require Import Rbac Scheduler JobsApi Scenario JobSafety.

(** ** Reference definitions *)

(** Minutes before the first, second and third retry. *)
Definition retry_minutes : list Z := [1; 5; 30].

(** What the status of a job is meant to be, from its host entries: running
    while one is active, then succeeded or cancelled when all are, and failed
    when one failed.  The flag says that the job is complete. *)
Definition all_entries (job : uuid) (st : job_status) (m : gmap uuid patch_job_host) : bool :=
  bool_decide (map_Forall (fun _ r => h_job r = job -> h_status r = st) m).
Definition no_entry (job : uuid) (m : gmap uuid patch_job_host) : bool :=
  bool_decide (map_Forall (fun _ r => h_job r <> job) m).
Definition some_entry (job : uuid) (g : patch_job_host -> bool) (m : gmap uuid patch_job_host) : bool :=
  negb (bool_decide (map_Forall (fun _ r => h_job r = job -> g r = false) m)).

Definition rollup (job : uuid) (m : gmap uuid patch_job_host) : option (job_status * bool) :=
  if some_entry job not_terminal m then Some (Running, false)
  else if no_entry job m then None
  else if all_entries job Succeeded m then Some (Succeeded, true)
  else if all_entries job Cancelled m then Some (Cancelled, true)
  else if some_entry job (has_status Failed) m then Some (Failed, true)
  else None.

(** The job after the roll-up. *)
Definition rolled_up (now : Z) (r : option (job_status * bool)) (j : patch_job) : patch_job :=
  match r with
  | Some (st, true) => job_with st (j_started_at j) (some_or (j_completed_at j) now) j
  | Some (st, false) => job_with st (j_started_at j) (j_completed_at j) j
  | None => j
  end.

(** A host entry [r] of the job [j] after one failure [msg]: nothing when it
    was terminal, a retry after the next delay while there is one, and otherwise
    failed for good, with the job rolled up. *)
Definition after_failure (d d' : db) (id : uuid) (msg : string) (r : patch_job_host) (j : patch_job) : Prop :=
  if terminal (h_status r) then db_jobs d' = db_jobs d /\ db_pjhs d' = db_pjhs d
  else match retry_minutes !! Z.to_nat (h_retry_count r) with
       | Some minutes =>
           exists now, db_now d <= now <= db_now d' /\ db_jobs d' = db_jobs d /\
             db_pjhs d' = <[id := pjh_pending (h_retry_count r + 1) (now + minutes * minute_us) msg r]> (db_pjhs d)
       | None =>
           exists now now', db_now d <= now <= now' /\
             db_pjhs d' = <[id := pjh_failed now msg r]> (db_pjhs d) /\
             db_jobs d' = <[h_job r := rolled_up now' (rollup (h_job r) (db_pjhs d')) j]> (db_jobs d)
       end.

(** ** Counts and quantifiers *)

Lemma count_of_job_zero job (g : patch_job_host -> bool) m :
  count_where (fun r => of_job job r && g r) m = 0 <->
  (forall id r, m !! id = Some r -> h_job r = job -> g r = false).
Proof.
  pose proof (count_where_pos (fun r => of_job job r && g r) m) as Hp.
  pose proof (count_where_nonneg (fun r => of_job job r && g r) m). split.
  - intros H0 id r Hr Hj. destruct (g r) eqn:Hg; [|done]. exfalso.
    assert (0 < count_where (fun r => of_job job r && g r) m); [|lia].
    apply Hp. exists id, r. split; [done|]. unfold of_job. by rewrite bool_decide_true.
  - intros Hall. destruct (Z.eq_dec (count_where (fun r => of_job job r && g r) m) 0); [done|].
    destruct (proj1 Hp) as (id & r & Hr & Hg); [lia|]. apply andb_true_iff in Hg as [Hj Hg].
    apply bool_decide_eq_true in Hj. by rewrite (Hall id r) in Hg.
Qed.

Lemma some_entry_count job (g : patch_job_host -> bool) m :
  some_entry job g m = (0 <? count_where (fun r => of_job job r && g r) m).
Proof.
  unfold some_entry. pose proof (count_of_job_zero job g m) as Hz.
  pose proof (count_where_nonneg (fun r => of_job job r && g r) m).
  case_bool_decide as Hall; symmetry.
  - apply Z.ltb_ge. apply Z.eq_le_incl, Hz. intros id r Hr. by apply Hall in Hr.
  - apply Z.ltb_lt. destruct (Z.eq_dec (count_where (fun r => of_job job r && g r) m) 0) as [H0|]; [|lia].
    destruct Hall. intros id r Hr. by apply (proj1 Hz H0 id).
Qed.

Lemma count_where_ext {A} (g h : A -> bool) m : (forall r, g r = h r) -> count_where g m = count_where h m.
Proof. intros He. apply Z.le_antisymm; apply count_where_le; intros k r _; by rewrite He. Qed.

Lemma no_entry_count job m : no_entry job m = (count_where (of_job job) m =? 0).
Proof.
  pose proof (some_entry_count job (fun _ => true) m) as Hs.
  rewrite (count_where_ext _ (of_job job)) in Hs by (intros; apply andb_true_r).
  pose proof (count_where_nonneg (of_job job) m).
  assert (no_entry job m = negb (some_entry job (fun _ => true) m)) as ->.
  { unfold no_entry, some_entry. rewrite negb_involutive. apply bool_decide_ext.
    unfold map_Forall. split; intros H' id r Hr; specialize (H' id r Hr); [by intros ?|intros Heq; by apply H' in Heq]. }
  rewrite Hs. destruct (Z.ltb_spec 0 (count_where (of_job job) m)), (Z.eqb_spec (count_where (of_job job) m) 0); done || lia.
Qed.

Lemma all_entries_count job st m :
  all_entries job st m = (count_where (fun r => of_job job r && has_status st r) m =? count_where (of_job job) m).
Proof.
  unfold all_entries. case_bool_decide as Hall; symmetry.
  - apply Z.eqb_eq, Z.le_antisymm; apply count_where_le; intros k r Hr.
    + by intros [? _]%andb_true_iff.
    + intros Hj. rewrite Hj. simpl. apply bool_decide_eq_true. apply bool_decide_eq_true in Hj.
      by eapply Hall.
  - apply Z.eqb_neq. intros Heq. apply Hall. intros id r Hr Hj.
    pose proof (count_where_eq_all (fun r => of_job job r && has_status st r) (of_job job) m
                  ltac:(by intros k r' _ [? _]%andb_true_iff) Heq id r Hr) as Hg.
    unfold of_job in Hg at 1. rewrite bool_decide_true in Hg by done.
    apply andb_true_iff in Hg as [_ Hg]; [|done]. by apply bool_decide_eq_true in Hg.
Qed.

(** The counters of the query decide the roll-up. *)
Lemma sync_decision_rollup job d : sync_decision (sel_counts job d) = rollup job (db_pjhs d).
Proof.
  unfold rollup. rewrite !some_entry_count, no_entry_count, !all_entries_count.
  unfold sync_decision, sel_counts; cbn [c_running c_pending c_queued c_waiting c_succeeded c_cancelled c_failed c_total].
  set (m := db_pjhs d). set (n st := count_where (fun r => of_job job r && has_status st r) m).
  assert (Hact : (0 <? count_where (fun r => of_job job r && not_terminal r) m) =
            (0 <? n Running) || (0 <? n Pending) || (0 <? n Queued) || (0 <? n WaitingHealthCheck)).
  { unfold n. rewrite <- !some_entry_count. unfold some_entry. rewrite <- !negb_andb. f_equal.
    rewrite <- !bool_decide_and. apply bool_decide_ext. unfold map_Forall, not_terminal, has_status. split.
    - intros H. split_and!; intros id r Hr Hj; specialize (H id r Hr Hj); apply bool_decide_eq_false; by intros Heq; rewrite Heq in H.
    - intros (((H1 & H2) & H3) & H4) id r Hr Hj. specialize (H1 id r Hr Hj). specialize (H2 id r Hr Hj).
      specialize (H3 id r Hr Hj). specialize (H4 id r Hr Hj). by destruct (h_status r). }
  fold (n Running) (n Pending) (n Queued) (n WaitingHealthCheck) (n Succeeded) (n Cancelled) (n Failed).
  rewrite Hact. destruct (_ || _); [done|]. pose proof (count_where_nonneg (of_job job) m).
  assert (n Failed <= count_where (of_job job) m) by (apply count_where_le; by intros k r _ [? _]%andb_true_iff).
  destruct (Z.ltb_spec 0 (count_where (of_job job) m)), (Z.eqb_spec (count_where (of_job job) m) 0); try lia; simpl; [done|].
  destruct (Z.ltb_spec 0 (n Failed)); [lia|done].
Qed.

(** ** Rules for a task that runs alone *)

Abbreviation awp := (@wp eff db alone _).

Lemma awp_bind {A B} (p : prog eff A) (f : A -> prog eff B) Q s :
  awp p (fun a t => awp (f a) Q t) s -> awp (bind p f) Q s.
Proof. apply wp_bind. Qed.

Lemma awp_sql {X B} (q : stmt X) (f : result X string -> prog eff B) Q d :
  (forall t, db_now d <= t ->
     awp (f (exec_stmt q (set_now t d)).1) Q (exec_stmt q (set_now t d)).2) ->
  awp (bind (sql q) f) Q d.
Proof.
  intros Hq x s' (s1 & (t & Ht & ->) & [[-> ->]|[[] _]]). by apply Hq.
Qed.

Lemma awp_now {B} (f : Z -> prog eff B) Q d :
  (forall t, db_now d <= t -> awp (f t) Q (set_now t d)) -> awp (bind (trigger UtcNow) f) Q d.
Proof. intros Hq x s' (s1 & (t & Ht & ->) & (-> & [[]| ->])). by apply Hq. Qed.

(** Any other effect: any answer, and the tables as they were. *)
Definition silent {X} (e : eff X) : bool :=
  match e with Sql _ | UtcNow => false | _ => true end.

Lemma awp_silent {X B} (e : eff X) (f : X -> prog eff B) Q d :
  silent e = true -> (forall x t, db_now d <= t -> awp (f x) Q (set_now t d)) ->
  awp (bind (trigger e) f) Q d.
Proof.
  intros Hs Hq x s' (s1 & (t & Ht & ->) & He). destruct e; simplify_eq/=; by apply Hq.
Qed.

Lemma awp_ret {A} (a : A) (Q : A -> db -> Prop) d : Q a d -> awp (Ret a) Q d.
Proof. done. Qed.

Lemma awp_spawn {B} t (f : unit -> prog eff B) Q d :
  (forall n, db_now d <= n -> awp (f tt) Q (set_now n d)) -> awp (bind (spawn t) f) Q d.
Proof. intros Hq. apply awp_silent; [done|]. intros [] n Hn. by apply Hq. Qed.

Lemma set_now_now t t' d : set_now t (set_now t' d) = set_now t d.
Proof. done. Qed.

(** A task that ends with one effect. *)
Lemma bind_ret {A} (p : prog eff A) : bind p (fun x => Ret x) = p -> bind p (fun x => Ret x) = p.
Proof. done. Qed.

Lemma awp_mono {A} (p : prog eff A) (Q Q' : A -> db -> Prop) d :
  awp p Q d -> (forall a t, Q a t -> Q' a t) -> awp p Q' d.
Proof. intros Hp HQ. by eapply wp_mono. Qed.

Lemma awp_spawn_last t (Q : unit -> db -> Prop) d :
  (forall n, db_now d <= n -> Q tt (set_now n d)) -> awp (spawn t) Q d.
Proof. intros Hq x s' (s1 & (n & Hn & ->) & ->). destruct x. by apply Hq. Qed.

(** The steps of a task: reduce the next effect. *)
Ltac astep :=
  lazymatch goal with
  | |- @wp _ _ _ _ (bind (sql _) _) _ _ => apply awp_sql; intros ?t ?Ht
  | |- @wp _ _ _ _ (bind (trigger UtcNow) _) _ _ => apply awp_now; intros ?t ?Ht
  | |- @wp _ _ _ _ (bind (trigger _) _) _ _ => apply awp_silent; [done|]; intros ?x ?t ?Ht
  | |- @wp _ _ _ _ (bind (spawn _) _) _ _ => apply awp_spawn; intros ?t ?Ht
  | |- @wp _ _ _ _ (spawn _) _ _ => apply awp_spawn_last; intros ?t ?Ht
  | |- @wp _ _ _ _ (bind (Ret _) _) _ _ => cbn [bind]
  | |- @wp _ _ _ _ (bind skip _) _ _ => cbn [bind skip]
  | |- @wp _ _ _ _ (bind _ _) _ _ => apply awp_bind
  | |- @wp _ _ _ _ (Ret _) _ _ => apply awp_ret
  | |- @wp _ _ _ _ skip _ _ => apply awp_ret
  end.

(** ** sync_job_status *)

(** The job tables of [d'] are those of [d] but for [job], which became [j']. *)
Definition only_job (d d' : db) (job : uuid) (j' : patch_job) : Prop :=
  db_pjhs d' = db_pjhs d /\ db_hosts d' = db_hosts d /\ db_windows d' = db_windows d /\
  db_jobs d' = <[job := j']> (db_jobs d) /\ db_now d <= db_now d'.

Lemma auto_index_update k j j' m :
  m !! k = Some j -> (active_auto_key j' = active_auto_key j \/ active_auto_key j' = None) ->
  auto_index_ok m = true -> auto_index_ok (<[k := j']> m) = true.
Proof.
  intros Hk Hkey. unfold auto_index_ok. rewrite !bool_decide_eq_true.
  rewrite <- (insert_delete_id m k j Hk) at 1. rewrite <- (insert_delete_eq m k j').
  rewrite !map_to_list_insert by apply lookup_delete_eq. simpl.
  destruct Hkey as [-> | ->]; [done|]. destruct (active_auto_key j); [by intros [_ ?]%NoDup_cons|done].
Qed.

(** A job that the engine still works on. *)
Definition job_active (j : patch_job) : bool :=
  bool_decide (j_status j = Queued) || bool_decide (j_status j = Pending) || bool_decide (j_status j = Running).

Lemma active_key_with st s c j :
  job_active j = true \/ active_auto_key (job_with st s c j) = None ->
  active_auto_key (job_with st s c j) = active_auto_key j \/ active_auto_key (job_with st s c j) = None.
Proof.
  intros [Ha|?]; [|by right]. unfold active_auto_key, job_with, job_active in *; simpl.
  destruct (bool_decide (j_kind j = PatchApply) && bool_decide (j_created_by j = None)); simpl; [|by left].
  assert (bool_decide (j_status j = Queued) || bool_decide (j_status j = Running) || bool_decide (j_status j = Pending) = true) as ->.
  { revert Ha. rewrite !orb_true_iff. tauto. }
  case_match; [by left|by right].
Qed.

Lemma writes_jobs_one job f d j :
  db_jobs d !! job = Some j -> auto_index_ok (<[job := f j]> (db_jobs d)) = true ->
  writes_jobs (on_jobs (update_one job (fun _ => true) f) d) d = (Ok 1, set_jobs (<[job := f j]> (db_jobs d)) d).
Proof.
  intros Hj Hi. unfold on_jobs, update_one. rewrite Hj. unfold writes_jobs; simpl. by rewrite Hi.
Qed.

Lemma sync_job_status_ok job d j :
  db_jobs d !! job = Some j -> job_active j = true -> auto_index_ok (db_jobs d) = true ->
  awp (sync_job_status job)
    (fun _ d' => exists now, db_now d <= now /\ only_job d d' job (rolled_up now (rollup job (db_pjhs d)) j)) d.
Proof.
  intros Hj Ha Hi. unfold sync_job_status. astep. cbn [exec_stmt reads fst snd].
  rewrite sync_decision_rollup. cbn [set_now db_pjhs].
  destruct (rollup job (db_pjhs d)) as [[st completed]|] eqn:Hr; cbn zeta.
  2:{ astep. exists t. split; [done|]. split_and!; simpl; try done. by rewrite insert_id. }
  assert (forall s c, auto_index_ok (<[job := job_with st s c j]> (db_jobs d)) = true) as Hidx.
  { intros s c. apply (auto_index_update job j); [done|apply active_key_with; by left|done]. }
  astep. destruct completed; (astep; cbn [exec_stmt]; unfold upd_parent_completed, upd_parent_status;
    rewrite (writes_jobs_one job _ _ j) by (done || apply Hidx); cbn [fst snd]; astep;
    astep; cbn [exec_stmt writes notify fst snd]).
  - astep. simpl in *. exists t0. split; [lia|]. split_and!; simpl; try done. lia.
  - astep. simpl in *. exists t0. split; [lia|]. split_and!; simpl; try done. lia.
Qed.

(** ** handle_host_failure *)

Lemma update_one_hit {A} id (g : A -> bool) (f : A -> A) m r :
  m !! id = Some r -> g r = true -> update_one id g f m = (1, <[id := f r]> m).
Proof. intros Hr Hg. unfold update_one. by rewrite Hr, Hg. Qed.

Lemma update_one_miss {A} id (g : A -> bool) (f : A -> A) m r :
  m !! id = Some r -> g r = false -> update_one id g f m = (0, m).
Proof. intros Hr Hg. unfold update_one. by rewrite Hr, Hg. Qed.

Lemma host_failure_ok id msg d r j :
  db_pjhs d !! id = Some r -> db_jobs d !! h_job r = Some j -> job_active j = true ->
  auto_index_ok (db_jobs d) = true -> 0 <= h_retry_count r ->
  awp (handle_host_failure id msg) (fun _ d' => after_failure d d' id msg r j) d.
Proof.
  intros Hr Hj Ha Hi Hc. unfold handle_host_failure, after_failure. astep.
  cbn [exec_stmt reads fst snd]. unfold sel_retry_row. cbn [set_now db_pjhs]. rewrite Hr. cbn [fmap option_fmap option_map].
  cbn [ry_status ry_count ry_job]. destruct (terminal (h_status r)) eqn:Hterm; [by astep|].
  assert (not_terminal r = true) as Hg by (unfold not_terminal; by rewrite Hterm).
  destruct (Z.ltb_spec (h_retry_count r) 3) as [Hlt|Hge].
  - astep. astep. cbn [exec_stmt writes fst snd]. unfold upd_pending, on_pjhs. cbn [set_now db_pjhs].
    rewrite (update_one_hit _ _ _ _ _ Hr Hg). cbn [fst snd]. astep.
    assert (exists m, retry_minutes !! Z.to_nat (h_retry_count r) = Some m /\
              backoff_us (h_retry_count r + 1) = m * minute_us) as (m & -> & Hm).
    { assert (h_retry_count r = 0 \/ h_retry_count r = 1 \/ h_retry_count r = 2) as [->|[->| ->]] by lia; eexists; done. }
    rewrite Hm. exists t0. simpl in *. split_and!; [lia|lia|done|done].
  - astep. cbn [exec_stmt writes fst snd]. unfold upd_failed, on_pjhs. cbn [set_now db_pjhs db_now].
    rewrite (update_one_hit _ _ _ _ _ Hr Hg). cbn [fst snd]. cbn [Z.ltb Z.compare].
    rewrite (proj2 (lookup_ge_None retry_minutes (Z.to_nat (h_retry_count r)))) by (simpl; lia).
    eapply awp_mono; [by apply (sync_job_status_ok (h_job r) _ j)|].
    intros [] d' (now & Hnow & Hp & _ & _ & Hjobs & _). simpl in *.
    exists t0, now. rewrite Hp. split_and!; [lia|lia|done|done].
Qed.

(** ** The relay *)

(** The relay's roll-up: nothing while an entry is active. *)
Definition relayed_up (now : Z) (job : uuid) (m : gmap uuid patch_job_host) (j : patch_job) : patch_job :=
  if some_entry job not_terminal m then j
  else job_with (if some_entry job (has_status Failed) m then Failed else Succeeded)
         (j_started_at j) (Some now) j.

Lemma relay_rollup_ok job d j :
  db_jobs d !! job = Some j -> job_active j = true -> auto_index_ok (db_jobs d) = true ->
  awp (update_parent_job_status job)
    (fun _ d' => exists now, db_now d <= now /\ only_job d d' job (relayed_up now job (db_pjhs d) j)) d.
Proof.
  intros Hj Ha Hi. unfold update_parent_job_status, relayed_up. astep.
  cbn [exec_stmt reads fst snd]. unfold sel_active_count. cbn [set_now db_pjhs].
  rewrite <- some_entry_count. destruct (some_entry job not_terminal (db_pjhs d)) eqn:Hact.
  { astep. exists t. split; [done|]. split_and!; simpl; try done. by rewrite insert_id. }
  astep. cbn [exec_stmt reads fst snd]. unfold sel_rollup. cbn [set_now db_pjhs]. cbn zeta.
  astep. cbn [exec_stmt]. unfold upd_parent_final, rollup_status. rewrite <- some_entry_count.
  rewrite (writes_jobs_one job _ _ j); [|done|].
  2:{ apply (auto_index_update job j); [done|apply active_key_with; by left|done]. }
  cbn [fst snd]. astep. cbn [exec_stmt writes notify fst snd]. astep. simpl in *.
  exists t1. split; [lia|]. split_and!; simpl; try done. lia.
Qed.

Lemma rollup_terminal job m :
  some_entry job not_terminal m = false -> no_entry job m = false ->
  (rollup job m = Some (if some_entry job (has_status Failed) m then Failed else Succeeded, true) <->
   some_entry job (has_status Failed) m = true \/ some_entry job (has_status Cancelled) m = false).
Proof.
  intros Hact Hne. unfold rollup. rewrite Hact, Hne.
  assert (forall g, some_entry job g m = false -> forall id r, m !! id = Some r -> h_job r = job -> g r = false) as Hno.
  { intros g. unfold some_entry. case_bool_decide as Hall; [|done]. intros _ id r Hr. by apply Hall in Hr. }
  assert (exists id r, m !! id = Some r /\ h_job r = job) as (id & r & Hr & Hj).
  { unfold no_entry in Hne. apply bool_decide_eq_false in Hne.
    apply map_not_Forall in Hne as (id & r & Hr & Hj); [|solve_decision].
    exists id, r. split; [done|]. by apply dec_stable in Hj. }
  unfold all_entries. case_bool_decide as Hs.
  - assert (some_entry job (has_status Failed) m = false /\ some_entry job (has_status Cancelled) m = false) as [-> ->].
    { unfold some_entry. rewrite !bool_decide_true; [done|..]; intros k x Hx Hjx;
        unfold has_status; by rewrite (Hs k x Hx Hjx). }
    split; [by right|done].
  - case_bool_decide as Hc.
    + assert (some_entry job (has_status Failed) m = false) as ->.
      { unfold some_entry. rewrite bool_decide_true; [done|]. intros k x Hx Hjx. unfold has_status. by rewrite (Hc k x Hx Hjx). }
      split; [done|]. intros [?|Hcan]; [done|]. specialize (Hno _ Hcan id r Hr Hj).
      unfold has_status in Hno. by rewrite (Hc id r Hr Hj) in Hno.
    + destruct (some_entry job (has_status Failed) m) eqn:Hf; [split; [by left|done]|].
      split; [done|]. intros [?|Hcan]; [done|]. exfalso. apply Hs. intros k x Hx Hjx.
      pose proof (Hno _ Hact k x Hx Hjx) as Ha. pose proof (Hno _ Hf k x Hx Hjx) as Hb.
      pose proof (Hno _ Hcan k x Hx Hjx) as Hd. unfold not_terminal, has_status in *. by destruct (h_status x).
Qed.

(** An event for a pair none of whose entries is active. *)
Lemma update_where_none {A} (g : A -> bool) (f : A -> A) (m : gmap uuid A) :
  (forall k r, m !! k = Some r -> g r = false) -> update_where g f m = (0, m).
Proof.
  intros Hno. unfold update_where. f_equal.
  - assert (List.filter (fun kv : uuid * A => g kv.2) (map_to_list m) = []) as ->; [|done].
    destruct (List.filter _ (map_to_list m)) as [|[k r] l] eqn:Hl; [done|].
    assert ((k, r) ∈ rows_where g m) as Hin by (unfold rows_where; rewrite Hl; set_solver).
    apply rows_where_elem in Hin as [Hk Hg]. by rewrite (Hno k r) in Hg.
  - apply map_eq. intros k. rewrite lookup_fmap. destruct (m !! k) as [r|] eqn:Hk; simpl; [|done].
    by rewrite (Hno k r).
Qed.

(** Tables but the clock. *)
Definition unchanged (d d' : db) : Prop := exists t, db_now d <= t /\ d' = set_now t d.

Lemma stale_event_ok row ev d :
  (forall id r, db_pjhs d !! id = Some r -> h_job r = rl_job row -> h_host r = rl_host row ->
     terminal (h_status r) = true) ->
  awp (process_event row ev) (fun _ d' => unchanged d d') d.
Proof.
  intros Hall. unfold process_event. destruct (event_db_status (ev_status ev)) as [st|].
  2:{ exists (db_now d). split; [lia|by destruct d]. }
  assert (forall f, update_where (fun r => of_pair (rl_job row) (rl_host row) r && not_terminal r) f (db_pjhs d)
          = (0, db_pjhs d)) as Hnone.
  { intros f. apply update_where_none. intros k r Hk. unfold of_pair, of_job, not_terminal.
    repeat case_bool_decide; simpl; try done. by rewrite (Hall k r). }
  cbn zeta. destruct (terminal st); (astep; cbn [exec_stmt writes];
    unfold upd_relay_terminal, upd_relay_progress, on_pjhs; cbn [set_now db_pjhs]; rewrite Hnone;
    cbn [writes fst snd Z.eqb]; astep; exists t; split; [done|reflexivity]).
Qed.

(** A poll that reports success for a row the guard finds terminal. *)
Lemma stale_success_ok row out d :
  (forall r, db_pjhs d !! rr_id row = Some r -> terminal (h_status r) = true) ->
  awp (mark_succeeded row out) (fun _ d' => unchanged d d') d.
Proof.
  intros Hall. unfold mark_succeeded. astep. cbn [exec_stmt]. unfold upd_succeeded, on_pjhs, update_one.
  cbn [set_now db_pjhs]. destruct (db_pjhs d !! rr_id row) as [r|] eqn:Hr.
  - unfold not_terminal. rewrite (Hall r eq_refl). cbn [negb writes fst snd Z.eqb]. astep. by exists t.
  - cbn [writes fst snd Z.eqb]. astep. by exists t.
Qed.

Lemma fresh_success_ok row out d r j :
  db_pjhs d !! rr_id row = Some r -> terminal (h_status r) = false ->
  db_jobs d !! rr_job row = Some j -> job_active j = true -> auto_index_ok (db_jobs d) = true ->
  awp (mark_succeeded row out)
    (fun _ d' => exists now now', db_now d <= now <= now' /\
       db_pjhs d' = <[rr_id row := pjh_succeeded now out r]> (db_pjhs d) /\
       db_jobs d' = <[rr_job row := rolled_up now' (rollup (rr_job row) (db_pjhs d')) j]> (db_jobs d)) d.
Proof.
  intros Hr Hterm Hj Ha Hi. unfold mark_succeeded. astep. cbn [exec_stmt]. unfold upd_succeeded, on_pjhs.
  cbn [set_now db_pjhs db_now].
  rewrite (update_one_hit _ _ _ _ _ Hr) by (unfold not_terminal; by rewrite Hterm).
  cbn [writes fst snd Z.eqb]. eapply awp_mono; [by apply (sync_job_status_ok (rr_job row) _ j)|].
  intros [] d' (now & Hnow & Hp & _ & _ & Hjobs & _). simpl in *. exists t, now. rewrite Hp. by split_and!.
Qed.

(** ** The properties *)

(** One reported failure of a host entry: a terminal entry is left alone; the
    first three failures put it back to pending, with the counter incremented
    and the retry 1, 5 and 30 minutes from now; the next one fails it, with
    the message, and rolls the job up from its entries. *)
Theorem handle_host_failure_spec id msg d r j :
  db_pjhs d !! id = Some r -> db_jobs d !! h_job r = Some j -> job_active j = true ->
  auto_index_ok (db_jobs d) = true -> 0 <= h_retry_count r ->
  awp (handle_host_failure id msg) (fun _ d' => after_failure d d' id msg r j) d.
Proof. apply host_failure_ok. Qed.

Lemma handle_host_failure_spec_witness :
  awp (handle_host_failure row_b "boom")
    (fun _ d' => after_failure (demo_db PatchApply Running Failed Running) d' row_b "boom"
                   (demo_row host_b Running 0 None) (demo_job PatchApply Running))
    (demo_db PatchApply Running Failed Running).
Proof.
  apply (handle_host_failure_spec row_b "boom"%string (demo_db PatchApply Running Failed Running)
           (demo_row host_b Running 0 None) (demo_job PatchApply Running));
    [reflexivity|reflexivity|reflexivity|vm_compute; reflexivity|vm_compute; discriminate].
Defined.

(** C4. The status of a job after [sync_job_status] is the roll-up of its host
    entries: running while an entry is active, succeeded (cancelled) when there
    is one and all of them are, failed when all are terminal and one failed;
    the completion time is set exactly then, and kept when it was set.  Nothing
    else changes. *)
Theorem sync_job_status_spec job d j :
  db_jobs d !! job = Some j -> job_active j = true -> auto_index_ok (db_jobs d) = true ->
  awp (sync_job_status job)
    (fun _ d' => exists now, db_now d <= now /\ only_job d d' job (rolled_up now (rollup job (db_pjhs d)) j)) d.
Proof. apply sync_job_status_ok. Qed.

Lemma sync_job_status_spec_witness :
  rollup job_1 (db_pjhs (demo_db PatchApply Running Failed Succeeded)) = Some (Failed, true) /\
  awp (sync_job_status job_1)
    (fun _ d' => exists now, db_now (demo_db PatchApply Running Failed Succeeded) <= now /\
       only_job (demo_db PatchApply Running Failed Succeeded) d' job_1
         (rolled_up now (rollup job_1 (db_pjhs (demo_db PatchApply Running Failed Succeeded)))
            (demo_job PatchApply Running)))
    (demo_db PatchApply Running Failed Succeeded).
Proof.
  split; [vm_compute; reflexivity|].
  apply (sync_job_status_spec job_1 (demo_db PatchApply Running Failed Succeeded) (demo_job PatchApply Running));
    vm_compute; reflexivity.
Defined.

(** The counters of the executor and those of the relay roll a finished job up
    to one status if and only if some entry failed or none was cancelled: the
    executor calls a job of cancelled entries cancelled and leaves a mix of
    succeeded and cancelled ones as it is, the relay calls both succeeded. *)
Theorem rollups_agree_iff job d :
  (forall id r, db_pjhs d !! id = Some r -> h_job r = job -> terminal (h_status r) = true) ->
  (exists id r, db_pjhs d !! id = Some r /\ h_job r = job) ->
  let '(_, _, failed) := sel_rollup job d in
  sync_decision (sel_counts job d) = Some (rollup_status failed, true) <->
  (exists id r, db_pjhs d !! id = Some r /\ h_job r = job /\ h_status r = Failed) \/
  (forall id r, db_pjhs d !! id = Some r -> h_job r = job -> h_status r <> Cancelled).
Proof.
  intros Hterm (id0 & r0 & Hr0 & Hj0). unfold sel_rollup, rollup_status.
  rewrite sync_decision_rollup, <- some_entry_count.
  assert (forall g, some_entry job g (db_pjhs d) = true <->
            exists id r, db_pjhs d !! id = Some r /\ h_job r = job /\ g r = true) as Hsome.
  { intros g. rewrite some_entry_count, Z.ltb_lt, count_where_pos. unfold of_job.
    setoid_rewrite andb_true_iff. setoid_rewrite bool_decide_eq_true. done. }
  rewrite rollup_terminal.
  - unfold has_status at 1. rewrite (Hsome (has_status Failed)), <- not_true_iff_false, Hsome. unfold has_status.
    setoid_rewrite bool_decide_eq_true. split; (intros [?|Hc]; [by left|right]).
    + intros id r Hr Hj Hs. apply Hc. eauto.
    + intros (id & r & Hr & Hj & Hs). by apply (Hc id r).
  - apply not_true_iff_false. rewrite Hsome. intros (id & r & Hr & Hj & Hn). unfold not_terminal in Hn.
    by rewrite (Hterm id r) in Hn.
  - unfold no_entry. apply bool_decide_eq_false. intros Hall. by apply (Hall id0 r0 Hr0).
Qed.

Lemma rollups_agree_iff_witness :
  sync_decision (sel_counts job_1 (demo_db PatchApply Running Succeeded Cancelled)) <>
    Some (rollup_status (sel_rollup job_1 (demo_db PatchApply Running Succeeded Cancelled)).2, true).
Proof.
  intros Heq.
  destruct (proj1 (rollups_agree_iff job_1 (demo_db PatchApply Running Succeeded Cancelled)
    ltac:(intros id r; simpl; rewrite lookup_insert_Some, lookup_singleton_Some;
          intros [[_ <-]|[_ [_ <-]]]; reflexivity)
    ltac:(exists row_a, (demo_row host_a Succeeded 0 None); split; reflexivity)) Heq) as [(id & r & Hr & _ & Hs)|Hc].
  - revert Hr Hs. simpl. rewrite lookup_insert_Some, lookup_singleton_Some.
    intros [[_ <-]|[_ [_ <-]]]; discriminate.
  - apply (Hc row_b (demo_row host_b Cancelled 0 None)); reflexivity.
Defined.

(** Late reports change nothing: an event for a pair whose entries are all
    terminal, and a successful poll of a terminal entry, leave every table as
    it was and notify nobody. *)
Theorem stale_reports_ignored rrow ev row out d :
  (forall id r, db_pjhs d !! id = Some r -> h_job r = rl_job rrow -> h_host r = rl_host rrow ->
     terminal (h_status r) = true) ->
  (forall r, db_pjhs d !! rr_id row = Some r -> terminal (h_status r) = true) ->
  awp (process_event rrow ev ;; mark_succeeded row out) (fun _ d' => unchanged d d') d.
Proof.
  intros Hev Hrow. apply awp_bind. eapply awp_mono; [by apply stale_event_ok|].
  intros [] d' (t & Ht & ->). eapply awp_mono; [by apply stale_success_ok|].
  intros [] d' (t' & Ht' & ->). exists t'. simpl in *. split; [lia|done].
Qed.

Lemma stale_reports_ignored_witness :
  awp (process_event (RelayRow job_1 host_a "agent-job" "a.example") (WsEvent "failed" None None) ;;
       mark_succeeded (RunningRow row_a "agent-job" job_1 host_a "10.0.0.1" 12443 PatchApply) "late")
    (fun _ d' => unchanged (demo_db PatchApply Running Cancelled Running) d')
    (demo_db PatchApply Running Cancelled Running).
Proof.
  apply stale_reports_ignored; simpl.
  - intros id r. rewrite lookup_insert_Some, lookup_singleton_Some.
    intros [[_ <-]|[_ [_ <-]]]; [reflexivity|intros _ Hh; discriminate].
  - intros r Hr. vm_compute in Hr. injection Hr as <-. reflexivity.
Defined.
