(* ===== verification/ExecFlow.v ===== *)
(** * The executor's gates, loops and deadlines

    What the executor may ask of an agent (the reboot gate), that the
    self-upgrade confirmation ends, which entries a time-out fails and what
    four failures in a row do to an entry. *)

From S2P Require Import Prelude Conc Schema Windows Statements SelfUpgrade JobExecutor WsRelay.
From S2P Require Import Rbac Scheduler JobsApi Scenario JobSafety JobFlow.

(** ** Reference definitions *)

(** Requests that cannot make the agent reboot its host. *)
Definition no_reboot (X : Type) (e : eff X) : Prop :=
  match e with
  | RebootHost _ => False
  | ApplyPatches _ _ allow _ => allow = false
  | _ => True
  end.

(** The host is held by an operator, or its package database is not clean. *)
Definition reboot_unsafe (h : host_row) : bool := host_reboot_paused h || negb (host_db_clean h).

(** An entry that has been running for longer than the time-out, at [now]. *)
Definition timed_out (secs now : Z) (jobs : gmap uuid patch_job) (r : patch_job_host) : bool :=
  match jobs !! h_job r, h_started_at r with
  | Some j, Some t =>
      has_status Running r && negb (bool_decide (j_kind j = SelfUpgrade)) && (t <? now - secs * second_us)
  | _, _ => false
  end.

(** ** The reboot gate *)

Section Gate.
Context (host : uuid) (h : host_row) (Hunsafe : reboot_unsafe h = true).

Let held (d : db) : Prop := db_hosts d !! host = Some h.

Definition keeps_hosts {X} (q : stmt X) : bool := match q with UpdHostVersion _ _ => false | _ => true end.

Lemma stmt_keeps_hosts {X} (q : stmt X) d : keeps_hosts q = true -> db_hosts (exec_stmt q d).2 = db_hosts d.
Proof.
  destruct q; try done; intros _; unfold exec_stmt, reads, writes, writes_jobs, notify, ins_auto_job, ins_job, ins_pjh;
    repeat first [case_match; try done | done];
    unfold upd_waiting, upd_mark_pjh_running, upd_agent_job, upd_succeeded, upd_pending, upd_failed,
      upd_requeue, upd_timed_out, upd_relay_terminal, upd_relay_progress, upd_cancel_hosts, upd_mark_job_running,
      upd_parent_completed, upd_parent_status, upd_parent_final, upd_cancel_job, on_pjhs, on_jobs;
    by repeat case_match.
Qed.

Abbreviation gate := (@gsafe eff db alone _ no_reboot held).

Lemma gate_effect {X} (e : eff X) :
  no_reboot X e -> (match e with Sql q => keeps_hosts q = true | _ => True end) -> gate (trigger e).
Proof.
  intros Hg Hk. split; [done|]. intros s x s' Hs (s1 & (t & Ht & ->) & Hx). split; [|done].
  unfold held in *. destruct e; simpl in *; try (by subst s').
  - destruct Hx as [[_ ->]|[[] _]]. by rewrite stmt_keeps_hosts.
  - by destruct Hx as [-> _].
Qed.

Lemma gate_sql {X} (q : stmt X) : keeps_hosts q = true -> gate (sql q).
Proof. by apply (gate_effect (Sql q)). Qed.

Ltac gate_walk :=
  repeat first
    [ progress intros
    | exact I
    | assumption
    | by apply gate_sql
    | by apply gate_effect
    | apply gsafe_bind
    | progress lazy beta iota zeta
    | case_match ].

Lemma gate_failure id msg : gate (handle_host_failure id msg).
Proof. unfold handle_host_failure, sync_job_status, spawn. gate_walk. Qed.

Lemma gate_store id r : gate (store_agent_job id r).
Proof. unfold store_agent_job. case_match; [gate_walk|apply gate_failure]. Qed.

(** The safety state that is read is the host's. *)
Lemma gate_safety_state {A} (f : option (bool * bool) -> prog eff A) :
  gate (f (Some (host_reboot_paused h, host_db_clean h))) -> gate (bind (reboot_safety_state host) f).
Proof.
  intros Hf. unfold reboot_safety_state. apply (gsafe_bind_effect no_reboot held (Sql _)); [exact I|].
  intros s x s' Hs (s1 & (t & Ht & ->) & [[-> ->]|[[] _]]). split; [done|]. cbn [bind].
  unfold held in Hs. simpl. unfold sel_reboot_safety. simpl. by rewrite Hs.
Qed.

Lemma refused : exists reason, reboot_refusal_reason (host_reboot_paused h) (host_db_clean h) = Some reason.
Proof using Hunsafe.
  revert Hunsafe. unfold reboot_unsafe, reboot_refusal_reason.
  destruct (host_reboot_paused h), (host_db_clean h); simpl; eauto; done.
Qed.

Lemma gate_patch id a sel ar dl : gate (execute_patch_host_job id host a sel ar dl).
Proof using Hunsafe.
  unfold execute_patch_host_job. apply gsafe_bind.
  { unfold expand_packages. gate_walk. }
  intros packages. apply gate_safety_state. destruct refused as [reason ->]. cbn zeta.
  apply gsafe_bind; [by apply gate_effect|]. intros r. apply gate_store.
Qed.

Lemma gate_reboot id a : gate (execute_reboot_host_job id host a).
Proof using Hunsafe.
  unfold execute_reboot_host_job. apply gate_safety_state. destruct refused as [reason ->].
  apply gsafe_bind; [by apply gate_effect|]. intros _. apply gate_failure.
Qed.

Lemma gate_upgrade id a : gate (execute_self_upgrade_host_job id a).
Proof. unfold execute_self_upgrade_host_job. apply gsafe_bind; [by apply gate_effect|]. intros r. apply gate_store. Qed.

Lemma gate_execute job id : gate (execute_host_job job host id).
Proof using Hunsafe.
  unfold execute_host_job, check_host_health_checks, health_gate_closed, dispatch_host_job.
  repeat first [ exact I | simple apply gate_failure | apply gate_patch | apply gate_reboot | apply gate_upgrade
               | progress intros | exact I | by apply gate_sql | by apply gate_effect
               | apply gsafe_bind | progress lazy beta iota zeta | case_match ].
Qed.
End Gate.

(** ** Leave to reboot

    What a run of the executor has been told of the safety of [host]: the answer
    of a reading gives leave to reboot if it failed, found no row, or found a
    host that is neither held nor unclean. *)

Definition stmt_leave (host : uuid) {X} (q : stmt X) : result X string -> bool :=
  match q in stmt Y return result Y string -> bool with
  | SelRebootSafety h => fun r =>
      bool_decide (h = host) &&
      match ok_flat r with Some (paused, clean) => negb paused && clean | None => true end
  | _ => fun _ => false
  end.

Definition gives_leave (host : uuid) {X} (e : eff X) : X -> bool :=
  match e in eff Y return Y -> bool with
  | Sql q => stmt_leave host q
  | _ => fun _ => false
  end.

(** Whatever is answered, no effect of [p] can reboot before an answer of this
    run has given leave ([leave]: one already has). *)
Fixpoint gated {A} (host : uuid) (leave : bool) (p : prog eff A) : Prop :=
  match p with
  | Ret _ => True
  | Vis e k => (leave = false -> no_reboot _ e) /\ forall x, gated host (leave || gives_leave host e x) (k x)
  end.

Section Leave.
Context (host : uuid).

Lemma gated_leave {A} (p : prog eff A) : gated host true p.
Proof. induction p as [a|X e k IH]; [done|]. by split. Qed.

Lemma gated_weaken {A} l (p : prog eff A) : gated host false p -> gated host l p.
Proof. case l; [intros _; apply gated_leave|done]. Qed.

Lemma gated_bind {A B} l (p : prog eff A) (f : A -> prog eff B) :
  gated host l p -> (forall a, gated host false (f a)) -> gated host l (bind p f).
Proof.
  intros Hp Hf. revert l Hp. induction p as [a|X e k IH]; intros l Hp; cbn [bind gated] in *; [by apply gated_weaken|].
  destruct Hp as [He Hk]. split; [done|]. intros x. by apply IH.
Qed.

Lemma gated_effect {X} l (e : eff X) : no_reboot X e -> gated host l (trigger e).
Proof. intros He. by split. Qed.

Lemma gated_sql {X} l (q : stmt X) : gated host l (sql q).
Proof. by apply gated_effect. Qed.

Ltac gated_walk :=
  repeat first
    [ progress intros
    | exact I
    | assumption
    | apply gated_sql
    | by apply gated_effect
    | apply gated_bind
    | progress lazy beta iota zeta
    | case_match ].

Lemma gated_failure l id msg : gated host l (handle_host_failure id msg).
Proof. unfold handle_host_failure, sync_job_status, spawn. gated_walk. Qed.

Lemma gated_store l id r : gated host l (store_agent_job id r).
Proof. unfold store_agent_job. case_match; [gated_walk|apply gated_failure]. Qed.

(** What is refused is what gives no leave. *)
Lemma gated_safety_state {A} (f : option (bool * bool) -> prog eff A) :
  (forall paused clean, is_Some (reboot_refusal_reason paused clean) -> gated host false (f (Some (paused, clean)))) ->
  gated host false (bind (reboot_safety_state host) f).
Proof.
  intros Hf. split; [done|]. cbn [bind]. intros x.
  change (gated host (stmt_leave host (SelRebootSafety host) x) (f (ok_flat x))). unfold stmt_leave.
  rewrite bool_decide_true by done. destruct (ok_flat x) as [[paused clean]|]; [|apply gated_leave].
  specialize (Hf paused clean). unfold reboot_refusal_reason in Hf.
  destruct paused, clean; simpl in *; first [apply gated_leave | apply Hf; eauto].
Qed.

Lemma gated_patch id a sel ar dl : gated host false (execute_patch_host_job id host a sel ar dl).
Proof.
  unfold execute_patch_host_job. apply gated_bind; [unfold expand_packages; gated_walk|].
  intros packages. apply gated_safety_state. intros paused clean [reason ->]. cbn zeta.
  apply gated_bind; [by apply gated_effect|]. intros r. apply gated_store.
Qed.

Lemma gated_reboot id a : gated host false (execute_reboot_host_job id host a).
Proof.
  unfold execute_reboot_host_job. apply gated_safety_state. intros paused clean [reason ->].
  apply gated_bind; [by apply gated_effect|]. intros _. apply gated_failure.
Qed.

Lemma gated_upgrade id a : gated host false (execute_self_upgrade_host_job id a).
Proof. unfold execute_self_upgrade_host_job. apply gated_bind; [by apply gated_effect|]. intros r. apply gated_store. Qed.

Lemma gated_execute job id : gated host false (execute_host_job job host id).
Proof.
  unfold execute_host_job, check_host_health_checks, health_gate_closed, dispatch_host_job.
  repeat first [ exact I | simple apply gated_failure | apply gated_patch | apply gated_reboot | apply gated_upgrade
               | progress intros | apply gated_sql | by apply gated_effect
               | apply gated_bind | progress lazy beta iota zeta | case_match ].
Qed.
End Leave.

(** ** The self-upgrade confirmation ends *)

Section Reconnect.
Context {St : Type} `{EffectSem eff St} (cfg : worker_config) (row : running_row) (a : agent)
  (target old : option string).

Lemma reconnect_loop_ends n elapsed s :
  0 < cfg_reconnect_poll_interval_secs cfg ->
  cfg_reconnect_timeout_secs cfg <= elapsed + Z.of_nat n * cfg_reconnect_poll_interval_secs cfg ->
  (n <> 0)%nat ->
  wp (reconnect_loop n cfg row a target old elapsed) (fun finished _ => finished = true) s.
Proof.
  intros Hp. revert elapsed s. induction n as [|n IH]; intros elapsed s Hn Hn0; [done|].
  cbn [reconnect_loop]. apply wp_bind, wp_true. intros _ s1. apply wp_bind, wp_true. intros health s2.
  destruct (decide_version_sample health target old) as [v| |reason].
  - by apply wp_bind, wp_true.
  - destruct (Z.leb_spec (cfg_reconnect_timeout_secs cfg) (elapsed + cfg_reconnect_poll_interval_secs cfg)).
    + by apply wp_bind, wp_true.
    + apply IH; [lia|]. intros ->. lia.
  - by apply wp_bind, wp_true.
Qed.
End Reconnect.

(** ** Time-outs *)

Lemma sync_keeps_rows job d : awp (sync_job_status job) (fun _ d' => db_pjhs d' = db_pjhs d) d.
Proof.
  assert (forall st d1, db_pjhs d1 = db_pjhs d ->
            db_pjhs (exec_stmt (UpdParentCompleted job st) d1).2 = db_pjhs d /\
            db_pjhs (exec_stmt (UpdParentStatus job st) d1).2 = db_pjhs d) as Hk.
  { intros st d1 <-. unfold exec_stmt, writes_jobs, upd_parent_completed, upd_parent_status.
    split; (destruct (on_jobs_update job (fun _ => true) (fun j => job_with st (j_started_at j) (some_or (j_completed_at j) (db_now d1)) j) d1) as [H1 _];
      destruct (on_jobs_update job (fun _ => true) (fun j => job_with st (j_started_at j) (j_completed_at j) j) d1) as [H2 _];
      case_match; [assumption|reflexivity]). }
  unfold sync_job_status. astep. cbn [exec_stmt reads fst snd].
  destruct (sync_decision _) as [[st completed]|]; [|by astep].
  astep. destruct completed; astep; (case_match || idtac); astep; astep; try (astep; simpl; apply Hk; done);
    simpl; apply Hk; done.
Qed.

Section TimeOuts.
Context (show_time : Z -> string) (cfg : worker_config).

(** The body of the loop of fail_timed_out_jobs. *)
Definition fail_one (row : timed_out_row) : prog eff unit :=
  let! now := trigger UtcNow in
  let msg := ("Job timed out after " ++ dec (Z.quot (now - to_started row) second_us) ++
              " seconds (started at " ++ show_time (to_started row) ++
              "). The agent may have rebooted or become unreachable.")%string in
  let! w := sql (UpdTimedOut (to_id row) msg) in
  match w with
  | Ok n => if 0 <? n then sync_job_status (to_job row) else skip
  | Err _ => skip
  end.

(** An entry before and after the loop over [rows]. *)
Definition timed_out_step (ids : list uuid) (id : uuid) (r r' : patch_job_host) : Prop :=
  if bool_decide (id ∈ ids) && has_status Running r
  then exists now msg, r' = pjh_timed_out now msg r
  else r' = r.

Lemma fail_one_ok row d :
  awp (fail_one row)
    (fun _ d' => forall id, option_relation (timed_out_step [to_id row] id) (fun _ => False) (fun _ => False)
                   (db_pjhs d !! id) (db_pjhs d' !! id)) d.
Proof.
  unfold fail_one. astep. cbn zeta. astep. cbn [exec_stmt writes]. unfold upd_timed_out, on_pjhs.
  cbn [set_now db_pjhs db_now].
  match goal with |- context [pjh_timed_out ?n ?m] => set (msg := m); set (now := n) end.
  assert (forall id, option_relation (timed_out_step [to_id row] id) (fun _ => False) (fun _ => False)
            (db_pjhs d !! id) ((update_one (to_id row) (has_status Running) (pjh_timed_out now msg) (db_pjhs d)).2 !! id))
    as Hstep.
  { intros id. rewrite update_one_lookup. destruct (db_pjhs d !! id) as [r|]; simpl; [|done].
    unfold timed_out_step. rewrite (bool_decide_ext (id ∈ [to_id row]) (id = to_id row)) by apply list_elem_of_singleton.
    destruct (bool_decide (id = to_id row) && has_status Running r); [by exists now, msg|done]. }
  destruct (update_one _ _ _ (db_pjhs d)) as [n m]; cbn [fst snd writes] in *.
  destruct (0 <? n); [|by astep].
  eapply awp_mono; [apply sync_keeps_rows|]. cbn. intros [] d' ->. exact Hstep.
Qed.

Lemma fail_all_ok rows d :
  awp (for_each rows fail_one)
    (fun _ d' => forall id, option_relation (timed_out_step (to_id <$> rows) id) (fun _ => False) (fun _ => False)
                   (db_pjhs d !! id) (db_pjhs d' !! id)) d.
Proof.
  revert d. induction rows as [|row rows IH]; intros d; cbn [for_each].
  - astep. intros id. destruct (db_pjhs d !! id); simpl; [|done]. unfold timed_out_step.
    by rewrite bool_decide_false by set_solver.
  - apply awp_bind. eapply awp_mono; [apply fail_one_ok|]. intros [] d1 H1.
    eapply awp_mono; [apply IH|]. intros [] d2 H2 id. specialize (H1 id). specialize (H2 id). revert H1 H2.
    destruct (db_pjhs d !! id) as [r|], (db_pjhs d1 !! id) as [r1|]; simpl; try done.
    destruct (db_pjhs d2 !! id) as [r2|]; simpl; [|done].
    unfold timed_out_step. rewrite ?fmap_cons. intros H1 H2.
    destruct (has_status Running r) eqn:Hrun; rewrite ?andb_true_r, ?andb_false_r in *.
    + destruct (decide (id = to_id row)) as [->|Hne].
      * rewrite bool_decide_true in H1 by set_solver. destruct H1 as (now & msg & ->).
        simpl in H2. rewrite andb_false_r in H2. subst r2.
        rewrite bool_decide_true by set_solver. eauto.
      * rewrite bool_decide_false in H1 by (clear -Hne; set_solver). subst r1. rewrite Hrun, andb_true_r in H2.
        rewrite (bool_decide_ext _ (id ∈ to_id <$> rows)) by (clear -Hne; set_solver). done.
    + subst r1. by rewrite Hrun, andb_false_r in H2.
Qed.
End TimeOuts.

(** An entry that has timed out and that its agent had accepted. *)
Definition accepted_timed_out (secs now : Z) (d : db) : Prop :=
  exists id r, db_pjhs d !! id = Some r /\ timed_out secs now (db_jobs d) r = true /\ is_Some (h_agent_job r).

(** What [fail_timed_out_jobs] does to the entries: nothing while one that an
    agent accepted has timed out; else it fails those that have. *)
Definition after_time_outs (secs now : Z) (d : db) (rows' : gmap uuid patch_job_host) : Prop :=
  (accepted_timed_out secs now d -> rows' = db_pjhs d) /\
  (~ accepted_timed_out secs now d ->
   forall id r, db_pjhs d !! id = Some r -> exists r', rows' !! id = Some r' /\
     if timed_out secs now (db_jobs d) r then exists t msg, r' = pjh_timed_out t msg r else r' = r).

Lemma sel_timed_out_ok secs d :
  match sel_timed_out secs d with
  | Err _ => accepted_timed_out secs (db_now d) d
  | Ok rows =>
      ~ accepted_timed_out secs (db_now d) d /\
      forall id, id ∈ to_id <$> rows <->
        exists r, db_pjhs d !! id = Some r /\ timed_out secs (db_now d) (db_jobs d) r = true
  end.
Proof.
  unfold sel_timed_out. cbv zeta. match goal with |- context [existsb _ ?l] => set (rows := l) end.
  assert (forall aj row, (aj, row) ∈ rows <-> exists r, db_pjhs d !! to_id row = Some r /\ h_agent_job r = aj /\
            timed_out secs (db_now d) (db_jobs d) r = true /\ row = TimedOutRow (to_id row) (h_job r) (to_started row)
            /\ h_started_at r = Some (to_started row)) as Hrows.
  { intros aj row. unfold rows, timed_out. rewrite list_elem_of_omap. split.
    - intros ([k r] & Hk & Hr). apply elem_of_map_to_list in Hk. simpl in Hr.
      destruct (db_jobs d !! h_job r) as [j|] eqn:Hj; [|done]. simpl in Hr.
      destruct (h_started_at r) as [t|] eqn:Ht; [|done]. simpl in Hr. case_match; simplify_eq/=.
      exists r. rewrite Hj, Ht. by split_and!.
    - intros (r & Hr & <- & Ht & Hrow & Hs). exists (to_id row, r). split; [by apply elem_of_map_to_list|].
      simpl. rewrite Hs in *. destruct (db_jobs d !! h_job r); [|done]. simpl. rewrite Ht. by rewrite <- Hrow. }
  destruct (existsb _ rows) eqn:Hex.
  - apply existsb_exists in Hex as ([aj row] & Hin & Haj). apply bool_decide_eq_true in Haj.
    apply list_elem_of_In in Hin. apply Hrows in Hin as (r & Hr & <- & Ht & _). by exists (to_id row), r.
  - split.
    + intros (id & r & Hr & Ht & Haj). apply not_true_iff_false in Hex. apply Hex, existsb_exists.
      destruct (h_started_at r) as [t|] eqn:Hs; [|unfold timed_out in Ht; rewrite Hs in Ht; by case_match].
      exists (h_agent_job r, TimedOutRow id (h_job r) t). split; [|by apply bool_decide_eq_true].
      apply list_elem_of_In, Hrows. exists r. by split_and!.
    + intros id. rewrite <- list_fmap_compose, list_elem_of_fmap. split.
      * intros ([aj row] & -> & Hin). apply Hrows in Hin as (r & Hr & _ & Ht & _). by exists r.
      * intros (r & Hr & Ht). destruct (h_started_at r) as [t|] eqn:Hs; [|unfold timed_out in Ht; rewrite Hs in Ht; by case_match].
        exists (h_agent_job r, TimedOutRow id (h_job r) t). split; [done|]. apply Hrows. exists r. by split_and!.
Qed.

Lemma fail_timed_out_ok show_time cfg d :
  cfg_job_timeout_secs cfg <> 0 ->
  awp (fail_timed_out_jobs show_time cfg)
    (fun _ d' => exists now, db_now d <= now /\ after_time_outs (cfg_job_timeout_secs cfg) now d (db_pjhs d')) d.
Proof.
  intros Hne. unfold fail_timed_out_jobs. destruct (Z.eqb_spec (cfg_job_timeout_secs cfg) 0); [done|].
  astep. cbn [exec_stmt fst snd].
  pose proof (sel_timed_out_ok (cfg_job_timeout_secs cfg) (set_now t d)) as Hel.
  destruct (sel_timed_out _ _) as [rows|e].
  2: { apply awp_ret. exists t. split; [done|]. split; [done|]. intros Hno. by destruct (Hno Hel). }
  destruct Hel as [Hno Hel].
  eapply awp_mono; [apply (fail_all_ok show_time)|]. intros [] d' Hd'. exists t. split; [done|].
  split; [intros Hyes; by destruct (Hno Hyes)|].
  intros _ id r Hr. specialize (Hd' id). simpl in Hd'. rewrite Hr in Hd'.
  destruct (db_pjhs d' !! id) as [r'|]; simpl in Hd'; [|done]. exists r'. split; [done|].
  unfold timed_out_step in Hd'. specialize (Hel id). simpl in Hel.
  destruct (timed_out _ t (db_jobs d) r) eqn:Hto.
  - rewrite bool_decide_true in Hd' by (apply Hel; eauto).
    assert (has_status Running r = true) as Hrun.
    { unfold timed_out in Hto. destruct (db_jobs d !! h_job r), (h_started_at r); try done.
      by destruct (has_status Running r). }
    by rewrite Hrun in Hd'.
  - rewrite bool_decide_false in Hd'; [done|]. rewrite Hel. intros (r0 & Hr0 & Ht0). congruence.
Qed.

(** ** Attempts: a retry that fails *)

(** A due entry is queued again, marked running by its task, and fails. *)
Definition failing_attempt (id : uuid) (msg : string) : prog eff unit :=
  let! _ := sql (UpdRequeue id) in
  let! _ := sql (UpdMarkPjhRunning id) in
  handle_host_failure id msg.

Fixpoint failing_attempts (id : uuid) (msgs : list string) : prog eff unit :=
  match msgs with
  | [] => skip
  | msg :: msgs' => failing_attempt id msg ;; failing_attempts id msgs'
  end.

(** An entry that [n] failures have put back to pending. *)
Definition retrying (id job : uuid) (j : patch_job) (n : Z) (d : db) : Prop :=
  db_jobs d !! job = Some j /\ auto_index_ok (db_jobs d) = true /\
  exists r, db_pjhs d !! id = Some r /\ h_job r = job /\ terminal (h_status r) = false /\ h_retry_count r = n.

Lemma failing_attempt_ok id job j n msg d :
  job_active j = true -> 0 <= n -> retrying id job j n d ->
  awp (failing_attempt id msg)
    (fun _ d' => if n <? 3
                 then retrying id job j (n + 1) d' /\ (h_status <$> db_pjhs d' !! id) = Some Pending
                 else exists r, db_pjhs d' !! id = Some r /\ h_status r = Failed /\ h_error r = Some msg) d.
Proof.
  intros Ha Hn (Hj & Hi & r & Hr & Hrj & Hterm & Hc). unfold failing_attempt.
  assert (forall r, terminal (h_status r) = false -> not_terminal r = true) as Hg
    by (intros r'; unfold not_terminal; by intros ->).
  astep. cbn [exec_stmt writes]. unfold upd_requeue, on_pjhs. cbn [set_now db_pjhs].
  rewrite (update_one_hit _ _ _ _ _ Hr) by auto. cbn [fst snd writes].
  astep. cbn [exec_stmt writes]. unfold upd_mark_pjh_running, on_pjhs. cbn [set_now set_pjhs db_pjhs db_now].
  rewrite (update_one_hit id _ _ _ (pjh_requeued r)) by (done || apply lookup_insert_eq). cbn [fst snd writes].
  eapply awp_mono.
  { eapply (host_failure_ok id msg _ (pjh_running t0 (pjh_requeued r)) j); simpl; [apply lookup_insert_eq| |done|done|lia].
    by rewrite Hrj. }
  intros [] d' Hd'. unfold after_failure in Hd'. simpl in Hd'. rewrite Hc in Hd'.
  destruct (Z.ltb_spec n 3) as [Hlt|Hge].
  - assert (is_Some (retry_minutes !! Z.to_nat n)) as [m Hm] by (apply lookup_lt_is_Some; simpl; lia).
    rewrite Hm in Hd'. destruct Hd' as (now & _ & Hjobs & Hp). split.
    + split; [by rewrite Hjobs|]. split; [by rewrite Hjobs|].
      eexists. rewrite Hp. split; [apply lookup_insert_eq|]. simpl. split_and!; done.
    + rewrite Hp, lookup_insert_eq. done.
  - rewrite (proj2 (lookup_ge_None retry_minutes (Z.to_nat n))) in Hd' by (simpl; lia).
    destruct Hd' as (now & now' & _ & Hp & _). eexists. rewrite Hp. split; [apply lookup_insert_eq|done].
Qed.

(** ** The properties *)

(** C5. The reboot gate of a dispatched job, of whatever kind.  Whatever the
    database and the agent answer (errors included) and whatever other tasks do
    meanwhile, the executor asks the agent to reboot, or lets a patch run reboot
    the host, only after a reading of the host's safety state in the same run
    that failed, found no row, or showed neither an operator's hold nor an
    unclean package database: the gate is open when the state cannot be read.
    Where the statements do not fail and nothing else runs, a host that is held
    or unclean is thus never rebooted. *)
Theorem unsafe_host_never_rebooted host job id :
  gated host false (execute_host_job job host id) /\
  (forall h d, db_hosts d !! host = Some h -> reboot_unsafe h = true ->
     @emits eff db alone _ (fun X e _ => no_reboot X e) (execute_host_job job host id) d).
Proof.
  split; [apply gated_execute|]. intros h d Hh Hu.
  apply (gsafe_emits no_reboot (fun d => db_hosts d !! host = Some h)); [|done]. by apply gate_execute.
Qed.

Lemma unsafe_host_never_rebooted_witness :
  gated host_b false (execute_host_job job_1 host_b row_b) /\
  @emits eff db alone _ (fun X e _ => no_reboot X e) (execute_host_job job_1 host_b row_b)
    (demo_db Reboot Running Queued Queued).
Proof.
  destruct (unsafe_host_never_rebooted host_b job_1 row_b) as [H1 H2]. split; [exact H1|].
  apply (H2 (demo_host true true)); vm_compute; reflexivity.
Defined.

(** C6. With a positive poll interval and a time-out that is not negative, the
    confirmation of a self-upgrade ends: the loop has reached a verdict after at
    most [timeout / interval + 1] polls, whatever the agent and the database
    answer and whatever the other tasks do meanwhile. *)
Theorem reconnect_confirm_terminates cfg row a s :
  0 < cfg_reconnect_poll_interval_secs cfg -> 0 <= cfg_reconnect_timeout_secs cfg ->
  @wp eff db concurrent _ (reconnect_confirm_self_upgrade cfg row a) (fun finished _ => finished = true) s.
Proof.
  intros Hp Ht. unfold reconnect_confirm_self_upgrade.
  apply wp_bind, wp_true. intros target s1. apply wp_bind, wp_true. intros old s2.
  apply reconnect_loop_ends; [done| |done]. unfold reconnect_fuel.
  pose proof (Z.div_pos (cfg_reconnect_timeout_secs cfg) _ Ht Hp).
  pose proof (Z.mul_succ_div_gt (cfg_reconnect_timeout_secs cfg) _ Hp). lia.
Qed.

Lemma reconnect_confirm_terminates_witness :
  @wp eff db concurrent _
    (reconnect_confirm_self_upgrade demo_cfg
       (RunningRow row_a "agent-job" job_1 host_a "10.0.0.1" 12443 SelfUpgrade) (Agent "10.0.0.1" 12443))
    (fun finished _ => finished = true) (demo_db SelfUpgrade Running Running Queued).
Proof. apply reconnect_confirm_terminates; vm_compute; [reflexivity|discriminate]. Defined.

(** With a zero poll interval it need not end: against an agent that stays at
    version 1.0.0 the confirmation of an upgrade to 2.0.0 is still waiting after
    any number of polls, long past the reconnect time-out. *)
Theorem reconnect_zero_interval_spins n timeout row a old d :
  (run (demo_world (agent_says "succeeded"))
     (reconnect_loop n (WorkerConfig 3600 (Z.pos timeout) 0 30) row a (Some "2.0.0"%string) old 0) d).1 = false.
Proof. revert d. induction n as [|n IH]; intros d; [done|]. apply IH. Qed.

(** [fail_timed_out_jobs] fails exactly the entries that have been running
    for longer than the configured time-out and are not self-upgrades, and
    leaves every other entry as it was; but it does nothing as long as one of
    them was accepted by its agent, whose job id the query cannot decode. *)
Theorem fail_timed_out_jobs_spec show_time cfg d :
  cfg_job_timeout_secs cfg <> 0 ->
  awp (fail_timed_out_jobs show_time cfg)
    (fun _ d' => exists now, db_now d <= now /\ after_time_outs (cfg_job_timeout_secs cfg) now d (db_pjhs d')) d.
Proof. apply fail_timed_out_ok. Qed.

Lemma fail_timed_out_jobs_spec_witness :
  timed_out 3600 noon (db_jobs (demo_db PatchApply Running Running Running)) (demo_row host_a Running 0 None) = true /\
  awp (fail_timed_out_jobs (fun _ => ""%string) demo_cfg)
    (fun _ d' => exists now, db_now (demo_db PatchApply Running Running Running) <= now /\
       after_time_outs 3600 now (demo_db PatchApply Running Running Running) (db_pjhs d'))
    (demo_db PatchApply Running Running Running).
Proof.
  split; [vm_compute; reflexivity|].
  apply (fail_timed_out_jobs_spec (fun _ => ""%string) demo_cfg (demo_db PatchApply Running Running Running)).
  vm_compute; discriminate.
Defined.

(** The retry ladder: three failed attempts in a row put an entry back to
    pending each time, and the fourth fails it, with the message of that
    attempt. *)
Theorem fourth_failure_is_final id job j m1 m2 m3 m4 d :
  job_active j = true -> retrying id job j 0 d ->
  awp (failing_attempts id [m1; m2; m3])
    (fun _ d' => retrying id job j 3 d' /\ (h_status <$> db_pjhs d' !! id) = Some Pending) d /\
  awp (failing_attempts id [m1; m2; m3; m4])
    (fun _ d' => exists r, db_pjhs d' !! id = Some r /\ h_status r = Failed /\ h_error r = Some m4) d.
Proof.
  intros Ha H0. cbn [failing_attempts].
  split; (apply awp_bind; eapply awp_mono; [by apply (failing_attempt_ok id job j 0)|]; intros [] d1 [H1 _];
    apply awp_bind; eapply awp_mono; [by apply (failing_attempt_ok id job j 1)|]; intros [] d2 [H2 _];
    apply awp_bind; eapply awp_mono; [by apply (failing_attempt_ok id job j 2)|]; intros [] d3 [H3 Hs3]).
  - by split.
  - apply awp_bind. eapply awp_mono; [by apply (failing_attempt_ok id job j 3)|]. by intros [] d4 H4.
Qed.

Lemma fourth_failure_is_final_witness :
  awp (failing_attempts row_b ["a"; "b"; "c"; "d"]%string)
    (fun _ d' => exists r, db_pjhs d' !! row_b = Some r /\ h_status r = Failed /\ h_error r = Some "d"%string)
    (demo_db PatchApply Running Succeeded Pending).
Proof.
  refine (proj2 (fourth_failure_is_final row_b job_1 (demo_job PatchApply Running) "a" "b" "c" "d" _ _ _)).
  - reflexivity.
  - split; [reflexivity|]. split; [vm_compute; reflexivity|].
    exists (demo_row host_b Pending 0 None). repeat split; reflexivity.
Defined.
