(* ===== verification/HealthFlow.v ===== *)
(** * Health checks: theorems

    What a cycle of the poller makes the gate of the job executor say, the limit
    on the checks of a host, and when the two implementations of a check agree. *)

From S2P Require Import Prelude Ordering Rbac Conc SelfUpgrade AgentClient HealthChecks.
From S2P Require Import Schema Windows Statements JobExecutor JobSafety JobFlow.

(** ** Checks on a database that works: only time passes *)
Definition checks_alone : EffectSem check_eff checks_db := fun X e s x s' =>
  exists t, cd_now s <= t /\
    match e in check_eff Y return Y -> Prop with
    | CheckSql q => fun x => x = (exec_check_stmt q (checks_at t s)).1 /\ s' = (exec_check_stmt q (checks_at t s)).2
    | _ => fun _ => s' = checks_at t s
    end x.

(** ** The latest result *)

Lemma newer_total x y : True -> True -> newer x y = Gt -> newer y x <> Gt.
Proof. unfold newer. rewrite Z.compare_gt_iff, Z.compare_gt_iff. lia. Qed.
Lemma newer_trans x y z : True -> True -> True -> newer x y <> Gt -> newer y z <> Gt -> newer x z <> Gt.
Proof. unfold newer. rewrite !Z.compare_gt_iff. lia. Qed.

Definition result_of (id : uuid) (m : gmap uuid check_result) (r : check_result) : Prop :=
  cr_check r = id /\ exists k, m !! k = Some r.

Lemma latest_of_max id m r :
  result_of id m r -> (forall r', result_of id m r' -> r' = r \/ cr_checked_at r' < cr_checked_at r) -> latest_of id m = Some r.
Proof.
  intros Hr Hmax. unfold latest_of. set (l := List.filter _ _).
  assert (forall x, x ∈ l <-> result_of id m x) as Hl.
  { intros x. unfold l. rewrite list_elem_of_In, List.filter_In, <- list_elem_of_In, bool_decide_eq_true, list_elem_of_fmap.
    unfold result_of. split.
    - intros [([k y] & -> & Hk%elem_of_map_to_list) Hid]. split; [done|by exists k].
    - intros [Hid [k Hk]]. split; [|done]. exists (k, x). split; [done|by apply elem_of_map_to_list]. }
  pose proof (sort_by_sorted newer (fun _ => True) newer_total newer_trans l ltac:(by apply Forall_true)) as Hs.
  pose proof (sort_by_perm newer l) as Hp. destruct (sort_by newer l) as [|x l'].
  - exfalso. apply Hl in Hr. rewrite <- Hp in Hr. by apply elem_of_nil in Hr.
  - simpl. f_equal. assert (result_of id m x) as Hx by (apply Hl; rewrite <- Hp; by left).
    destruct (Hmax x Hx) as [|Hlt]; [done|]. apply Hl in Hr. rewrite <- Hp in Hr.
    apply elem_of_cons in Hr as [|Hin]; [done|]. apply StronglySorted_inv in Hs as [_ Hall].
    rewrite Forall_forall in Hall. specialize (Hall r Hin). unfold not_after, newer in Hall. rewrite Z.compare_gt_iff in Hall. lia.
Qed.

(** ** The tasks of a cycle *)

Definition reads_only (X : Type) (e : check_eff X) : Prop :=
  match e with
  | CheckSql (InsCheck _ _ _) | CheckSql (UpdCheck _ _ _ _) | CheckSql (DelCheck _ _) | CheckSql (InsResult _ _ _ _) | CheckSql DelOldResults => False
  | _ => True
  end.
Definition inserts (id : uuid) (healthy : bool) (X : Type) (e : check_eff X) : Prop :=
  match e with CheckSql (InsResult id' h _ _) => id' = id /\ h = healthy | _ => False end.

(** A task that will insert one result and return what it says. *)
Fixpoint pending (id : uuid) (p : prog check_eff bool) : Prop :=
  match p with
  | Ret _ => False
  | Vis e k => (reads_only _ e /\ forall x, pending id (k x)) \/ exists b, inserts id b _ e /\ forall x, k x = Ret b
  end.

Lemma pending_bind {A} id (p : prog check_eff A) f : only reads_only p -> (forall a, pending id (f a)) -> pending id (bind p f).
Proof.
  intros Hp Hf. induction p as [a|X e k IH]; simpl in *; [apply Hf|]. destruct Hp as [He Hk]. left. split; [done|]. intros x. by apply IH.
Qed.

#[local] Hint Extern 1 (reads_only _ _) => exact I : only.

Lemma run_check_pending pj iu idt row : pending (pr_id row) (run_check pj iu idt row).
Proof.
  unfold run_check. apply pending_bind; [unfold find_verdict, run_service_check, run_http_check, http_credentials; only_auto|].
  intros v. left. split; [done|]. intros ms. right. exists v.1. by split.
Qed.

Lemma reads_only_exec X (e : check_eff X) s x s' : reads_only X e -> checks_alone X e s x s' ->
  cd_now s <= cd_now s' /\ s' = checks_at (cd_now s') s.
Proof. intros Hr (t & Ht & He). destruct e as [Y q| | | | | | | | |]; try by subst. destruct He as [_ ->]. by destruct q. Qed.

(** Results since [T]: none, or exactly one, which says [b]. *)
Definition no_new (T : Z) (id : uuid) (d : checks_db) : Prop :=
  forall k r, cd_results d !! k = Some r -> cr_check r = id -> cr_checked_at r < T.
Definition has_new (T : Z) (id : uuid) (b : bool) (d : checks_db) : Prop :=
  exists k r, cd_results d !! k = Some r /\ cr_check r = id /\ T <= cr_checked_at r /\ cr_healthy r = b /\
    forall k' r', cd_results d !! k' = Some r' -> cr_check r' = id -> T <= cr_checked_at r' -> k' = k.

Definition task_state (T : Z) (d : checks_db) (row : poll_row) (p : prog check_eff bool) : Prop :=
  (pending (pr_id row) p /\ no_new T (pr_id row) d) \/ exists b, p = Ret b /\ has_new T (pr_id row) b d.

Lemma task_state_same T d d' row p : cd_results d' = cd_results d -> task_state T d row p -> task_state T d' row p.
Proof. unfold task_state, no_new, has_new. by intros ->. Qed.

Definition in_cycle (T : Z) (checks : gmap uuid check_row) (rows : list poll_row) (c : checks_db * list (prog check_eff bool)) : Prop :=
  T <= cd_now c.1 /\ cd_checks c.1 = checks /\ Forall2 (task_state T c.1) rows c.2.

(** The insertion of one task leaves the others as they are. *)
Lemma insert_other T d row p id r : pr_id row <> id -> cr_check r = id ->
  task_state T d row p -> task_state T (with_results (<[fresh (dom (cd_results d)) := r]> (cd_results d)) d) row p.
Proof.
  intros Hne Hid. set (k0 := fresh _). assert (cd_results d !! k0 = None) as Hnew by (apply not_elem_of_dom, is_fresh).
  intros [[Hp Hn]|(b & -> & k & r' & Hk & Hr & Ht & Hb & Huniq)]; [left|right].
  - split; [done|]. intros k' r' Hk' Hr'. cbn in Hk'. apply lookup_insert_Some in Hk' as [[_ <-]|[_ Hk']]; [congruence|by eapply Hn].
  - exists b. split; [done|]. exists k, r'. cbn. split_and!; [|done|done|done|].
    + rewrite lookup_insert_ne; [done|]. intros ->. congruence.
    + intros k' r'' Hk' Hr'' Ht''. apply lookup_insert_Some in Hk' as [[_ <-]|[_ Hk']]; [congruence|by eapply Huniq].
Qed.

Lemma insert_own T d id b detail ms : T <= cd_now d -> no_new T id d ->
  has_new T id b (with_results (<[fresh (dom (cd_results d)) := CheckResult id b (Some detail) ms (cd_now d)]> (cd_results d)) d).
Proof.
  intros HT Hn. set (k0 := fresh _). eexists k0, _. cbn. split_and!; [apply lookup_insert_eq|done|done|done|].
  intros k' r' Hk' Hr' Ht'. apply lookup_insert_Some in Hk' as [[<- _]|[_ Hk']]; [done|]. specialize (Hn k' r' Hk' Hr'). lia.
Qed.

Lemma in_cycle_step T checks rows c c' :
  NoDup (pr_id <$> rows) -> (forall row, row ∈ rows -> is_Some (checks !! pr_id row)) ->
  @cstep _ _ checks_alone _ (fun _ _ => []) (fun _ => False) c c' -> in_cycle T checks rows c -> in_cycle T checks rows c'.
Proof.
  intros Hnd Hin Hst (HT & Hch & Hts). destruct Hst as [s s' ts1 ts2 X e k x Hx|s ts p []]. cbn [fst snd] in *.
  apply Forall2_app_inv_r in Hts as (rows1 & rows2' & H1 & H2 & ->). apply Forall2_cons_inv_r in H2 as (row & rows2 & Hrow & H2 & ->).
  rewrite app_nil_r. destruct Hrow as [[[[Hr Hk]|(b & Hins & Hk)] Hn]|(b & Hb & _)]; [| |done].
  - destruct (reads_only_exec _ _ _ _ _ Hr Hx) as [Hle Hs']. split; cbn [fst snd]; [lia|]. split; [by rewrite Hs'|].
    assert (cd_results s' = cd_results s) as Hres by by rewrite Hs'.
    apply Forall2_app; [|constructor].
    + eapply Forall2_impl; [exact H1|]. intros ? ?. by apply task_state_same.
    + eapply task_state_same; [done|]. left. by split.
    + eapply Forall2_impl; [exact H2|]. intros ? ?. by apply task_state_same.
  - destruct Hx as (t & Ht & He). destruct e as [Y q| | | | | | | | |]; try done. destruct q; try done. destruct Hins as [-> ->].
    destruct He as [_ ->]. cbn [exec_check_stmt]. cbn [checks_at cd_checks].
    assert (is_Some (checks !! pr_id row)) as Hsome by (apply Hin; set_solver).
    rewrite Hch, bool_decide_true by done. cbn [snd]. split; cbn [fst snd]; [cbn; lia|]. split; [done|].
    rewrite fmap_app, fmap_cons in Hnd. apply NoDup_app in Hnd as (_ & Hd1 & Hnd2). apply NoDup_cons in Hnd2 as [Hd2 _].
    assert (forall rows' ts, (forall r, r ∈ rows' -> pr_id r <> pr_id row) -> Forall2 (task_state T s) rows' ts ->
      Forall2 (task_state T (with_results (<[fresh (dom (cd_results (checks_at t s))) := CheckResult (pr_id row) b (Some detail) latency_ms (cd_now (checks_at t s))]>
        (cd_results (checks_at t s))) (checks_at t s))) rows' ts) as Hothers.
    { intros rows' ts Hne Hf. induction Hf as [|r p rows' ts Hrp _ IH]; constructor; [|apply IH; set_solver].
      apply (insert_other _ (checks_at t s) _ _ (pr_id row)); [apply Hne; by left|done|]. by eapply task_state_same; [|exact Hrp]. }
    apply Forall2_app; [apply Hothers; [|done]|constructor; [|apply Hothers; [|done]]].
    + intros r Hr Heq. apply (Hd1 (pr_id r)); [by apply list_elem_of_fmap_2|]. rewrite Heq. by left.
    + right. exists b. split; [apply Hk|]. apply insert_own; cbn; [lia|]. done.
    + intros r Hr Heq. apply Hd2. rewrite <- Heq. by apply list_elem_of_fmap_2.
Qed.

(** ** A cycle *)

(** The verdicts of a cycle on the checks of a host. *)
Definition all_pass (host : uuid) (outcome : list (poll_row * bool)) : bool :=
  forallb (fun rb => negb (of_host host (pr_check rb.1)) || rb.2) outcome.

(** What the job executor's tables hold of the checks. *)
Definition stored_checks (d : checks_db) : gmap uuid health_check :=
  map_imap (fun id r => Some (HealthCheck (ck_host r) (ck_enabled r) (cr_healthy <$> latest_of id (cd_results d)))) (cd_checks d).

Definition enabled_rows (d : checks_db) (rows : list poll_row) : Prop :=
  NoDup (pr_id <$> rows) /\
  (forall row, row ∈ rows -> cd_checks d !! pr_id row = Some (pr_check row) /\ ck_enabled (pr_check row) = true) /\
  (forall id r, cd_checks d !! id = Some r -> ck_enabled r = true -> exists row, row ∈ rows /\ pr_id row = id).

Definition hosts_there (d : checks_db) : Prop := forall id r, cd_checks d !! id = Some r -> is_Some (cd_hosts d !! ck_host r).

Lemma poll_row_of_Some d kv row : poll_row_of d kv = Some row -> pr_id row = kv.1 /\ pr_check row = kv.2 /\ ck_enabled kv.2 = true.
Proof.
  unfold poll_row_of. destruct (ck_enabled kv.2); [|done]. destruct (cd_hosts d !! ck_host kv.2); [|done]. cbn. by intros [= <-].
Qed.

Lemma sel_enabled_rows d : hosts_there d -> forall rows, (exec_check_stmt SelEnabledChecks d).1 = Ok rows -> enabled_rows d rows.
Proof.
  intros Hh rows. cbn [exec_check_stmt fst]. intros [= <-]. set (l := omap _ _). unfold enabled_rows.
  assert (sort_by (fun a b => N.compare (pr_id a) (pr_id b)) l ≡ₚ l) as Hp by apply sort_by_perm. split_and!.
  - rewrite Hp. unfold l. clear Hp. pose proof (NoDup_fst_map_to_list (cd_checks d)) as Hnd. clear l.
    induction (map_to_list (cd_checks d)) as [|kv m IH]; [constructor|]. rewrite fmap_cons in Hnd. apply NoDup_cons in Hnd as [Hnin Hnd].
    cbn [omap list_omap]. destruct (poll_row_of d kv) as [row|] eqn:Hrow; [|by apply IH]. cbn [fmap list_fmap]. apply NoDup_cons. split; [|by apply IH].
    destruct (poll_row_of_Some _ _ _ Hrow) as (-> & _ & _). intros Hin. apply Hnin.
    apply list_elem_of_fmap in Hin as (row' & -> & Hin). apply list_elem_of_omap in Hin as (kv' & Hkv & Hrow').
    destruct (poll_row_of_Some _ _ _ Hrow') as (-> & _ & _). by apply list_elem_of_fmap_2.
  - intros row Hin. rewrite Hp in Hin. apply list_elem_of_omap in Hin as ([id r] & Hkv & Hrow).
    destruct (poll_row_of_Some _ _ _ Hrow) as (-> & -> & He). by apply elem_of_map_to_list in Hkv.
  - intros id r Hid He. destruct (Hh id r Hid) as [h Hhost]. exists (PollRow id r (kh_ip (default h (t ← ck_target r; cd_hosts d !! t)))
      (kh_port (default h (t ← ck_target r; cd_hosts d !! t)))). split; [|done]. rewrite Hp. apply list_elem_of_omap. exists (id, r).
    split; [by apply elem_of_map_to_list|]. unfold poll_row_of. cbn [fst snd]. by rewrite He, Hhost.
Qed.

Lemma in_cycle_reachable T checks rows c c' :
  NoDup (pr_id <$> rows) -> (forall row, row ∈ rows -> is_Some (checks !! pr_id row)) ->
  rtc (@cstep _ _ checks_alone _ (fun _ _ => []) (fun _ => False)) c c' -> in_cycle T checks rows c -> in_cycle T checks rows c'.
Proof. intros Hnd Hin. induction 1; eauto using in_cycle_step. Qed.

Lemma has_new_latest T id b d : has_new T id b d -> cr_healthy <$> latest_of id (cd_results d) = Some b.
Proof.
  intros (k & r & Hk & Hr & Ht & <- & Huniq). rewrite (latest_of_max id (cd_results d) r); [done|split; [done|by exists k]|].
  intros r' [Hr' [k' Hk']]. destruct (Z.lt_ge_cases (cr_checked_at r') T) as [|Hge]; [right; lia|].
  left. assert (k' = k) as -> by (eapply Huniq; eauto). congruence.
Qed.

Lemma has_new_pruned T id b d t : t - retention_us <= T -> has_new T id b d ->
  has_new T id b (with_results (filter (fun kv => t - retention_us <= cr_checked_at kv.2) (cd_results d)) d).
Proof.
  intros Ht (k & r & Hk & Hr & HT & Hb & Huniq). exists k, r. cbn. split_and!; [|done|done|done|].
  - apply map_lookup_filter_Some. split; [done|]. cbn. lia.
  - intros k' r' [Hk' _]%map_lookup_filter_Some. by apply Huniq.
Qed.

Lemma unhealthy_count_all_pass T d D rows verdicts host :
  enabled_rows d rows -> length verdicts = length rows ->
  Forall2 (fun row b => has_new T (pr_id row) b d) rows verdicts -> db_checks D = stored_checks d ->
  (sel_unhealthy_count host D =? 0) = all_pass host (zip rows verdicts).
Proof.
  intros (Hnd & Hrows & Hall) Hlen Hnew HD. unfold sel_unhealthy_count. rewrite HD.
  set (g := fun c : health_check => _).
  assert (0 < count_where g (stored_checks d) <-> exists row b, (row, b) ∈ zip rows verdicts /\ of_host host (pr_check row) = true /\ b = false) as Hpos.
  { rewrite count_where_pos. unfold stored_checks. split.
    - intros (id & c & Hid & Hg). rewrite map_lookup_imap in Hid. destruct (cd_checks d !! id) as [r|] eqn:Hr; [|done]. cbn in Hid. injection Hid as <-.
      unfold g in Hg. cbn in Hg. apply andb_true_iff in Hg as [[Hh He]%andb_true_iff Hl]. 
      destruct (Hall id r Hr He) as (row & Hin & Hrid). apply list_elem_of_lookup in Hin as [i Hi].
      destruct (Forall2_lookup_l _ _ _ _ _ Hnew Hi) as (b & Hb & Hhas). rewrite Hrid in Hhas. exists row, b.
      split; [|split].
      + apply list_elem_of_lookup. exists i. rewrite lookup_zip_with. by rewrite Hi, Hb.
      + destruct (Hrows row) as [Hck _]; [apply list_elem_of_lookup; by exists i|]. rewrite Hrid, Hr in Hck. injection Hck as <-. done.
      + rewrite (has_new_latest _ _ _ _ Hhas) in Hl. destruct b; [|done]. by rewrite bool_decide_true in Hl.
    - intros (row & b & Hin & Hh & ->). apply list_elem_of_lookup in Hin as [i Hi]. rewrite lookup_zip_with in Hi.
      destruct (rows !! i) as [row'|] eqn:Hri; [|done]. destruct (verdicts !! i) as [b'|] eqn:Hvi; [|done]. cbn in Hi. injection Hi as -> ->.
      pose proof (Forall2_lookup_lr _ _ _ _ _ _ Hnew Hri Hvi) as Hhas. destruct (Hrows row) as [Hck He]; [apply list_elem_of_lookup; by exists i|].
      exists (pr_id row). eexists. rewrite map_lookup_imap, Hck. cbn. split; [done|]. unfold g. cbn.
      rewrite (has_new_latest _ _ _ _ Hhas), He. unfold of_host in Hh. by rewrite Hh. }
  pose proof (count_where_nonneg g (stored_checks d)) as Hge. destruct (all_pass host (zip rows verdicts)) eqn:Hp.
  - apply Z.eqb_eq. destruct (Z.eq_dec (count_where g (stored_checks d)) 0) as [|Hne]; [done|]. exfalso.
    destruct (proj1 Hpos) as (row & b & Hin & Hh & ->); [lia|]. unfold all_pass in Hp. rewrite forallb_forall in Hp.
    specialize (Hp (row, false)). rewrite <- list_elem_of_In in Hp. specialize (Hp Hin). cbn in Hp. by rewrite Hh in Hp.
  - apply Z.eqb_neq. apply forallb_false in Hp as ([row b] & Hin & Hf). cbn in Hf. apply orb_false_iff in Hf as [Hh ->].
    apply negb_false_iff in Hh. enough (0 < count_where g (stored_checks d)) by lia. apply Hpos. by exists row, false.
Qed.

(** The gate reads those counts. *)
Lemma gate_answers host D b : (sel_unhealthy_count host D =? 0) = b ->
  awp (check_host_health_checks host) (fun r _ => r = Ok b) D.
Proof.
  intros Hb. unfold check_host_health_checks. apply awp_sql. intros t Ht. cbn [exec_stmt reads fst snd].
  change (sel_check_count host (set_now t D)) with (sel_check_count host D).
  destruct (Z.eqb_spec (sel_check_count host D) 0) as [H0|H0]; cbn [reads fst snd].
  - apply awp_ret. f_equal. rewrite <- Hb. symmetry. apply Z.eqb_eq.
    assert (sel_unhealthy_count host D <= sel_check_count host D) as Hle.
    { apply count_where_le. intros k r _ Hr. by apply andb_true_iff in Hr as [Hr _]. }
    pose proof (count_where_nonneg (fun c => bool_decide (hc_host c = host) && hc_enabled c &&
                        negb (bool_decide (hc_latest c = Some true))) (db_checks D)) as Hge.
    unfold sel_unhealthy_count in *. lia.
  - apply awp_sql. intros t' Ht'. cbn [exec_stmt reads fst snd]. apply awp_ret.
    change (sel_unhealthy_count host (set_now t' (set_now t D))) with (sel_unhealthy_count host D). by rewrite Hb.
Qed.

Lemma checks_to_run_ok d : hosts_there d ->
  @wp _ _ checks_alone _ checks_to_run (fun r s => match r with
    | Some rows => enabled_rows s rows /\ cd_now d <= cd_now s /\ s = checks_at (cd_now s) d
    | None => True end) d.
Proof.
  intros Hh certs d1 (t1 & Ht1 & ->). destruct certs; [|done]. intros key d2 (t2 & Ht2 & ->). destruct key; [|done].
  intros rows d3 (t3 & Ht3 & -> & ->). cbn [bind wp]. destruct (exec_check_stmt _ _).1 as [rows|e] eqn:Hr; [|done].
  cbn in Ht1, Ht2, Ht3. split_and!; [|cbn; lia|done]. by apply (sel_enabled_rows (checks_at t3 d)).
Qed.

Lemma prune_ok d : @wp _ _ checks_alone _ prune_old_results (fun _ s => exists t, cd_now d <= t /\ cd_now s = t /\
  s = with_results (filter (fun kv => t - retention_us <= cr_checked_at kv.2) (cd_results d)) (checks_at t d)) d.
Proof. intros x s (t & Ht & -> & ->). exists t. by split_and!. Qed.

Lemma pending_start T d rows pj iu idt : (forall k r, cd_results d !! k = Some r -> cr_checked_at r < T) ->
  Forall2 (task_state T d) rows (run_check pj iu idt <$> rows).
Proof.
  intros Hold. induction rows as [|row rows IH]; [constructor|]. constructor; [|done]. left. split; [apply run_check_pending|].
  intros k r Hk _. by eapply Hold.
Qed.

Lemma finished_new T d rows (verdicts : list bool) :
  Forall2 (task_state T d) rows (Ret <$> verdicts) -> Forall2 (fun row b => has_new T (pr_id row) b d) rows verdicts.
Proof.
  revert rows. induction verdicts as [|b verdicts IH]; intros rows Hf; [by inversion Hf|].
  apply Forall2_cons_inv_r in Hf as (row & rows' & [[[] _]|(b' & [= ->] & Hb)] & Hf & ->). constructor; [done|]. by apply IH.
Qed.

(** C7. After a cycle of the poller, in whatever order its concurrent checks ended,
    the gate of the job executor lets jobs of a host through exactly when every
    enabled check of the host passed in that cycle; no earlier result counts. *)
Theorem cycle_decides_gate pj iu idt d outcome d' host D :
  @poll_cycle pj iu idt checks_alone d (Some outcome) d' -> hosts_there d ->
  (forall k r, cd_results d !! k = Some r -> cr_checked_at r < cd_now d) ->
  cd_now d' <= cd_now d + retention_us -> db_checks D = stored_checks d' ->
  awp (check_host_health_checks host) (fun r _ => r = Ok (all_pass host outcome)) D.
Proof.
  intros Hcycle Hh Hold Hshort HD. apply gate_answers. inversion Hcycle as [|rows d1 verdicts d2 d3 Hrun Hlen Hr Hprune]; subst.
  destruct (wp_may _ _ _ _ (checks_to_run_ok d Hh) Hrun) as (r & s & Hok & -> & ->). destruct Hok as (Hrows & Hnow & Hs).
  destruct (wp_may _ _ _ _ (prune_ok d2) Hprune) as (x & s & (t & Ht & Hnow' & Hd') & ->).
  assert (in_cycle (cd_now d) (cd_checks d1) rows (d2, Ret <$> verdicts)) as (HT & Hch & Hts).
  { eapply in_cycle_reachable; [apply Hrows| |exact Hr|].
    - intros row Hin. destruct Hrows as (_ & Hrows & _). destruct (Hrows row Hin) as [-> _]. by eexists.
    - split; [done|]. split; [done|]. apply pending_start. rewrite Hs. exact Hold. }
  cbn [fst snd] in *. apply finished_new in Hts.
  apply (unhealthy_count_all_pass (cd_now d) d'); [|done| |done].
  - destruct Hrows as (Hnd & Hr1 & Hr2). rewrite Hd'. split; [done|]. cbn [with_results checks_at cd_checks]. rewrite Hch. by split.
  - eapply Forall2_impl; [exact Hts|]. intros row b Hb. rewrite Hd'.
    apply (has_new_pruned _ _ _ (checks_at t d2)); [lia|]. exact Hb.
Qed.

(** *** Cycles by a schedule *)

Definition returned (p : prog check_eff bool) : option bool := match p with Ret b => Some b | _ => None end.

(** A cycle in which [h] answers the effects and the tasks take turns as [sched] says. *)
Definition run_cycle (pj : string -> option json) (iu idt : string -> bool) (h : forall X, check_eff X -> checks_db -> X * checks_db)
    (sched : list nat) (d : checks_db) : option (option (list (poll_row * bool)) * checks_db) :=
  let '(rows, d1) := run h checks_to_run d in
  match rows with
  | None => Some (None, d1)
  | Some rows =>
      '(d2, ts) ← interleave (fun _ _ => []) h sched (d1, run_check pj iu idt <$> rows);
      verdicts ← mapM returned ts;
      Some (Some (zip rows verdicts), (run h prune_old_results d2).2)
  end.

Lemma mapM_returned ts verdicts : mapM returned ts = Some verdicts -> ts = Ret <$> verdicts.
Proof.
  intros Hm%mapM_Some. induction Hm as [|p b ts verdicts Hp _ ->]; [done|]. destruct p; [|done]. by injection Hp as ->.
Qed.

Lemma run_cycle_sound pj iu idt h sched d outcome d' :
  (forall X (e : check_eff X) s, checks_alone X e s (h X e s).1 (h X e s).2) ->
  run_cycle pj iu idt h sched d = Some (outcome, d') -> @poll_cycle pj iu idt checks_alone d outcome d'.
Proof.
  intros Hh. unfold run_cycle. destruct (run h checks_to_run d) as [[rows|] d1] eqn:Hrun.
  - destruct (interleave _ h sched _) as [[d2 ts]|] eqn:Hi; cbn [mbind option_bind]; [|done].
    destruct (mapM returned ts) as [verdicts|] eqn:Hm; cbn [mbind option_bind]; [|done]. intros [= <- <-].
    apply mapM_returned in Hm as ->.
    assert (rtc (@cstep _ _ checks_alone _ (fun _ _ => []) (fun _ => False)) (d1, run_check pj iu idt <$> rows) (d2, Ret <$> verdicts)) as Hr
      by (eapply interleave_reachable; [exact Hh|exact Hi]).
    apply (cycle_run pj iu idt d rows d1 verdicts d2).
    + apply (run_may h); [exact Hh|]. by rewrite Hrun.
    + pose proof (interleave_length _ h sched _ _ (fun _ _ => eq_refl) Hi) as Hl. cbn [snd] in Hl. by rewrite !length_fmap in Hl.
    + exact Hr.
    + by apply (run_may h).
  - intros [= <- <-]. apply cycle_skipped. apply (run_may h); [exact Hh|]. by rewrite Hrun.
Qed.

Definition demo_answers (X : Type) (e : check_eff X) (d : checks_db) : X * checks_db :=
  match e in check_eff Y return Y * checks_db with
  | CheckSql q => exec_check_stmt q d
  | CheckKey | AgentCerts | MtlsClient => (Ok tt, d)
  | AgentConnector => (Ok tt, d)
  | EncryptPass p => (Ok (p, "nonce"%string), d)
  | DecryptPass enc => (Ok enc.1, d)
  | CheckEvent _ _ => (tt, d)
  | Fetch p => (Ok (HttpReply 200 "200 OK" (Ok "status: up"%string)), d)
  | ElapsedMs => (7, d)
  end.

Lemma checks_at_now d : checks_at (cd_now d) d = d.
Proof. by destruct d. Qed.

Lemma demo_answers_alone X (e : check_eff X) d : checks_alone X e d (demo_answers X e d).1 (demo_answers X e d).2.
Proof. exists (cd_now d). rewrite checks_at_now. split; [done|]. by destruct e. Qed.

(** A host with two checks: a web page that answers as expected and a service
    whose agent answers no JSON. *)
Definition demo_web_check : check_row := CheckRow 1%N "page" "http" true None (Some "https://web/") (Some "up") (Some false) None None None None 5.
Definition demo_unit_check : check_row := CheckRow 1%N "unit" "service" true (Some "nginx") None None (Some true) None None None None 6.
Definition demo_checks : checks_db :=
  ChecksDb (10 * day_us) {[1%N := CheckedHost "10.0.0.1" 12443 true ∅; 2%N := CheckedHost "10.0.0.2" 12443 true ∅]} ∅
    {[7%N := demo_web_check; 8%N := demo_unit_check; 9%N := CheckRow 2%N "page" "http" true None (Some "https://web/") (Some "up") None None None None (Some 1%N) 7]}
    {[1%N := CheckResult 8%N true (Some "before") (Some 3) 5]}.

Definition no_json (s : string) : option json := None.
Definition demo_cycle : option (option (list (poll_row * bool)) * checks_db) :=
  run_cycle no_json (fun _ => true) (fun _ => true) demo_answers [0;1;2;1;0;2;1;0;2;1]%nat demo_checks.
Definition demo_outcome : list (poll_row * bool) := default [] (o ← demo_cycle; o.1).
Definition demo_after : checks_db := default demo_checks (snd <$> demo_cycle).

(** The service check that passed before the cycle closes the gate of its host
    after it; the other host's page lets its jobs through. *)
Lemma cycle_decides_gate_witness :
  @poll_cycle no_json (fun _ => true) (fun _ => true) checks_alone demo_checks (Some demo_outcome) demo_after /\
  awp (check_host_health_checks 1%N) (fun r _ => r = Ok false) (Db 0 ∅ ∅ ∅ ∅ ∅ (stored_checks demo_after) []) /\
  awp (check_host_health_checks 2%N) (fun r _ => r = Ok true) (Db 0 ∅ ∅ ∅ ∅ ∅ (stored_checks demo_after) []).
Proof.
  assert (@poll_cycle no_json (fun _ => true) (fun _ => true) checks_alone demo_checks (Some demo_outcome) demo_after) as Hc.
  { apply (run_cycle_sound _ _ _ demo_answers [0;1;2;1;0;2;1;0;2;1]%nat); [exact demo_answers_alone|by vm_compute]. }
  assert (hosts_there demo_checks) as Hh.
  { apply (map_Forall_to_list (fun _ r => is_Some (cd_hosts demo_checks !! ck_host r))).
    repeat constructor; by eexists. }
  assert (forall k r, cd_results demo_checks !! k = Some r -> cr_checked_at r < cd_now demo_checks) as Hold.
  { apply (map_Forall_to_list (fun _ r => cr_checked_at r < cd_now demo_checks)). by repeat constructor. }
  split; [exact Hc|]. split.
  - change false with (all_pass 1%N demo_outcome).
    apply (cycle_decides_gate no_json (fun _ => true) (fun _ => true) demo_checks demo_outcome demo_after 1%N _ Hc Hh Hold); [by vm_compute|done].
  - change true with (all_pass 2%N demo_outcome).
    apply (cycle_decides_gate no_json (fun _ => true) (fun _ => true) demo_checks demo_outcome demo_after 2%N _ Hc Hh Hold); [by vm_compute|done].
Defined.
