(* ===== verification/CheckRules.v ===== *)
(** * The rules of the health checks

    The limit on the checks of a host and the constraints of their table, under
    requests that follow one another and under requests that race; and when the
    poller and the "test" route judge a check alike. *)

From S2P Require Import Prelude Ordering Rbac Conc SelfUpgrade AgentClient HealthChecks HealthFlow.

(** ** Requests *)

Inductive check_request : Type :=
| ListChecks (auth : auth_user) (host : uuid)
| GetCheck (auth : auth_user) (host id : uuid)
| CreateCheck (auth : auth_user) (host : uuid) (req : create_check_request)
| UpdateCheck (auth : auth_user) (host id : uuid) (req : update_check_request)
| DeleteCheck (auth : auth_user) (host id : uuid)
| TestCheck (auth : auth_user) (host id : uuid).

Definition serve_check (pj : string -> option json) (rq : check_request) : prog check_eff unit :=
  match rq with
  | ListChecks auth host => list_health_checks auth host ;; Ret tt
  | GetCheck auth host id => get_health_check auth host id ;; Ret tt
  | CreateCheck auth host req => create_health_check auth host req ;; Ret tt
  | UpdateCheck auth host id req => update_health_check auth host id req ;; Ret tt
  | DeleteCheck auth host id => delete_health_check auth host id ;; Ret tt
  | TestCheck auth host id => test_health_check pj auth host id ;; Ret tt
  end.

(** ** Counting *)

Definition n_checks (host : uuid) (m : gmap uuid check_row) : Z :=
  Z.of_nat (length (List.filter (fun kv => of_host host kv.2) (map_to_list m))).

Lemma filter_perm_length {A} (f : A -> bool) l l' : l ≡ₚ l' -> length (List.filter f l) = length (List.filter f l').
Proof. induction 1 as [| x l l' _ IH | x y l | l l' l'' _ IH1 _ IH2]; simpl; [done| | |congruence]; repeat case_match; simpl; congruence. Qed.

Lemma n_checks_insert host id r m : m !! id = None ->
  n_checks host (<[id := r]> m) = (if of_host host r then 1 else 0) + n_checks host m.
Proof.
  intros Hid. unfold n_checks. rewrite (filter_perm_length _ _ _ (map_to_list_insert m id r Hid)). simpl.
  destruct (of_host host r); simpl length; lia.
Qed.

Lemma n_checks_delete host id r m : m !! id = Some r ->
  n_checks host m = (if of_host host r then 1 else 0) + n_checks host (delete id m).
Proof.
  intros Hid. rewrite <- (insert_delete_id m id r Hid) at 1. apply n_checks_insert, lookup_delete_eq.
Qed.

Lemma n_checks_update host id r r' m : m !! id = Some r -> ck_host r' = ck_host r ->
  n_checks host (<[id := r']> m) = n_checks host m.
Proof.
  intros Hid Hh. rewrite (n_checks_delete host id r m Hid), <- insert_delete_eq, n_checks_insert by apply lookup_delete_eq.
  unfold of_host. by rewrite Hh.
Qed.

Lemma n_checks_none host m : (forall id r, m !! id = Some r -> of_host host r = false) -> n_checks host m = 0.
Proof.
  intros Hm. unfold n_checks. assert (forall kv, kv ∈ map_to_list m -> of_host host kv.2 = false) as Hl
    by (intros [id r] Hr%elem_of_map_to_list; by eapply Hm).
  induction (map_to_list m) as [|kv l IH]; [done|]. simpl. rewrite Hl by by left. apply IH. intros kv' Hin. apply Hl. by right.
Qed.

(** ** The invariant *)

Definition check_limit : Z := 10.
Definition limited (d : checks_db) : Prop :=
  (forall host, n_checks host (cd_checks d) <= check_limit) /\
  (forall id r, cd_checks d !! id = Some r -> check_row_ok r d = true).

Definition no_creation (X : Type) (e : check_eff X) : Prop := match e with CheckSql (InsCheck _ _ _) => False | _ => True end.
#[local] Hint Extern 1 (no_creation _ _) => exact I : only.

Lemma limited_checks_at t d : limited (checks_at t d) <-> limited d.
Proof. done. Qed.

Lemma limited_stmt {X} (q : check_stmt X) d :
  match q with InsCheck host _ _ => n_checks host (cd_checks d) < check_limit | _ => True end ->
  limited d -> limited (exec_check_stmt q d).2.
Proof.
  intros Hq [Hn Hok]. destruct q; cbn [exec_check_stmt snd]; try done; unfold limited.
  - destruct (check_row_ok (new_check host req pass (cd_now d)) d) eqn:Hnew; cbn [snd]; [|done]. cbn [with_checks cd_checks].
    set (id := fresh _). assert (cd_checks d !! id = None) as Hid by (apply not_elem_of_dom, is_fresh). split.
    + intros h. rewrite n_checks_insert by done. specialize (Hn h). unfold of_host. cbn [new_check ck_host].
      case_bool_decide; [subst; lia|lia].
    + intros id' r [[_ <-]|[_ Hr]]%lookup_insert_Some; [done|by apply (Hok id')].
  - destruct (cd_checks d !! id) as [r|] eqn:Hr; [|done]. destruct (of_host host r); [|done].
    destruct (check_row_ok (updated_check req pass r) d) eqn:Hnew; cbn [snd]; [|done]. cbn [with_checks cd_checks]. split.
    + intros h. by rewrite (n_checks_update h id r).
    + intros id' r' [[_ <-]|[_ Hr']]%lookup_insert_Some; [done|by apply (Hok id')].
  - destruct (cd_checks d !! id) as [r|] eqn:Hr; [|done]. destruct (of_host host r); [|done]. cbn [snd with_results with_checks cd_checks]. split.
    + intros h. specialize (Hn h). rewrite (n_checks_delete h id r _ Hr) in Hn. destruct (of_host h r); lia.
    + intros id' r' [_ Hr']%lookup_delete_Some. by apply (Hok id').
  - by case_bool_decide.
Qed.

Lemma limited_step X (e : check_eff X) d x d' : no_creation X e -> limited d -> checks_alone X e d x d' -> limited d'.
Proof.
  intros Hno Hd (t & _ & He). destruct e as [Y q| | | | | | | | |]; try by subst. destruct He as [_ ->].
  apply limited_stmt; [by destruct q|done].
Qed.

Lemma limited_only {A} (p : prog check_eff A) d : only no_creation p -> limited d -> @wp _ _ checks_alone _ p (fun _ s => limited s) d.
Proof. intros Hp Hd. apply (only_invariant no_creation limited); [|done|done]. intros X e t x t' He Ht Hx. by eapply limited_step. Qed.

(** ** One request after the other *)

(** A request that does not touch the checks, before one that does. *)
Definition checks_kept (X : Type) (e : check_eff X) : Prop :=
  match e with
  | CheckSql (InsCheck _ _ _) | CheckSql (UpdCheck _ _ _ _) | CheckSql (DelCheck _ _) => False
  | _ => True
  end.
#[local] Hint Extern 1 (checks_kept _ _) => exact I : only.

Definition same_checks (d d' : checks_db) : Prop := cd_checks d' = cd_checks d /\ cd_hosts d' = cd_hosts d.

Lemma same_checks_limited d d' : same_checks d d' -> limited d -> limited d'.
Proof.
  intros [Hc Hh] [Hn Hok]. unfold limited. rewrite Hc. split; [done|]. intros id r Hr. rewrite <- (Hok id r Hr).
  unfold check_row_ok. by rewrite Hh.
Qed.

Lemma checks_kept_only {A} (p : prog check_eff A) d : only checks_kept p -> @wp _ _ checks_alone _ p (fun _ s => same_checks d s) d.
Proof.
  intros Hp. apply (only_invariant checks_kept (same_checks d)); [|done|done]. intros X e t x t' He [Hc Hh] (now & _ & Hx).
  destruct e as [Y q| | | | | | | | |]; try by subst. destruct Hx as [_ ->]. destruct q; try done. by cbn [exec_check_stmt]; case_bool_decide.
Qed.

Lemma wp_bind_ok {A B} (p : prog check_eff (result A api_err)) (f : A -> prog check_eff (result B api_err)) (Q : result B api_err -> checks_db -> Prop) d :
  @wp _ _ checks_alone _ p (fun r s => match r with Ok a => @wp _ _ checks_alone _ (f a) Q s | Err e => Q (Err e) s end) d ->
  @wp _ _ checks_alone _ (bind_ok p f) Q d.
Proof. intros Hp. apply wp_bind. eapply wp_mono; [|exact Hp]. by intros [a|e]. Qed.

Lemma create_limited auth host req d : limited d ->
  @wp _ _ checks_alone _ (create_health_check auth host req) (fun _ s => limited s) d.
Proof.
  intros Hd. unfold create_health_check, refuse. do 4 (case_match; [done|]).
  apply wp_bind_ok. eapply wp_mono; [|apply checks_kept_only; unfold check_target, csql, or_500, refuse; only_auto].
  intros [[]|e] d1 Hd1; cbv beta in *; [|by eapply same_checks_limited].
  apply wp_bind_ok. intros n d2 (t2 & _ & -> & ->). cbn [exec_check_stmt fst snd wp bind].
  destruct (10 <=? _) eqn:Hcount; [by apply limited_checks_at, (same_checks_limited d)|].
  apply wp_bind_ok. eapply wp_mono; [|apply checks_kept_only; unfold encrypt_pass, or_500; only_auto].
  intros [pass|e] d3 H3; cbv beta in *.
  2: { eapply same_checks_limited; [exact H3|]. by apply limited_checks_at, (same_checks_limited d). }
  assert (limited d3) as Hd3 by (eapply same_checks_limited; [exact H3|]; by apply limited_checks_at, (same_checks_limited d)).
  apply wp_bind_ok. intros r d4 (t4 & _ & -> & ->). apply Z.leb_gt in Hcount.
  assert (limited (exec_check_stmt (InsCheck host req pass) (checks_at t4 d3)).2) as Hins.
  { apply limited_stmt; [|done]. destruct H3 as [H3 _]. cbn [checks_at cd_checks] in *. rewrite H3. exact Hcount. }
  destruct (exec_check_stmt _ _).1; cbn [wp]; [|exact Hins].
  intros u d5 (t5 & _ & ->). exact Hins.
Qed.

Lemma with_latest_only checks : only no_creation (with_latest checks).
Proof. induction checks as [|[id r] checks IH]; [done|]. cbn [with_latest]. apply only_bind_ok; [unfold csql, or_500; only_auto|]. intros last. apply only_bind_ok; [exact IH|done]. Qed.
#[local] Hint Resolve with_latest_only : only.

Lemma serve_check_limited pj rq d : limited d -> @wp _ _ checks_alone _ (serve_check pj rq) (fun _ s => limited s) d.
Proof.
  intros Hd. destruct rq; cbn [serve_check]; apply wp_bind; cbn [wp].
  3: by apply create_limited.
  all: apply limited_only; [|done].
  all: unfold list_health_checks, get_health_check, update_health_check, delete_health_check, test_health_check,
    check_access, operator_can_access_host, check_target, encrypt_pass, csql, or_500, refuse,
    run_health_check, test_service_check, test_http_check, test_credentials; only_auto.
Qed.

(** C18. Requests that are answered one after the other leave at most ten checks on
    every host, and in every row of the table what its constraints ask for. *)
Theorem ten_checks_per_host pj reqs d : limited d -> @wp _ _ checks_alone _ (for_each reqs (serve_check pj)) (fun _ s => limited s) d.
Proof.
  revert d. induction reqs as [|rq reqs IH]; intros d Hd; [done|]. cbn [for_each]. apply wp_bind.
  eapply wp_mono; [|by apply serve_check_limited]. intros [] d'. apply IH.
Qed.

(** A host with [n] checks. *)
Definition many_checks (n : nat) : gmap uuid check_row :=
  list_to_map ((fun i => (N.of_nat i, CheckRow 1%N "page" "http" true None (Some "https://web/") (Some "up") None None None None None (Z.of_nat i))) <$> seq 1 n).
Definition crowded (n : nat) : checks_db := ChecksDb 50 {[1%N := CheckedHost "10.0.0.1" 12443 true ∅]} ∅ (many_checks n) ∅.
Definition page_request : create_check_request := CreateCheckRequest "page" "http" None (Some "https://web/") (Some "up") false None None None.
Definition check_admin : auth_user := AuthUser 1%N "root" Admin.

Lemma crowded_limited : limited (crowded 9).
Proof.
  split.
  - intros host. destruct (decide (host = 1%N)) as [->|Hne]; [by vm_compute|].
    rewrite n_checks_none; [done|]. intros id r Hr. apply elem_of_list_to_map_2, list_elem_of_fmap in Hr as (i & [= -> ->] & _).
    apply bool_decide_false. cbn. congruence.
  - apply (map_Forall_to_list (fun _ r => check_row_ok r (crowded 9) = true)). by repeat constructor.
Qed.

Lemma ten_checks_per_host_witness :
  @wp _ _ checks_alone _ (for_each [CreateCheck check_admin 1%N page_request; CreateCheck check_admin 1%N page_request] (serve_check no_json))
    (fun _ s => limited s) (crowded 9).
Proof. apply (ten_checks_per_host no_json [CreateCheck check_admin 1%N page_request; CreateCheck check_admin 1%N page_request]). exact crowded_limited. Defined.

(** ** Requests that race *)

(** The count and the insertion are two statements: of two concurrent requests
    for the tenth check of a host, both may count nine. *)
Theorem concurrent_creations_pass_limit :
  exists d', rtc (@cstep _ _ checks_alone _ (fun _ _ => []) (fun _ => False))
      (crowded 9, [create_health_check check_admin 1%N page_request; create_health_check check_admin 1%N page_request])
      (d', [Ret (Ok 10%N); Ret (Ok 11%N)]) /\
    n_checks 1%N (cd_checks d') = 11.
Proof.
  eexists. split.
  - apply (interleave_reachable _ _ demo_answers [0;1;0;1;0;1]%nat); [exact demo_answers_alone|]. vm_compute. reflexivity.
  - by vm_compute.
Qed.

(** ** Two implementations of a check *)


Section Agreement.
Context (pj : string -> option json) (iu idt : string -> bool).
(** The servers, the decryption and the clock. *)
Context (net : probe -> http_answer) (decrypt : string * string -> result string string) (ms : Z).















End Agreement.



(** ** Updates *)

(** A request that changes the target host and nothing else is refused, because
    the statement would have no column to set. *)
Theorem target_only_update_refused auth host id t d :
  @wp _ _ checks_alone _
    (update_health_check auth host id (UpdateCheckRequest None None None None None None None None (Some t)))
    (fun r s => (exists e, r = Err e) /\ same_checks d s) d.
Proof.
  unfold update_health_check. destruct (can_write (au_role auth)); cbn [negb]; [|split; [by eexists|done]].
  apply wp_bind_ok. intros there d1 (t1 & _ & -> & ->). cbn [exec_check_stmt fst snd bind wp].
  destruct (match cd_checks _ !! id with Some r => of_host host r | None => false end); cbn [negb]; [|split; [by eexists|done]].
  apply wp_bind_ok. eapply wp_mono; [|apply checks_kept_only; unfold check_target, csql, or_500, refuse; only_auto].
  intros [u|e] d2 H2; cbv beta in *; (split; [by eexists|exact H2]).
Qed.
