(* ===== verification/RouteFlow.v ===== *)
(** * What the job routes do

    Creating, rolling back and cancelling a job, on every branch: who may, what
    is written, and what a refused or failing request leaves behind. *)

From S2P Require Import Prelude Conc Schema Windows Statements SelfUpgrade JobExecutor WsRelay.
From S2P Require Import Rbac Scheduler JobsApi Scenario JobSafety JobFlow.

(** ** Reference definitions *)

Definition known_host (d : db) (host : uuid) : bool := bool_decide (is_Some (db_hosts d !! host)).
Definition known_window (d : db) (win : option uuid) : bool :=
  match win with Some w => bool_decide (is_Some (db_windows d !! w)) | None => true end.

(** The hosts before the first unknown one. *)
Fixpoint known_prefix (d : db) (hosts : list uuid) : list uuid :=
  match hosts with
  | [] => []
  | h :: hs => if known_host d h then h :: known_prefix d hs else []
  end.

(** [d'] has, besides the entries of [d], one fresh queued entry of [job] for
    each of [hosts]. *)
Definition rows_inserted (job : uuid) (hosts : list uuid) (d d' : db) : Prop :=
  db_pjhs d ⊆ db_pjhs d' /\
  (forall id r, db_pjhs d' !! id = Some r ->
     db_pjhs d !! id = Some r \/ exists h, h ∈ hosts /\ r = new_pjh job h) /\
  (forall h, h ∈ hosts -> exists id r, db_pjhs d' !! id = Some r /\ h_job r = job /\ h_host r = h).

(** A new queued job of the request, and its entries. *)
Definition job_created (d d' : db) (job : uuid) (j : Z -> patch_job) (hosts : list uuid) : Prop :=
  db_jobs d !! job = None /\
  (exists now, db_now d <= now /\ db_jobs d' = <[job := j now]> (db_jobs d)) /\
  rows_inserted job (known_prefix d hosts) d d'.


(** The tables after a cancellation. *)
Definition cancelled_entry (job : uuid) (r : patch_job_host) : patch_job_host :=
  if of_job job r && (has_status Queued r || has_status Pending r) then pjh_with_status Cancelled r else r.

(** ** Inserting the host entries *)

Lemma count_pair_zero job host m :
  (0 <? count_where (of_pair job host) m) = true <->
  exists id r, m !! id = Some r /\ h_job r = job /\ h_host r = host.
Proof.
  rewrite Z.ltb_lt, count_where_pos. unfold of_pair, of_job.
  setoid_rewrite andb_true_iff. setoid_rewrite bool_decide_eq_true. done.
Qed.

Lemma known_prefix_ext d d' hosts : db_hosts d' = db_hosts d -> known_prefix d' hosts = known_prefix d hosts.
Proof. intros He. induction hosts as [|h hs IH]; simpl; [done|]. unfold known_host. by rewrite He, IH. Qed.

Lemma forallb_known_ext d d' hosts :
  (forall x, known_host d' x = known_host d x) -> forallb (known_host d') hosts = forallb (known_host d) hosts.
Proof. intros He. induction hosts as [|h hs IH]; simpl; [done|]. by rewrite He, IH. Qed.

(** One insert. *)
Lemma ins_pjh_known job host d :
  is_Some (db_jobs d !! job) -> known_host d host = true ->
  (ins_pjh job host d).1 = Ok tt /\ rows_inserted job [host] d (ins_pjh job host d).2 /\
  db_jobs (ins_pjh job host d).2 = db_jobs d /\ db_hosts (ins_pjh job host d).2 = db_hosts d.
Proof.
  intros Hj Hh. unfold ins_pjh. destruct (0 <? count_where (of_pair job host) (db_pjhs d)) eqn:Hc; simpl.
  - split_and!; [done| |done|done]. apply count_pair_zero in Hc as (id & r & Hr & Hrj & Hrh).
    split_and!; [done|by left|]. intros h ->%list_elem_of_singleton. eauto.
  - unfold known_host in Hh. rewrite (bool_decide_true (is_Some (db_jobs d !! job))) by done. rewrite Hh.
    simpl. split_and!; [done| |done|done]. split_and!; simpl.
    + apply insert_subseteq, fresh_dom.
    + intros id r. rewrite lookup_insert_Some. intros [[_ <-]|[_ Hr]]; [|by left].
      right. exists host. split; [set_solver|done].
    + intros h ->%list_elem_of_singleton. eexists _, _. split; [apply lookup_insert_eq|done].
Qed.

Lemma ins_pjh_unknown job host d :
  known_host d host = false ->
  (forall id r, db_pjhs d !! id = Some r -> h_job r = job -> known_host d (h_host r) = true) ->
  ins_pjh job host d = (Err fk_violation, d).
Proof.
  intros Hh Hk. unfold ins_pjh. destruct (0 <? count_where (of_pair job host) (db_pjhs d)) eqn:Hc; simpl.
  - apply count_pair_zero in Hc as (id & r & Hr & Hrj & Hrh). rewrite <- Hrh, (Hk id r) in Hh; done.
  - unfold known_host in Hh. by rewrite Hh, andb_false_r.
Qed.

Lemma rows_inserted_now job hosts d d' t : rows_inserted job hosts (set_now t d) d' <-> rows_inserted job hosts d d'.
Proof. done. Qed.

Lemma rows_inserted_trans job h hs d d1 d2 :
  rows_inserted job [h] d d1 -> rows_inserted job hs d1 d2 -> rows_inserted job (h :: hs) d d2.
Proof.
  intros (H1 & H2 & H3) (H4 & H5 & H6). split_and!.
  - by etrans.
  - intros id r [Hr|(h' & Hh' & ->)]%H5; [|right; exists h'; split; [by right|done]].
    apply H2 in Hr as [Hr|(h' & ->%list_elem_of_singleton & ->)]; [by left|].
    right. exists h. split; [by left|done].
  - intros h' [->|Hh']%elem_of_cons; [|by apply H6].
    destruct (H3 h) as (id & r & Hr & ?); [by left|]. exists id, r. split; [|done]. by eapply lookup_weaken.
Qed.

Lemma insert_host_rows_ok job hosts d :
  is_Some (db_jobs d !! job) ->
  (forall id r, db_pjhs d !! id = Some r -> h_job r = job -> known_host d (h_host r) = true) ->
  awp (insert_host_rows job hosts)
    (fun res d' => res = (if forallb (known_host d) hosts then Ok tt else Err err_internal) /\
       rows_inserted job (known_prefix d hosts) d d' /\ db_jobs d' = db_jobs d /\ db_now d <= db_now d') d.
Proof.
  revert d. induction hosts as [|h hs IH]; intros d Hj Hk; cbn [insert_host_rows].
  - astep. split_and!; [done| |done|lia]. split_and!; [done|by left|]. simpl. intros h Hh. by apply elem_of_nil in Hh.
  - astep. cbn [exec_stmt]. destruct (known_host d h) eqn:Hh.
    + destruct (ins_pjh_known job h (set_now t d) Hj Hh) as (H1 & H2 & H3 & H4). rewrite H1.
      assert (Hext : forall x, known_host (ins_pjh job h (set_now t d)).2 x = known_host d x).
      { intros x. unfold known_host. by rewrite H4. }
      eapply awp_mono; [apply IH|].
      * by rewrite H3.
      * intros id r Hr Hrj. rewrite Hext. destruct H2 as (_ & H2 & _).
        apply H2 in Hr as [Hr|(h' & ->%list_elem_of_singleton & ->)]; [by eapply Hk|done].
      * cbn beta. intros res d' (-> & Hrows & Hjobs & Hnow). split_and!.
        -- simpl. rewrite Hh. simpl. by rewrite (forallb_known_ext d).
        -- simpl. rewrite Hh. rewrite (known_prefix_ext d) in Hrows by (by rewrite H4).
           by eapply rows_inserted_trans.
        -- by rewrite Hjobs, H3.
        -- etrans; [exact Ht|]. etrans; [|exact Hnow]. unfold ins_pjh. repeat case_match; simpl; lia.
    + rewrite ins_pjh_unknown by done. cbn [fst snd]. astep. simpl. rewrite Hh. split_and!; [done| |done|done].
      split_and!; [done|by left|]. intros x Hx. by apply elem_of_nil in Hx.
Qed.

(** ** The routes *)

Lemma ins_job_ok kind cb p win im sel notes ar dl d :
  (known_window d win = false -> ins_job kind cb p win im sel notes ar dl d = (Err fk_violation, d)) /\
  (known_window d win = true ->
   exists job, db_jobs d !! job = None /\
     ins_job kind cb p win im sel notes ar dl d =
       (Ok job, set_jobs (<[job := PatchJob kind Queued cb p win im sel notes None ar dl (db_now d) None None]>
                  (db_jobs d)) d)).
Proof.
  unfold ins_job, known_window. split; intros Hw; rewrite Hw; [done|].
  eexists. split; [|reflexivity]. apply fresh_dom.
Qed.

Lemma no_entries_of_new_job d job :
  entries_wf d -> db_jobs d !! job = None -> forall id r, db_pjhs d !! id = Some r -> h_job r <> job.
Proof. intros (Hfk & _) Hj id r Hr <-. destruct (Hfk id r Hr) as [j Hx]. congruence. Qed.



Lemma cancel_job_ok auth id d :
  auto_index_ok (db_jobs d) = true ->
  awp (cancel_job auth id)
    (fun res d' =>
       match db_jobs d !! id with
       | None => res = Err err_not_found /\ unchanged d d'
       | Some j =>
           if negb (can_write (au_role auth)) && negb (bool_decide (j_created_by j = Some (au_id auth)))
           then res = Err err_forbidden /\ unchanged d d'
           else if bool_decide (j_status j = Queued) || bool_decide (j_status j = Pending)
           then res = Ok tt /\
                db_jobs d' = <[id := job_with Cancelled (j_started_at j) (j_completed_at j) j]> (db_jobs d) /\
                db_pjhs d' = cancelled_entry id <$> db_pjhs d
           else res = Err err_invalid_state /\ unchanged d d'
       end) d.
Proof.
  intros Hi. unfold cancel_job. astep. cbn [exec_stmt reads fst snd]. unfold sel_job_owner. cbn [set_now db_jobs].
  destruct (db_jobs d !! id) as [j|] eqn:Hj; cbn [fmap option_fmap option_map]; [|astep; split; [done|by exists t]].
  destruct (negb (can_write (au_role auth)) && _); [astep; split; [done|by exists t]|].
  rewrite <- negb_orb. destruct (bool_decide (j_status j = Queued) || bool_decide (j_status j = Pending));
    cbn [negb]; [|astep; split; [done|by exists t]].
  astep. cbn [exec_stmt]. unfold upd_cancel_job.
  rewrite (writes_jobs_one id _ _ j); [|done|].
  2:{ apply (auto_index_update id j); [done| |done]. right. unfold active_auto_key, job_with; simpl.
      by rewrite andb_false_r. }
  cbn [fst snd]. astep. cbn [exec_stmt writes]. unfold upd_cancel_hosts, on_pjhs, update_where.
  cbn [fst snd writes]. astep. cbn [exec_stmt writes notify fst snd]. astep. astep. split_and!; [done|done|].
  simpl. apply map_fmap_ext. intros k r _. unfold cancelled_entry. by case_match.
Qed.

Lemma rollback_job_ok auth id d :
  entries_wf d -> awp (rollback_job auth id)
    (fun res d' =>
       if negb (can_write (au_role auth)) then res = Err err_forbidden /\ d' = d
       else if negb (bool_decide (is_Some (db_jobs d !! id))) then res = Err err_not_found /\ unchanged d d'
       else match sel_job_hosts id d with
            | [] => res = Err err_no_hosts /\ unchanged d d'
            | hosts =>
                exists job, job_created d d' job
                    (fun now => PatchJob Rollback Queued (Some (au_id auth)) (Some id) None true (JArr [])
                       ("Rollback of job " ++ uuid_str id) None true 0 now None None) hosts /\
                  res = if forallb (known_host d) hosts then Ok job else Err err_internal
            end) d.
Proof.
  intros Hwf. unfold rollback_job. destruct (can_write (au_role auth)); cbn [negb]; [|by astep].
  astep. cbn [exec_stmt reads fst snd]. unfold sel_job_exists. cbn [set_now db_jobs].
  case_bool_decide; cbn [negb]; [|astep; split; [done|by exists t]].
  astep. cbn [exec_stmt reads fst snd]. change (sel_job_hosts id (set_now t0 (set_now t d))) with (sel_job_hosts id d).
  destruct (sel_job_hosts id d) as [|h hs] eqn:Hhosts; [astep; simpl in *; split; [done|exists t0; split; [lia|done]]|].
  set (hosts := h :: hs) in *. astep. cbn [exec_stmt].
  destruct (ins_job_ok Rollback (Some (au_id auth)) (Some id) None true (JArr [])
    ("Rollback of job " ++ uuid_str id) true 0 (set_now t1 (set_now t0 (set_now t d)))) as [_ Hyes].
  destruct (Hyes eq_refl) as (job & Hnone & ->). clear Hyes. simpl in Hnone. cbn [fst snd].
  apply awp_bind. eapply awp_mono; [apply insert_host_rows_ok|].
  - simpl. rewrite lookup_insert_eq. eauto.
  - intros k r Hr Hrj. simpl in Hr. exfalso. by eapply no_entries_of_new_job.
  - cbn [set_now db_now] in *. intros res d' (-> & Hrows & Hjobs & Hnow).
    change (known_host (set_jobs _ _)) with (known_host d) in *.
    rewrite (known_prefix_ext d) in Hrows by done.
    assert (job_created d d' job (fun now => PatchJob Rollback Queued (Some (au_id auth)) (Some id) None true (JArr [])
                       ("Rollback of job " ++ uuid_str id) None true 0 now None None) hosts) as Hc.
    { split_and!; [done|exists t1; split; [lia|done]|exact Hrows]. }
    destruct (forallb (known_host d) hosts); cbn zeta iota beta; [|by exists job].
    astep. astep. by exists job.
Qed.

(** ** The properties *)




(** Cancelling a job: any operator or admin, or its creator, may (others get
    403); only a queued or pending job is cancelled (409 otherwise).  Then the
    job is cancelled, its queued and pending entries are, and no other entry
    changes: one that waits for its health checks keeps waiting. *)
Theorem cancel_job_spec auth id d :
  auto_index_ok (db_jobs d) = true ->
  awp (cancel_job auth id)
    (fun res d' =>
       match db_jobs d !! id with
       | None => res = Err err_not_found /\ unchanged d d'
       | Some j =>
           if negb (can_write (au_role auth)) && negb (bool_decide (j_created_by j = Some (au_id auth)))
           then res = Err err_forbidden /\ unchanged d d'
           else if bool_decide (j_status j = Queued) || bool_decide (j_status j = Pending)
           then res = Ok tt /\
                db_jobs d' = <[id := job_with Cancelled (j_started_at j) (j_completed_at j) j]> (db_jobs d) /\
                db_pjhs d' = cancelled_entry id <$> db_pjhs d
           else res = Err err_invalid_state /\ unchanged d d'
       end) d.
Proof. apply cancel_job_ok. Qed.

Lemma cancel_job_spec_witness :
  awp (cancel_job (AuthUser 99%N "op" Operator) job_1)
    (fun res d' => res = Ok tt /\
       db_jobs d' = <[job_1 := demo_job PatchApply Cancelled]> (db_jobs (demo_db PatchApply Queued Queued WaitingHealthCheck)) /\
       db_pjhs d' = cancelled_entry job_1 <$> db_pjhs (demo_db PatchApply Queued Queued WaitingHealthCheck))
    (demo_db PatchApply Queued Queued WaitingHealthCheck).
Proof.
  apply (cancel_job_spec (AuthUser 99%N "op" Operator) job_1 (demo_db PatchApply Queued Queued WaitingHealthCheck)).
  vm_compute. reflexivity.
Defined.

(** Rolling a job back: refused without a write role, for an unknown job (404)
    and for one without entries (422), and then nothing is written; otherwise a
    new immediate rollback job that refers to it, on the same hosts. *)
Theorem rollback_job_spec auth id d :
  entries_wf d -> awp (rollback_job auth id)
    (fun res d' =>
       if negb (can_write (au_role auth)) then res = Err err_forbidden /\ d' = d
       else if negb (bool_decide (is_Some (db_jobs d !! id))) then res = Err err_not_found /\ unchanged d d'
       else match sel_job_hosts id d with
            | [] => res = Err err_no_hosts /\ unchanged d d'
            | hosts =>
                exists job, job_created d d' job
                    (fun now => PatchJob Rollback Queued (Some (au_id auth)) (Some id) None true (JArr [])
                       ("Rollback of job " ++ uuid_str id) None true 0 now None None) hosts /\
                  res = if forallb (known_host d) hosts then Ok job else Err err_internal
            end) d.
Proof. apply rollback_job_ok. Qed.

Lemma rollback_job_spec_witness :
  awp (rollback_job demo_user job_1) (fun res _ => exists job, res = Ok job)
    (demo_db PatchApply Succeeded Succeeded Succeeded).
Proof.
  eapply awp_mono; [apply (rollback_job_spec demo_user job_1), demo_entries_wf|].
  intros res d'. vm_compute. intros (job & _ & ->). by exists job.
Defined.
