(* ===== verification/SchedFlow.v ===== *)
(** * What the maintenance scheduler does

    When a window is open, what the automatic creation of jobs adds in one
    window cycle, and which host entries a dispatched job runs. *)

From S2P Require Import Prelude Conc Schema Windows Statements SelfUpgrade JobExecutor WsRelay.
From S2P Require Import Rbac Scheduler JobsApi Scenario JobSafety JobFlow.

(** ** Reference definitions *)

(** Some job of the window's current cycle has an entry for the host. *)
Definition has_cycle_job (d : db) (host win : uuid) : Prop := sel_existing_job host win d = true.

(** The tables but for one automatic job of the window. *)
Definition auto_job_added (d d' : db) (aw : auto_window) : Prop :=
  exists job id now, db_now d <= now <= db_now d' /\
    db_jobs d !! job = None /\ db_pjhs d !! id = None /\
    db_jobs d' = <[job := PatchJob PatchApply Queued None None (Some (aw_id aw)) false (JArr [])
                     "Auto-created by maintenance window scheduler" (Some (aw_host aw)) (aw_auto_reboot aw)
                     (aw_delay_minutes aw * 60) now None None]> (db_jobs d) /\
    db_pjhs d' = <[id := new_pjh job (aw_host aw)]> (db_pjhs d).

(** The jobs that the scheduler looks for: patch runs of the window, created at
    [start] or later, with an entry for the host; whatever became of them. *)
Definition hosts_job (host job : uuid) (d : db) : bool :=
  existsb (fun kr : uuid * patch_job_host => bool_decide (h_host kr.2 = host) && bool_decide (h_job kr.2 = job))
    (map_to_list (db_pjhs d)).

Definition cycle_job (host win : uuid) (start : Z) (d : db) (kj : uuid * patch_job) : Prop :=
  j_kind kj.2 = PatchApply /\ j_window kj.2 = Some win /\ start <= j_created_at kj.2 /\ hosts_job host kj.1 d = true.
#[global] Instance cycle_job_dec host win start d kj : Decision (cycle_job host win start d kj) := _.

Definition cycle_jobs (host win : uuid) (start : Z) (d : db) : gset uuid :=
  dom (filter (cycle_job host win start d) (db_jobs d)).

(** What the other tasks may do meanwhile: run, finish and fail any job, create
    and change what else they like, but add no such job and leave the window. *)
Definition other_tasks (aw : auto_window) (s s1 : db) : Prop :=
  db_now s <= db_now s1 /\ db_windows s1 !! aw_id aw = db_windows s !! aw_id aw /\
  forall start, cycle_jobs (aw_host aw) (aw_id aw) start s1 = cycle_jobs (aw_host aw) (aw_id aw) start s.

(** From one set of jobs to the other there is at most one more, the first. *)
Definition at_most_first (js js' : gset uuid) : Prop :=
  js' = js \/ (js = ∅ /\ exists job, js' = {[job]}).

Definition same_tables (d d' : db) : Prop :=
  db_jobs d' = db_jobs d /\ db_pjhs d' = db_pjhs d /\ db_windows d' = db_windows d /\
  db_hosts d' = db_hosts d /\ db_patches d' = db_patches d /\ db_now d <= db_now d'.

(** ** Automatic creation *)

Lemma auto_create_one_ok aw d :
  awp (auto_create_one aw)
    (fun _ d' => db_windows d' = db_windows d /\ db_hosts d' = db_hosts d /\ db_patches d' = db_patches d /\
       db_now d <= db_now d' /\
       (same_tables d d' \/
        (is_Some (sel_pending_patches (aw_host aw) d) /\ auto_job_added d d' aw /\
         exists t, db_now d <= t <= db_now d' /\ sel_existing_job (aw_host aw) (aw_id aw) (set_now t d) = false))) d.
Proof.
  unfold auto_create_one. astep. cbn [exec_stmt reads fst snd].
  change (sel_pending_patches (aw_host aw) (set_now t d)) with (sel_pending_patches (aw_host aw) d).
  destruct (sel_pending_patches (aw_host aw) d) as [p|] eqn:Hp; [|astep; split_and!; [done..|]; left; by split_and!].
  astep. cbn [exec_stmt reads fst snd]. rewrite set_now_now.
  destruct (sel_existing_job (aw_host aw) (aw_id aw) (set_now t0 d)) eqn:He.
  { astep. simpl in *. split_and!; [done..|lia|]. left. split_and!; [done..|simpl; lia]. }
  astep. cbn [exec_stmt]. rewrite set_now_now. astep. simpl in *. unfold ins_auto_job. cbn zeta.
  destruct (auto_index_ok _) eqn:Hi; simpl.
  2:{ split_and!; [done..|lia|]. left. split_and!; [done..|simpl; lia]. }
  destruct (_ && _); simpl.
  2:{ split_and!; [done..|lia|]. left. split_and!; [done..|simpl; lia]. }
  split_and!; [done..|lia|]. right. split; [by eexists|]. split.
  - eexists _, _, t1. simpl. split_and!; [lia|done|apply fresh_dom|apply fresh_dom|done|done].
  - exists t0. split; [lia|done].
Qed.

(** The start of the cycle does not go back. *)
Lemma cycle_start_mono now now' w : now <= now' -> cycle_start now w <= cycle_start now' w.
Proof.
  intros Hle. unfold cycle_start, day_number. destruct (w_recurrence w); [lia|..];
    pose proof (Z.div_le_mono now now' day_us ltac:(done) Hle); unfold day_us, hour_us, minute_us, second_us in *; lia.
Qed.

(** A job created in the cycle is found for the rest of it. *)
Lemma cycle_job_found d aw w now job id j r :
  db_windows d !! aw_id aw = Some w -> db_jobs d !! job = Some j -> db_pjhs d !! id = Some r ->
  h_job r = job -> h_host r = aw_host aw -> j_kind j = PatchApply -> j_window j = Some (aw_id aw) ->
  cycle_start now w <= j_created_at j ->
  sel_existing_job (aw_host aw) (aw_id aw) (set_now now d) = true.
Proof.
  intros Hw Hj Hr <- Hh Hk Hwin Hc. unfold sel_existing_job. simpl. rewrite Hw.
  apply existsb_exists. exists (id, r). split.
  - by apply list_elem_of_In, elem_of_map_to_list.
  - unfold auto_job_of. simpl. rewrite Hj, Hk, Hwin, Hh, !bool_decide_true by done. simpl. by apply Z.leb_le.
Qed.

Lemma auto_create_repeat aw w n d :
  db_windows d !! aw_id aw = Some w -> cycle_start (db_now d) w <= db_now d ->
  awp (for_each (replicate n aw) auto_create_one)
    (fun _ d' => db_now d <= db_now d' /\ db_windows d' = db_windows d /\
       (cycle_start (db_now d') w = cycle_start (db_now d) w ->
        (db_jobs d' = db_jobs d /\ db_pjhs d' = db_pjhs d) \/ auto_job_added d d' aw)) d.
Proof.
  intros Hw Hc.
  assert (forall n d1, db_now d <= db_now d1 -> db_windows d1 = db_windows d ->
            (cycle_start (db_now d1) w = cycle_start (db_now d) w -> 
             (db_jobs d1 = db_jobs d /\ db_pjhs d1 = db_pjhs d) \/ auto_job_added d d1 aw) ->
            awp (for_each (replicate n aw) auto_create_one)
              (fun _ d' => db_now d <= db_now d' /\ db_windows d' = db_windows d /\
                 (cycle_start (db_now d') w = cycle_start (db_now d) w ->
                  (db_jobs d' = db_jobs d /\ db_pjhs d' = db_pjhs d) \/ auto_job_added d d' aw)) d1) as Hgen.
  2:{ apply Hgen; [lia|done|by left]. }
  clear n. induction n as [|n IH]; intros d1 Hnow Hwin Hst; cbn [replicate for_each]; [by astep|].
  apply awp_bind. eapply awp_mono; [apply auto_create_one_ok|].
  intros [] d2 (Hw2 & _ & _ & Hn2 & Hcase). apply IH; [lia|congruence|]. intros Hcyc.
  pose proof (cycle_start_mono (db_now d) (db_now d1) w Hnow) as Hm1.
  pose proof (cycle_start_mono (db_now d1) (db_now d2) w Hn2) as Hm2.
  specialize (Hst ltac:(lia)).
  destruct Hcase as [(Hj & Hp & _ & _ & _ & _)|(_ & Hadd & t & Ht & Hno)].
  - destruct Hst as [[Hj1 Hp1]|(job & id & now & Hb & H1 & H2 & H3 & H4)]; [left; split; congruence|].
    right. exists job, id, now. split_and!; [lia|lia|done|done|congruence|congruence].
  - destruct Hst as [[Hj1 Hp1]|(job & id & now & Hb & H1 & H2 & H3 & H4)].
    + right. destruct Hadd as (job & id & now & Hb & H1 & H2 & H3 & H4).
      exists job, id, now. rewrite Hj1, Hp1 in *. split_and!; [lia|lia|done|done|done|done].
    + exfalso. rewrite (cycle_job_found d1 aw w t job id
        (PatchJob PatchApply Queued None None (Some (aw_id aw)) false (JArr [])
                     "Auto-created by maintenance window scheduler" (Some (aw_host aw)) (aw_auto_reboot aw)
                     (aw_delay_minutes aw * 60) now None None) (new_pjh job (aw_host aw))) in Hno; try done.
      * by rewrite Hwin.
      * by rewrite H3, lookup_insert_eq.
      * by rewrite H4, lookup_insert_eq.
      * simpl. pose proof (cycle_start_mono t (db_now d2) w ltac:(lia)). lia.
Qed.

(** *** Among other tasks and failing statements *)

Lemma hosts_job_true host job d :
  hosts_job host job d = true <-> exists id r, db_pjhs d !! id = Some r /\ h_host r = host /\ h_job r = job.
Proof.
  unfold hosts_job. rewrite existsb_exists. split.
  - intros ([id r] & Hin & [Hh Hj]%andb_true_iff). apply list_elem_of_In, elem_of_map_to_list in Hin.
    exists id, r. by rewrite !bool_decide_eq_true in *.
  - intros (id & r & Hr & Hh & Hj). exists (id, r). split; [by apply list_elem_of_In, elem_of_map_to_list|].
    by rewrite andb_true_iff, !bool_decide_eq_true.
Qed.

Lemma elem_of_cycle_jobs host win start d job :
  job ∈ cycle_jobs host win start d <-> exists j, db_jobs d !! job = Some j /\ cycle_job host win start d (job, j).
Proof.
  unfold cycle_jobs. rewrite elem_of_dom. unfold is_Some. setoid_rewrite map_lookup_filter_Some. done.
Qed.

(** The scheduler's query finds a job if there is one. *)
Lemma sel_existing_job_cycle host win w d :
  db_windows d !! win = Some w -> sel_existing_job host win d = false ->
  cycle_jobs host win (cycle_start (db_now d) w) d = ∅.
Proof.
  intros Hw. unfold sel_existing_job. rewrite Hw. intros Hno. apply set_eq. intros job. split; [|set_solver].
  rewrite elem_of_cycle_jobs. intros (j & Hj & Hk & Hwin & Hs & Hh). simpl in *.
  apply hosts_job_true in Hh as (id & r & Hr & <- & <-). apply not_true_iff_false in Hno. destruct Hno.
  apply existsb_exists. exists (id, r). split; [by apply list_elem_of_In, elem_of_map_to_list|].
  unfold auto_job_of. simpl. rewrite Hj, !bool_decide_true by done. by apply Z.leb_le.
Qed.

Lemma ins_auto_job_cycle aw allow delay start d :
  let d' := (ins_auto_job (aw_id aw) (aw_host aw) allow delay d).2 in
  db_now d' = db_now d /\ db_windows d' = db_windows d /\
  (cycle_jobs (aw_host aw) (aw_id aw) start d' = cycle_jobs (aw_host aw) (aw_id aw) start d \/
   exists job, cycle_jobs (aw_host aw) (aw_id aw) start d' = {[job]} ∪ cycle_jobs (aw_host aw) (aw_id aw) start d).
Proof.
  cbv zeta. unfold ins_auto_job. cbv zeta.
  pose proof (fresh_dom (db_jobs d)) as Hfj. pose proof (fresh_dom (db_pjhs d)) as Hfr.
  set (job := fresh (dom (db_jobs d))) in *. set (id := fresh (dom (db_pjhs d))) in *.
  destruct (auto_index_ok _); simpl; [|by auto]. destruct (_ && _); simpl; [|by auto]. split_and!; [done..|].
  match goal with |- cycle_jobs _ _ _ ?x = _ \/ _ => set (d' := x) end.
  assert (forall job', job' <> job -> hosts_job (aw_host aw) job' d' = hosts_job (aw_host aw) job' d) as Hsame.
  { intros job' Hne. apply Bool.eq_iff_eq_true. rewrite !hosts_job_true. simpl. split.
    - intros (k & r & Hr & Hh & Hj). apply lookup_insert_Some in Hr as [[<- <-]|[? Hr]]; [by simpl in Hj; subst job'|eauto].
    - intros (k & r & Hr & Hh & Hj). exists k, r. split; [|done]. rewrite lookup_insert_ne; [done|]. intros <-. congruence. }
  assert (hosts_job (aw_host aw) job d' = true) as Hnew.
  { apply hosts_job_true. exists id, (new_pjh job (aw_host aw)). simpl. by rewrite lookup_insert_eq. }
  assert (forall job', job' <> job -> job' ∈ cycle_jobs (aw_host aw) (aw_id aw) start d' <->
            job' ∈ cycle_jobs (aw_host aw) (aw_id aw) start d) as Hold.
  { intros job' Hne. rewrite !elem_of_cycle_jobs. unfold cycle_job. simpl. rewrite Hsame by done.
    by rewrite lookup_insert_ne by done. }
  assert (job ∉ cycle_jobs (aw_host aw) (aw_id aw) start d) as Hno.
  { rewrite elem_of_cycle_jobs. intros (j & Hj & _). congruence. }
  destruct (decide (job ∈ cycle_jobs (aw_host aw) (aw_id aw) start d')) as [Hin|Hin].
  - right. exists job. apply set_eq. intros job'. destruct (decide (job' = job)) as [->|Hne]; [set_solver|].
    specialize (Hold job' Hne). set_solver.
  - left. apply set_eq. intros job'. destruct (decide (job' = job)) as [->|Hne]; [set_solver|]. by apply Hold.
Qed.

Lemma at_most_first_trans a b c : at_most_first a b -> at_most_first b c -> at_most_first a c.
Proof.
  intros [->|[-> [job ->]]]; [done|]. intros [->|[He _]]; [right; eauto|]. exfalso. set_solver.
Qed.

Section AmongOthers.
Context (aw : auto_window) (w : window).
Abbreviation owp := (@wp eff db (eff_step (other_tasks aw) True) _).
Let jobs (start : Z) (d : db) : gset uuid := cycle_jobs (aw_host aw) (aw_id aw) start d.

(** Later, with the window as it was; in one cycle at most one more job. *)
Definition passed (d d' : db) : Prop :=
  db_now d <= db_now d' /\ db_windows d' !! aw_id aw = db_windows d !! aw_id aw /\
  (cycle_start (db_now d') w = cycle_start (db_now d) w ->
   at_most_first (jobs (cycle_start (db_now d) w) d) (jobs (cycle_start (db_now d) w) d')).

Lemma passed_trans d d1 d' : passed d d1 -> passed d1 d' -> passed d d'.
Proof.
  intros (H1 & H2 & H3) (H4 & H5 & H6). split; [lia|]. split; [congruence|]. intros Hc.
  pose proof (cycle_start_mono _ _ w H1). pose proof (cycle_start_mono _ _ w H4).
  assert (cycle_start (db_now d1) w = cycle_start (db_now d) w) as Hc1 by lia.
  rewrite Hc1 in H6. eapply at_most_first_trans; [by apply H3|]. by apply H6.
Qed.

Lemma passed_env d d' : other_tasks aw d d' -> passed d d'.
Proof. intros (H1 & H2 & H3). split_and!; [done..|]. intros _. left. apply H3. Qed.

(** A statement that reads. *)
Lemma owp_read {X B} (q : stmt X) (f : result X string -> prog eff B) Q d :
  (forall d0, (exec_stmt q d0).2 = d0) ->
  (forall d1, passed d d1 -> owp (f (exec_stmt q d1).1) Q d1 /\ forall m, owp (f (Err m)) Q d1) ->
  owp (bind (sql q) f) Q d.
Proof.
  intros Hq Hf x s' (s1 & Henv%passed_env & Hx). destruct (Hf s1 Henv) as [H1 H2].
  rewrite Hq in Hx. destruct Hx as [[-> ->]|(_ & m & -> & [->| ->])]; [exact H1|apply H2..].
Qed.

Lemma auto_create_one_among d :
  db_windows d !! aw_id aw = Some w -> owp (auto_create_one aw) (fun _ d' => passed d d') d.
Proof.
  intros Hw. unfold auto_create_one. apply owp_read; [done|]. intros d1 H1. split; [|done].
  cbn [exec_stmt reads fst]. destruct (sel_pending_patches _ d1) as [p|]; [|done].
  apply owp_read; [done|]. intros d2 H2. assert (passed d d2) as Hd2 by (by eapply passed_trans). split; [|done].
  cbn [exec_stmt reads fst]. destruct (sel_existing_job _ _ d2) eqn:He; [done|].
  intros x s' (d3 & Henv & Hx). apply (passed_trans _ d2); [done|].
  assert (s' = d3 \/ s' = (exec_stmt (InsAutoJob (aw_id aw) (aw_host aw) (aw_auto_reboot aw) (aw_delay_minutes aw * 60)) d3).2) as [->| ->]
    by (destruct Hx as [[_ ->]|(_ & m & _ & [->| ->])]; auto); [by apply passed_env|].
  cbn [exec_stmt]. destruct Henv as (Hn & Hwin & Hone).
  pose proof (ins_auto_job_cycle aw (aw_auto_reboot aw) (aw_delay_minutes aw * 60) (cycle_start (db_now d2) w) d3) as (Hn' & Hw' & Hj).
  assert (db_windows d2 !! aw_id aw = Some w) as Hw2 by (destruct Hd2 as (_ & -> & _); done).
  pose proof (sel_existing_job_cycle _ _ _ _ Hw2 He) as Hemp. rewrite Hone, Hemp in Hj.
  split; [by rewrite Hn'|]. split; [by rewrite Hw'|]. intros _. unfold jobs. rewrite Hemp.
  destruct Hj as [->|[job ->]]; [by left|]. right. split; [done|]. exists job. set_solver.
Qed.

Lemma auto_create_among n d :
  db_windows d !! aw_id aw = Some w -> owp (for_each (replicate n aw) auto_create_one) (fun _ d' => passed d d') d.
Proof.
  revert d. induction n as [|n IH]; intros d Hw; cbn [replicate for_each]; [by split_and!; [lia|..|intros _; left]|].
  apply wp_bind. eapply wp_mono; [|by apply auto_create_one_among]. cbv beta. intros _ d1 H1.
  eapply wp_mono; [|apply IH; by destruct H1 as (_ & -> & _)]. cbv beta. intros _ d2. by apply passed_trans.
Qed.
End AmongOthers.

(** ** The health-check gate *)

(** Some enabled health check of the host has not passed. *)
Definition checks_failing (d : db) (host : uuid) : bool :=
  0 <? count_where (fun c => bool_decide (hc_host c = host) && hc_enabled c &&
                             negb (bool_decide (hc_latest c = Some true))) (db_checks d).

(** Effects on an agent. *)
Definition no_agent (X : Type) (e : eff X) : Prop :=
  match e with
  | NewClient _ | ApplyPatches _ _ _ _ | RebootHost _ | UpdatePackage _ _ | JobStatusOf _ _ | Health _ => False
  | _ => True
  end.

Lemma checks_failing_counts d host :
  checks_failing d host = true -> (sel_check_count host d =? 0) = false /\ (sel_unhealthy_count host d =? 0) = false.
Proof.
  unfold checks_failing. rewrite Z.ltb_lt. intros H.
  assert (sel_unhealthy_count host d <= sel_check_count host d).
  { apply count_where_le. intros k c _. by intros [? _]%andb_true_iff. }
  unfold sel_unhealthy_count in *. split; apply Z.eqb_neq; lia.
Qed.

Lemma health_gate_ok job host id d h r j :
  db_hosts d !! host = Some h -> checks_failing d host = true ->
  db_pjhs d !! id = Some r -> terminal (h_status r) = false -> 0 <= h_retry_count r ->
  db_jobs d !! h_job r = Some j -> job_active j = true -> auto_index_ok (db_jobs d) = true ->
  awp (execute_host_job job host id)
    (fun _ d' => exists now, db_now d <= now /\
       if host_window_open (set_now now d) host
       then db_jobs d' = db_jobs d /\
            exists t, now <= t /\ db_pjhs d' = <[id := pjh_waiting (t + 5 * minute_us) r]> (db_pjhs d)
       else after_failure (set_now now d) d' id
              "Health checks did not pass before maintenance window closed" r j) d.
Proof.
  intros Hh Hc Hr Hterm Hcount Hj Ha Hi. unfold execute_host_job. astep.
  cbn [exec_stmt reads fst snd]. unfold sel_host. cbn [set_now db_hosts]. rewrite Hh.
  cbn [fmap option_fmap option_map]. cbn zeta. apply awp_bind. unfold check_host_health_checks.
  destruct (checks_failing_counts d host Hc) as [H1 H2].
  astep. cbn [exec_stmt reads fst snd].
  change (sel_check_count host (set_now t0 (set_now t d))) with (sel_check_count host d). rewrite H1.
  astep. cbn [exec_stmt reads fst snd].
  change (sel_unhealthy_count host (set_now t1 (set_now t0 (set_now t d)))) with (sel_unhealthy_count host d).
  rewrite H2. astep. unfold health_gate_closed. astep. cbn [exec_stmt reads fst snd]. rewrite !set_now_now.
  cbn zeta. cbn [set_now db_now] in *.
  unfold default. destruct (host_window_open (set_now t2 d) host) eqn:Hw; cbn [negb Datatypes.id].
  - astep. astep. cbn [exec_stmt writes]. unfold upd_waiting, on_pjhs. cbn [set_now db_pjhs].
    rewrite (update_one_hit _ _ _ _ _ Hr) by (unfold not_terminal; by rewrite Hterm).
    cbn [fst snd writes]. astep. exists t2. cbn in *. split; [lia|]. rewrite Hw. split; [done|].
    exists t3. split; [lia|done].
  - eapply awp_mono; [by apply (host_failure_ok id _ _ r j)|]. intros [] d' Hd'.
    exists t2. split; [lia|]. by rewrite Hw.
Qed.

(** ** A concrete night: one host's window is open, the other's is not *)

Definition win_1 : uuid := 50%N.
Definition open_window : window :=
  Window host_a Daily (11 * hour_us) 120 None true true true 5.

(** A job that waits for the windows of its two hosts. *)
Definition window_db : db :=
  Db noon {[job_1 := PatchJob PatchApply Queued (Some user_1) None None false (JArr []) "" None false 0 0 None None]}
     (<[row_a := demo_row host_a Queued 0 None]> {[row_b := demo_row host_b Queued 0 None]})
     (<[host_a := demo_host false true]> {[host_b := demo_host false true]})
     {[win_1 := open_window]} {[host_a := PatchData 3 (JArr [])]} ∅ [].

(** The demonstration world, with the tasks that are spawned. *)
Definition tracing_world (X : Type) (e : eff X) (w : db * list task) : X * (db * list task) :=
  let '(x, d') := demo_world (agent_says "succeeded") X e w.1 in
  (x, (d', match e with Spawn t => w.2 ++ [t] | _ => w.2 end)).

(** ** The properties *)

(** The health gate: a host with a failing health check is not contacted; its
    entry waits and is retried in five minutes while one of the host's windows
    is open, and otherwise (also when the host has no window) counts as a
    failure. *)
Theorem health_gate_spec job host id d h r j :
  db_hosts d !! host = Some h -> checks_failing d host = true ->
  db_pjhs d !! id = Some r -> terminal (h_status r) = false -> 0 <= h_retry_count r ->
  db_jobs d !! h_job r = Some j -> job_active j = true -> auto_index_ok (db_jobs d) = true ->
  awp (execute_host_job job host id)
    (fun _ d' => exists now, db_now d <= now /\
       if host_window_open (set_now now d) host
       then db_jobs d' = db_jobs d /\
            exists t, now <= t /\ db_pjhs d' = <[id := pjh_waiting (t + 5 * minute_us) r]> (db_pjhs d)
       else after_failure (set_now now d) d' id
              "Health checks did not pass before maintenance window closed" r j) d.
Proof. apply health_gate_ok. Qed.

Definition failing_checks_db : db :=
  Db noon (db_jobs window_db) (db_pjhs window_db) (db_hosts window_db) (db_windows window_db) ∅
    {[60%N := HealthCheck host_b true None]} [].

Lemma health_gate_spec_witness :
  awp (execute_host_job job_1 host_b row_b)
    (fun _ d' => exists now, db_now failing_checks_db <= now /\
       if host_window_open (set_now now failing_checks_db) host_b
       then db_jobs d' = db_jobs failing_checks_db /\
            exists t, now <= t /\ db_pjhs d' =
              <[row_b := pjh_waiting (t + 5 * minute_us) (demo_row host_b Queued 0 None)]> (db_pjhs failing_checks_db)
       else after_failure (set_now now failing_checks_db) d' row_b
              "Health checks did not pass before maintenance window closed" (demo_row host_b Queued 0 None)
              (PatchJob PatchApply Queued (Some user_1) None None false (JArr []) "" None false 0 0 None None))
    failing_checks_db.
Proof.
  apply (health_gate_spec job_1 host_b row_b failing_checks_db (demo_host false true));
    try (vm_compute; reflexivity). vm_compute; discriminate.
Defined.

(** C8. However often the scheduler looks at an open window during one of its
    cycles, it creates at most one job for it, and only if the cycle has none:
    the jobs of the cycle, whatever has become of them, are those that there
    were, or there were none and there is one; also while other tasks run and
    finish the job between its statements, and statements fail.  Where nothing
    else runs and no statement fails, the tables stay, or the one job was added
    with the window's host, reboot flag and delay, queued and not immediate. *)
Theorem auto_create_once_per_cycle aw w n d :
  db_windows d !! aw_id aw = Some w -> w_recurrence w <> Once -> in_daily_slot (db_now d) w = true ->
  @wp eff db (eff_step (other_tasks aw) True) _ (for_each (replicate n aw) auto_create_one)
    (fun _ d' => cycle_start (db_now d') w = cycle_start (db_now d) w ->
       at_most_first (cycle_jobs (aw_host aw) (aw_id aw) (cycle_start (db_now d) w) d)
         (cycle_jobs (aw_host aw) (aw_id aw) (cycle_start (db_now d) w) d')) d /\
  awp (for_each (replicate n aw) auto_create_one)
    (fun _ d' => db_now d <= db_now d' /\ db_windows d' = db_windows d /\
       (cycle_start (db_now d') w = cycle_start (db_now d) w ->
        (db_jobs d' = db_jobs d /\ db_pjhs d' = db_pjhs d) \/ auto_job_added d d' aw)) d.
Proof.
  intros Hw Hr Hs. split.
  - eapply wp_mono; [|by apply auto_create_among]. cbv beta. by intros _ d' (_ & _ & H).
  - apply auto_create_repeat; [done|]. by apply cycle_start_open.
Qed.

Lemma auto_create_once_per_cycle_witness :
  @wp eff db (eff_step (other_tasks (AutoWindow win_1 host_a true 5)) True) _
    (for_each (replicate 3 (AutoWindow win_1 host_a true 5)) auto_create_one)
    (fun _ d' => cycle_start (db_now d') open_window = cycle_start (db_now window_db) open_window ->
       at_most_first (cycle_jobs host_a win_1 (cycle_start (db_now window_db) open_window) window_db)
         (cycle_jobs host_a win_1 (cycle_start (db_now window_db) open_window) d')) window_db /\
  awp (for_each (replicate 3 (AutoWindow win_1 host_a true 5)) auto_create_one)
    (fun _ d' => db_now window_db <= db_now d' /\ db_windows d' = db_windows window_db /\
       (cycle_start (db_now d') open_window = cycle_start (db_now window_db) open_window ->
        (db_jobs d' = db_jobs window_db /\ db_pjhs d' = db_pjhs window_db) \/
        auto_job_added window_db d' (AutoWindow win_1 host_a true 5))) window_db.
Proof.
  apply (auto_create_once_per_cycle (AutoWindow win_1 host_a true 5) open_window 3 window_db);
    [reflexivity|discriminate|vm_compute; reflexivity].
Defined.

(** The windows bind jobs, not hosts: when the window of one host of a
    non-immediate job opens, the scheduler dispatches the job, and the job's
    task starts the entry of every queued host, also of one whose window is
    closed. *)
Theorem closed_window_host_dispatched :
  host_window_open window_db host_b = false /\
  TProcessJob job_1 ∈ (run tracing_world scheduler_tick (window_db, [])).2.2 /\
  TExecuteHostJob job_1 host_b row_b ∈ (run tracing_world (process_job job_1) (window_db, [])).2.2.
Proof.
  split_and!; [vm_compute; reflexivity|..].
  - vm_compute. set_solver.
  - vm_compute. set_solver.
Qed.
