(* ===== verification/UpgradeFlow.v ===== *)
(** * What an upgrade request does

    The versions that the repository offers a host, the version each host of a
    request is taken to, or why it is skipped, and the jobs that the request
    leaves in the tables of the job engine. *)

From S2P Require Import Prelude Ordering Version Rbac Conc Schema Windows Statements SelfUpgrade JobExecutor JobsApi.
From S2P Require Import RepoWorld RepoIndex Upgrades Scenario JobSafety JobFlow RouteFlow.

(** ** The database: the job tables, the hosts' systems and [repo_packages] *)

Record package_row : Type := PackageRow {
  pk_version : string; pk_distro : string; pk_codename : option string; pk_filename : string; pk_published : option Z
}.

Record upgrade_world : Type := UpgradeWorld {
  uw_db : db; uw_os : gmap uuid string; uw_packages : list package_row
}.

Definition with_db (d : db) (w : upgrade_world) : upgrade_world := UpgradeWorld d (uw_os w) (uw_packages w).

(** [filename LIKE 'linux-patch-manager_%']: the underscore stands for any
    character. *)
Definition manager_package (filename : string) : bool :=
  match strip_prefix "linux-patch-manager" filename with Some (String _ _) => true | _ => false end.

(** The condition of the two queries on [repo_packages]. *)
Definition offered (distro : string) (codename : option string) (p : package_row) : bool :=
  String.eqb (pk_distro p) distro &&
  match pk_codename p, codename with
  | None, _ => true
  | Some x, Some y => String.eqb x y
  | Some _, None => false
  end && negb (manager_package (pk_filename p)).

(** [ORDER BY published_at DESC NULLS LAST]: [p] may come before [q]. *)
Definition published_before (p q : package_row) : Prop :=
  match pk_published p, pk_published q with
  | Some x, Some y => y <= x
  | Some _, None | None, None => True
  | None, Some _ => False
  end.

Definition listed (p : package_row) : available_version :=
  AvailableVersion (pk_version p) (pk_distro p) (pk_codename p) (pk_filename p) (pk_published p).

Section Step.
Context (w : upgrade_world) (distro : string) (codename : option string).

(** Some package of the version is offered. *)
Definition has_version (v : string) : Prop :=
  exists p, p ∈ uw_packages w /\ offered distro codename p = true /\ pk_version p = v.

(** [SELECT DISTINCT version]; the order is left open, the program sorts. *)
Definition versions_answer (vs : list string) : Prop := NoDup vs /\ forall v, v ∈ vs <-> has_version v.

(** [SELECT DISTINCT ON (version)]: per version the package published last. *)
Definition available_answer (l : list available_version) : Prop :=
  versions_answer (av_version <$> l) /\
  forall a, a ∈ l -> exists p, p ∈ uw_packages w /\ offered distro codename p = true /\ a = listed p /\
    forall q, q ∈ uw_packages w -> offered distro codename q = true -> pk_version q = pk_version p -> published_before p q.
End Step.

#[export] Instance upgrade_alone : EffectSem upgrade_eff upgrade_world := fun X e w x w' =>
  match e in upgrade_eff Y return Y -> Prop with
  | JobEff e => fun x => exists d', @exec eff db alone _ e (uw_db w) x d' /\ w' = with_db d' w
  | SelHostOs host => fun x =>
      x = Ok ((fun h => (uw_os w !! host, host_agent_version h)) <$> db_hosts (uw_db w) !! host) /\ w' = w
  | SelVersions d c => fun x => exists vs, x = Ok vs /\ versions_answer w d c vs /\ w' = w
  | SelAvailable d c => fun x => exists l, x = Ok l /\ available_answer w d c l /\ w' = w
  end x.

Abbreviation uwp := (@wp upgrade_eff upgrade_world upgrade_alone _).

(** ** What a request is meant to do *)

Section Plan.
Context (w : upgrade_world).

(** The repository has version [v] for the system of the host. *)
Definition offers (host : uuid) (v : string) : Prop :=
  exists h os d c, db_hosts (uw_db w) !! host = Some h /\ uw_os w !! host = Some os /\
    map_os_to_distro os = Some (d, c) /\ has_version w d c v.

(** The newest of them, where they are dotted numbers. *)
Definition newest (host : uuid) (v : string) : Prop :=
  offers host v /\
  ((forall v', offers host v' -> numeric_version v') -> forall v', offers host v' -> compare_versions v' v <> Gt).

Definition wanted (target : option string) (host : uuid) (v : string) : Prop :=
  match target with Some t => v = t /\ offers host t | None => newest host v end.

Definition same_release (current : option string) (v : string) : Prop :=
  exists c, current = Some c /\ before_dash c = before_dash v.

(** What becomes of one host of the request. *)
Inductive planned (target : option string) (host : uuid) : result string string -> Prop :=
| plan_unknown :
    db_hosts (uw_db w) !! host = None -> planned target host (Err "Host not found"%string)
| plan_no_os h :
    db_hosts (uw_db w) !! host = Some h -> uw_os w !! host = None ->
    planned target host (Err "Host has no OS information"%string)
| plan_unsupported h os :
    db_hosts (uw_db w) !! host = Some h -> uw_os w !! host = Some os -> map_os_to_distro os = None ->
    planned target host (Err ("Unsupported OS: " ++ os)%string)
| plan_no_package h os d :
    db_hosts (uw_db w) !! host = Some h -> uw_os w !! host = Some os -> map_os_to_distro os = Some d ->
    (forall v, ~ offers host v) -> planned target host (Err "No packages available for this host's OS in the repo"%string)
| plan_unavailable t v :
    target = Some t -> offers host v -> ~ offers host t ->
    planned target host (Err ("Version '" ++ t ++ "' not available for this host's OS")%string)
| plan_current h v :
    db_hosts (uw_db w) !! host = Some h -> wanted target host v -> same_release (host_agent_version h) v ->
    planned target host (Err ("Host is already at version " ++ v)%string)
| plan_upgrade h v :
    db_hosts (uw_db w) !! host = Some h -> wanted target host v -> ~ same_release (host_agent_version h) v ->
    planned target host (Ok v).
End Plan.

(** The job that is created for version [v]. *)
Definition upgrade_job (auth : auth_user) (win : option uuid) (im : bool) (v : string) (now : Z) : patch_job :=
  PatchJob SelfUpgrade Queued (Some (au_id auth)) None win im (upgrade_selection v) "" None false 0 now None None.

(** [d'] is [d] with the jobs [js] (a job, its version and its hosts), and one
    queued entry for each of their hosts. *)
Record upgrades_added (job_of : string -> Z -> patch_job) (js : list (uuid * (string * list uuid))) (d d' : db) : Prop := {
  added_distinct : NoDup js.*1;
  added_fresh : forall job, job ∈ js.*1 -> db_jobs d !! job = None;
  added_jobs : forall job v hs, (job, (v, hs)) ∈ js -> exists t, db_now d <= t /\ db_jobs d' !! job = Some (job_of v t);
  added_other_jobs : forall job, job ∉ js.*1 -> db_jobs d' !! job = db_jobs d !! job;
  added_kept : db_pjhs d ⊆ db_pjhs d';
  added_entries : forall id r, db_pjhs d' !! id = Some r ->
    db_pjhs d !! id = Some r \/ exists job v hs h, (job, (v, hs)) ∈ js /\ h ∈ hs /\ r = new_pjh job h;
  added_all : forall job v hs h, (job, (v, hs)) ∈ js -> h ∈ hs ->
    exists id r, db_pjhs d' !! id = Some r /\ h_job r = job /\ h_host r = h;
  added_time : db_now d <= db_now d';
  added_frame : db_hosts d' = db_hosts d /\ db_windows d' = db_windows d /\ db_patches d' = db_patches d /\
    db_checks d' = db_checks d
}.

(** The hosts that go to version [v], in the order of the request. *)
Definition hosts_for (v : string) (valid : list (uuid * string)) : list uuid :=
  omap (fun hv => if String.eqb hv.2 v then Some hv.1 else None) valid.

Definition skipped_of (plans : list (uuid * result string string)) : list (uuid * string) :=
  omap (fun hp => match hp.2 with Err reason => Some (hp.1, reason) | Ok _ => None end) plans.
Definition valid_of (plans : list (uuid * result string string)) : list (uuid * string) :=
  omap (fun hp => match hp.2 with Ok v => Some (hp.1, v) | Err _ => None end) plans.

Definition upgrade_outcome (auth : auth_user) (req : upgrade_request) (w : upgrade_world)
    (res : result upgrade_response api_err) (w' : upgrade_world) : Prop :=
  exists plans, plans.*1 = ur_hosts req /\
    (forall host p, (host, p) ∈ plans -> planned w (ur_target req) host p) /\
    let valid := valid_of plans in
    if bool_decide (valid = []) then res = Ok (UpgradeResponse None 0 (skipped_of plans)) /\ w' = w
    else if negb (known_window (uw_db w) (ur_window req)) then
      res = Err err_internal /\ exists d', unchanged (uw_db w) d' /\ w' = with_db d' w
    else exists js d', w' = with_db d' w /\
      upgrades_added (upgrade_job auth (ur_window req) (ur_immediate req)) js (uw_db w) d' /\
      bt_wf js.*2 /\ (forall v hs, (v, hs) ∈ js.*2 <-> hs = hosts_for v valid /\ hs <> []) /\
      (forall job v hs, (job, (v, hs)) ∈ js -> awp (fetch_target_version job) (fun t _ => t = Some v) d') /\
      res = Ok (UpgradeResponse (head js.*1) (Z.of_nat (length valid)) (skipped_of plans)).

(** ** The hosts of the request *)

Lemma wp_job_part {A} (p : prog eff A) (Q : A -> upgrade_world -> Prop) w :
  awp p (fun a d' => Q a (with_db d' w)) (uw_db w) -> uwp (job_part p) Q w.
Proof.
  revert w. induction p as [a|X e k IH]; intros w Hp; simpl in *; [by destruct w|].
  intros x w' (d' & He & ->). apply IH, Hp, He.
Qed.

Lemma same_release_dec current v : {same_release current v} + {~ same_release current v}.
Proof.
  destruct current as [c|]; [|right; by intros (c & [=] & _)].
  destruct (decide (before_dash c = before_dash v)) as [He|Hne]; [left; by exists c|right; by intros (? & [= <-] & ?)].
Qed.

Lemma check_current_spec current v :
  check_current current v =
    if same_release_dec current v then Err ("Host is already at version " ++ v)%string else Ok v.
Proof.
  unfold check_current. destruct (same_release_dec current v) as [(c & -> & He)|Hne].
  - by rewrite He, String.eqb_refl.
  - destruct current as [c|]; [|done]. destruct (String.eqb_spec (before_dash c) (before_dash v)) as [He|]; [|done].
    destruct Hne. by exists c.
Qed.

(** Newest first, on dotted numbers. *)
Lemma newest_first_sorted (vs : list string) :
  Forall numeric_version vs ->
  StronglySorted (not_after (fun a b => compare_versions b a)) (sort_by (fun a b => compare_versions b a) vs).
Proof.
  apply (sort_by_sorted _ numeric_version).
  - intros x y _ _ Hgt. by rewrite (proj2 (compare_versions_antisym y x)), Hgt.
  - intros x y z Hx Hy Hz H1 H2. by apply (compare_numeric_trans z y x).
Qed.

Lemma newest_head (vs : list string) v rest :
  sort_by (fun a b => compare_versions b a) vs = v :: rest ->
  Forall numeric_version vs -> forall v', v' ∈ vs -> compare_versions v' v <> Gt.
Proof.
  intros Hs Hn v' Hv'. pose proof (newest_first_sorted vs Hn) as Hsorted.
  rewrite <- (sort_by_perm (fun a b => compare_versions b a) vs), Hs in Hv'. rewrite Hs in Hsorted.
  apply StronglySorted_inv in Hsorted as [_ Hall]. apply elem_of_cons in Hv' as [->|Hin].
  - by rewrite (proj1 (compare_versions_antisym v v)).
  - rewrite Forall_forall in Hall. by apply Hall.
Qed.

Section Resolve.
Context (w : upgrade_world) (target : option string) (host : uuid).

Lemma offers_at h os d c v :
  db_hosts (uw_db w) !! host = Some h -> uw_os w !! host = Some os -> map_os_to_distro os = Some (d, c) ->
  offers w host v <-> has_version w d c v.
Proof.
  intros Hh Ho Hd. split.
  - intros (h' & os' & d' & c' & H1 & H2 & H3 & Hv). simplify_eq. done.
  - intros Hv. exists h, os, d, c. done.
Qed.

Lemma choose_version_planned h os d c vs :
  db_hosts (uw_db w) !! host = Some h -> uw_os w !! host = Some os -> map_os_to_distro os = Some (d, c) ->
  versions_answer w d c vs ->
  planned w target host (choose_version target (host_agent_version h) vs).
Proof.
  intros Hh Ho Hd [_ Hvs].
  assert (Hoff : forall v, offers w host v <-> v ∈ vs).
  { intros v. rewrite Hvs. by apply (offers_at h os d c). }
  assert (Hwant : forall v, wanted w target host v -> planned w target host (check_current (host_agent_version h) v)).
  { intros v Hv. rewrite check_current_spec. destruct (same_release_dec _ v).
    - by apply (plan_current w target host h).
    - by apply (plan_upgrade w target host h). }
  unfold choose_version. destruct vs as [|v0 vs'] eqn:Heq.
  { apply (plan_no_package w target host h os (d, c)); [done..|]. intros v. rewrite Hoff. apply not_elem_of_nil. }
  rewrite <- Heq in *. assert (v0 ∈ vs) as Hv0 by (rewrite Heq; left). clear Heq vs'.
  unfold resolve_version. destruct target as [t|].
  - destruct (existsb (String.eqb t) _) eqn:Hex; cbn [result_bind].
    + apply Hwant. split; [done|]. apply Hoff. apply existsb_exists in Hex as (x & Hx & ->%String.eqb_eq).
      apply list_elem_of_In in Hx. by rewrite sort_by_perm in Hx.
    + apply (plan_unavailable w _ host t v0); [done|by apply Hoff|]. rewrite Hoff. intros Ht.
      apply not_true_iff_false in Hex. apply Hex, existsb_exists. exists t. split; [|apply String.eqb_refl].
      apply list_elem_of_In. by rewrite sort_by_perm.
  - destruct (sort_by _ vs) as [|v rest] eqn:Hs.
    { pose proof (sort_by_perm (fun a b => compare_versions b a) vs) as Hp. rewrite Hs in Hp.
      apply Permutation_nil_l in Hp. rewrite <- Hp in Hv0. by apply elem_of_nil in Hv0. }
    cbn [result_bind]. apply Hwant. split.
    + apply Hoff. rewrite <- (sort_by_perm (fun a b => compare_versions b a) vs), Hs. left.
    + intros Hn v' Hv'. eapply newest_head; [exact Hs| |by apply Hoff].
      apply Forall_forall. intros x Hx. by apply Hn, Hoff.
Qed.

Lemma resolve_host_planned :
  uwp (resolve_host target host) (fun r w' => w' = w /\ exists p, r = Ok p /\ planned w target host p) w.
Proof.
  unfold resolve_host, db_or_internal. intros x w' [-> ->]. cbn [bind].
  destruct (db_hosts (uw_db w) !! host) as [h|] eqn:Hh; cbn [fmap option_fmap option_map].
  2:{ split; [done|]. eexists. split; [done|]. by apply plan_unknown. }
  destruct (uw_os w !! host) as [os|] eqn:Ho.
  2:{ split; [done|]. eexists. split; [done|]. by eapply plan_no_os. }
  destruct (map_os_to_distro os) as [[d c]|] eqn:Hd.
  2:{ split; [done|]. eexists. split; [done|]. by eapply plan_unsupported. }
  intros x w' (vs & -> & Hvs & ->). split; [done|]. eexists. split; [done|].
  by apply (choose_version_planned h os d c).
Qed.
End Resolve.

Lemma resolve_hosts_planned w target hosts skipped valid :
  uwp (resolve_hosts target hosts skipped valid)
    (fun r w' => w' = w /\ exists plans, plans.*1 = hosts /\
       (forall host p, (host, p) ∈ plans -> planned w target host p) /\
       r = Ok (skipped ++ skipped_of plans, valid ++ valid_of plans)) w.
Proof.
  revert skipped valid. induction hosts as [|host hosts IH]; intros skipped valid; cbn [resolve_hosts].
  { split; [done|]. exists []. split_and!; [done| |by rewrite !app_nil_r]. intros host p Hp. by apply elem_of_nil in Hp. }
  unfold bind_ok. apply wp_bind. eapply wp_mono; [|apply resolve_host_planned].
  intros r w' (-> & p & -> & Hp). cbv beta iota. destruct p as [v|reason].
  all: eapply wp_mono; [|apply IH]; intros r w' (-> & plans & <- & Hpl & ->); split; [done|].
  1: exists ((host, Ok v) :: plans). 2: exists ((host, Err reason) :: plans).
  all: split_and!; [done| |cbn; by rewrite <- (assoc_L (++))].
  all: intros host' p' [[= -> ->]|Hin]%elem_of_cons; [done|by apply Hpl].
Qed.

(** ** The groups *)

Lemma hosts_for_app v l1 l2 : hosts_for v (l1 ++ l2) = hosts_for v l1 ++ hosts_for v l2.
Proof. apply omap_app. Qed.

Lemma group_hosts_spec valid :
  bt_wf (group_hosts valid) /\
  forall v, bt_get v (group_hosts valid) = (match hosts_for v valid with [] => None | hs => Some hs end).
Proof.
  induction valid as [|[host v] valid [IHwf IHget]] using rev_ind; [split; [constructor|done]|].
  unfold group_hosts. rewrite foldl_app. cbn [foldl]. fold (group_hosts valid). unfold push_host; cbn [fst snd].
  split; [by apply bt_insert_wf|]. intros v'. rewrite hosts_for_app. unfold hosts_for at 2. cbn [omap list_omap fst snd].
  destruct (String.eqb_spec v v') as [->|Hne].
  - rewrite bt_get_insert, IHget. by destruct (hosts_for v' valid).
  - rewrite bt_get_insert_ne by congruence. by rewrite app_nil_r.
Qed.

Lemma group_hosts_elem valid v hs :
  (v, hs) ∈ group_hosts valid <-> hs = hosts_for v valid /\ hs <> [].
Proof.
  destruct (group_hosts_spec valid) as [Hwf Hget]. rewrite <- bt_get_elem by done. rewrite Hget.
  destruct (hosts_for v valid); split; intros Heq; intuition congruence.
Qed.

(** Every host is in one group. *)
Definition group_total (groups : btree string (list uuid)) : nat := sum_list_with (fun g => length g.2) groups.

Lemma group_total_insert v hs (m : btree string (list uuid)) : bt_wf m ->
  (group_total (bt_insert v hs m) + length (default [] (bt_get v m)) = group_total m + length hs)%nat.
Proof.
  unfold group_total. induction 1 as [|[v' hs'] m Hm IH Hk]; simpl; [lia|].
  destruct (ord_cmp v v') eqn:Hc; simpl; [lia| |lia].
  rewrite bt_get_none; [simpl; lia|]. eapply Forall_impl; [exact Hk|]. intros p Hp. by apply (ord_cmp_trans _ v').
Qed.

Lemma group_total_valid valid : group_total (group_hosts valid) = length valid.
Proof.
  induction valid as [|[host v] valid IH] using rev_ind; [done|].
  unfold group_hosts. rewrite foldl_app. cbn [foldl]. fold (group_hosts valid). unfold push_host; cbn [fst snd].
  pose proof (group_total_insert v (default [] (bt_get v (group_hosts valid)) ++ [host]) (group_hosts valid)
    (proj1 (group_hosts_spec valid))) as Ht.
  rewrite length_app in *. cbn [length] in *. lia.
Qed.

(** ** The jobs *)

Definition has_job (d : db) : Prop := forall id r, db_pjhs d !! id = Some r -> is_Some (db_jobs d !! h_job r).

Lemma upgrades_added_nil job_of d : upgrades_added job_of [] d d.
Proof.
  split; simpl; try done; [constructor|..].
  - intros job Hj. by apply elem_of_nil in Hj.
  - intros job v hs Hj. by apply elem_of_nil in Hj.
  - by left.
  - intros job v hs h Hj. by apply elem_of_nil in Hj.
Qed.

Lemma upgrades_added_has_job job_of js d d' : upgrades_added job_of js d d' -> has_job d -> has_job d'.
Proof.
  intros Ha Hd id r [Hr|(job & v & hs & h & Hin & _ & ->)]%(added_entries _ _ _ _ Ha); simpl.
  - destruct (decide (h_job r ∈ js.*1)) as [Hin|Hin].
    + apply list_elem_of_fmap in Hin as ([job [v hs]] & -> & Hin). simpl.
      destruct (added_jobs _ _ _ _ Ha _ _ _ Hin) as (t & _ & ->). eauto.
    + rewrite (added_other_jobs _ _ _ _ Ha) by done. by eapply Hd.
  - destruct (added_jobs _ _ _ _ Ha _ _ _ Hin) as (t & _ & ->). eauto.
Qed.

Lemma upgrades_added_cons job_of x js d d1 d' :
  upgrades_added job_of [x] d d1 -> upgrades_added job_of js d1 d' -> upgrades_added job_of (x :: js) d d'.
Proof.
  intros H1 H2. destruct x as [job [v hs]].
  assert (Hjob : exists t, db_now d <= t /\ db_jobs d1 !! job = Some (job_of v t)) by (eapply H1; left).
  assert (Hnot : job ∉ js.*1).
  { intros Hin. apply H2 in Hin. destruct Hjob as (t & _ & Ht). congruence. }
  destruct H1 as [H1a H1b H1c H1d H1e H1f H1g H1h H1i], H2 as [H2a H2b H2c H2d H2e H2f H2g H2h H2i].
  split.
  - cbn. by constructor.
  - cbn. intros job' [->|Hin]%elem_of_cons; [apply H1b; left|].
    rewrite <- (H1d job'); [by apply H2b|]. intros ->%list_elem_of_singleton. by apply Hnot.
  - intros job' v' hs' [[= -> -> ->]|Hin]%elem_of_cons.
    + destruct Hjob as (t & Ht & Hj). exists t. split; [done|]. by rewrite H2d.
    + destruct (H2c _ _ _ Hin) as (t & Ht & Hj). exists t. split; [lia|done].
  - cbn. intros job' [Hne Hout]%not_elem_of_cons. rewrite H2d by done. apply H1d.
    by intros ->%list_elem_of_singleton.
  - by etrans.
  - intros id r [[Hr|(job' & v' & hs' & h & [= -> -> ->]%list_elem_of_singleton & Hh & ->)]%H1f|(job' & v' & hs' & h & Hin & Hh & ->)]%H2f.
    + by left.
    + right. exists job, v, hs, h. split; [left|done].
    + right. exists job', v', hs', h. split; [by right|done].
  - intros job' v' hs' h [Heq|Hin]%elem_of_cons Hh; [|by eapply H2g].
    destruct (H1g job' v' hs' h) as (id & r & Hr & ?); [apply list_elem_of_singleton; exact Heq|done|].
    exists id, r. split; [|done]. by eapply lookup_weaken.
  - lia.
  - destruct H1i as (E1 & E2 & E3 & E4), H2i as (F1 & F2 & F3 & F4). split_and!; congruence.
Qed.

Lemma insert_host_rows_frame job hosts d :
  awp (insert_host_rows job hosts)
    (fun _ d' => db_hosts d' = db_hosts d /\ db_windows d' = db_windows d /\ db_patches d' = db_patches d /\
       db_checks d' = db_checks d) d.
Proof.
  revert d. induction hosts as [|h hs IH]; intros d; cbn [insert_host_rows]; astep; [done|].
  cbn [exec_stmt].
  assert (Hf : forall d1, db_hosts (ins_pjh job h d1).2 = db_hosts d1 /\ db_windows (ins_pjh job h d1).2 = db_windows d1 /\
             db_patches (ins_pjh job h d1).2 = db_patches d1 /\ db_checks (ins_pjh job h d1).2 = db_checks d1)
    by (intros d1; unfold ins_pjh; repeat case_match; done).
  destruct (Hf (set_now t d)) as (F1 & F2 & F3 & F4).
  destruct (ins_pjh job h (set_now t d)) as [[[]|e] d1]; cbn [fst snd] in *; [|by astep].
  eapply awp_mono; [apply IH|]. intros r d' (E1 & E2 & E3 & E4). split_and!; etrans; eauto.
Qed.

Section Groups.
Context (auth : auth_user) (win : option uuid) (im : bool).

(** One group: its job and the entries of its hosts. *)
Lemma insert_group_ok {B} v hosts (k : uuid -> prog eff (result B api_err)) Q d :
  known_window d win = true -> forallb (known_host d) hosts = true -> has_job d ->
  (forall job d', upgrades_added (upgrade_job auth win im) [(job, (v, hosts))] d d' -> awp (k job) Q d') ->
  awp (let! j := sql (InsJob SelfUpgrade (Some (au_id auth)) None win im (upgrade_selection v) "" false 0) in
       match j with
       | Err _ => Ret (Err err_internal)
       | Ok job => let!? _ := insert_host_rows job hosts in k job
       end) Q d.
Proof.
  intros Hw Hh Hj HQ. astep. cbn [exec_stmt].
  destruct (ins_job_ok SelfUpgrade (Some (au_id auth)) None win im (upgrade_selection v) "" false 0 (set_now t d)) as [_ Hyes].
  destruct (Hyes Hw) as (job & Hnone & ->). clear Hyes. simpl in Hnone. cbn [fst snd].
  set (d1 := set_jobs _ _). unfold bind_ok. apply awp_bind. eapply awp_mono.
  { apply wp_conj; [|apply insert_host_rows_frame]. apply insert_host_rows_ok.
    - simpl. rewrite lookup_insert_eq. eauto.
    - intros id r Hr Hrj. exfalso. simpl in Hr. apply Hj in Hr as [j Hr]. congruence. }
  intros r d' [(-> & (Hk & He & Ha) & Hjobs & Hnow) (F1 & F2 & F3 & F4)].
  change (known_host d1) with (known_host d) in *. rewrite Hh.
  assert (known_prefix d1 hosts = hosts) as Hp.
  { clear -Hh. induction hosts as [|h hs IH]; simpl in *; [done|]. apply andb_true_iff in Hh as [Hh1 Hh2].
    change (known_host d1 h) with (known_host d h). rewrite Hh1. f_equal. by apply IH. }
  rewrite Hp in He, Ha. apply HQ. split; simpl.
  - apply NoDup_singleton.
  - by intros job' ->%list_elem_of_singleton.
  - intros job' v' hs' [= -> -> ->]%list_elem_of_singleton. exists t. split; [done|].
    rewrite Hjobs. simpl. by rewrite lookup_insert_eq.
  - intros job' Hne. rewrite Hjobs. simpl. rewrite lookup_insert_ne; [done|]. intros ->. apply Hne. left.
  - exact Hk.
  - intros id r [Hr|(h & Hin & ->)]%He; [by left|]. right. exists job, v, hosts, h. split; [left|done].
  - intros job' v' hs' h [= -> -> ->]%list_elem_of_singleton Hin. by apply Ha.
  - simpl in Hnow. lia.
  - done.
Qed.

Lemma insert_groups_ok groups first total d :
  known_window d win = true -> has_job d -> (forall v hs, (v, hs) ∈ groups -> forallb (known_host d) hs = true) ->
  awp (insert_groups auth win im groups first total)
    (fun r d' => exists js, js.*2 = groups /\ upgrades_added (upgrade_job auth win im) js d d' /\
       r = Ok (match first with Some j => Some j | None => head js.*1 end,
               total + Z.of_nat (group_total groups))) d.
Proof.
  revert first total d. induction groups as [|[v hosts] groups IH]; intros first total d Hw Hj Hk; cbn [insert_groups].
  - apply awp_ret. exists []. split_and!; [done|apply upgrades_added_nil|]. unfold group_total; simpl.
    rewrite Z.add_0_r. by destruct first.
  - apply insert_group_ok; [done|apply (Hk v); left|done|]. intros job d1 Hadd.
    pose proof (added_frame _ _ _ _ Hadd) as (Fh & Fw & _ & _).
    eapply awp_mono; [apply IH|].
    + unfold known_window. by rewrite Fw.
    + by eapply upgrades_added_has_job.
    + intros v' hs Hin. rewrite (forallb_known_ext d); [apply (Hk v'); by right|]. intros x. unfold known_host. by rewrite Fh.
    + intros r d' (js & <- & Hadd' & ->). exists ((job, (v, hosts)) :: js). split_and!; [done| |].
      * by eapply upgrades_added_cons.
      * unfold group_total; simpl. do 2 f_equal; [by destruct first|lia].
Qed.

Lemma insert_groups_no_window groups total d : groups <> [] -> known_window d win = false ->
  awp (insert_groups auth win im groups None total) (fun r d' => r = Err err_internal /\ unchanged d d') d.
Proof.
  intros Hne Hw. destruct groups as [|[v hosts] groups]; [done|]. cbn [insert_groups]. astep. cbn [exec_stmt].
  destruct (ins_job_ok SelfUpgrade (Some (au_id auth)) None win im (upgrade_selection v) "" false 0 (set_now t d)) as [Hno _].
  rewrite (Hno Hw). cbn [fst snd]. astep. split; [done|]. by exists t.
Qed.

Lemma upgrades_added_now job_of js d d' t :
  upgrades_added job_of js d d' -> db_now d' <= t -> upgrades_added job_of js d (set_now t d').
Proof. intros [H1 H2 H3 H4 H5 H6 H7 H8 H9] Ht. split; try done. simpl. lia. Qed.
End Groups.

(** The versions the hosts go to are known to the job engine. *)
Lemma valid_known w target plans host v :
  (forall host p, (host, p) ∈ plans -> planned w target host p) ->
  (host, v) ∈ valid_of plans -> known_host (uw_db w) host = true.
Proof.
  intros Hp ([h [v'|e]] & Hin & Heq)%list_elem_of_omap; simplify_eq/=. apply Hp in Hin.
  apply bool_decide_eq_true. inversion Hin; subst; eauto.
Qed.

Lemma group_hosts_nil valid : valid <> [] -> group_hosts valid <> [].
Proof.
  intros Hne Hg. pose proof (group_total_valid valid) as Ht. rewrite Hg in Ht. by destruct valid.
Qed.

Lemma upgrade_target_read auth win im js d d' job v hs :
  upgrades_added (upgrade_job auth win im) js d d' -> (job, (v, hs)) ∈ js ->
  awp (fetch_target_version job) (fun t _ => t = Some v) d'.
Proof.
  intros Ha Hin. destruct (added_jobs _ _ _ _ Ha _ _ _ Hin) as (t & _ & Hj).
  unfold fetch_target_version. astep. cbn [exec_stmt reads fst snd]. unfold sel_selection. cbn [set_now db_jobs].
  rewrite Hj. by astep.
Qed.

Lemma create_upgrade_jobs_ok auth win im valid d :
  valid <> [] -> has_job d -> (forall host v, (host, v) ∈ valid -> known_host d host = true) ->
  awp (create_upgrade_jobs auth win im valid)
    (fun r d' =>
       if negb (known_window d win) then r = Err err_internal /\ unchanged d d'
       else exists js, js.*2 = group_hosts valid /\ upgrades_added (upgrade_job auth win im) js d d' /\
         r = Ok (head js.*1, Z.of_nat (length valid))) d.
Proof.
  intros Hne Hj Hk. unfold create_upgrade_jobs. apply awp_bind.
  destruct (known_window d win) eqn:Hw; cbn [negb].
  - eapply awp_mono; [apply (insert_groups_ok auth win im (group_hosts valid) None 0); [done..|]|].
    + intros v hs [-> _]%group_hosts_elem. apply forallb_forall. intros host Hin%list_elem_of_In.
      apply list_elem_of_omap in Hin as ([host' v'] & Hin & Heq). cbn in Heq. case_match; simplify_eq.
      by eapply Hk.
    + intros r d' (js & Hjs & Ha & ->). cbv beta iota. astep. apply awp_ret.
      exists js. rewrite group_total_valid. split_and!; [done|by apply upgrades_added_now|done].
  - eapply awp_mono; [by apply insert_groups_no_window; [apply group_hosts_nil|]|].
    intros r d' [-> Hu]. by apply awp_ret.
Qed.

(** ** The versions that are listed *)

Definition newer_first : relation string := fun a b => compare_versions b a <> Gt.

Lemma sort_repo_versions_sorted l :
  Forall numeric_version (av_version <$> l) -> StronglySorted newer_first (av_version <$> sort_repo_versions_desc l).
Proof.
  intros Hn. unfold sort_repo_versions_desc.
  pose proof (sort_by_sorted (fun a b => compare_versions (av_version b) (av_version a))
    (fun a => numeric_version (av_version a))) as Hs.
  assert (StronglySorted (not_after (fun a b => compare_versions (av_version b) (av_version a)))
    (sort_by (fun a b => compare_versions (av_version b) (av_version a)) l)) as Hsorted.
  { apply Hs; [| |exact (proj1 (Forall_fmap _ _ _) Hn)].
    - intros x y _ _ Hgt. by rewrite (proj2 (compare_versions_antisym (av_version y) (av_version x))), Hgt.
    - intros x y z Hx Hy Hz H1 H2. by apply (compare_numeric_trans _ (av_version y)). }
  induction Hsorted as [|a l' Hl IH Hall]; cbn; constructor; [done|].
  by apply (proj2 (Forall_fmap _ _ _)).
Qed.

(** The answer [l] to the list of the versions for a host. *)
Record version_list (w : upgrade_world) (host : uuid) (l : list available_version) : Prop := {
  version_list_once : NoDup (av_version <$> l);
  version_list_offers : forall v, v ∈ av_version <$> l <-> offers w host v;
  version_list_last : forall a, a ∈ l -> exists p, p ∈ uw_packages w /\ a = listed p /\
    forall q d c os, uw_os w !! host = Some os -> map_os_to_distro os = Some (d, c) ->
      q ∈ uw_packages w -> offered d c q = true -> pk_version q = pk_version p -> published_before p q;
  version_list_sorted : (forall v, offers w host v -> numeric_version v) -> StronglySorted newer_first (av_version <$> l)
}.

Lemma version_list_nil w host : (forall v, ~ offers w host v) -> version_list w host [].
Proof.
  intros Hno. split; [constructor| | |constructor].
  - intros v. split; [intros Hv; by apply elem_of_nil in Hv|by intros ?%Hno].
  - intros a Ha. by apply elem_of_nil in Ha.
Qed.

Lemma version_list_available w host h os d c l :
  db_hosts (uw_db w) !! host = Some h -> uw_os w !! host = Some os -> map_os_to_distro os = Some (d, c) ->
  available_answer w d c l -> version_list w host (sort_repo_versions_desc l).
Proof.
  intros Hh Ho Hd [[Hnd Hv] Hp]. assert (Hperm : sort_repo_versions_desc l ≡ₚ l) by apply sort_by_perm.
  assert (Hoff : forall v, v ∈ av_version <$> l <-> offers w host v)
    by (intros v; by rewrite Hv, (offers_at w host h os d c)).
  split.
  - by rewrite Hperm.
  - intros v. rewrite Hperm. apply Hoff.
  - intros a Ha. rewrite Hperm in Ha. destruct (Hp a Ha) as (p & H1 & H2 & H3 & H4). exists p.
    split; [done|]. split; [done|]. intros q d' c' os' Ho' Hd' Hq Hof. simplify_eq. by apply H4.
  - intros Hn. apply sort_repo_versions_sorted, Forall_forall. intros v Hin. by apply Hn, Hoff.
Qed.

(** ** The properties *)

(** The upgrade request.  Refused without a write role (403) or without hosts
    (400), and then nothing happens.  Otherwise every host of the request is
    either skipped with its reason or taken to a version ([planned]): the one
    asked for if the repository offers it for the host's system, or the newest
    one offered; a host that has that release is skipped.  If no host is left
    nothing is written; if the window is unknown the answer is 500 and nothing
    is written; otherwise there is one new self-upgrade job per distinct version
    with one queued entry per host, no other row changes, the answer is the
    first job with the number of hosts and the skipped ones, and the worker
    reads back the version as the target of each job. *)
Theorem trigger_upgrade_spec auth req w :
  entries_wf (uw_db w) ->
  uwp (trigger_upgrade auth req)
    (fun res w' =>
       if negb (can_write (au_role auth)) then res = Err err_forbidden /\ w' = w
       else if bool_decide (ur_hosts req = []) then res = Err err_bad_request /\ w' = w
       else upgrade_outcome auth req w res w') w.
Proof.
  intros (Hfk & _). unfold trigger_upgrade. destruct (can_write (au_role auth)); cbn [negb]; [|by split].
  case_bool_decide as Hhosts; [cbn [wp]; by split|]. unfold bind_ok at 1. apply wp_bind. eapply wp_mono; [|apply resolve_hosts_planned].
  intros r w' (-> & plans & Hhp & Hpl & ->). cbv beta iota. cbn [app].
  set (valid := valid_of plans). assert (Hvalid : valid = valid_of plans) by done. clearbody valid.
  destruct valid as [|hv valid'] eqn:Heq.
  { exists plans. split; [done|]. split; [done|]. by rewrite <- Hvalid. }
  rewrite <- Heq in *. assert (valid <> []) as Hne by (by rewrite Heq). clear Heq hv valid'.
  unfold bind_ok. apply wp_bind, wp_job_part. eapply wp_mono; [|apply create_upgrade_jobs_ok; [done|exact Hfk|]].
  2:{ intros host v Hin. rewrite Hvalid in Hin. by eapply valid_known. }
  intros r d' Hr. cbv beta in Hr. destruct (known_window (uw_db w) (ur_window req)) eqn:Hw; cbn [negb] in Hr.
  - destruct Hr as (js & Hjs & Ha & ->). exists plans. split; [done|]. split; [done|].
    cbv zeta. rewrite <- Hvalid, bool_decide_false, Hw by done. exists js, d'. split; [done|]. split; [done|].
    split_and!; [by rewrite Hjs; apply group_hosts_spec|intros v hs; rewrite Hjs; apply group_hosts_elem| |done].
    intros job v hs Hin. by eapply upgrade_target_read.
  - destruct Hr as [-> Hu]. exists plans. split; [done|]. split; [done|].
    cbv zeta. rewrite <- Hvalid, bool_decide_false, Hw by done. split; [done|]. by exists d'.
Qed.

(** Two packages for the system of [host_a], which has 1.0.0; the system of
    [host_b] is not supported. *)
Definition demo_package (v file : string) : package_row :=
  PackageRow v "apt" (Some "u2404"%string) file None.
Definition upgrade_demo : upgrade_world :=
  UpgradeWorld (demo_db PatchApply Succeeded Succeeded Succeeded)
    (<[host_a := "Ubuntu 24.04"%string]> {[host_b := "Plan 9"%string]})
    [demo_package "1.2.0" "agent_1.2.0.deb"; demo_package "1.10.0" "agent_1.10.0.deb";
     demo_package "9.9.9" "linux-patch-manager_9.9.9.deb"].
Definition upgrade_demo_request : upgrade_request := UpgradeRequest [host_a; host_b] None true None.

Lemma trigger_upgrade_spec_witness :
  choose_version None (Some "1.0.0"%string) ["1.2.0"; "1.10.0"]%string = Ok "1.10.0"%string /\
  uwp (trigger_upgrade demo_user upgrade_demo_request)
    (fun res w' =>
       if negb (can_write (au_role demo_user)) then res = Err err_forbidden /\ w' = upgrade_demo
       else if bool_decide (ur_hosts upgrade_demo_request = []) then res = Err err_bad_request /\ w' = upgrade_demo
       else upgrade_outcome demo_user upgrade_demo_request upgrade_demo res w') upgrade_demo.
Proof.
  split; [vm_compute; reflexivity|].
  apply (trigger_upgrade_spec demo_user upgrade_demo_request upgrade_demo). apply demo_entries_wf.
Defined.

(** The list of available versions of a host: exactly the versions that an
    upgrade request may name for it, each once and with the package published
    last, the newest first where they are dotted numbers. *)
Theorem listed_versions_spec host w :
  uwp (list_available_versions host) (fun res w' => w' = w /\ exists l, res = Ok l /\ version_list w host l) w.
Proof.
  unfold list_available_versions, resolve_host_distro, db_or_internal, bind_ok. apply wp_bind.
  intros x w' [-> ->]. cbn [bind].
  destruct (db_hosts (uw_db w) !! host) as [h|] eqn:Hh; cbn [fmap option_fmap option_map mbind option_bind fst].
  2:{ cbn [wp]. split; [done|]. exists []. split; [done|]. apply version_list_nil. intros v (h & os & d & c & Hx & _). congruence. }
  destruct (uw_os w !! host) as [os|] eqn:Ho; cbn [wp].
  2:{ split; [done|]. exists []. split; [done|]. apply version_list_nil. intros v (h' & os & d & c & _ & Hx & _). congruence. }
  destruct (map_os_to_distro os) as [[d c]|] eqn:Hd; cbn [wp].
  2:{ split; [done|]. exists []. split; [done|]. apply version_list_nil. intros v (h' & os' & d & c & _ & Hx & Hy & _). congruence. }
  intros x w' (l & -> & Hl & ->). split; [done|]. eexists. split; [done|]. by apply (version_list_available w host h os d c).
Qed.
