(* ===== verification/RepoSync.v ===== *)
(** * Package synchronisation (pm-core/src/repo_sync.rs, pm-worker/src/package_sync_worker.rs)

    Releases of the agent (and of the manager) are fetched from GitHub, their
    packages downloaded, imported into the repository of their format, and recorded
    in [repo_packages]; what is recorded and on the disk is not downloaded again. *)

From S2P Require Import Prelude Ordering Buffers ApkSign PkgFormats Conc RepoWorld RepoIndex.

(** [PackageSyncConfig] and the parts of [RepoConfig] used here (config.rs). *)
Record sync_config : Type := SyncConfig {
  sc_enabled : bool; sc_github_repo : string; sc_max_releases : Z; sc_manager_github_repo : string;
  sc_repo_dir : string; sc_apk_rsa_key : string
}.

Record sync_result : Type := SyncResult {
  sr_synced : Z; sr_skipped : Z; sr_errors : list string; sr_packages : list synced_package
}.
Definition no_result : sync_result := SyncResult 0 0 [] [].
Definition skip (r : sync_result) : sync_result := SyncResult (sr_synced r) (sr_skipped r + 1) (sr_errors r) (sr_packages r).
Definition add_error (e : string) (r : sync_result) : sync_result := SyncResult (sr_synced r) (sr_skipped r) (sr_errors r ++ [e]) (sr_packages r).
Definition add_package (p : synced_package) (r : sync_result) : sync_result :=
  SyncResult (sr_synced r) (sr_skipped r) (sr_errors r) (sr_packages r ++ [p]).
Definition count_synced (r : sync_result) : sync_result := SyncResult (sr_synced r + 1) (sr_skipped r) (sr_errors r) (sr_packages r).

(** [size as i64] *)
Definition as_i64 (n : Z) : Z := if n <=? 2 ^ 63 - 1 then n else n - 2 ^ 64.

(** ** Names and paths *)

Definition is_package_file (name : string) : bool :=
  ends_with ".deb" name || ends_with ".rpm" name || ends_with ".apk" name || ends_with ".pkg.tar.zst" name.

Definition is_manager_package (name : string) : bool := starts_with "linux-patch-manager" name && ends_with ".deb" name.

Definition detect_distro_from_filename (name : string) : option string :=
  if ends_with ".deb" name then Some "apt"%string
  else if ends_with ".rpm" name then Some "dnf"%string
  else if ends_with ".apk" name then Some "apk"%string
  else if ends_with ".pkg.tar.zst" name then Some "pacman"%string
  else None.

Definition detect_codename_from_filename (name distro : string) : option string :=
  let lower := to_ascii_lowercase name in
  if String.eqb distro "apt" then List.find (fun suite => str_contains ("_" ++ suite ++ "_") lower) APT_SUITES
  else if String.eqb distro "dnf" then
    if str_contains DNF_CODENAME lower || str_contains "fc" lower then Some DNF_CODENAME else None
  else if String.eqb distro "apk" then
    if str_contains APK_CODENAME lower then Some APK_CODENAME else None
  else if String.eqb distro "pacman" then Some "x86_64"%string
  else None.

(** [tag.strip_prefix('v').unwrap_or(tag)] *)
Definition version_from_tag (tag : string) : string := default tag (strip_prefix "v" tag).

Definition local_package_path (repo_dir distro filename : string) : option string :=
  if String.eqb distro "apt" then Some (repo_dir ++ "/apt/pool/" ++ filename)%string
  else if String.eqb distro "dnf" then Some (repo_dir ++ "/dnf/" ++ DNF_CODENAME ++ "/Packages/" ++ filename)%string
  else if String.eqb distro "apk" then Some (repo_dir ++ "/apk/" ++ APK_CODENAME ++ "/x86_64/" ++ filename)%string
  else if String.eqb distro "pacman" then Some (repo_dir ++ "/pacman/x86_64/" ++ filename)%string
  else None.

(** [Path::new(path).parent()] of a path with a directory. *)
Definition path_parent (path : string) : option string := fst <$> rsplit_once "/" path.

Section Sync.
Context (L : libraries).

(** ** GitHub *)

Definition latest_releases (max_releases : Z) (releases : list github_release) : list github_release :=
  take (Z.to_nat max_releases) (List.filter (fun r => negb (gr_prerelease r)) releases).

Definition fetch_github_releases (config : sync_config) : repo_prog (result (list github_release) string) :=
  let!? releases := trigger (HttpReleases (sc_github_repo config) (Z.min (sc_max_releases config) 100)) in
  Ret (Ok (latest_releases (sc_max_releases config) releases)).

(** The SHA-256 of what was downloaded. *)
Definition download_asset (url path : string) : repo_prog (result string string) :=
  let!? _ := (match path_parent path with
              | Some parent => trigger (FsCreateDirAll parent)
              | None => Ret (Ok tt)
              end : repo_prog (result unit string)) in
  let!? bytes := trigger (HttpGet url) in
  let!? _ := trigger (FsWrite path bytes) in
  Ret (Ok (lib_sha256 L bytes)).

(** ** Importing *)

(** [if Path::new(path).exists() { sign_file_detached(...) }]; a failure is only logged. *)
Definition sign_if_exists (path sig_path : string) (armor : bool) : repo_prog unit :=
  let! exists_ := trigger (FsExists path) in
  if (exists_ : bool) then trigger (GpgDetached path sig_path armor) ;; Ret tt else Ret tt.

(** [create_dir_all(dir)?; copy(file, dir/name)?] *)
Definition copy_into (file_path dir fallback : string) : repo_prog (result string string) :=
  let!? _ := trigger (FsCreateDirAll dir) in
  let dest := (dir ++ "/" ++ default fallback (file_name file_path))%string in
  let!? _ := trigger (FsCopy file_path dest) in
  Ret (Ok dest).

(** The path of the RSA key: the configured one, the environment's, or a default. *)
Definition apk_key_path (configured : option string) : repo_prog string :=
  match configured with
  | Some p => if String.eqb p "" then
                let! v := trigger (EnvVar "LPA_APK_RSA_PRIVATE_KEY_PATH") in
                Ret (default "/etc/patch-manager/ca/lpa-repo-rsa.pem"%string v)
              else Ret p
  | None => let! v := trigger (EnvVar "LPA_APK_RSA_PRIVATE_KEY_PATH") in
            Ret (default "/etc/patch-manager/ca/lpa-repo-rsa.pem"%string v)
  end.

Definition sign_repomd (repo_dir : string) : repo_prog unit :=
  sign_if_exists (repo_dir ++ "/dnf/" ++ DNF_CODENAME ++ "/repodata/repomd.xml")
                 (repo_dir ++ "/dnf/" ++ DNF_CODENAME ++ "/repodata/repomd.xml.asc") true.
Definition sign_pacman_dbs (repo_dir : string) : repo_prog unit :=
  sign_if_exists (pacman_repo repo_dir ++ "/lpa-repo.db.tar.zst") (pacman_repo repo_dir ++ "/lpa-repo.db.tar.zst.sig") false ;;
  sign_if_exists (pacman_repo repo_dir ++ "/lpa-repo.db") (pacman_repo repo_dir ++ "/lpa-repo.db.sig") false.

Definition import_to_repo (file_path distro : string) (codename : option string) (repo_dir : string)
    (apk_rsa_private_key_path : option string) : repo_prog (result unit string) :=
  if String.eqb distro "apt" then
    let!? _ := copy_into file_path (repo_dir ++ "/apt/pool") "package.deb" in
    let!? _ := generate_apt_metadata L repo_dir (default "u2404"%string codename) in
    Ret (Ok tt)
  else if String.eqb distro "dnf" then
    let!? _ := copy_into file_path (repo_dir ++ "/dnf/" ++ DNF_CODENAME ++ "/Packages") "package.rpm" in
    let!? _ := generate_dnf_metadata L repo_dir in
    sign_repomd repo_dir ;;
    Ret (Ok tt)
  else if String.eqb distro "apk" then
    let!? dest := copy_into file_path (repo_dir ++ "/apk/" ++ APK_CODENAME ++ "/x86_64") "package.apk" in
    let! rsa_priv_path := apk_key_path apk_rsa_private_key_path in
    resign_apk L dest rsa_priv_path ;;
    generate_apk_metadata L repo_dir (Some rsa_priv_path) ;;
    Ret (Ok tt)
  else if String.eqb distro "pacman" then
    let!? _ := copy_into file_path (repo_dir ++ "/pacman/x86_64") "package.pkg.tar.zst" in
    let!? _ := generate_pacman_metadata L repo_dir in
    sign_pacman_dbs repo_dir ;;
    Ret (Ok tt)
  else Ret (Err ("Unsupported distro: " ++ distro)%string).

(** ** The agent's packages *)

(** [existing_map.get(&key)]: a later row replaces an earlier one with its key. *)
Definition existing_sha (existing : list existing_package) (name version distro : string) : option (option string) :=
  last ((fun p => ex_sha256 p) <$> List.filter (fun p => String.eqb (ex_filename p) name && String.eqb (ex_version p) version &&
                                                        String.eqb (ex_distro p) distro) existing).

(** Recorded with a checksum, and on the disk. *)
Definition unchanged (existing : list existing_package) (repo_dir name version distro : string) : repo_prog bool :=
  match existing_sha existing name version distro with
  | Some (Some _) =>
      match local_package_path repo_dir distro name with
      | Some local => trigger (FsExists local)
      | None => Ret false
      end
  | _ => Ret false
  end.

Definition fetch_asset (config : sync_config) (apk_key : option string) (release : github_release) (asset : github_asset)
    (distro : string) (result_ : sync_result) : repo_prog sync_result :=
  let repo_dir := sc_repo_dir config in
  let codename := detect_codename_from_filename (ga_name asset) distro in
  let version := version_from_tag (gr_tag_name release) in
  let download_path := (repo_dir ++ "/tmp/" ++ ga_name asset)%string in
  let! d := download_asset (ga_url asset) download_path in
  match d with
  | Ok sha256 =>
      let! i := import_to_repo download_path distro codename repo_dir apk_key in
      trigger (FsRemoveFile download_path) ;;
      Ret (match i with
           | Err e => skip (add_error ("Import failed for " ++ ga_name asset ++ ": " ++ e) result_)
           | Ok _ => add_package (SyncedPackage (ga_name asset) version distro codename (as_i64 (ga_size asset))
                                    (Some sha256) (gr_published_at release)) (count_synced result_)
           end)
  | Err e => Ret (skip (add_error ("Download failed for " ++ ga_name asset ++ ": " ++ e) result_))
  end.

Definition sync_asset (config : sync_config) (apk_key : option string) (existing : list existing_package)
    (release : github_release) (asset : github_asset) (result_ : sync_result) : repo_prog sync_result :=
  if negb (is_package_file (ga_name asset)) then Ret (skip result_)
  else match detect_distro_from_filename (ga_name asset) with
       | None => Ret (skip result_)
       | Some distro =>
           let! u := unchanged existing (sc_repo_dir config) (ga_name asset) (version_from_tag (gr_tag_name release)) distro in
           if u then Ret (skip result_) else fetch_asset config apk_key release asset distro result_
       end.

Fixpoint sync_assets (config : sync_config) (apk_key : option string) (existing : list existing_package)
    (todo : list (github_release * github_asset)) (result_ : sync_result) : repo_prog sync_result :=
  match todo with
  | [] => Ret result_
  | (release, asset) :: rest =>
      let! result_ := sync_asset config apk_key existing release asset result_ in
      sync_assets config apk_key existing rest result_
  end.

(** The two nested loops: releases, and the assets of each. *)
Definition assets_of (releases : list github_release) : list (github_release * github_asset) :=
  concat ((fun r => pair r <$> gr_assets r) <$> releases).

(** ** The manager's packages *)

Definition sync_manager_asset (config : sync_config) (release : github_release) (asset : github_asset)
    (result_ : sync_result) : repo_prog sync_result :=
  if negb (is_manager_package (ga_name asset)) then Ret result_
  else
    let version := version_from_tag (gr_tag_name release) in
    let package sha := SyncedPackage (ga_name asset) version "apt" None (as_i64 (ga_size asset)) sha (gr_published_at release) in
    let dest := (sc_repo_dir config ++ "/apt/pool/" ++ ga_name asset)%string in
    let! exists_ := trigger (FsExists dest) in
    if (exists_ : bool) then Ret (add_package (package None) result_)
    else
      let tmp_path := (sc_repo_dir config ++ "/tmp/" ++ ga_name asset)%string in
      let! d := download_asset (ga_url asset) tmp_path in
      match d with
      | Ok sha256 =>
          let! c := trigger (FsCopy tmp_path dest) in
          trigger (FsRemoveFile tmp_path) ;;
          Ret (match c with
               | Err e => add_error ("Manager sync: failed to copy " ++ ga_name asset ++ " to pool: " ++ e) result_
               | Ok _ => add_package (package (Some sha256)) (count_synced result_)
               end)
      | Err e => Ret (add_error ("Manager sync: download failed for " ++ ga_name asset ++ ": " ++ e) result_)
      end.

Fixpoint sync_manager_assets (config : sync_config) (todo : list (github_release * github_asset))
    (result_ : sync_result) : repo_prog sync_result :=
  match todo with
  | [] => Ret result_
  | (release, asset) :: rest =>
      let! result_ := sync_manager_asset config release asset result_ in
      sync_manager_assets config rest result_
  end.

(** Every failure is an entry of the errors. *)
Definition sync_manager_packages (config : sync_config) (result_ : sync_result) : repo_prog sync_result :=
  if String.eqb (sc_manager_github_repo config) "" then Ret result_
  else
    let! r := trigger (HttpReleases (sc_manager_github_repo config) (Z.min (sc_max_releases config) 100)) in
    match r with
    | Err e => Ret (add_error ("Manager sync: " ++ e) result_)
    | Ok releases =>
        let! d := trigger (FsCreateDirAll (sc_repo_dir config ++ "/apt/pool")) in
        match d with
        | Err e => Ret (add_error ("Manager sync: failed to create apt pool dir: " ++ e) result_)
        | Ok _ => sync_manager_assets config (assets_of (latest_releases (sc_max_releases config) releases)) result_
        end
    end.

(** ** A cycle *)

(** What follows the fetch of the agent's releases. *)
Definition sync_releases (config : sync_config) (apk_key : option string) (existing : list existing_package)
    (releases : list github_release) : repo_prog sync_result :=
  let! result_ := sync_assets config apk_key existing (assets_of releases) no_result in
  let! result_ := sync_manager_packages config result_ in
  let! metadata_errors := regenerate_all_apt_metadata L (sc_repo_dir config) in
  Ret (foldl (fun r '(suite, error) => add_error ("apt metadata regeneration failed for " ++ suite ++ ": " ++ error) r)
             result_ metadata_errors).

Definition run_sync_cycle (config : sync_config) (apk_key : option string) (existing : list existing_package)
    : repo_prog (result sync_result string) :=
  let!? releases := fetch_github_releases config in
  let! result_ := sync_releases config apk_key existing releases in
  Ret (Ok result_).

(** ** The worker *)

Definition fetch_existing_packages : repo_prog (list existing_package) :=
  let! r := trigger (RepoSql SelExisting) in
  Ret (match r with Ok rows => rows | Err _ => [] end).

Definition mark_sync_failed (sync_log_id : uuid) (error : string) : repo_prog unit :=
  trigger (RepoSql (UpdSyncFailed sync_log_id error)) ;; Ret tt.

(** Failures of the upserts are ignored. *)
Definition persist_packages (packages : list synced_package) : repo_prog unit :=
  for_each packages (fun p => trigger (RepoSql (UpsertPackage p)) ;; Ret tt).

(** The part of the two cycles (scheduled and manual) after the log was created. *)
Definition run_logged_sync (config : sync_config) (sync_log_id : uuid) : repo_prog (result unit string) :=
  let! existing := fetch_existing_packages in
  let! r := run_sync_cycle config (Some (sc_apk_rsa_key config)) existing in
  match r with
  | Err e => mark_sync_failed sync_log_id ("Sync error: " ++ e) ;; Ret (Err e)
  | Ok result_ =>
      persist_packages (sr_packages result_) ;;
      let ok_ := match sr_errors result_ with [] => true | _ => false end in
      trigger (RepoSql (UpdSyncLog sync_log_id (if ok_ then "success" else "partial") (sr_synced result_) (sr_skipped result_)
                          (if ok_ then None else Some (join "; " (sr_errors result_)))))
  end.

Definition run_scheduled_sync (config : sync_config) : repo_prog (result unit string) :=
  let!? sync_log_id := trigger (RepoSql (InsSyncLog "scheduler")) in
  run_logged_sync config sync_log_id.

(** The runtime switch: on unless the stored value is "false". *)
Definition auto_sync_on (r : result (option (option string)) string) : bool :=
  match r with
  | Ok row => negb (bool_decide (row ≫= id = Some "false"%string))
  | Err _ => true
  end.

(** One tick of [run_package_sync_worker]. *)
Definition package_sync_tick (config : sync_config) : repo_prog unit :=
  let! auto_enabled := trigger (RepoSql SelAutoSync) in
  if auto_sync_on auto_enabled then run_scheduled_sync config ;; Ret tt else Ret tt.
End Sync.
