(* ===== verification/RepoWrites.v ===== *)
(** * What the generators write

    Each generator of an index reads the packages and writes its own files; the
    lists of these files are what the theorems on the repository build on. *)

From S2P Require Import Prelude Ordering Buffers ApkSign PkgFormats Conc RepoWorld RepoIndex RepoSync.

(** Every effect of the program satisfies [G], whatever the answers. *)
Definition issues {A} (G : forall X, repo_eff X -> Prop) (q : repo_prog A) : Prop := gsafe G (fun _ => True) q.

Section Issues.
Context (G : forall X, repo_eff X -> Prop).

Lemma issues_ret {A} (a : A) : issues G (Ret a).
Proof. done. Qed.
Lemma issues_trigger X (e : repo_eff X) : G X e -> issues G (trigger e).
Proof. done. Qed.
Lemma issues_bind {A B} (q : repo_prog A) (f : A -> repo_prog B) :
  issues G q -> (forall a, issues G (f a)) -> issues G (bind q f).
Proof. apply gsafe_bind. Qed.
Lemma issues_mono {A} (G' : forall X, repo_eff X -> Prop) (q : repo_prog A) :
  (forall X (e : repo_eff X), G' X e -> G X e) -> issues G' q -> issues G q.
Proof. apply gsafe_mono. Qed.
Lemma issues_invariant {A} (J : repo_world -> Prop) (q : repo_prog A) w :
  (forall X (e : repo_eff X) t x t', G X e -> J t -> exec e t x t' -> J t') ->
  issues G q -> J w -> wp q (fun _ t => J t) w.
Proof. intros HJ Hq. apply (emits_invariant (fun X e _ => G X e)); [done|]. by eapply gsafe_emits. Qed.
End Issues.

Create HintDb issues.

(** The effects of a program, one after the other; what a called function issues
    is in the hints. *)
Ltac issues_step :=
  match goal with
  | |- issues _ (Ret _) => apply issues_ret
  | |- issues _ (trigger _) => apply issues_trigger; try solve [exact I | auto with issues]
  | |- issues _ (bind _ _) => apply issues_bind; [|intros ?]
  | |- issues _ (bind_ok _ _) => apply issues_bind; [|intros ?]
  | |- issues _ (match ?x with _ => _ end) => destruct x
  end.
Ltac issues_auto := repeat (cbv zeta; first [progress auto with issues | issues_step]).

(** ** Looking only *)

Definition looks (X : Type) (e : repo_eff X) : Prop :=
  match e with
  | FsRead _ | FsReadDir _ | FsExists _ | FsModified _ | FsLen _ | UtcNow | EnvVar _ => True
  | _ => False
  end.

Lemma looks_exec X (e : repo_eff X) w x w' : looks X e -> exec e w x w' -> w' = w.
Proof. intros He Hx. destruct e; simpl in He; try done; cbn [exec repo_sem] in Hx; by (destruct Hx || idtac). Qed.

(** Writing only to [outs], and creating only [dirs]. *)
Definition writes_only (outs dirs : list string) (X : Type) (e : repo_eff X) : Prop :=
  looks X e \/
  match e with
  | FsWrite q _ | GpgClearsign _ q | GpgDetached _ q _ => q ∈ outs
  | FsCreateDirAll q => q ∈ dirs
  | _ => False
  end.

Lemma looks_writes outs dirs X (e : repo_eff X) : looks X e -> writes_only outs dirs X e.
Proof. by left. Qed.

Lemma writes_only_incl outs outs' dirs dirs' X (e : repo_eff X) :
  (forall p, p ∈ outs -> p ∈ outs') -> (forall p, p ∈ dirs -> p ∈ dirs') ->
  writes_only outs dirs X e -> writes_only outs' dirs' X e.
Proof. intros Ho Hd [?|He]; [by left|right]. destruct e; auto. Qed.

(** What such a program leaves as it is. *)
Record kept_outside (outs dirs : list string) (w w' : repo_world) : Prop := {
  kept_files : forall p, p ∉ outs -> rw_files w' !! p = rw_files w !! p;
  kept_no_dirs : forall d, Forall (fun q => d ∉ ancestors q) dirs -> d ∈ rw_dirs w' <-> d ∈ rw_dirs w;
  kept_dirs : forall d, d ∈ rw_dirs w -> d ∈ rw_dirs w';
  kept_packages : rw_packages w' = rw_packages w
}.

Lemma kept_outside_refl outs dirs w : kept_outside outs dirs w w.
Proof. by split. Qed.

Lemma kept_outside_trans outs dirs w1 w2 w3 :
  kept_outside outs dirs w1 w2 -> kept_outside outs dirs w2 w3 -> kept_outside outs dirs w1 w3.
Proof.
  intros [F1 N1 D1 P1] [F2 N2 D2 P2]. split; [| |auto|congruence].
  - intros p Hp. by rewrite F2, F1.
  - intros d Hd. by rewrite N2, N1.
Qed.

Lemma writes_only_step outs dirs X (e : repo_eff X) w x w' :
  writes_only outs dirs X e -> exec e w x w' -> kept_outside outs dirs w w'.
Proof.
  assert (forall q d, q ∈ outs -> kept_outside outs dirs w (with_files (<[q := d]>) w)) as Hwrite.
  { intros q d Hq. split; simpl; try done. intros p Hp. rewrite lookup_insert_ne; [done|]. by intros ->. }
  assert (forall q, q ∈ outs -> touched q w w' -> kept_outside outs dirs w w') as Htouch.
  { intros q Hq [->|[d ->]]; [apply kept_outside_refl|by apply Hwrite]. }
  assert (forall q (made : gset string), q ∈ dirs -> made ⊆ list_to_set (ancestors q) ->
            kept_outside outs dirs w (with_dirs (fun ds => made ∪ ds) w)) as Hmake.
  { intros q made Hq Hm. split; simpl; try done; [|set_solver].
    intros d Hd. rewrite elem_of_union. rewrite Forall_forall in Hd.
    split; [|auto]. intros [Hin%Hm|?]; [|done]. apply elem_of_list_to_set in Hin. by apply Hd in Hin. }
  intros [He|He] Hx; [apply looks_exec in Hx as ->; [apply kept_outside_refl|done]|].
  destruct e; try done; cbn [exec repo_sem] in Hx.
  - destruct x; [subst; by apply Hwrite|by eapply Htouch].
  - destruct x; [subst; by eapply Hmake|]. destruct Hx as (made & Hm & ->). by eapply Hmake.
  - destruct x; [destruct Hx as [sig ->]; by apply Hwrite|by eapply Htouch].
  - destruct x; [destruct Hx as [sig ->]; by apply Hwrite|by eapply Htouch].
Qed.

Lemma wp_writes_only {A} outs dirs (q : repo_prog A) w : issues (writes_only outs dirs) q ->
  wp q (fun _ w' => kept_outside outs dirs w w') w.
Proof.
  intros Hq. apply (issues_invariant _ _ q w) with (2 := Hq); [|apply kept_outside_refl].
  intros X e t x t' He Ht Hx. eapply kept_outside_trans; [exact Ht|by eapply writes_only_step].
Qed.

(** ** The generators *)

Lemma looking {A} outs dirs (q : repo_prog A) : issues looks q -> issues (writes_only outs dirs) q.
Proof. apply issues_mono. apply looks_writes. Qed.

#[export] Hint Extern 1 (writes_only _ _ _ _) => left; exact I : issues.

Section Generators.
Context (L : libraries).

Lemma scan_looks dir f : issues looks (scan dir f).
Proof. unfold scan. issues_auto. Qed.
Lemma apt_packages_looks debs content : issues looks (apt_packages L debs content).
Proof. revert content. induction debs; intros; cbn [apt_packages]; unfold compute_file_checksums; issues_auto. Qed.
Lemma apt_release_looks binary suite : issues looks (generate_apt_release L binary suite).
Proof. unfold generate_apt_release, release_checksums, compute_file_checksums. issues_auto. Qed.
Lemma dnf_packages_looks files a b : issues looks (dnf_packages L files a b).
Proof. revert a b. induction files; intros; cbn [dnf_packages]; unfold compute_sha256_file; issues_auto. Qed.
Lemma apk_packages_looks files a : issues looks (apk_packages L files a).
Proof. revert a. induction files; intros; cbn [apk_packages]; issues_auto. Qed.
Lemma pacman_packages_looks files a : issues looks (pacman_packages L files a).
Proof. revert a. induction files; intros; cbn [pacman_packages]; issues_auto. Qed.
#[local] Hint Resolve looking scan_looks apt_packages_looks apt_release_looks dnf_packages_looks apk_packages_looks
  pacman_packages_looks : issues.

Definition dnf_repodata (repo_dir : string) : string := (repo_dir ++ "/dnf/el9/repodata")%string.
Definition dnf_outputs (repo_dir : string) : list string :=
  [repo_dir ++ "/dnf/el9/repodata/primary.xml.gz"; repo_dir ++ "/dnf/el9/repodata/filelists.xml.gz";
   repo_dir ++ "/dnf/el9/repodata/repomd.xml"]%string.
Definition pacman_outputs (repo_dir : string) : list string :=
  [repo_dir ++ "/pacman/x86_64/lpa-repo.db.tar.zst"; repo_dir ++ "/pacman/x86_64/lpa-repo.db"]%string.

Ltac listed :=
  first [left; exact I
        |right; unfold apt_outputs, dnf_outputs, pacman_outputs, dnf_repodata; rewrite ?str_app_assoc;
         repeat first [apply list_elem_of_here | apply list_elem_of_further]].
#[local] Hint Extern 1 (writes_only _ _ _ _) => solve [listed] : issues.

Lemma apt_writes repo_dir suite :
  issues (writes_only (apt_outputs repo_dir suite) [apt_binary repo_dir suite]) (generate_apt_metadata L repo_dir suite).
Proof. unfold generate_apt_metadata. issues_auto. Qed.
Lemma dnf_writes repo_dir : issues (writes_only (dnf_outputs repo_dir) [dnf_repodata repo_dir]) (generate_dnf_metadata L repo_dir).
Proof. unfold generate_dnf_metadata. issues_auto. Qed.
Lemma apk_writes repo_dir key :
  issues (writes_only [(apk_repo repo_dir ++ "/APKINDEX.tar.gz")%string] [apk_repo repo_dir]) (generate_apk_metadata L repo_dir key).
Proof. unfold generate_apk_metadata. issues_auto. Qed.
Lemma pacman_writes repo_dir : issues (writes_only (pacman_outputs repo_dir) []) (generate_pacman_metadata L repo_dir).
Proof. unfold generate_pacman_metadata, pacman_repo. issues_auto. Qed.
Lemma sign_writes path sig armor : issues (writes_only [sig] []) (sign_if_exists path sig armor).
Proof. unfold sign_if_exists. issues_auto. Qed.
End Generators.
