(* ===== verification/RepoFlow.v ===== *)
(** * The synchronisation of packages: theorems

    What a cycle leaves on the disk and in [repo_packages], and what the next
    cycle does with it. *)

From S2P Require Import Prelude Ordering Buffers ApkSign PkgFormats Conc RepoWorld RepoIndex RepoSync RepoWrites.

(** ** A file that a program never removes *)

Definition present (p : string) (w : repo_world) : Prop := p ∈ dom (rw_files w) \/ p ∈ rw_dirs w.

(** Effects on the disk after which [p] is still there. *)
Definition spares (p : string) (X : Type) (e : repo_eff X) : Prop :=
  match e with
  | FsRemoveFile q => q <> p
  | FsRename src _ => src <> p
  | FsRemoveDirAll _ => False
  | RepoSql _ => False
  | _ => True
  end.

Abbreviation sparing p := (issues (spares p)).

Lemma spares_exec p X (e : repo_eff X) w x w' : spares p X e -> exec e w x w' -> present p w -> present p w'.
Proof.
  unfold present. intros He Hx Hp.
  assert (forall q d (f : gmap string vec_u8), p ∈ dom f -> p ∈ dom (<[q := d]> f)) as Hins by set_solver.
  assert (forall q (f : gmap string vec_u8), q <> p -> p ∈ dom f -> p ∈ dom (delete q f)) as Hdel by set_solver.
  destruct e; cbn [exec repo_sem] in Hx; unfold touched in Hx; simpl in He; try done.
  all: repeat match goal with
    | H : _ /\ _ |- _ => destruct H
    | H : exists _, _ |- _ => destruct H
    | H : match ?x with _ => _ end |- _ => destruct x eqn:?
    end; subst; try done.
  all: try (destruct Hx as [->|[part ->]]; [done|]).
  all: destruct Hp as [Hp|Hp]; [left|right]; simpl; auto; set_solver.
Qed.

Lemma spares_packages p X (e : repo_eff X) w x w' : spares p X e -> exec e w x w' -> rw_packages w' = rw_packages w.
Proof.
  intros He Hx. destruct e; cbn [exec repo_sem] in Hx; unfold touched in Hx; simpl in He; try done.
  all: repeat match goal with
    | H : _ /\ _ |- _ => destruct H
    | H : exists _, _ |- _ => destruct H
    | H : _ \/ _ |- _ => destruct H
    | H : match ?x with _ => _ end |- _ => destruct x eqn:?
    end; by subst.
Qed.

(** Programs made of sparing parts. *)
#[local] Hint Extern 1 (spares _ _ _) => cbn [spares]; solve [auto] : issues.
Ltac sparing_auto := issues_auto.

Lemma writes_spare {A} p outs dirs (q : repo_prog A) : issues (writes_only outs dirs) q -> sparing p q.
Proof. apply issues_mono. intros X e [He|He]; by destruct e. Qed.

Section Sparing.
Context (L : libraries).

Lemma sparing_apt p repo_dir suite : sparing p (generate_apt_metadata L repo_dir suite).
Proof. eapply writes_spare, apt_writes. Qed.
Lemma sparing_dnf p repo_dir : sparing p (generate_dnf_metadata L repo_dir).
Proof. eapply writes_spare, dnf_writes. Qed.
Lemma sparing_apk p repo_dir key : sparing p (generate_apk_metadata L repo_dir key).
Proof. eapply writes_spare, apk_writes. Qed.
Lemma sparing_pacman p repo_dir : sparing p (generate_pacman_metadata L repo_dir).
Proof. eapply writes_spare, pacman_writes. Qed.
Lemma sparing_sign p path sig armor : sparing p (sign_if_exists path sig armor).
Proof. eapply writes_spare, sign_writes. Qed.
Hint Resolve sparing_apt : issues.

Lemma sparing_regenerate p repo_dir : sparing p (regenerate_all_apt_metadata L repo_dir).
Proof. unfold regenerate_all_apt_metadata. induction APT_SUITES; cbn [regenerate_suites]; sparing_auto. Qed.
Lemma sparing_apk_key p key : sparing p (apk_key_path key).
Proof. unfold apk_key_path. sparing_auto. Qed.
Lemma sparing_resign p path key : (path ++ ".tmp")%string <> p -> sparing p (resign_apk L path key).
Proof. intros Hp. unfold resign_apk. sparing_auto. Qed.
End Sparing.

(** ** Paths *)

(** Neither in the directory of downloads nor a temporary file. *)
Definition kept (repo_dir p : string) : Prop :=
  ends_with ".tmp" p = false /\ starts_with (repo_dir ++ "/tmp/") p = false.

Lemma ends_with_spec s p : ends_with s p = true <-> exists q, p = (q ++ s)%string.
Proof.
  unfold ends_with, starts_with. split.
  - destruct (strip_prefix (str_rev s) (str_rev p)) as [t|] eqn:Hs; [|done]. intros _. apply strip_prefix_app in Hs.
    exists (str_rev t). by rewrite <- (str_rev_involutive p), Hs, str_rev_concat, str_rev_involutive.
  - intros [q ->]. rewrite str_rev_concat.
    by rewrite (proj2 (strip_prefix_app (str_rev s) _ (str_rev q)) eq_refl).
Qed.

Lemma not_tmp a s : s = ".deb"%string \/ s = ".rpm"%string \/ s = ".apk"%string \/ s = ".pkg.tar.zst"%string ->
  ends_with ".tmp" (a ++ s) = false.
Proof.
  unfold ends_with, starts_with. rewrite str_rev_concat. intros [->|[->|[->| ->]]]; reflexivity.
Qed.

Lemma kept_tmp repo_dir p : kept repo_dir p -> forall q, (q ++ ".tmp")%string <> p.
Proof. intros [Ht _] q <-. by rewrite (proj2 (ends_with_spec ".tmp" _) (ex_intro _ q eq_refl)) in Ht. Qed.

Lemma kept_download repo_dir p : kept repo_dir p -> forall n, (repo_dir ++ "/tmp/" ++ n)%string <> p.
Proof.
  intros [_ Hs] n <-. unfold starts_with in Hs. rewrite <- str_app_assoc in Hs.
  by rewrite (proj2 (strip_prefix_app (repo_dir ++ "/tmp/") _ n) eq_refl) in Hs.
Qed.

Lemma not_download repo_dir p : (forall t, p <> ("/tmp/" ++ t)%string) -> starts_with (repo_dir ++ "/tmp/") (repo_dir ++ p) = false.
Proof.
  intros Hp. unfold starts_with. destruct (strip_prefix _ _) as [t|] eqn:Hs; [|done].
  apply strip_prefix_app in Hs. rewrite str_app_assoc in Hs. apply str_app_inj in Hs. by apply Hp in Hs.
Qed.

Lemma detect_distro_suffix name distro : detect_distro_from_filename name = Some distro ->
  (distro = "apt" /\ exists n, name = n ++ ".deb")%string \/ (distro = "dnf" /\ exists n, name = n ++ ".rpm")%string \/
  (distro = "apk" /\ exists n, name = n ++ ".apk")%string \/ (distro = "pacman" /\ exists n, name = n ++ ".pkg.tar.zst")%string.
Proof.
  unfold detect_distro_from_filename.
  destruct (ends_with ".deb" name) eqn:H1; [intros [= <-]; apply ends_with_spec in H1; auto|].
  destruct (ends_with ".rpm" name) eqn:H2; [intros [= <-]; apply ends_with_spec in H2; auto|].
  destruct (ends_with ".apk" name) eqn:H3; [intros [= <-]; apply ends_with_spec in H3; auto|].
  destruct (ends_with ".pkg.tar.zst" name) eqn:H4; [intros [= <-]; apply ends_with_spec in H4; auto 6|done].
Qed.

(** Where a package is imported is a path that no cycle removes. *)
Lemma local_path_kept repo_dir name distro lp :
  detect_distro_from_filename name = Some distro -> local_package_path repo_dir distro name = Some lp -> kept repo_dir lp.
Proof.
  intros Hd. unfold local_package_path.
  destruct (detect_distro_suffix name distro Hd) as [[-> [n ->]]|[[-> [n ->]]|[[-> [n ->]]|[-> [n ->]]]]];
    cbn [String.eqb Ascii.eqb Bool.eqb]; intros Hlp%(inj Some); subst lp; (split; [|apply not_download; intros t; discriminate]).
  - replace (repo_dir ++ "/apt/pool/" ++ n ++ ".deb")%string with ((repo_dir ++ "/apt/pool/" ++ n) ++ ".deb")%string
      by (by rewrite !str_app_assoc). apply (not_tmp _ ".deb"). auto.
  - replace (repo_dir ++ "/dnf/" ++ DNF_CODENAME ++ "/Packages/" ++ n ++ ".rpm")%string
      with ((repo_dir ++ "/dnf/" ++ DNF_CODENAME ++ "/Packages/" ++ n) ++ ".rpm")%string
      by (by rewrite !str_app_assoc). apply (not_tmp _ ".rpm"). auto.
  - replace (repo_dir ++ "/apk/" ++ APK_CODENAME ++ "/x86_64/" ++ n ++ ".apk")%string
      with ((repo_dir ++ "/apk/" ++ APK_CODENAME ++ "/x86_64/" ++ n) ++ ".apk")%string
      by (by rewrite !str_app_assoc). apply (not_tmp _ ".apk"). auto.
  - replace (repo_dir ++ "/pacman/x86_64/" ++ n ++ ".pkg.tar.zst")%string
      with ((repo_dir ++ "/pacman/x86_64/" ++ n) ++ ".pkg.tar.zst")%string by (by rewrite !str_app_assoc).
    apply (not_tmp _ ".pkg.tar.zst"). auto.
Qed.

(** ** Importing *)

Section Flow.
Context (L : libraries).
Hint Resolve sparing_apt sparing_dnf sparing_apk sparing_pacman sparing_sign sparing_apk_key
  sparing_resign sparing_regenerate : issues.

Lemma sparing_copy_into p file dir fallback : sparing p (copy_into file dir fallback).
Proof. unfold copy_into. sparing_auto. Qed.
Hint Resolve sparing_copy_into : issues.

Lemma sparing_import p repo_dir file distro codename key : kept repo_dir p ->
  sparing p (import_to_repo L file distro codename repo_dir key).
Proof.
  intros Hp. pose proof (kept_tmp _ _ Hp). unfold import_to_repo, sign_repomd, sign_pacman_dbs. sparing_auto.
Qed.

Lemma sparing_wp {A} p (q : repo_prog A) w : sparing p q -> present p w -> wp q (fun _ w' => present p w') w.
Proof.
  intros Hq Hp. apply (emits_invariant (fun X e _ => spares p X e)); [|by eapply gsafe_emits|done].
  intros X e t x t' He Ht Hx. by eapply spares_exec.
Qed.

Lemma sparing_packages {A} p (q : repo_prog A) w : sparing p q -> wp q (fun _ w' => rw_packages w' = rw_packages w) w.
Proof.
  intros Hq. apply (emits_invariant (fun X e _ => spares p X e)); [|by eapply gsafe_emits|done].
  intros X e t x t' He Ht Hx. rewrite <- Ht. by eapply spares_packages.
Qed.

Lemma wp_sparing {A} p (q : repo_prog A) Q w : sparing p q -> present p w -> wp q Q w -> wp q (fun a w' => Q a w' /\ present p w') w.
Proof. intros Hq Hp HQ. apply wp_conj; [done|by apply sparing_wp]. Qed.

Lemma wp_copy_into file dir fallback name w : file_name file = Some name ->
  wp (copy_into file dir fallback) (fun r w' => is_ok r = true -> r = Ok (dir ++ "/" ++ name)%string /\ present (dir ++ "/" ++ name) w') w.
Proof.
  intros Hname. unfold copy_into, bind_ok. apply wp_create_dir_all; [|done]. rewrite Hname. cbn [default from_option]. unfold id.
  intros x w' Hx. cbn [exec repo_sem] in Hx. destruct x as [u|e]; [|done]. intros _. split; [done|].
  destruct (rw_files _ !! file) as [d|]; [subst|by destruct Hx as [_ [e [=]]]]. left. simpl. set_solver.
Qed.

(** A part of an import after the copy: it spares the package. *)
Lemma import_rest {A} p (q : repo_prog (result string string)) (f : string -> repo_prog (result A string)) w :
  wp q (fun r w' => is_ok r = true -> r = Ok p /\ present p w') w -> sparing p (f p) ->
  wp (bind_ok q f) (fun r w' => is_ok r = true -> present p w') w.
Proof.
  intros Hq Hf. unfold bind_ok. apply wp_bind. eapply wp_mono; [|exact Hq]. intros [d|e] w' Hd; [|done].
  destruct (Hd eq_refl) as [[= ->] Hp]. eapply wp_mono; [|by apply sparing_wp]. done.
Qed.

(** A package that was imported lies where the next cycle looks for it. *)
Lemma import_present repo_dir file name distro codename key lp w :
  file_name file = Some name -> detect_distro_from_filename name = Some distro ->
  local_package_path repo_dir distro name = Some lp ->
  wp (import_to_repo L file distro codename repo_dir key) (fun r w' => is_ok r = true -> present lp w') w.
Proof.
  intros Hname Hd Hlp. pose proof (local_path_kept _ _ _ _ Hd Hlp) as Hkept. pose proof (kept_tmp _ _ Hkept).
  unfold local_package_path in Hlp. unfold import_to_repo, sign_repomd, sign_pacman_dbs.
  destruct (detect_distro_suffix name distro Hd) as [[-> _]|[[-> _]|[[-> _]|[-> _]]]];
    cbn [String.eqb Ascii.eqb Bool.eqb] in *; apply (inj Some) in Hlp; subst lp.
  - replace (repo_dir ++ "/apt/pool/" ++ name)%string with ((repo_dir ++ "/apt/pool") ++ "/" ++ name)%string in *
      by (by rewrite !str_app_assoc).
    apply import_rest; [by apply wp_copy_into|]. sparing_auto.
  - replace (repo_dir ++ "/dnf/" ++ DNF_CODENAME ++ "/Packages/" ++ name)%string
      with ((repo_dir ++ "/dnf/" ++ DNF_CODENAME ++ "/Packages") ++ "/" ++ name)%string in * by (by rewrite !str_app_assoc).
    apply import_rest; [by apply wp_copy_into|]. sparing_auto.
  - replace (repo_dir ++ "/apk/" ++ APK_CODENAME ++ "/x86_64/" ++ name)%string
      with ((repo_dir ++ "/apk/" ++ APK_CODENAME ++ "/x86_64") ++ "/" ++ name)%string in * by (by rewrite !str_app_assoc).
    apply import_rest; [by apply wp_copy_into|]. sparing_auto.
  - replace (repo_dir ++ "/pacman/x86_64/" ++ name)%string with ((repo_dir ++ "/pacman/x86_64") ++ "/" ++ name)%string in *
      by (by rewrite !str_app_assoc).
    apply import_rest; [by apply wp_copy_into|]. sparing_auto.
Qed.

Lemma sparing_download p url path : sparing p (download_asset L url path).
Proof. unfold download_asset. sparing_auto. Qed.
Hint Resolve sparing_download : issues.

Lemma sparing_fetch p cfg key release asset distro r : kept (sc_repo_dir cfg) p ->
  sparing p (fetch_asset L cfg key release asset distro r).
Proof.
  intros Hp. pose proof (kept_download _ _ Hp). pose proof (fun f d c k => sparing_import p (sc_repo_dir cfg) f d c k Hp).
  unfold fetch_asset. sparing_auto.
Qed.

Lemma sparing_asset p cfg key existing release asset r : kept (sc_repo_dir cfg) p ->
  sparing p (sync_asset L cfg key existing release asset r).
Proof.
  intros Hp. pose proof (sparing_fetch p cfg key release asset). unfold sync_asset, unchanged. sparing_auto.
Qed.

Lemma sparing_assets p cfg key existing todo r : kept (sc_repo_dir cfg) p ->
  sparing p (sync_assets L cfg key existing todo r).
Proof.
  intros Hp. revert r. induction todo as [|[rel a] todo IH]; intros r; cbn [sync_assets]; [done|].
  apply issues_bind; [by apply sparing_asset|auto].
Qed.

Lemma sparing_manager_assets p cfg todo r : kept (sc_repo_dir cfg) p -> sparing p (sync_manager_assets L cfg todo r).
Proof.
  intros Hp. pose proof (kept_download _ _ Hp). revert r.
  induction todo as [|[rel a] todo IH]; intros r; cbn [sync_manager_assets]; [done|].
  apply issues_bind; [|auto]. unfold sync_manager_asset. sparing_auto.
Qed.

Lemma sparing_manager p cfg r : kept (sc_repo_dir cfg) p -> sparing p (sync_manager_packages L cfg r).
Proof.
  intros Hp. pose proof (fun t r => sparing_manager_assets p cfg t r Hp). unfold sync_manager_packages. sparing_auto.
Qed.

Lemma sparing_releases p cfg key existing releases : kept (sc_repo_dir cfg) p ->
  sparing p (sync_releases L cfg key existing releases).
Proof.
  intros Hp. unfold sync_releases. apply issues_bind; [by apply sparing_assets|]. intros r.
  apply issues_bind; [by apply sparing_manager|]. intros r'. apply issues_bind; [apply sparing_regenerate|done].
Qed.

(** ** The loop over the agent's assets *)

(** Found under its name, version and format in what was recorded, with a checksum. *)
Definition recorded (ps : list synced_package) (name version distro : string) : Prop :=
  exists p, p ∈ ps /\ sp_filename p = name /\ sp_version p = version /\ sp_distro p = distro /\ is_Some (sp_sha256 p).

(** The asset needs no download any more: it is no package, or it is on the disk
    and recorded (from before or in this result). *)
Definition settled (cfg : sync_config) (existing : list existing_package) (ps : list synced_package) (w : repo_world)
    (ra : github_release * github_asset) : Prop :=
  is_package_file (ga_name ra.2) = true -> forall distro lp, detect_distro_from_filename (ga_name ra.2) = Some distro ->
    local_package_path (sc_repo_dir cfg) distro (ga_name ra.2) = Some lp ->
    present lp w /\
    ((exists s, existing_sha existing (ga_name ra.2) (version_from_tag (gr_tag_name ra.1)) distro = Some (Some s)) \/
     recorded ps (ga_name ra.2) (version_from_tag (gr_tag_name ra.1)) distro).

(** Results grow: errors and packages are only added. *)
Definition extends (r r' : sync_result) : Prop :=
  (exists es, sr_errors r' = sr_errors r ++ es) /\ (exists ps, sr_packages r' = sr_packages r ++ ps).

Lemma extends_refl r : extends r r.
Proof. split; exists []; by rewrite app_nil_r. Qed.
Lemma extends_trans r1 r2 r3 : extends r1 r2 -> extends r2 r3 -> extends r1 r3.
Proof.
  intros [[e1 H1] [p1 G1]] [[e2 H2] [p2 G2]]. split.
  - exists (e1 ++ e2). by rewrite H2, H1, (assoc_L (++)).
  - exists (p1 ++ p2). by rewrite G2, G1, (assoc_L (++)).
Qed.
Lemma extends_skip r : extends r (skip r).
Proof. split; exists []; by rewrite app_nil_r. Qed.
Lemma extends_error e r : extends r (add_error e r).
Proof. split; [by exists [e]|exists []; by rewrite app_nil_r]. Qed.
Lemma extends_package p r : extends r (add_package p r).
Proof. split; [exists []; by rewrite app_nil_r|by exists [p]]. Qed.
Lemma extends_count r : extends r (count_synced r).
Proof. split; exists []; by rewrite app_nil_r. Qed.

Lemma extends_errors r r' : extends r r' -> sr_errors r' = [] -> sr_errors r = [].
Proof. intros [[es ->] _] H. by apply app_nil in H as [? _]. Qed.

Lemma recorded_mono ps ps' n v d : recorded ps n v d -> (forall p, p ∈ ps -> p ∈ ps') -> recorded ps' n v d.
Proof. intros (p & Hp & ?) Hsub. exists p. split; [by apply Hsub|done]. Qed.

Lemma extends_packages r r' p : extends r r' -> p ∈ sr_packages r -> p ∈ sr_packages r'.
Proof. intros [_ [ps ->]] Hp. set_solver. Qed.

Lemma settled_later {A} cfg existing r ra (q : repo_prog A) (res : A -> sync_result) w :
  (forall p, kept (sc_repo_dir cfg) p -> sparing p q) ->
  wp q (fun a w' => extends r (res a)) w -> settled cfg existing (sr_packages r) w ra ->
  wp q (fun a w' => settled cfg existing (sr_packages (res a)) w' ra) w.
Proof.
  intros Hsp Hext Hset. destruct (is_package_file (ga_name ra.2)) eqn:Hpkg.
  2:{ apply wp_true. intros a t H. congruence. }
  destruct (detect_distro_from_filename (ga_name ra.2)) as [distro|] eqn:Hd.
  2:{ apply wp_true. intros a t _ d lp Hd'. congruence. }
  destruct (local_package_path (sc_repo_dir cfg) distro (ga_name ra.2)) as [lp|] eqn:Hlp.
  2:{ apply wp_true. intros a t _ d lp Hd' Hlp'. congruence. }
  destruct (Hset Hpkg distro lp Hd Hlp) as [Hp Hrec].
  eapply wp_mono; [|apply (wp_sparing lp); [apply Hsp; by eapply local_path_kept|exact Hp|exact Hext]].
  intros a w' [Hx Hp']. intros _ d' lp' Hd' Hlp'. simplify_eq. split; [done|].
  destruct Hrec as [?|Hr]; [by left|right]. eapply recorded_mono; [exact Hr|]. intros p. by apply extends_packages.
Qed.

(** What the loops rely on: no slash in a name (GitHub allows none), and the
    agent's packages are not named like the manager's. *)
Definition asset_ok (ra : github_release * github_asset) : Prop :=
  contains_char "/" (ga_name ra.2) = false /\ is_manager_package (ga_name ra.2) = false.

Lemma detected_name name distro : detect_distro_from_filename name = Some distro ->
  name <> ""%string /\ name <> "."%string /\ name <> ".."%string.
Proof. intros Hd. split_and!; intros ->; discriminate Hd. Qed.

Lemma download_name repo_dir name distro : detect_distro_from_filename name = Some distro -> contains_char "/" name = false ->
  file_name (repo_dir ++ "/tmp/" ++ name) = Some name.
Proof.
  intros Hd Hs. destruct (detected_name _ _ Hd) as (? & ? & ?).
  change (repo_dir ++ "/tmp/" ++ name)%string with (repo_dir ++ ("/tmp" ++ ("/" ++ name)))%string.
  rewrite <- str_app_assoc. by apply file_name_child.
Qed.

Lemma wp_fetch cfg key existing release asset distro r w :
  detect_distro_from_filename (ga_name asset) = Some distro -> contains_char "/" (ga_name asset) = false ->
  wp (fetch_asset L cfg key release asset distro r) (fun r' w' => extends r r' /\
    (sr_errors r' = [] -> settled cfg existing (sr_packages r') w' (release, asset))) w.
Proof.
  intros Hd Hs. unfold fetch_asset. cbv zeta. apply wp_bind. apply wp_true. intros [sha256|e] w1.
  2:{ simpl. split; [|intros He; by apply app_nil in He as [_ ?]].
      eapply extends_trans; [apply extends_error|apply extends_skip]. }
  apply wp_bind.
  destruct (local_package_path (sc_repo_dir cfg) distro (ga_name asset)) as [lp|] eqn:Hlp.
  2:{ exfalso. unfold local_package_path in Hlp.
      by destruct (detect_distro_suffix _ _ Hd) as [[-> _]|[[-> _]|[[-> _]|[-> _]]]]. }
  pose proof (local_path_kept _ _ _ _ Hd Hlp) as Hkept.
  eapply wp_mono; [|eapply import_present; [by eapply download_name|exact Hd|exact Hlp]].
  intros [u|e] w2 Hp.
  - specialize (Hp eq_refl). apply wp_bind.
    eapply wp_mono; [|apply (sparing_wp lp); [|exact Hp]].
    2:{ apply issues_trigger. simpl. by apply kept_download. }
    intros x w3 Hp3. simpl. split; [eapply extends_trans; [apply extends_count|apply extends_package]|].
    intros _ _ d' lp' Hd' Hlp'. cbn [fst snd] in *. simplify_eq. split; [done|]. right.
    eexists. split; [apply elem_of_app; right; apply list_elem_of_singleton; reflexivity|]. simpl. by split_and!.
  - apply wp_bind. apply wp_true. intros x w3. simpl.
    split; [|intros He; by apply app_nil in He as [_ ?]].
    eapply extends_trans; [apply extends_error|apply extends_skip].
Qed.

Lemma wp_sync_asset cfg key existing release asset r w : contains_char "/" (ga_name asset) = false ->
  wp (sync_asset L cfg key existing release asset r) (fun r' w' => extends r r' /\
    (sr_errors r' = [] -> settled cfg existing (sr_packages r') w' (release, asset))) w.
Proof.
  intros Hs. unfold sync_asset. destruct (is_package_file (ga_name asset)) eqn:Hpkg; cbn [negb].
  2:{ simpl. split; [apply extends_skip|]. intros _ H. cbn [snd] in H. congruence. }
  destruct (detect_distro_from_filename (ga_name asset)) as [distro|] eqn:Hd.
  2:{ simpl. split; [apply extends_skip|]. intros _ _ d lp Hd'. cbn [snd] in Hd'. congruence. }
  unfold unchanged.
  destruct (existing_sha existing (ga_name asset) (version_from_tag (gr_tag_name release)) distro) as [[s|]|] eqn:Hsha;
    [|by apply wp_fetch..].
  destruct (local_package_path (sc_repo_dir cfg) distro (ga_name asset)) as [lp|] eqn:Hlp; [|by apply wp_fetch].
  apply wp_exists. case_bool_decide as Hex; [|by apply wp_fetch]. simpl. split; [apply extends_skip|].
  intros _ _ d' lp' Hd' Hlp'. cbn [fst snd] in *. simplify_eq. split; [done|left; by exists s].
Qed.

Lemma wp_sync_assets cfg key existing todo r w : Forall asset_ok todo ->
  wp (sync_assets L cfg key existing todo r) (fun r' w' => extends r r' /\
    (sr_errors r' = [] -> Forall (settled cfg existing (sr_packages r') w') todo)) w.
Proof.
  intros Hok. revert r w. induction Hok as [|[release asset] todo [Hs Hm] Hok IH]; intros r w; cbn [sync_assets].
  { simpl. split; [apply extends_refl|]. by constructor. }
  apply wp_bind. eapply wp_mono; [|by apply wp_sync_asset]. intros r1 w1 [Hext Hset].
  destruct (sr_errors r1) as [|e es] eqn:He.
  - eapply wp_mono; [|apply wp_conj; [apply IH|apply (settled_later cfg existing r1 (release, asset)
      (sync_assets L cfg key existing todo r1) (fun r => r) w1)]].
    + intros r2 w2 [[Hext2 Hset2] Hset1]. split; [by eapply extends_trans|]. intros He2. constructor; [done|by apply Hset2].
    + intros p. by apply sparing_assets.
    + eapply wp_mono; [|apply IH]. by intros r2 w2 [? _].
    + by apply Hset.
  - eapply wp_mono; [|apply IH]. intros r2 w2 [Hext2 _]. split; [by eapply extends_trans|].
    intros He2. apply (extends_errors _ _ Hext2) in He2. congruence.
Qed.

(** ** The manager's assets *)

(** Packages that are added carry a checksum or are the manager's, and their
    format is that of the file's name. *)
Record well_recorded (p : synced_package) : Prop := {
  well_recorded_sha : is_Some (sp_sha256 p) \/ is_manager_package (sp_filename p) = true;
  well_recorded_distro : detect_distro_from_filename (sp_filename p) = Some (sp_distro p);
  well_recorded_codename : sp_codename p = detect_codename_from_filename (sp_filename p) (sp_distro p) \/ sp_codename p = None
}.
Definition adds_ok (r r' : sync_result) : Prop :=
  forall p, p ∈ sr_packages r' -> p ∈ sr_packages r \/ well_recorded p.

Lemma manager_recorded name version size sha at_ : is_manager_package name = true ->
  well_recorded (SyncedPackage name version "apt" None size sha at_).
Proof.
  intros Hm. split; [by right| |by right]. simpl. unfold is_manager_package in Hm. apply andb_true_iff in Hm as [_ Hm].
  unfold detect_distro_from_filename. by rewrite Hm.
Qed.

Lemma wp_manager_asset cfg release asset r w :
  wp (sync_manager_asset L cfg release asset r) (fun r' _ => extends r r' /\ adds_ok r r') w.
Proof.
  unfold sync_manager_asset. destruct (is_manager_package (ga_name asset)) eqn:Hm; cbn [negb].
  2:{ simpl. split; [apply extends_refl|]. intros p. by left. }
  cbv zeta. apply wp_exists. case_match.
  { simpl. split; [apply extends_package|]. intros p Hp. simpl in Hp. rewrite elem_of_app, list_elem_of_singleton in Hp.
    destruct Hp as [Hp| ->]; [by left|right; by apply manager_recorded]. }
  apply wp_bind, wp_true. intros [sha|e] w1.
  2:{ simpl. split; [apply extends_error|]. intros p. by left. }
  apply wp_bind, wp_true. intros c w2. apply wp_bind, wp_true. intros x w3. simpl. destruct c as [u|e].
  - split; [eapply extends_trans; [apply extends_count|apply extends_package]|]. intros p Hp. simpl in Hp.
    rewrite elem_of_app, list_elem_of_singleton in Hp. destruct Hp as [Hp| ->]; [by left|right; by apply manager_recorded].
  - split; [apply extends_error|]. intros p. by left.
Qed.

Lemma adds_trans r1 r2 r3 : adds_ok r1 r2 -> adds_ok r2 r3 -> adds_ok r1 r3.
Proof. intros H1 H2 p Hp. destruct (H2 p Hp) as [Hp2|?]; [by apply H1|by right]. Qed.

Lemma wp_manager cfg r w : wp (sync_manager_packages L cfg r) (fun r' _ => extends r r' /\ adds_ok r r') w.
Proof.
  assert (forall r0, extends r0 r0 /\ adds_ok r0 r0) as Hrefl by (intros r0; split; [apply extends_refl|intros p; by left]).
  assert (forall e, extends r (add_error e r) /\ adds_ok r (add_error e r)) as Herr
    by (intros e; split; [apply extends_error|intros p; by left]).
  unfold sync_manager_packages. destruct (String.eqb _ ""); [simpl; apply Hrefl|].
  apply wp_bind, wp_true. intros [releases|e] w1; [|simpl; apply Herr].
  apply wp_bind, wp_true. intros [u|e] w2; [|simpl; apply Herr].
  generalize (assets_of (latest_releases (sc_max_releases cfg) releases)). intros todo.
  clear Herr. revert r w2. induction todo as [|[rel a] todo IH]; intros r w2; cbn [sync_manager_assets]; [simpl; apply Hrefl|].
  apply wp_bind. eapply wp_mono; [|apply wp_manager_asset]. intros r1 w3 [E1 A1].
  eapply wp_mono; [|apply IH]. intros r2 w4 [E2 A2]. split; [by eapply extends_trans|by eapply adds_trans].
Qed.

(** The agent's part adds packages with checksums only. *)
Lemma wp_assets_adds cfg key existing todo r w :
  wp (sync_assets L cfg key existing todo r) (fun r' _ => adds_ok r r') w.
Proof.
  assert (forall r0, adds_ok r0 r0) as Hrefl by (intros r0 p; by left).
  revert r w. induction todo as [|[rel a] todo IH]; intros r w; cbn [sync_assets]; [simpl; apply Hrefl|].
  apply wp_bind. eapply wp_mono; [intros r1 w1 H1; eapply wp_mono; [intros r2 w2 H2; eapply adds_trans; [exact H1|exact H2]|apply IH]|].
  unfold sync_asset. destruct (negb (is_package_file (ga_name a))); [intros p; by left|].
  destruct (detect_distro_from_filename (ga_name a)) as [distro|] eqn:Hd; [|intros p; by left].
  apply wp_bind, wp_true. intros [|] w1; [intros p; by left|]. unfold fetch_asset. cbv zeta.
  apply wp_bind, wp_true. intros [sha|e] w2; [|intros p; by left].
  apply wp_bind, wp_true. intros i w3. apply wp_bind, wp_true. intros x w4. simpl.
  destruct i; [|intros p; by left]. intros p Hp. simpl in Hp. rewrite elem_of_app, list_elem_of_singleton in Hp.
  destruct Hp as [Hp| ->]; [by left|right; split; simpl; eauto].
Qed.

(** ** The table of packages *)

Definition key_of (p : synced_package) : string * string * string := (sp_filename p, sp_version p, sp_distro p).

Lemma same_package_spec p q : same_package p q = true <-> key_of p = key_of q.
Proof.
  unfold same_package, key_of. rewrite !andb_true_iff, !String.eqb_eq. split; [intros [[-> ->] ->]; done|by intros [= -> -> ->]].
Qed.

(** The unique index on (filename, version, distro, arch). *)
Definition table_ok (t : gmap uuid synced_package) : Prop :=
  forall i j p q, t !! i = Some p -> t !! j = Some q -> key_of p = key_of q -> i = j.

Definition in_table (t : gmap uuid synced_package) (k : string * string * string) : Prop :=
  exists id p, t !! id = Some p /\ key_of p = k /\ is_Some (sp_sha256 p).

Lemma upsert_lookup id p t i q : t !! id = None -> upsert_package id p t !! i = Some q ->
  (t !! i = Some q /\ key_of q <> key_of p) \/ (q = p /\ forall q', t !! i = Some q' -> key_of q' = key_of p).
Proof.
  intros Hid. unfold upsert_package. destruct (existsb (same_package p) (snd <$> map_to_list t)) eqn:He.
  - rewrite lookup_fmap. destruct (t !! i) as [q0|] eqn:Hi; simpl; [|done]. intros [= <-].
    destruct (same_package p q0) eqn:Hs.
    + right. split; [done|]. intros q' [= <-]. symmetry. by apply same_package_spec.
    + left. split; [done|]. intros Hk. symmetry in Hk. apply same_package_spec in Hk. congruence.
  - assert (forall j q0, t !! j = Some q0 -> key_of q0 <> key_of p) as Hnone.
    { intros j q0 Hj Hk. symmetry in Hk. apply same_package_spec in Hk.
      assert (existsb (same_package p) (snd <$> map_to_list t) = true); [|congruence].
      apply existsb_exists. exists q0. split; [|done]. apply list_elem_of_In, list_elem_of_fmap. exists (j, q0).
      split; [done|]. by apply elem_of_map_to_list. }
    destruct (decide (i = id)) as [->|Hne].
    + rewrite lookup_insert_eq. intros [= <-]. right. split; [done|]. intros q' Hq'. congruence.
    + rewrite lookup_insert_ne by done. intros Hi. left. split; [done|]. by eapply Hnone.
Qed.

Lemma upsert_ok id p t : t !! id = None -> table_ok t -> table_ok (upsert_package id p t).
Proof.
  intros Hid Hok i j q1 q2 H1 H2 Hk.
  destruct (upsert_lookup id p t i q1 Hid H1) as [[G1 N1]|[-> F1]], (upsert_lookup id p t j q2 Hid H2) as [[G2 N2]|[-> F2]].
  - by eapply Hok.
  - congruence.
  - congruence.
  - unfold upsert_package in H1, H2. destruct (existsb (same_package p) (snd <$> map_to_list t)) eqn:He.
    + rewrite lookup_fmap in H1, H2. destruct (t !! i) as [a|] eqn:Ha; [|done]. destruct (t !! j) as [b|] eqn:Hb; [|done].
      eapply Hok; [exact Ha|exact Hb|]. by rewrite (F1 a), (F2 b).
    + destruct (decide (i = id)) as [->|Hi], (decide (j = id)) as [->|Hj]; [done|..].
      * rewrite lookup_insert_ne in H2 by done. exfalso. pose proof (F2 p H2).
        assert (existsb (same_package p) (snd <$> map_to_list t) = true); [|congruence].
        apply existsb_exists. exists p. split; [|by apply same_package_spec]. apply list_elem_of_In, list_elem_of_fmap.
        exists (j, p). split; [done|]. by apply elem_of_map_to_list.
      * rewrite lookup_insert_ne in H1 by done. exfalso.
        assert (existsb (same_package p) (snd <$> map_to_list t) = true); [|congruence].
        apply existsb_exists. exists p. split; [|by apply same_package_spec]. apply list_elem_of_In, list_elem_of_fmap.
        exists (i, p). split; [done|]. by apply elem_of_map_to_list.
      * rewrite lookup_insert_ne in H1 by done.
        assert (existsb (same_package p) (snd <$> map_to_list t) = true); [|congruence].
        apply existsb_exists. exists p. split; [|by apply same_package_spec]. apply list_elem_of_In, list_elem_of_fmap.
        exists (i, p). split; [done|]. by apply elem_of_map_to_list.
Qed.

(** The row that is written is there. *)
Lemma upsert_there id p t : t !! id = None -> exists i, upsert_package id p t !! i = Some p.
Proof.
  intros Hid. unfold upsert_package. destruct (existsb (same_package p) (snd <$> map_to_list t)) eqn:He.
  - apply existsb_exists in He as (q & Hin & Hs). apply list_elem_of_In, list_elem_of_fmap in Hin as ([i q'] & -> & Hin).
    apply elem_of_map_to_list in Hin. exists i. rewrite lookup_fmap, Hin. simpl in *. by rewrite Hs.
  - exists id. apply lookup_insert_eq.
Qed.

Lemma upsert_in_table id p t k : t !! id = None -> (key_of p = k -> is_Some (sp_sha256 p)) ->
  in_table t k \/ key_of p = k -> in_table (upsert_package id p t) k.
Proof.
  intros Hid Hsha Hor. destruct (decide (key_of p = k)) as [Hk|Hk].
  - destruct (upsert_there id p t Hid) as [i Hi]. exists i, p. auto.
  - destruct Hor as [(i & q & Hi & Hq & Hs)|]; [|done].
    exists i, q. split; [|done]. unfold upsert_package. case_match.
    + rewrite lookup_fmap, Hi. simpl. destruct (same_package p q) eqn:Hpq; [|done].
      apply same_package_spec in Hpq. congruence.
    + rewrite lookup_insert_ne; [done|]. congruence.
Qed.

Lemma wp_persist pk k w : table_ok (rw_packages w) ->
  (forall p, p ∈ pk -> key_of p = k -> is_Some (sp_sha256 p)) ->
  in_table (rw_packages w) k \/ (exists p, p ∈ pk /\ key_of p = k) ->
  wp (persist_packages pk) (fun _ w' => table_ok (rw_packages w') /\ in_table (rw_packages w') k /\
    rw_files w' = rw_files w /\ rw_dirs w' = rw_dirs w) w.
Proof.
  unfold persist_packages. revert w. induction pk as [|p pk IH]; intros w Hok Hsha Hor; cbn [for_each].
  - simpl. split_and!; try done. destruct Hor as [?|(p & Hp & _)]; [done|by apply not_elem_of_nil in Hp].
  - apply wp_bind. intros x w1 (-> & id & Hid & ->). simpl.
    eapply wp_mono; [|apply IH].
    + intros a w2 (H1 & H2 & H3 & H4). by split_and!.
    + simpl. by apply upsert_ok.
    + intros q Hq. apply Hsha. set_solver.
    + simpl. destruct (decide (key_of p = k)) as [Hk|Hk].
      { left. apply upsert_in_table; [done| |by right]. intros _. apply Hsha; [left|done]. }
      destruct Hor as [Hin|(q & Hq & Hqk)].
      * left. apply upsert_in_table; [done|done|by left].
      * right. exists q. split; [|done]. apply elem_of_cons in Hq as [->|]; done.
Qed.

(** What the next cycle finds of a row. *)
Lemma existing_sha_table t existing name version distro :
  table_ok t -> existing ≡ₚ (existing_of ∘ snd <$> map_to_list t) ->
  (exists s, existing_sha existing name version distro = Some (Some s)) <-> in_table t (name, version, distro).
Proof.
  intros Hok Hp. unfold existing_sha.
  set (l := List.filter (fun p => String.eqb (ex_filename p) name && String.eqb (ex_version p) version &&
                                  String.eqb (ex_distro p) distro) existing).
  assert (forall x, x ∈ l <-> exists i q, t !! i = Some q /\ key_of q = (name, version, distro) /\ x = existing_of q) as Hl.
  { intros x. unfold l. rewrite list_elem_of_In, filter_In, <- list_elem_of_In, Hp, list_elem_of_fmap.
    rewrite !andb_true_iff, !String.eqb_eq. split.
    - intros [([i q] & -> & Hin) [[H1 H2] H3]]. apply elem_of_map_to_list in Hin. exists i, q. simpl in *.
      split_and!; try done. unfold key_of. by rewrite H1, H2, H3.
    - intros (i & q & Hi & Hk & ->). injection Hk as <- <- <-. split; [|done]. exists (i, q). split; [done|].
      by apply elem_of_map_to_list. }
  split.
  - intros [s Hs]. rewrite fmap_last in Hs. destruct (last l) as [x|] eqn:Hlast; [|done]. injection Hs as Hs.
    pose proof (last_Some_elem_of _ _ Hlast) as Hx. apply Hl in Hx as (i & q & Hi & Hk & ->).
    exists i, q. split_and!; done.
  - intros (i & q & Hi & Hk & [s Hs]). rewrite fmap_last. destruct (last l) as [x|] eqn:Hlast.
    + pose proof (last_Some_elem_of _ _ Hlast) as Hx. apply Hl in Hx as (j & q' & Hj & Hk' & ->).
      assert (i = j) as <- by (eapply Hok; [exact Hi|exact Hj|congruence]). simplify_eq. exists s. simpl. by rewrite Hs.
    + apply last_None in Hlast. exfalso. apply (not_elem_of_nil (existing_of q)). rewrite <- Hlast. apply Hl. eauto.
Qed.

(** ** The next cycle *)

Lemma fold_extends errs r :
  extends r (foldl (fun r '(suite, error) => add_error ("apt metadata regeneration failed for " ++ suite ++ ": " ++ error)%string r) r errs).
Proof.
  revert r. induction errs as [|[s e] errs IH]; intros r; simpl; [apply extends_refl|].
  eapply extends_trans; [apply extends_error|apply IH].
Qed.

Lemma fold_packages (errs : list (string * string)) r :
  sr_packages (foldl (fun r '(suite, error) => add_error ("apt metadata regeneration failed for " ++ suite ++ ": " ++ error)%string r) r errs)
    = sr_packages r.
Proof. revert r. induction errs as [|[s e] errs IH]; intros r; simpl; [done|]. by rewrite IH. Qed.

(** What follows the agent's part of a cycle. *)
Definition finish_cycle (cfg : sync_config) (r : sync_result) : repo_prog sync_result :=
  let! r := sync_manager_packages L cfg r in
  let! errs := regenerate_all_apt_metadata L (sc_repo_dir cfg) in
  Ret (foldl (fun r '(suite, error) => add_error ("apt metadata regeneration failed for " ++ suite ++ ": " ++ error)%string r) r errs).

Lemma wp_finish cfg r w : wp (finish_cycle cfg r) (fun r' _ => extends r r' /\ adds_ok r r') w.
Proof.
  unfold finish_cycle. apply wp_bind. eapply wp_mono; [|apply wp_manager]. intros r1 w1 [E A].
  apply wp_bind, wp_true. intros errs w2. simpl. split.
  - eapply extends_trans; [exact E|apply fold_extends].
  - intros p. rewrite fold_packages. apply A.
Qed.

Lemma sparing_finish p cfg r : kept (sc_repo_dir cfg) p -> sparing p (finish_cycle cfg r).
Proof.
  intros Hp. unfold finish_cycle. apply issues_bind; [by apply sparing_manager|]. intros r'.
  apply issues_bind; [apply sparing_regenerate|done].
Qed.

Lemma some_kept repo_dir : exists p, kept repo_dir p.
Proof. eexists. by apply (local_path_kept repo_dir "a.deb" "apt"). Qed.

Lemma wp_releases cfg key existing releases w : Forall asset_ok (assets_of releases) ->
  wp (sync_releases L cfg key existing releases) (fun r w' =>
    rw_packages w' = rw_packages w /\ adds_ok no_result r /\
    (sr_errors r = [] -> forall ra, ra ∈ assets_of releases -> settled cfg existing (sr_packages r) w' ra)) w.
Proof.
  intros Hok. apply wp_conj; [destruct (some_kept (sc_repo_dir cfg)) as [p Hp]; by apply (sparing_packages p), sparing_releases|].
  change (sync_releases L cfg key existing releases) with
    (bind (sync_assets L cfg key existing (assets_of releases) no_result) (finish_cycle cfg)).
  apply wp_bind. eapply wp_mono; [|apply wp_conj; [apply wp_assets_adds|by apply wp_sync_assets]].
  intros r1 w1 [A1 [E1 S1]]. apply wp_conj.
  { eapply wp_mono; [|apply wp_finish]. intros r2 w2 [_ A2]. by eapply adds_trans. }
  destruct (sr_errors r1) as [|e es] eqn:He.
  - eapply wp_mono with (Q := fun r2 w2 => forall ra, ra ∈ assets_of releases -> settled cfg existing (sr_packages r2) w2 ra); [auto|].
    apply wp_all. intros ra. apply wp_impl. intros Hra.
    apply (settled_later cfg existing r1 ra (finish_cycle cfg r1) (fun r => r)).
    + intros p. apply sparing_finish.
    + eapply wp_mono; [|apply wp_finish]. by intros r2 w2 [? _].
    + rewrite Forall_forall in S1. by apply S1.
  - eapply wp_mono; [|apply wp_finish]. intros r2 w2 [E2 _] He2. apply (extends_errors _ _ E2) in He2. congruence.
Qed.

(** The rows of the table that a cycle starts from. *)
Definition rows_of (w : repo_world) (existing : list existing_package) : Prop :=
  existing ≡ₚ (existing_of ∘ snd <$> map_to_list (rw_packages w)).

(** On the disk and recorded with a checksum. *)
Definition in_place (cfg : sync_config) (w : repo_world) (ra : github_release * github_asset) : Prop :=
  is_package_file (ga_name ra.2) = true -> forall distro lp, detect_distro_from_filename (ga_name ra.2) = Some distro ->
    local_package_path (sc_repo_dir cfg) distro (ga_name ra.2) = Some lp ->
    present lp w /\ in_table (rw_packages w) (ga_name ra.2, version_from_tag (gr_tag_name ra.1), distro).

Lemma not_manager_sha (ps : list synced_package) (k : string * string * string) :
  (forall p, p ∈ ps -> is_Some (sp_sha256 p) \/ is_manager_package (sp_filename p) = true) ->
  is_manager_package k.1.1 = false -> forall p, p ∈ ps -> key_of p = k -> is_Some (sp_sha256 p).
Proof. intros Hps Hk p Hp <-. destruct (Hps p Hp) as [?|Hm]; [done|]. simpl in Hk. congruence. Qed.

Lemma persist_in_place cfg existing ps w ra : table_ok (rw_packages w) -> rows_of w existing ->
  is_manager_package (ga_name ra.2) = false ->
  (forall p, p ∈ ps -> is_Some (sp_sha256 p) \/ is_manager_package (sp_filename p) = true) ->
  settled cfg existing ps w ra -> wp (persist_packages ps) (fun _ w' => in_place cfg w' ra) w.
Proof.
  intros Hok Hex Hm Hps Hset. apply wp_impl. intros Hpkg. apply wp_all. intros distro. apply wp_all. intros lp.
  apply wp_impl. intros Hd. apply wp_impl. intros Hlp. destruct (Hset Hpkg distro lp Hd Hlp) as [Hp Hrec].
  set (k := (ga_name ra.2, version_from_tag (gr_tag_name ra.1), distro)).
  eapply wp_mono; [|apply (wp_persist ps k); [done| |]].
  - intros u w' (_ & H2 & H3 & H4). split; [|done]. unfold present. by rewrite H3, H4.
  - by apply not_manager_sha.
  - destruct Hrec as [Hs|(p & Hin & Hn & Hv & Hds & _)].
    + left. by apply (existing_sha_table (rw_packages w) existing).
    + right. exists p. split; [done|]. unfold key_of, k. by rewrite Hn, Hv, Hds.
Qed.

Lemma persist_ok ps w : table_ok (rw_packages w) -> wp (persist_packages ps) (fun _ w' => table_ok (rw_packages w')) w.
Proof.
  unfold persist_packages. revert w. induction ps as [|p ps IH]; intros w Hok; cbn [for_each]; [done|].
  apply wp_bind. intros x w1 (-> & id & Hid & ->). apply IH. simpl. by apply upsert_ok.
Qed.

(** A sync and what the worker stores of it. *)
Definition sync_and_persist (cfg : sync_config) (key : option string) (existing : list existing_package)
    (releases : list github_release) : repo_prog sync_result :=
  let! r := sync_releases L cfg key existing releases in
  persist_packages (sr_packages r) ;;
  Ret r.

Lemma wp_sync_and_persist cfg key existing releases w :
  table_ok (rw_packages w) -> rows_of w existing -> Forall asset_ok (assets_of releases) ->
  wp (sync_and_persist cfg key existing releases) (fun r w' => table_ok (rw_packages w') /\
    (sr_errors r = [] -> Forall (in_place cfg w') (assets_of releases))) w.
Proof.
  intros Hok Hex Hassets. unfold sync_and_persist. apply wp_bind. eapply wp_mono; [|by apply wp_releases].
  intros r w1 (Ht & Hadds & Hset). apply wp_bind. apply wp_conj; [apply persist_ok; by rewrite Ht|].
  eapply wp_mono with (Q := fun _ w' => sr_errors r = [] -> forall ra, ra ∈ assets_of releases -> in_place cfg w' ra).
  { intros u w2 H He. apply Forall_forall. by apply H. }
  apply wp_impl. intros He. apply wp_all. intros ra. apply wp_impl. intros Hra.
  apply (persist_in_place cfg existing); [by rewrite Ht| | | |by apply Hset].
  - unfold rows_of. by rewrite Ht.
  - rewrite Forall_forall in Hassets. by destruct (Hassets ra Hra).
  - intros p Hp. destruct (Hadds p Hp) as [Hn|[]]; [by apply not_elem_of_nil in Hn|done].
Qed.

(** An asset in place is skipped. *)
Fixpoint skips (n : nat) (r : sync_result) : sync_result := match n with O => r | S n => skips n (skip r) end.

(** Only questions whether a file exists. *)
Definition asks_only (X : Type) (e : repo_eff X) (_ : repo_world) : Prop := match e with FsExists _ => True | _ => False end.

Lemma skipped_asset cfg key existing ra r w : table_ok (rw_packages w) -> rows_of w existing -> in_place cfg w ra ->
  wp (sync_asset L cfg key existing ra.1 ra.2 r) (fun r' w' => r' = skip r /\ w' = w) w /\
  emits asks_only (sync_asset L cfg key existing ra.1 ra.2 r) w.
Proof.
  intros Hok Hex Hin. unfold sync_asset. destruct (is_package_file (ga_name ra.2)) eqn:Hpkg; [|done]. cbn [negb].
  destruct (detect_distro_from_filename (ga_name ra.2)) as [distro|] eqn:Hd; [|done].
  destruct (local_package_path (sc_repo_dir cfg) distro (ga_name ra.2)) as [lp|] eqn:Hlp.
  2:{ exfalso. unfold local_package_path in Hlp.
      by destruct (detect_distro_suffix _ _ Hd) as [[-> _]|[[-> _]|[[-> _]|[-> _]]]]. }
  destruct (Hin Hpkg distro lp Hd Hlp) as [Hp Ht]. apply (existing_sha_table (rw_packages w) existing) in Ht as [s Hs]; [|done..].
  unfold unchanged. rewrite Hs, Hlp. split.
  - apply wp_exists. by rewrite bool_decide_true.
  - simpl. split; [done|]. intros x w' [-> ->]. by rewrite bool_decide_true.
Qed.

Lemma skipped_assets cfg key existing todo r w : table_ok (rw_packages w) -> rows_of w existing -> Forall (in_place cfg w) todo ->
  wp (sync_assets L cfg key existing todo r) (fun r' w' => r' = skips (length todo) r /\ w' = w) w /\
  emits asks_only (sync_assets L cfg key existing todo r) w.
Proof.
  intros Hok Hex Hin. revert r. induction Hin as [|[rel a] todo Ha _ IH]; intros r; cbn [sync_assets]; [done|].
  destruct (skipped_asset cfg key existing (rel, a) r w Hok Hex Ha) as [Hwp Hem]. split.
  - eapply wp_bind_eq; [exact Hwp|]. apply IH.
  - apply emits_bind; [exact Hem|]. eapply wp_mono; [|exact Hwp]. intros r' w' [-> ->]. apply IH.
Qed.

(** *** What the next cycle does besides *)

(** The files of the manager's packages, and the indexes of the apt suites. *)
Definition manager_file (cfg : sync_config) (dir p : string) : Prop :=
  exists n, is_manager_package n = true /\ p = (sc_repo_dir cfg ++ dir ++ n)%string.
Definition apt_indexes (cfg : sync_config) : list string := concat (apt_outputs (sc_repo_dir cfg) <$> APT_SUITES).

(** The effects of a cycle that finds nothing new from the agent: GitHub is asked
    for packages of the manager only, if its repository is configured; what is
    written is the index of a suite or a package of the manager. *)
Definition quiet (cfg : sync_config) (X : Type) (e : repo_eff X) : Prop :=
  match e with
  | HttpReleases repo _ => repo = sc_manager_github_repo cfg /\ repo <> ""%string
  | HttpGet _ => sc_manager_github_repo cfg <> ""%string
  | FsWrite p _ => manager_file cfg "/tmp/" p \/ p ∈ apt_indexes cfg
  | GpgClearsign _ p | GpgDetached _ p _ => p ∈ apt_indexes cfg
  | FsRemoveFile p => manager_file cfg "/tmp/" p
  | FsCopy _ p => manager_file cfg "/apt/pool/" p
  | FsRename _ _ | FsRemoveDirAll _ | LogConfigChanged _ _ _ _ => False
  | RepoSql (UpsertPackage p) => is_manager_package (sp_filename p) = true
  | RepoSql _ => False
  | _ => True
  end.

(** What the next cycle may rewrite. *)
Definition rewritten (cfg : sync_config) (p : string) : Prop :=
  manager_file cfg "/tmp/" p \/ manager_file cfg "/apt/pool/" p \/ p ∈ apt_indexes cfg.

(** All other files, and the rows of all packages but the manager's, are as they were. *)
Definition untouched (cfg : sync_config) (w w' : repo_world) : Prop :=
  (forall p, ~ rewritten cfg p -> rw_files w' !! p = rw_files w !! p) /\
  (forall id p, is_manager_package (sp_filename p) = false -> rw_packages w' !! id = Some p <-> rw_packages w !! id = Some p).

Lemma upsert_others id p t i q : t !! id = None -> is_manager_package (sp_filename p) = true ->
  is_manager_package (sp_filename q) = false -> upsert_package id p t !! i = Some q <-> t !! i = Some q.
Proof.
  intros Hid Hp Hq. assert (key_of p <> key_of q) as Hk by (intros [= Hn _ _]; congruence). split.
  - intros Hi. destruct (upsert_lookup id p t i q Hid Hi) as [[? _]|[-> _]]; [done|congruence].
  - intros Hi. unfold upsert_package. case_match.
    + rewrite lookup_fmap, Hi. simpl. destruct (same_package p q) eqn:Hs; [|done]. by apply same_package_spec in Hs.
    + rewrite lookup_insert_ne; [done|congruence].
Qed.

Lemma untouched_file cfg w w1 w2 p (f : gmap string vec_u8 -> gmap string vec_u8) : untouched cfg w w1 -> rewritten cfg p ->
  (forall q, q <> p -> f (rw_files w1) !! q = rw_files w1 !! q) -> w2 = with_files f w1 -> untouched cfg w w2.
Proof.
  intros [Hf Hr] Hp Hq ->. split; [|done]. intros q Hn. simpl. rewrite Hq; [by apply Hf|]. by intros ->.
Qed.

Lemma untouched_touched cfg w w1 w2 p : untouched cfg w w1 -> rewritten cfg p -> touched p w1 w2 -> untouched cfg w w2.
Proof.
  intros Hu Hp [->|[d ->]]; [done|]. eapply untouched_file; [exact Hu|exact Hp| |done].
  intros q Hq. by apply lookup_insert_ne.
Qed.

Lemma quiet_step cfg w X (e : repo_eff X) w1 x w2 : quiet cfg X e -> untouched cfg w w1 -> exec e w1 x w2 -> untouched cfg w w2.
Proof.
  intros He Hu Hx. destruct e; cbn [quiet] in He; try done; cbn [exec repo_sem] in Hx; try (by subst); try (by destruct Hx as [-> _]).
  - assert (rewritten cfg path) by (unfold rewritten; tauto).
    destruct x; [|by eapply untouched_touched]. eapply untouched_file; [exact Hu|eassumption| |exact Hx]. intros q Hq. by apply lookup_insert_ne.
  - destruct x; [by subst|]. by destruct Hx as (made & _ & ->).
  - assert (rewritten cfg dst) by (unfold rewritten; tauto). destruct (rw_files w1 !! src); [|by destruct Hx as [-> _]].
    destruct x; [|by eapply untouched_touched]. eapply untouched_file; [exact Hu|eassumption| |exact Hx]. intros q Hq. by apply lookup_insert_ne.
  - assert (rewritten cfg path) by (unfold rewritten; tauto). destruct (rw_files w1 !! path); [|by destruct Hx as [-> _]].
    destruct x as [u|[|m]]; [|done|by subst]. eapply untouched_file; [exact Hu|eassumption| |exact Hx]. intros q Hq. by apply lookup_delete_ne.
  - assert (rewritten cfg dst) by (unfold rewritten; tauto). destruct x; [|by eapply untouched_touched].
    destruct Hx as [sig Hx]. eapply untouched_file; [exact Hu|eassumption| |exact Hx]. intros q Hq. by apply lookup_insert_ne.
  - assert (rewritten cfg dst) by (unfold rewritten; tauto). destruct x; [|by eapply untouched_touched].
    destruct Hx as [sig Hx]. eapply untouched_file; [exact Hu|eassumption| |exact Hx]. intros q Hq. by apply lookup_insert_ne.
  - destruct q; try done. destruct Hx as (_ & id & Hid & ->). destruct Hu as [Hf Hr]. split; [done|].
    intros i q Hq. simpl. rewrite upsert_others by done. by apply Hr.
Qed.

Lemma wp_quiet {A} cfg (q : repo_prog A) w : emits (fun X e _ => quiet cfg X e) q w -> wp q (fun _ w' => untouched cfg w w') w.
Proof.
  intros Hq. apply (emits_invariant (fun X e _ => quiet cfg X e)); [|done|by split].
  intros X e t x t' He Ht Hx. by eapply quiet_step.
Qed.

Lemma asks_quiet {A} cfg (q : repo_prog A) w : emits asks_only q w -> emits (fun X e _ => quiet cfg X e) q w.
Proof.
  revert w. induction q as [a|X e k IH]; intros w; [done|]. intros [He Hk]. split; [by destruct e|].
  intros x w' Hx. by apply IH, Hk.
Qed.

#[local] Hint Extern 1 (quiet _ _ _) => cbn [quiet]; solve [tauto | done] : issues.

Lemma quiet_regenerate cfg : issues (quiet cfg) (regenerate_all_apt_metadata L (sc_repo_dir cfg)).
Proof.
  unfold regenerate_all_apt_metadata. assert (forall s, s ∈ APT_SUITES -> s ∈ APT_SUITES) as Hin by done. revert Hin.
  generalize APT_SUITES at 1 3. intros suites. induction suites as [|s suites IH]; intros Hin; cbn [regenerate_suites]; [done|].
  apply issues_bind; [|intros r; apply issues_bind; [apply IH; intros s' Hs; apply Hin; by right|done]].
  eapply issues_mono; [|apply apt_writes]. intros X e He.
  assert (forall p, p ∈ apt_outputs (sc_repo_dir cfg) s -> p ∈ apt_indexes cfg) as Hout.
  { intros p Hp. apply elem_of_concat. eexists. split; [|exact Hp]. apply list_elem_of_fmap. exists s. split; [done|]. apply Hin. by left. }
  destruct He as [He|He]; destruct e; try done; cbn [quiet]; auto.
Qed.

Lemma quiet_manager cfg r : issues (quiet cfg) (sync_manager_packages L cfg r).
Proof.
  unfold sync_manager_packages. destruct (String.eqb_spec (sc_manager_github_repo cfg) "") as [?|Hm]; [done|].
  apply issues_bind; [by split|]. intros [releases|e]; [|done]. apply issues_bind; [done|]. intros [u|e]; [|done].
  generalize (assets_of (latest_releases (sc_max_releases cfg) releases)). intros todo. revert r.
  induction todo as [|[rel a] todo IH]; intros r; cbn [sync_manager_assets]; [done|]. apply issues_bind; [|auto].
  unfold sync_manager_asset. destruct (is_manager_package (ga_name a)) eqn:Ha; cbn [negb]; [|done].
  assert (manager_file cfg "/tmp/" (sc_repo_dir cfg ++ "/tmp/" ++ ga_name a)) by by eexists.
  assert (manager_file cfg "/apt/pool/" (sc_repo_dir cfg ++ "/apt/pool/" ++ ga_name a)) by by eexists.
  unfold download_asset. issues_auto.
Qed.

Lemma quiet_finish cfg r : issues (quiet cfg) (finish_cycle cfg r).
Proof.
  unfold finish_cycle. apply issues_bind; [apply quiet_manager|]. intros r'. apply issues_bind; [apply quiet_regenerate|done].
Qed.

Lemma quiet_persist cfg ps : (forall p, p ∈ ps -> is_manager_package (sp_filename p) = true) -> issues (quiet cfg) (persist_packages ps).
Proof.
  unfold persist_packages. induction ps as [|p ps IH]; intros Hps; cbn [for_each]; [done|].
  apply issues_bind; [|intros _; apply IH; intros q Hq; apply Hps; by right].
  apply issues_bind; [|done]. apply issues_trigger. cbn [quiet]. apply Hps. by left.
Qed.

(** The manager's part adds packages of the manager, none if it is switched off,
    and skips nothing. *)
Definition adds_manager (cfg : sync_config) (r r' : sync_result) : Prop :=
  sr_skipped r' = sr_skipped r /\
  (forall p, p ∈ sr_packages r' -> p ∈ sr_packages r \/ sc_manager_github_repo cfg <> ""%string /\ is_manager_package (sp_filename p) = true).

Lemma adds_manager_refl cfg r : adds_manager cfg r r.
Proof. split; [done|]. by left. Qed.
Lemma adds_manager_trans cfg r1 r2 r3 : adds_manager cfg r1 r2 -> adds_manager cfg r2 r3 -> adds_manager cfg r1 r3.
Proof. intros [S1 P1] [S2 P2]. split; [congruence|]. intros p [Hp|?]%P2; [by apply P1|by right]. Qed.
Lemma adds_manager_error cfg e r : adds_manager cfg r (add_error e r).
Proof. split; [done|]. by left. Qed.
Lemma adds_manager_package cfg p r r' : sr_skipped r' = sr_skipped r -> sr_packages r' = sr_packages r ->
  sc_manager_github_repo cfg <> ""%string -> is_manager_package (sp_filename p) = true -> adds_manager cfg r (add_package p r').
Proof.
  intros Hs Hp Hc Hm. split; [done|]. intros q. simpl. rewrite Hp, elem_of_app, list_elem_of_singleton. intros [?| ->]; [by left|by right].
Qed.

Lemma wp_manager_adds cfg r w : wp (sync_manager_packages L cfg r) (fun r' _ => adds_manager cfg r r') w.
Proof.
  unfold sync_manager_packages. destruct (String.eqb_spec (sc_manager_github_repo cfg) "") as [?|Hm]; [apply adds_manager_refl|].
  apply wp_bind, wp_true. intros [releases|e] w1; [|apply adds_manager_error].
  apply wp_bind, wp_true. intros [u|e] w2; [|apply adds_manager_error].
  generalize (assets_of (latest_releases (sc_max_releases cfg) releases)). intros todo. revert r w2.
  induction todo as [|[rel a] todo IH]; intros r w2; cbn [sync_manager_assets]; [apply adds_manager_refl|].
  apply wp_bind. eapply wp_mono; [intros r1 w3 H1; eapply wp_mono; [intros r2 w4 H2; eapply adds_manager_trans; [exact H1|exact H2]|apply IH]|].
  unfold sync_manager_asset. destruct (is_manager_package (ga_name a)) eqn:Ha; cbn [negb]; [|apply adds_manager_refl].
  cbv zeta. apply wp_exists. case_match; [by apply adds_manager_package|].
  apply wp_bind, wp_true. intros [sha|e] w3; [|apply adds_manager_error].
  apply wp_bind, wp_true. intros [v|e] w4; apply wp_bind, wp_true; intros y w5; [by apply adds_manager_package|apply adds_manager_error].
Qed.

Lemma fold_skipped (errs : list (string * string)) r :
  sr_skipped (foldl (fun r '(suite, error) => add_error ("apt metadata regeneration failed for " ++ suite ++ ": " ++ error)%string r) r errs)
    = sr_skipped r.
Proof. revert r. induction errs as [|[s e] errs IH]; intros r; simpl; [done|]. by rewrite IH. Qed.

Lemma wp_finish_adds cfg r w : wp (finish_cycle cfg r) (fun r' _ => adds_manager cfg r r') w.
Proof.
  unfold finish_cycle. apply wp_bind. eapply wp_mono; [|apply wp_manager_adds]. intros r1 w1 [Hs Hp].
  apply wp_bind, wp_true. intros errs w2. cbn [wp]. split; [by rewrite fold_skipped|]. by rewrite fold_packages.
Qed.

Lemma skips_skipped n r : sr_skipped (skips n r) = sr_skipped r + Z.of_nat n /\ sr_packages (skips n r) = sr_packages r.
Proof. revert r. induction n as [|n IH]; intros r; cbn [skips]; [split; [lia|done]|]. destruct (IH (skip r)) as [-> ->]. simpl. split; [lia|done]. Qed.

(** The result of a cycle that found nothing new from the agent. *)
Definition only_manager (cfg : sync_config) (n : nat) (r : sync_result) : Prop :=
  sr_skipped r = Z.of_nat n /\
  forall p, p ∈ sr_packages r -> sc_manager_github_repo cfg <> ""%string /\ is_manager_package (sp_filename p) = true.

Lemma quiet_sync cfg key existing releases w : table_ok (rw_packages w) -> rows_of w existing -> Forall (in_place cfg w) (assets_of releases) ->
  emits (fun X e _ => quiet cfg X e) (sync_and_persist cfg key existing releases) w /\
  wp (sync_and_persist cfg key existing releases) (fun r _ => only_manager cfg (length (assets_of releases)) r) w.
Proof.
  intros Hok Hex Hin. destruct (skipped_assets cfg key existing (assets_of releases) no_result w Hok Hex Hin) as [Hwp Hem].
  change (sync_and_persist cfg key existing releases) with
    (bind (bind (sync_assets L cfg key existing (assets_of releases) no_result) (finish_cycle cfg))
       (fun r => persist_packages (sr_packages r) ;; Ret r)).
  destruct (skips_skipped (length (assets_of releases)) no_result) as [Hs Hp]. set (r0 := skips _ no_result) in *.
  assert (wp (bind (sync_assets L cfg key existing (assets_of releases) no_result) (finish_cycle cfg))
            (fun r _ => only_manager cfg (length (assets_of releases)) r) w) as Hfirst.
  { eapply wp_bind_eq; [exact Hwp|]. eapply wp_mono; [|apply wp_finish_adds]. intros r w1 [Hs1 Hp1]. split; [by rewrite Hs1, Hs|].
    intros p [Hn|?]%Hp1; [|done]. rewrite Hp in Hn. by apply not_elem_of_nil in Hn. }
  split.
  - apply emits_bind.
    + apply emits_bind; [by apply asks_quiet|]. apply wp_true. intros r t. eapply gsafe_emits; [apply quiet_finish|done].
    + eapply wp_mono; [|exact Hfirst]. intros r t [_ Hm]. apply (gsafe_emits _ (fun _ => True)); [|done].
      apply gsafe_bind; [|done]. apply quiet_persist. intros p Hpp. by apply Hm.
  - apply wp_bind. eapply wp_mono; [|exact Hfirst]. intros r t Hr. by apply wp_bind, wp_true.
Qed.

(** C20. A cycle without errors leaves every package of the agent's releases on the
    disk and recorded with its checksum.  So the next cycle over the same releases
    skips every asset: that part of it only asks whether files exist.  All that
    the whole cycle still does is for the manager's packages, if their repository
    is configured, and to write the indexes of the apt suites again: nothing else
    is asked of GitHub, and every other file, and the row of every other package,
    is as it was. *)
Theorem resync_downloads_nothing cfg key existing releases w :
  table_ok (rw_packages w) -> rows_of w existing -> Forall asset_ok (assets_of releases) ->
  wp (sync_and_persist cfg key existing releases) (fun r w' => sr_errors r = [] ->
    forall existing', rows_of w' existing' ->
      emits asks_only (sync_assets L cfg key existing' (assets_of releases) no_result) w' /\
      emits (fun X e _ => quiet cfg X e) (sync_and_persist cfg key existing' releases) w' /\
      wp (sync_and_persist cfg key existing' releases)
         (fun r' w'' => only_manager cfg (length (assets_of releases)) r' /\ untouched cfg w' w'') w') w.
Proof.
  intros Hok Hex Hassets. eapply wp_mono; [|by apply wp_sync_and_persist].
  intros r w' [Hok' Hin] He existing' Hex'. destruct (quiet_sync cfg key existing' releases w' Hok' Hex' (Hin He)) as [Hq Hm].
  split; [|split; [exact Hq|apply wp_conj; [exact Hm|by apply wp_quiet]]].
  by apply (skipped_assets cfg key existing' (assets_of releases) no_result w' Hok' Hex'), Hin.
Qed.

(** *** Nothing is removed *)

Lemma sql_present p X (q : repo_stmt X) w x w' : exec_repo_stmt q w x w' -> present p w -> present p w'.
Proof.
  unfold present. intros Hx. destruct q; simpl in Hx; repeat match goal with
    | H : _ /\ _ |- _ => destruct H
    | H : exists _, _ |- _ => destruct H
    end; by subst.
Qed.

Lemma wp_sql_present {A} p X (q : repo_stmt X) (f : X -> repo_prog A) w : present p w ->
  (forall x w', present p w' -> wp (f x) (fun _ t => present p t) w') ->
  wp (bind (trigger (RepoSql q)) f) (fun _ t => present p t) w.
Proof. intros Hp Hf x w' Hx. apply Hf. eapply sql_present; [exact Hx|done]. Qed.

Lemma persist_present p ps w : present p w -> wp (persist_packages ps) (fun _ t => present p t) w.
Proof.
  unfold persist_packages. revert w. induction ps as [|q ps IH]; intros w Hp; cbn [for_each]; [done|].
  apply wp_bind. intros x w1 Hx. apply IH. eapply sql_present; [exact Hx|done].
Qed.

Lemma logged_sync_present cfg id p w : kept (sc_repo_dir cfg) p -> present p w ->
  wp (run_logged_sync L cfg id) (fun _ t => present p t) w.
Proof.
  intros Hk Hp. unfold run_logged_sync. unfold fetch_existing_packages. apply wp_bind, wp_bind.
  intros rows w1 Hx. pose proof (sql_present p _ _ _ _ _ Hx Hp) as Hp1. cbn [wp]. apply wp_bind.
  unfold run_sync_cycle, fetch_github_releases, bind_ok. apply wp_bind, wp_bind. intros r w2 ->.
  destruct r as [releases|e].
  - apply wp_bind. eapply wp_mono; [|apply sparing_wp; [by apply sparing_releases|done]].
    intros res w3 Hp3. cbn [wp]. apply wp_bind. eapply wp_mono; [|apply (persist_present p); exact Hp3].
    intros u w4 Hp4 x w5 Hx2. eapply sql_present; [exact Hx2|done].
  - cbn [wp]. apply wp_bind. intros x w3 Hx2. eapply sql_present; [exact Hx2|done].
Qed.

(** No cycle of the worker removes a package: whatever lies in the repository,
    outside the directory of downloads and unless it is a temporary file, is
    still there after it, whatever GitHub, GnuPG and the database answer. *)
Theorem sync_removes_nothing cfg p w : kept (sc_repo_dir cfg) p -> present p w ->
  wp (package_sync_tick L cfg) (fun _ w' => present p w') w.
Proof.
  intros Hk Hp. unfold package_sync_tick. apply wp_sql_present; [done|]. intros on w1 Hp1.
  destruct (auto_sync_on on); [|done]. apply wp_bind. unfold run_scheduled_sync, bind_ok.
  apply wp_sql_present; [done|]. intros r w2 Hp2. destruct r as [id|e]; [|done].
  eapply wp_mono; [|by apply logged_sync_present]. done.
Qed.
End Flow.

(** ** Witnesses: one release of the agent, an empty repository *)

Definition toy_config : sync_config := SyncConfig true "Draco/agent" 5 "Draco/manager" "/r" "".
Definition toy_release : github_release :=
  GithubRelease "v1.2.0" false
    [GithubAsset "linux-patch-agent_1.2.0_u2404_amd64.deb" "https://x/1" 1024; GithubAsset "SHA256SUMS" "https://x/2" 64] None.
Definition empty_repo : repo_world := RepoWorld ∅ ∅ ∅ ∅ None.

Lemma resync_downloads_nothing_witness :
  wp (sync_and_persist toy_libs toy_config None [] [toy_release]) (fun r w' => sr_errors r = [] ->
    forall existing', rows_of w' existing' ->
      emits asks_only (sync_assets toy_libs toy_config None existing' (assets_of [toy_release]) no_result) w' /\
      emits (fun X e _ => quiet toy_config X e) (sync_and_persist toy_libs toy_config None existing' [toy_release]) w' /\
      wp (sync_and_persist toy_libs toy_config None existing' [toy_release])
         (fun r' w'' => only_manager toy_config 2 r' /\ untouched toy_config w' w'') w') empty_repo.
Proof.
  apply (resync_downloads_nothing toy_libs toy_config None [] [toy_release] empty_repo).
  - intros i j p q Hi. done.
  - unfold rows_of. simpl. by rewrite map_to_list_empty.
  - constructor; [done|]. constructor; [done|]. constructor.
Defined.

Lemma sync_removes_nothing_witness :
  wp (package_sync_tick toy_libs toy_config) (fun _ w' => present "/r/apt/pool/agent.deb" w')
    (with_files (<["/r/apt/pool/agent.deb"%string := []]>) empty_repo).
Proof.
  apply sync_removes_nothing.
  - split; reflexivity.
  - left. simpl. set_solver.
Defined.
