(* ===== verification/RepoAdmin.v ===== *)
(** * The administration of the repository (pm-web/src/routes/repo_admin.rs)

    Triggering a sync, regenerating the indexes, deleting packages, measuring the
    disk and switching the automatic sync. *)

From S2P Require Import Prelude Ordering Rbac Buffers ApkSign PkgFormats Conc RepoWorld RepoIndex RepoSync.

Definition repo_internal_error : api_err := ApiErr 500 "internal_error".
Definition repo_forbidden_role : api_err := ApiErr 403 "forbidden_role".

(** The error of a statement becomes an answer. *)
Definition or_internal {A B} (p : repo_prog (result A string)) (f : A -> repo_prog (result B api_err)) : repo_prog (result B api_err) :=
  let! r := p in match r with Ok a => f a | Err _ => Ret (Err repo_internal_error) end.

Section Admin.
Context (L : libraries).

(** ** The manual sync *)

Definition fetch_existing_for_sync : repo_prog (list existing_package) :=
  let! r := trigger (RepoSql SelExisting) in
  Ret (match r with Ok rows => rows | Err _ => [] end).

Definition run_manual_sync (config : sync_config) (sync_log_id : uuid) : repo_prog (result unit string) :=
  let! existing := fetch_existing_for_sync in
  let! r := run_sync_cycle L config (Some (sc_apk_rsa_key config)) existing in
  match r with
  | Err e => trigger (RepoSql (UpdSyncFailed sync_log_id ("Sync error: " ++ e))) ;; Ret (Err e)
  | Ok result_ =>
      for_each (sr_packages result_) (fun pkg => trigger (RepoSql (UpsertPackage pkg)) ;; Ret tt) ;;
      let status := match sr_errors result_ with [] => "success" | _ => "partial" end%string in
      let error_msg := match sr_errors result_ with [] => None | _ => Some (join "; " (sr_errors result_)) end in
      let!? _ := trigger (RepoSql (UpdSyncLog sync_log_id status (sr_synced result_) (sr_skipped result_) error_msg)) in
      Ret (Ok tt)
  end.

(** The answer, and the task that was started. *)
Definition trigger_sync (config : sync_config) : repo_prog (result (uuid * repo_prog (result unit string)) api_err) :=
  or_internal (trigger (RepoSql (InsSyncLog "manual"))) (fun sync_log_id =>
    Ret (Ok (sync_log_id, run_manual_sync config sync_log_id))).

(** ** Regenerating the indexes *)

(** [Path::extension] of a path that ends in the entry [name]. *)
Definition extension (name : string) : option string :=
  '(stem, ext) ← rsplit_once "." name;
  if String.eqb stem "" then None else Some ext.

(** How many were signed, and how many were not. *)
Fixpoint resign_each (apk_dir rsa_priv_path : string) (names : list string) (re_signed errors : Z) : repo_prog (Z * Z) :=
  match names with
  | [] => Ret (re_signed, errors)
  | name :: rest =>
      if bool_decide (extension name = Some "apk"%string) then
        let! r := resign_apk L (apk_dir ++ "/" ++ name) rsa_priv_path in
        match r with
        | Ok _ => resign_each apk_dir rsa_priv_path rest (re_signed + 1) errors
        | Err _ => resign_each apk_dir rsa_priv_path rest re_signed (errors + 1)
        end
      else resign_each apk_dir rsa_priv_path rest re_signed errors
  end.
Definition resign_all (apk_dir rsa_priv_path : string) : repo_prog (Z * Z) :=
  let! entries := trigger (FsReadDir apk_dir) in
  resign_each apk_dir rsa_priv_path (entry_names entries) 0 0.

(** The configured key, the environment's or a default. *)
Definition rsa_key_path (config : sync_config) : repo_prog string :=
  if String.eqb (sc_apk_rsa_key config) "" then
    let! v := trigger (EnvVar "LPA_APK_RSA_PRIVATE_KEY_PATH") in
    Ret (default "/etc/patch-manager/ca/lpa-repo-rsa.pem"%string v)
  else Ret (sc_apk_rsa_key config).

(** The task that [regenerate_metadata] starts; failures are only logged. *)
Definition regenerate_metadata (config : sync_config) : repo_prog unit :=
  let repo_dir := sc_repo_dir config in
  regenerate_all_apt_metadata L repo_dir ;;
  generate_dnf_metadata L repo_dir ;;
  sign_if_exists (repo_dir ++ "/dnf/" ++ DNF_CODENAME ++ "/repodata/repomd.xml")
                 (repo_dir ++ "/dnf/" ++ DNF_CODENAME ++ "/repodata/repomd.xml.asc") true ;;
  let! rsa_priv_path := rsa_key_path config in
  resign_all (repo_dir ++ "/apk/" ++ APK_CODENAME ++ "/x86_64") rsa_priv_path ;;
  generate_apk_metadata L repo_dir (Some rsa_priv_path) ;;
  generate_pacman_metadata L repo_dir ;;
  sign_if_exists (repo_dir ++ "/pacman/x86_64/lpa-repo.db.tar.zst") (repo_dir ++ "/pacman/x86_64/lpa-repo.db.tar.zst.sig") false ;;
  sign_if_exists (repo_dir ++ "/pacman/x86_64/lpa-repo.db") (repo_dir ++ "/pacman/x86_64/lpa-repo.db.sig") false.

(** ** Deleting packages *)

Definition resolve_package_path (repo_dir distro filename : string) : option string :=
  if String.eqb distro "apt" then Some (repo_dir ++ "/apt/pool/" ++ filename)%string
  else if String.eqb distro "dnf" then Some (repo_dir ++ "/dnf/" ++ DNF_CODENAME ++ "/Packages/" ++ filename)%string
  else if String.eqb distro "apk" then Some (repo_dir ++ "/apk/" ++ APK_CODENAME ++ "/x86_64/" ++ filename)%string
  else if String.eqb distro "pacman" then Some (repo_dir ++ "/pacman/x86_64/" ++ filename)%string
  else None.

(** The file first, then the row, whatever became of the file. *)
Definition delete_file (repo_dir : string) (p : synced_package) (errors : list string) : repo_prog (list string) :=
  match resolve_package_path repo_dir (sp_distro p) (sp_filename p) with
  | None => Ret errors
  | Some path =>
      let! r := trigger (FsRemoveFile path) in
      Ret (match r with
           | Ok _ | Err NotFound => errors
           | Err (IoError e) => errors ++ ["Failed to delete " ++ sp_filename p ++ ": " ++ e]%string
           end)
  end.

Fixpoint delete_rows (repo_dir : string) (packages : list (uuid * synced_package)) (deleted_count : Z) (errors : list string)
    : repo_prog (Z * list string) :=
  match packages with
  | [] => Ret (deleted_count, errors)
  | (id, p) :: rest =>
      let! errors := delete_file repo_dir p errors in
      let! r := trigger (RepoSql (DelPackage id)) in
      match r with
      | Ok _ => delete_rows repo_dir rest (deleted_count + 1) errors
      | Err e => delete_rows repo_dir rest deleted_count (errors ++ ["DB delete failed for " ++ sp_filename p ++ ": " ++ e]%string)
      end
  end.

Definition note_error (prefix : string) (r : result unit string) (errors : list string) : list string :=
  match r with Ok _ => errors | Err e => errors ++ [prefix ++ e]%string end.

(** The indexes of the other formats after a deletion. *)
Definition refresh_others (config : sync_config) (errors : list string) : repo_prog (list string) :=
  let repo_dir := sc_repo_dir config in
  let! r := generate_dnf_metadata L repo_dir in
  let errors := note_error "dnf metadata regen: " r errors in
  sign_if_exists (repo_dir ++ "/dnf/" ++ DNF_CODENAME ++ "/repodata/repomd.xml")
                 (repo_dir ++ "/dnf/" ++ DNF_CODENAME ++ "/repodata/repomd.xml.asc") true ;;
  let! key := rsa_key_path config in
  let! r := generate_apk_metadata L repo_dir (Some key) in
  let errors := note_error "apk metadata regen: " r errors in
  let! r := generate_pacman_metadata L repo_dir in
  let errors := note_error "pacman metadata regen: " r errors in
  sign_if_exists (repo_dir ++ "/pacman/x86_64/lpa-repo.db.tar.zst") (repo_dir ++ "/pacman/x86_64/lpa-repo.db.tar.zst.sig") false ;;
  sign_if_exists (repo_dir ++ "/pacman/x86_64/lpa-repo.db") (repo_dir ++ "/pacman/x86_64/lpa-repo.db.sig") false ;;
  Ret errors.

(** The indexes of all formats, made again after a deletion. *)
Definition refresh_indexes (config : sync_config) (errors : list string) : repo_prog (list string) :=
  let! apt_errors := regenerate_all_apt_metadata L (sc_repo_dir config) in
  refresh_others config
    (errors ++ ((fun '(suite, error) => "apt metadata regen for " ++ suite ++ ": " ++ error)%string <$> apt_errors)).

Definition delete_packages (config : sync_config) (package_ids : list uuid) : repo_prog (result (Z * list string) api_err) :=
  match package_ids with
  | [] => Ret (Err (ApiErr 400 "bad_request"))
  | _ =>
      or_internal (trigger (RepoSql (SelPackagesIn package_ids))) (fun packages =>
        match packages with
        | [] => Ret (Err (ApiErr 404 "not_found"))
        | _ =>
            let! d := delete_rows (sc_repo_dir config) packages 0 [] in
            let '(deleted_count, errors) := d in
            let! errors := refresh_indexes config errors in
            Ret (Ok (deleted_count, errors))
        end)
  end.

(** ** Disk usage *)

(** [u64] addition, which wraps around in a release build. *)
Definition add_u64 (a b : Z) : Z := (a + b) mod 2 ^ 64.

(** One directory: what lies in it is pushed or counted. *)
Fixpoint scan_entries (dir : string) (entries : list (string * bool)) (stack : list string) (total : Z) : repo_prog (list string * Z) :=
  match entries with
  | [] => Ret (stack, total)
  | (name, is_dir) :: rest =>
      let path := (dir ++ "/" ++ name)%string in
      if is_dir then scan_entries dir rest (path :: stack) total
      else
        let! len := trigger (FsLen path) in
        scan_entries dir rest stack (match len with Ok n => add_u64 total n | Err _ => total end)
  end.

(** The loop over the stack; nothing if the fuel does not suffice. *)
Fixpoint scan_stack (fuel : nat) (stack : list string) (total : Z) : repo_prog (option Z) :=
  match stack with
  | [] => Ret (Some total)
  | dir :: stack =>
      match fuel with
      | O => Ret None
      | S fuel =>
          let! reader := trigger (FsReadDir dir) in
          match reader with
          | Err _ => scan_stack fuel stack total
          | Ok entries =>
              let! r := scan_entries dir entries stack total in
              scan_stack fuel r.1 r.2
          end
      end
  end.
Definition scan_dir_size (fuel : nat) (path : string) : repo_prog (option Z) := scan_stack fuel [path] 0.

(** The sizes per format, their sum, and the rows. *)
Fixpoint scan_formats (fuel : nat) (repo_dir : string) (formats : list string) (per_distro : btree string Z) (total_disk : Z)
    : repo_prog (option (btree string Z * Z)) :=
  match formats with
  | [] => Ret (Some (per_distro, total_disk))
  | distro :: rest =>
      let! size := scan_dir_size fuel (repo_dir ++ "/" ++ distro) in
      match size with
      | None => Ret None
      | Some size => scan_formats fuel repo_dir rest (bt_insert distro size per_distro) (add_u64 total_disk size)
      end
  end.

Definition disk_usage (fuel : nat) (config : sync_config)
    : repo_prog (result (option (btree string Z * Z) * list (uuid * synced_package)) api_err) :=
  or_internal (trigger (RepoSql SelPackages)) (fun db_packages =>
    let! sizes := scan_formats fuel (sc_repo_dir config) ["apt"; "dnf"; "apk"; "pacman"]%string [] 0 in
    Ret (Ok (sizes, db_packages))).

(** ** The switch of the automatic sync *)

Definition get_auto_sync (auth : auth_user) : repo_prog (result bool api_err) :=
  if negb (is_admin (au_role auth)) then Ret (Err repo_forbidden_role)
  else
    let! enabled := trigger (RepoSql SelAutoSync) in
    Ret (Ok (auto_sync_on enabled)).

Definition set_auto_sync (auth : auth_user) (auto_sync_enabled : bool) : repo_prog (result bool api_err) :=
  if negb (is_admin (au_role auth)) then Ret (Err repo_forbidden_role)
  else
    or_internal (trigger (RepoSql (UpsAutoSync (if auto_sync_enabled then "true" else "false")))) (fun _ =>
      trigger (LogConfigChanged (au_id auth) (au_username auth) "package_sync_auto_enabled" auto_sync_enabled) ;;
      Ret (Ok auto_sync_enabled)).
End Admin.
