(* ===== verification/IndexFlow.v ===== *)
(** * The indexes and the packages on the disk: theorems

    After a sync, a deletion or a regeneration the index of every apt suite says
    exactly what the pool holds; the generators write their own files only. *)

From S2P Require Import Prelude Ordering Rbac Buffers ApkSign PkgFormats Conc RepoWorld RepoIndex RepoSync RepoWrites RepoFlow RepoAdmin.

(** ** Paths below the repository *)

Definition below (repo_dir : string) (rels : list string) : list string := (fun r => (repo_dir ++ r)%string) <$> rels.

Lemma elem_below repo_dir rels r : (repo_dir ++ r)%string ∈ below repo_dir rels <-> r ∈ rels.
Proof.
  unfold below. rewrite list_elem_of_fmap. split; [|by exists r]. intros (r' & Heq & Hin). by apply str_app_inj in Heq as ->.
Qed.

Lemma ancestors_prefix p q : q ∈ ancestors p -> exists t, p = (q ++ t)%string.
Proof.
  assert (forall p acc, q ∈ ancestors_from acc p -> exists t, (str_rev acc ++ p)%string = (q ++ t)%string) as H; [|apply H].
  intros s. induction s as [|c s IH]; intros acc; cbn [ancestors_from].
  - rewrite list_elem_of_singleton. intros ->. by exists ""%string.
  - rewrite elem_of_app. intros [Hin|Hin].
    + destruct (_ && _); [|by apply not_elem_of_nil in Hin]. apply list_elem_of_singleton in Hin as ->. by eexists.
    + destruct (IH _ Hin) as [t Ht]. exists t. rewrite <- Ht, str_rev_cons, str_app_assoc. done.
Qed.

Lemma not_ancestor repo_dir r d : starts_with d r = false -> (repo_dir ++ d)%string ∉ ancestors (repo_dir ++ r).
Proof.
  intros Hd Hin. apply ancestors_prefix in Hin as [t Ht]. rewrite str_app_assoc in Ht. apply str_app_inj in Ht as ->.
  unfold starts_with in Hd. by rewrite (proj2 (strip_prefix_app d _ t) eq_refl) in Hd.
Qed.

(** What is written outside the pool. *)
Definition apt_rels (suite : string) : list string :=
  ["/apt/dists/" ++ suite ++ "/main/binary-amd64/Packages"; "/apt/dists/" ++ suite ++ "/main/binary-amd64/Packages.gz";
   "/apt/dists/" ++ suite ++ "/Release"; "/apt/dists/" ++ suite ++ "/InRelease"; "/apt/dists/" ++ suite ++ "/Release.gpg"]%string.
Definition dnf_rels : list string :=
  ["/dnf/el9/repodata/primary.xml.gz"; "/dnf/el9/repodata/filelists.xml.gz"; "/dnf/el9/repodata/repomd.xml"; "/dnf/el9/repodata/repomd.xml.asc"]%string.
Definition apk_rels : list string := ["/apk/v3.21/x86_64/APKINDEX.tar.gz"]%string.
Definition pacman_rels : list string :=
  ["/pacman/x86_64/lpa-repo.db.tar.zst"; "/pacman/x86_64/lpa-repo.db"; "/pacman/x86_64/lpa-repo.db.tar.zst.sig"; "/pacman/x86_64/lpa-repo.db.sig"]%string.
Definition other_rels : list string := dnf_rels ++ apk_rels ++ pacman_rels.
Definition index_rels : list string := concat (apt_rels <$> APT_SUITES) ++ other_rels.

Definition binary_rel (suite : string) : string := ("/apt/dists/" ++ suite ++ "/main/binary-amd64")%string.
Definition other_dirs : list string := ["/dnf/el9/repodata"; "/apk/v3.21/x86_64"]%string.

Lemma apt_outputs_below repo_dir suite : apt_outputs repo_dir suite = below repo_dir (apt_rels suite).
Proof. unfold apt_outputs, apt_binary, apt_dists, below, apt_rels. by rewrite !fmap_cons, !str_app_assoc. Qed.
Lemma apt_binary_below repo_dir suite : apt_binary repo_dir suite = (repo_dir ++ binary_rel suite)%string.
Proof. unfold apt_binary, apt_dists, binary_rel. by rewrite !str_app_assoc. Qed.

(** The files below [repo_dir] that a program writes, and the directories it makes. *)
Abbreviation writes_below repo_dir rels dirs := (issues (writes_only (below repo_dir rels) (below repo_dir dirs))).

Lemma writes_below_incl {A} repo_dir rels rels' dirs dirs' (q : repo_prog A) :
  (forall r, r ∈ rels -> r ∈ rels') -> (forall r, r ∈ dirs -> r ∈ dirs') ->
  writes_below repo_dir rels dirs q -> writes_below repo_dir rels' dirs' q.
Proof.
  intros Hr Hd. apply issues_mono. intros X e. apply writes_only_incl; intros p; unfold below; rewrite !list_elem_of_fmap; naive_solver.
Qed.

Section IndexFlow.
Context (L : libraries).

Lemma suite_writes_below repo_dir suite : writes_below repo_dir (apt_rels suite) [binary_rel suite] (generate_apt_metadata L repo_dir suite).
Proof. rewrite <- apt_outputs_below. unfold below. cbn [fmap list_fmap]. rewrite <- apt_binary_below. apply apt_writes. Qed.

Lemma suites_writes_below repo_dir suites :
  writes_below repo_dir (concat (apt_rels <$> suites)) (binary_rel <$> suites) (regenerate_suites L repo_dir suites).
Proof.
  induction suites as [|s suites IH]; cbn [regenerate_suites]; [done|]. apply issues_bind; [|intros r; apply issues_bind; [|done]].
  - eapply writes_below_incl; [| |apply suite_writes_below]; set_solver.
  - eapply writes_below_incl; [| |apply IH]; set_solver.
Qed.

Lemma other_writes_below repo_dir {A} rels dirs (q : repo_prog A) :
  writes_below repo_dir rels dirs q -> forallb (fun r => bool_decide (r ∈ other_rels)) rels = true ->
  forallb (fun r => bool_decide (r ∈ other_dirs)) dirs = true -> writes_below repo_dir other_rels other_dirs q.
Proof.
  intros Hq Hr Hd. eapply writes_below_incl; [| |exact Hq]; intros r Hin.
  - rewrite forallb_forall in Hr. by eapply bool_decide_eq_true, Hr, list_elem_of_In.
  - rewrite forallb_forall in Hd. by eapply bool_decide_eq_true, Hd, list_elem_of_In.
Qed.

Lemma dnf_below repo_dir : writes_below repo_dir other_rels other_dirs (generate_dnf_metadata L repo_dir).
Proof. apply (other_writes_below repo_dir (take 3 dnf_rels) ["/dnf/el9/repodata"%string]); [apply dnf_writes|reflexivity..]. Qed.
Lemma apk_below repo_dir key : writes_below repo_dir other_rels other_dirs (generate_apk_metadata L repo_dir key).
Proof.
  apply (other_writes_below repo_dir apk_rels ["/apk/v3.21/x86_64"%string]); [|reflexivity..].
  pose proof (apk_writes L repo_dir key) as H. unfold apk_repo in H. rewrite !str_app_assoc in H. exact H.
Qed.
Lemma pacman_below repo_dir : writes_below repo_dir other_rels other_dirs (generate_pacman_metadata L repo_dir).
Proof. apply (other_writes_below repo_dir (take 2 pacman_rels) []); [apply pacman_writes|reflexivity..]. Qed.
Lemma sign_below repo_dir path rel armor : bool_decide (rel ∈ other_rels) = true ->
  writes_below repo_dir other_rels other_dirs (sign_if_exists path (repo_dir ++ rel) armor).
Proof.
  intros Hr. apply (other_writes_below repo_dir [rel] []); [apply sign_writes|simpl; by rewrite Hr|done].
Qed.

(** ** The index of a suite and the pool *)

(** A readable package of the pool that belongs to the suite. *)
Definition pool_deb (repo_dir suite : string) (w : repo_world) (e : string * vec_u8 * deb_control) : Prop :=
  exists name, e.1.1 = (apt_pool repo_dir ++ "/" ++ name)%string /\ name <> ""%string /\ contains_char "/" name = false /\
    apt_pool repo_dir ∈ rw_dirs w /\ apt_file suite name = true /\
    rw_files w !! e.1.1 = Some e.1.2 /\ deb_of L (Ok e.1.2) = Ok e.2.

(** Packages, Packages.gz and Release are made of one text, and the text has a
    stanza for each package of the pool and for nothing else. *)
Definition apt_consistent (repo_dir suite : string) (w : repo_world) : Prop :=
  exists entries,
    apt_published L repo_dir suite
      (concat_str ((fun e => apt_stanza e.1.1 e.2 (compute_data_checksums L e.1.2)) <$> entries)) w /\
    forall e, e ∈ entries <-> pool_deb repo_dir suite w e.

Lemma elem_scanned dir f w p : p ∈ scanned dir f w <->
  dir ∈ rw_dirs w /\ exists name b, (name, b) ∈ listing dir w /\ f name = true /\ p = (dir ++ "/" ++ name)%string.
Proof.
  unfold scanned. case_bool_decide as Hd; [|split; [by intros ?%not_elem_of_nil|by intros [? _]]].
  rewrite elem_of_sort, list_elem_of_fmap. split.
  - intros (name & -> & Hin). apply list_elem_of_In, filter_In in Hin as [Hin Hf].
    apply list_elem_of_In, list_elem_of_fmap in Hin as ([n b] & -> & Hin). split; [done|]. by exists n, b.
  - intros (_ & name & b & Hin & Hf & ->). exists name. split; [done|]. apply list_elem_of_In, filter_In. split; [|done].
    apply list_elem_of_In, list_elem_of_fmap. by exists (name, b).
Qed.

Lemma listing_name dir w n b : (n, b) ∈ listing dir w -> n <> ""%string /\ contains_char "/" n = false.
Proof.
  unfold listing. rewrite elem_of_app, !list_elem_of_omap. intros [(q & _ & Hq)|(q & _ & Hq)].
  - destruct (child dir q.1) eqn:Hc; simplify_eq/=. by apply child_spec in Hc as (_ & ? & ?).
  - destruct (child dir q) eqn:Hc; simplify_eq/=. by apply child_spec in Hc as (_ & ? & ?).
Qed.

Lemma elem_pool repo_dir suite w e :
  e ∈ parsed_files (deb_of L) w (scanned (apt_pool repo_dir) (apt_file suite) w) <-> pool_deb repo_dir suite w e.
Proof.
  unfold parsed_files. rewrite list_elem_of_omap. destruct e as [[p d] c]. split.
  - intros (q & Hq & He). apply elem_scanned in Hq as (Hdir & name & b & Hin & Hf & ->).
    destruct (rw_files w !! _) as [d'|] eqn:Hd; [|done]. cbn [mbind option_bind] in He.
    destruct (deb_of L (Ok d')) as [c'|] eqn:Hc; [|done]. cbn [ok mbind option_bind] in He. injection He as <- <- <-.
    apply listing_name in Hin as [??]. by exists name.
  - intros (name & Hp & Hne & Hs & Hdir & Hf & Hd & Hc). cbn [fst snd] in *. exists p. split.
    + apply elem_scanned. split; [done|]. exists name, false. split_and!; [|done|done].
      apply listing_files. exists p, d. split; [done|]. by apply child_spec.
    + rewrite Hd. cbn [mbind option_bind]. by rewrite Hc.
Qed.

(** Writing elsewhere keeps an index in step with the pool. *)
Definition off_pool (rels dirs : list string) : bool :=
  forallb (fun r => negb (starts_with "/apt/pool/" r)) rels && forallb (fun d => negb (starts_with "/apt/pool" d)) dirs.
Definition clear_of (suite : string) (rels : list string) : bool :=
  forallb (fun r => negb (bool_decide (r ∈ apt_rels suite))) rels.

Lemma pool_same repo_dir suite rels w w' : off_pool rels [] = true ->
  (forall p, p ∉ below repo_dir rels -> rw_files w' !! p = rw_files w !! p) ->
  (apt_pool repo_dir ∈ rw_dirs w' <-> apt_pool repo_dir ∈ rw_dirs w) ->
  forall e, pool_deb repo_dir suite w e <-> pool_deb repo_dir suite w' e.
Proof.
  unfold off_pool. rewrite andb_true_iff, !forallb_forall. intros [Hr _] Hk Hdir [[p d] c].
  assert (forall name, rw_files w' !! (apt_pool repo_dir ++ "/" ++ name)%string = rw_files w !! (apt_pool repo_dir ++ "/" ++ name)%string) as Hf.
  { intros name. apply Hk. unfold apt_pool. rewrite str_app_assoc, elem_below.
    intros Hin%list_elem_of_In%Hr%negb_true_iff. unfold starts_with in Hin.
    change ("/apt/pool" ++ "/" ++ name)%string with ("/apt/pool/" ++ name)%string in Hin.
    by rewrite (proj2 (strip_prefix_app "/apt/pool/" _ name) eq_refl) in Hin. }
  unfold pool_deb. cbn [fst snd]. split; intros (name & Hp & ? & ? & ? & ? & Hx & ?); exists name; subst p;
    rewrite Hf in *; naive_solver.
Qed.

Lemma pool_kept repo_dir suite rels dirs w w' : off_pool rels dirs = true ->
  kept_outside (below repo_dir rels) (below repo_dir dirs) w w' ->
  forall e, pool_deb repo_dir suite w e <-> pool_deb repo_dir suite w' e.
Proof.
  unfold off_pool. rewrite andb_true_iff. intros [Hr Hd] Hk. apply (pool_same repo_dir suite rels).
  - unfold off_pool. by rewrite Hr.
  - apply (kept_files _ _ _ _ Hk).
  - rewrite forallb_forall in Hd. apply (kept_no_dirs _ _ _ _ Hk). apply Forall_forall. intros q Hq. unfold below in Hq.
    apply list_elem_of_fmap in Hq as (r & -> & Hin). apply list_elem_of_In, Hd, negb_true_iff in Hin. by apply not_ancestor.
Qed.

Lemma consistent_kept repo_dir suite rels dirs w w' : off_pool rels dirs = true -> clear_of suite rels = true ->
  kept_outside (below repo_dir rels) (below repo_dir dirs) w w' ->
  apt_consistent repo_dir suite w -> apt_consistent repo_dir suite w'.
Proof.
  intros Ho Hc Hk (entries & Hpub & Hent). exists entries. split; [|intros e; rewrite Hent; by eapply pool_kept].
  unfold clear_of in Hc. rewrite forallb_forall in Hc.
  assert (forall r, r ∈ apt_rels suite -> rw_files w' !! (repo_dir ++ r)%string = rw_files w !! (repo_dir ++ r)%string) as Hf.
  { intros r Hin. apply (kept_files _ _ _ _ Hk). rewrite elem_below.
    intros Hx%list_elem_of_In%Hc%negb_true_iff%bool_decide_eq_false. done. }
  destruct Hpub as [H1 H2 [now H3]].
  unfold apt_binary, apt_dists in *. rewrite !str_app_assoc in *.
  split; [..|exists now]; unfold apt_binary, apt_dists; rewrite !str_app_assoc; rewrite Hf; try done; unfold apt_rels; set_solver.
Qed.

Lemma wp_suite repo_dir suite w :
  wp (generate_apt_metadata L repo_dir suite) (fun r w' => r = Ok tt -> apt_consistent repo_dir suite w') w.
Proof.
  eapply wp_mono; [|apply generate_apt_metadata_ok]. intros r w' Hr Hok. destruct (Hr Hok) as (Hpub & Hdirs & Hfiles).
  set (w1 := made_dirs (apt_binary repo_dir suite) w) in *.
  exists (parsed_files (deb_of L) w1 (scanned (apt_pool repo_dir) (apt_file suite) w1)). split.
  - unfold apt_index, apt_text in Hpub. erewrite list_fmap_ext; [exact Hpub|]. by intros i [[p d] c] _.
  - intros e. rewrite elem_pool. apply (pool_same repo_dir suite (apt_rels suite)); [done|by rewrite <- apt_outputs_below|by rewrite Hdirs].
Qed.

(** The suite's index agrees with the pool, or is among those that were reported. *)
Definition up_to_date (repo_dir : string) (errors : list (string * string)) (w : repo_world) (suite : string) : Prop :=
  (suite ∈ errors.*1) \/ apt_consistent repo_dir suite w.

(** Generating the indexes of [suites] keeps that of another suite. *)
Lemma suites_keep repo_dir s suites w w' :
  (forall s', s' ∈ suites -> clear_of s (apt_rels s') = true) ->
  kept_outside (below repo_dir (concat (apt_rels <$> suites))) (below repo_dir (binary_rel <$> suites)) w w' ->
  apt_consistent repo_dir s w -> apt_consistent repo_dir s w'.
Proof.
  intros Hclear Hk. eapply consistent_kept; [| |exact Hk].
  - unfold off_pool. apply andb_true_iff. split; apply forallb_forall; intros p Hp%list_elem_of_In.
    + apply elem_of_concat in Hp as (l & Hl & Hp). apply list_elem_of_fmap in Hl as (s' & -> & _).
      unfold apt_rels in Hp. repeat (apply elem_of_cons in Hp as [->|Hp]; [reflexivity|]). by apply not_elem_of_nil in Hp.
    + apply list_elem_of_fmap in Hp as (s' & -> & _). reflexivity.
  - unfold clear_of. apply forallb_forall. intros p Hp%list_elem_of_In.
    apply elem_of_concat in Hp as (l & Hl & Hp). apply list_elem_of_fmap in Hl as (s' & -> & Hs').
    apply Hclear in Hs'. unfold clear_of in Hs'. rewrite forallb_forall in Hs'. by apply Hs', list_elem_of_In.
Qed.

(** All suites, one after the other; they do not get in each other's way. *)
Lemma wp_suites repo_dir suites w : NoDup suites ->
  (forall s, s ∈ suites -> forall s', s' ∈ suites -> s <> s' -> clear_of s (apt_rels s') = true) ->
  wp (regenerate_suites L repo_dir suites) (fun errors w' =>
    forall suite, suite ∈ suites -> up_to_date repo_dir errors w' suite) w.
Proof.
  intros Hnd. revert w. induction Hnd as [|s suites Hs Hnd IH]; intros w Hclear; cbn [regenerate_suites].
  { simpl. by intros s ?%not_elem_of_nil. }
  apply wp_bind. eapply wp_mono; [|apply wp_suite]. intros r w1 Hc. apply wp_bind.
  eapply wp_mono; [|apply wp_conj; [apply IH|apply wp_writes_only, suites_writes_below]].
  2:{ intros s1 H1 s2 H2. apply Hclear; by right. }
  intros errors w2 [Hrest Hk]. cbn [wp].
  assert (forall suite, suite ∈ suites -> up_to_date repo_dir (match r with Ok _ => errors | Err e => (s, e) :: errors end) w2 suite) as Hrest'.
  { intros suite Hin. destruct (Hrest suite Hin) as [He|Hok]; [left|by right]. destruct r; [done|]. rewrite fmap_cons. by right. }
  intros suite [->|Hin]%elem_of_cons; [|by apply Hrest'].
  destruct r as [[]|e]; [|left; rewrite fmap_cons; by left]. right. eapply suites_keep; [|exact Hk|by apply Hc].
  intros s' Hs'. apply Hclear; [by left|by right|by intros ->].
Qed.

(** Every index agrees with the pool. *)
Definition all_consistent (repo_dir : string) (w : repo_world) : Prop :=
  forall suite, suite ∈ APT_SUITES -> apt_consistent repo_dir suite w.

Lemma wp_regenerate_all repo_dir w :
  wp (regenerate_all_apt_metadata L repo_dir) (fun errors w' =>
    forall suite, suite ∈ APT_SUITES -> up_to_date repo_dir errors w' suite) w.
Proof.
  apply wp_suites; [by apply (bool_decide_unpack _); vm_compute|].
  assert (forallb (fun s => forallb (fun s' => String.eqb s s' || clear_of s (apt_rels s')) APT_SUITES) APT_SUITES = true) as H
    by (vm_compute; reflexivity).
  intros s Hs s' Hs' Hne. rewrite forallb_forall in H. apply list_elem_of_In, H in Hs. rewrite forallb_forall in Hs.
  apply list_elem_of_In, Hs in Hs'. apply orb_true_iff in Hs' as [Heq|?]; [|done]. by apply String.eqb_eq in Heq.
Qed.

Lemma all_consistent_kept repo_dir w w' :
  kept_outside (below repo_dir other_rels) (below repo_dir other_dirs) w w' ->
  all_consistent repo_dir w -> all_consistent repo_dir w'.
Proof.
  intros Hk Hc suite Hs. apply (consistent_kept repo_dir suite other_rels other_dirs w); [reflexivity| |exact Hk|by apply Hc].
  assert (forallb (fun s => clear_of s other_rels) APT_SUITES = true) as H by (vm_compute; reflexivity).
  rewrite forallb_forall in H. by apply H, list_elem_of_In.
Qed.

(** ** Package files are not touched by the generators *)

Lemma starts_with_long p s t : (String.length p <= String.length s)%nat -> starts_with p (s ++ t) = starts_with p s.
Proof.
  unfold starts_with. revert s. induction p as [|c p IH]; intros [|c' s] Hl; simpl in Hl; try lia; [done..|].
  change (String c' s ++ t)%string with (String c' (s ++ t)). cbn [strip_prefix]. destruct (Ascii.eqb c c'); [|done].
  apply IH. lia.
Qed.

Lemma ends_with_long p a s : (String.length p <= String.length s)%nat -> ends_with p (a ++ s) = ends_with p s.
Proof.
  intros Hl. unfold ends_with. rewrite str_rev_concat. apply starts_with_long. by rewrite !str_length_rev.
Qed.

(** No index has the name of a package. *)
Lemma index_not_package repo_dir r : r ∈ index_rels -> is_package_file (repo_dir ++ r) = false.
Proof.
  assert (forallb (fun r => (12 <=? String.length r)%nat && negb (is_package_file r)) index_rels = true) as H by (vm_compute; reflexivity).
  rewrite forallb_forall in H. intros Hr%list_elem_of_In%H. apply andb_true_iff in Hr as [Hl Hp].
  apply Nat.leb_le in Hl. apply negb_true_iff in Hp. unfold is_package_file in *.
  rewrite !ends_with_long by (simpl; lia). done.
Qed.

Lemma package_kept repo_dir rels dirs w w' p : (forall r, r ∈ rels -> r ∈ index_rels) ->
  kept_outside (below repo_dir rels) (below repo_dir dirs) w w' ->
  is_package_file p = true -> rw_files w' !! p = rw_files w !! p.
Proof.
  intros Hrels Hk Hp. apply (kept_files _ _ _ _ Hk). intros (r & -> & Hr)%list_elem_of_fmap.
  by rewrite index_not_package in Hp by auto.
Qed.

(** ** Deleting packages *)

#[local] Hint Resolve dnf_below apk_below pacman_below : issues.
#[local] Hint Extern 2 (issues _ (sign_if_exists _ _ _)) => apply sign_below; reflexivity : issues.

Lemma others_below config errors : writes_below (sc_repo_dir config) other_rels other_dirs (refresh_others L config errors).
Proof. unfold refresh_others, rsa_key_path. issues_auto. Qed.

(** Errors are only added. *)
Lemma others_add config errors w :
  wp (refresh_others L config errors) (fun es _ => exists more, es = errors ++ more) w.
Proof.
  assert (forall prefix r es, (exists more, es = errors ++ more) -> exists more, note_error prefix r es = errors ++ more) as Hnote.
  { intros prefix [u|e] es [more ->]; [by exists more|]. exists (more ++ [prefix ++ e]%string). cbn [note_error]. by rewrite (assoc_L (++)). }
  unfold refresh_others. cbv zeta. do 7 (apply wp_bind, wp_true; intros ? ?).
  cbn [wp]. do 3 apply Hnote. exists []. by rewrite app_nil_r.
Qed.

Lemma wp_refresh config errors w :
  wp (refresh_indexes L config errors) (fun es w' => (es = [] -> errors = [] /\ all_consistent (sc_repo_dir config) w') /\
    rw_packages w' = rw_packages w /\ forall p, is_package_file p = true -> rw_files w' !! p = rw_files w !! p) w.
Proof.
  unfold refresh_indexes. apply wp_bind.
  eapply wp_mono; [|apply wp_conj; [apply wp_regenerate_all|apply wp_writes_only, suites_writes_below]].
  intros apt_errors w1 [Hc Hk1]. eapply wp_mono; [|apply wp_conj; [eapply wp_writes_only, others_below|apply others_add]].
  intros es w2 [Hk2 [more ->]]. cbv beta in Hk2. split; [|split].
  - intros [[He Ha]%app_nil _]%app_nil. apply fmap_nil_inv in Ha as ->. split; [done|].
    eapply all_consistent_kept; [exact Hk2|]. intros suite Hs. by destruct (Hc suite Hs) as [Hin%not_elem_of_nil|?].
  - by rewrite (kept_packages _ _ _ _ Hk2), (kept_packages _ _ _ _ Hk1).
  - intros p Hp. trans (rw_files w1 !! p).
    + eapply package_kept; [|exact Hk2|done]. intros r Hr. apply elem_of_app. by right.
    + eapply package_kept; [|exact Hk1|done]. intros r Hr. apply elem_of_app. by left.
Qed.

Definition path_of (repo_dir : string) (p : synced_package) : option string :=
  resolve_package_path repo_dir (sp_distro p) (sp_filename p).

Lemma with_files_missing p w : rw_files w !! p = None -> with_files (delete p) w = w.
Proof. intros Hp. destruct w as [files dirs packages log auto]. unfold with_files. simpl in *. by rewrite delete_id. Qed.

(** The file is gone, or it is there and the failure is noted. *)
Lemma wp_delete_file repo_dir p errors w :
  wp (delete_file repo_dir p errors) (fun r w' =>
    (r = errors /\ w' = match path_of repo_dir p with Some path => with_files (delete path) w | None => w end) \/
    (exists e, r = errors ++ [e]) /\ w' = w) w.
Proof.
  unfold delete_file. fold (path_of repo_dir p). destruct (path_of repo_dir p) as [path|]; [|by left].
  intros x w' Hx. cbn [exec repo_sem] in Hx. destruct (rw_files w !! path) as [d|] eqn:Hp.
  - destruct x as [u|[|e]]; [by left|done|right]. subst. split; [by eexists|done].
  - destruct Hx as [-> ->]. left. split; [done|]. by rewrite with_files_missing.
Qed.

Lemma wp_delete_rows repo_dir rows n errors w :
  wp (delete_rows repo_dir rows n errors) (fun r w' => exists es, r = (n + Z.of_nat (length rows), errors ++ es) /\
    rw_dirs w' = rw_dirs w /\
    (forall id, rw_packages w' !! id = if bool_decide (id ∈ rows.*1) then None else rw_packages w !! id) /\
    (forall p, rw_files w' !! p = rw_files w !! p \/ Some p ∈ path_of repo_dir <$> rows.*2 /\ rw_files w' !! p = None) /\
    (es = [] -> forall p, Some p ∈ path_of repo_dir <$> rows.*2 -> rw_files w' !! p = None)) w.
Proof.
  revert n errors w. induction rows as [|[id p] rows IH]; intros n errors w; cbn [delete_rows].
  { simpl. exists []. split_and!; [f_equal; [lia|by rewrite app_nil_r]|done|done|by left|by intros _ p ?%not_elem_of_nil]. }
  apply wp_bind. eapply wp_mono; [|apply wp_delete_file]. intros r w1 H1.
  intros x w2 [-> ->]. eapply wp_mono; [|apply IH]. intros r' w3 (es & -> & Hd & Hp & Hf & Hn). rewrite !fmap_cons. cbn [fst snd].
  exists (drop (length errors) r ++ es).
  assert (r = errors ++ drop (length errors) r) as Hr.
  { destruct H1 as [[-> _]|[[e ->] _]]; [by rewrite drop_all, app_nil_r|by rewrite drop_app_length]. }
  assert (rw_dirs w1 = rw_dirs w /\ rw_packages w1 = rw_packages w) as [Hd1 Hp1]
    by (destruct H1 as [[_ ->]|[_ ->]]; [by case_match|done]).
  split_and!.
  - f_equal; [cbn [length]; lia|]. by rewrite (assoc_L (++)), <- Hr.
  - rewrite Hd. exact Hd1.
  - intros id'. rewrite Hp. simpl. rewrite Hp1.
    destruct (decide (id' = id)) as [->|Hne].
    + rewrite (bool_decide_true (id ∈ id :: _)) by left. case_bool_decide; [done|]. by rewrite lookup_delete_eq.
    + rewrite lookup_delete_ne by done. rewrite (bool_decide_ext (id' ∈ id :: rows.*1) (id' ∈ rows.*1)); [by case_match|].
      rewrite elem_of_cons. naive_solver.
  - intros q. destruct (Hf q) as [->|[Hin ->]]; [|right; split; [by right|done]]. cbn [with_packages rw_files].
    destruct H1 as [[_ ->]|[_ ->]]; [|by left]. destruct (path_of repo_dir p) as [path|]; [|by left].
    destruct (decide (q = path)) as [->|Hne]; [right; split; [by left|apply lookup_delete_eq]|left; apply lookup_delete_ne; done].
  - intros [Hdr ->]%app_nil q [Hq|Hin]%elem_of_cons; [|by apply Hn].
    destruct H1 as [[_ Hw1]|[[e He] _]]; [|by rewrite He, drop_app_length in Hdr]. rewrite <- Hq in Hw1.
    destruct (Hf q) as [->|[_ ->]]; [|done]. cbn [with_packages rw_files]. rewrite Hw1. apply lookup_delete_eq.
Qed.

(** The rows of the request. *)
Definition selected (ids : list uuid) (w : repo_world) : list (uuid * synced_package) :=
  List.filter (fun kv => bool_decide (kv.1 ∈ ids)) (map_to_list (rw_packages w)).

Lemma elem_selected ids w id p : (id, p) ∈ selected ids w <-> rw_packages w !! id = Some p /\ id ∈ ids.
Proof.
  unfold selected. rewrite list_elem_of_In, filter_In, <- list_elem_of_In, elem_of_map_to_list. simpl.
  by rewrite bool_decide_eq_true.
Qed.

(** Deleting on every branch: no ids and unknown ids are refused and change
    nothing; otherwise exactly the rows asked for are gone, and no package file
    but theirs; and if no error is reported, their files are gone and the indexes
    of all apt suites agree with what is left in the pool. *)
Theorem delete_packages_spec config ids w :
  wp (delete_packages L config ids) (fun r w' =>
    let gone p := Some p ∈ path_of (sc_repo_dir config) <$> (selected ids w).*2 in
    if bool_decide (ids = []) then r = Err (ApiErr 400 "bad_request") /\ w' = w
    else if bool_decide (selected ids w = []) then r = Err (ApiErr 404 "not_found") /\ w' = w
    else exists errors, r = Ok (Z.of_nat (length (selected ids w)), errors) /\
      rw_packages w' = filter (fun kv => kv.1 ∉ ids) (rw_packages w) /\
      (forall p, is_package_file p = true -> rw_files w' !! p = rw_files w !! p \/ gone p /\ rw_files w' !! p = None) /\
      (errors = [] -> (forall p, is_package_file p = true -> gone p -> rw_files w' !! p = None) /\
         all_consistent (sc_repo_dir config) w')) w.
Proof.
  unfold delete_packages. destruct ids as [|id0 ids0]; [done|]. set (ids := id0 :: ids0).
  rewrite (bool_decide_false (ids = [])) by done. unfold or_internal. intros x w0 [-> (rows & Hrows & ->)].
  fold (selected ids w) in Hrows. cbn [bind].
  destruct rows as [|row rows].
  { apply Permutation_nil in Hrows. rewrite bool_decide_true by done. done. }
  rewrite (bool_decide_false (selected ids w = [])) by (intros Hn; rewrite Hn in Hrows; by apply Permutation_nil_r in Hrows).
  set (all_rows := row :: rows) in *. cbn [wp]. apply wp_bind. eapply wp_mono; [|apply wp_delete_rows].
  intros r w1 (es & -> & Hdirs & Hpk & Hfiles & Hgone). apply wp_bind. eapply wp_mono; [|apply wp_refresh].
  intros errors w2 (Hc & Hpk2 & Hf2). cbn [wp]. exists errors.
  assert (forall p, Some p ∈ path_of (sc_repo_dir config) <$> all_rows.*2 <->
            Some p ∈ path_of (sc_repo_dir config) <$> (selected ids w).*2) as Hsame by (intros p; by rewrite Hrows).
  split_and!.
  - by rewrite Hrows.
  - rewrite Hpk2. apply map_eq. intros id. rewrite Hpk, (bool_decide_ext _ (id ∈ (selected ids w).*1)) by (by rewrite Hrows).
    destruct (rw_packages w !! id) as [p|] eqn:Hid.
    + destruct (decide (id ∈ ids)) as [Hin|Hout].
      * rewrite bool_decide_true by (apply list_elem_of_fmap; exists (id, p); split; [done|by apply elem_selected]).
        symmetry. apply map_lookup_filter_None. right. intros p' _ Hn. by apply Hn.
      * rewrite bool_decide_false.
        2:{ intros ([i q] & -> & Hin)%list_elem_of_fmap. by apply elem_selected in Hin as [_ ?]. }
        symmetry. by apply map_lookup_filter_Some.
    + transitivity (@None synced_package); [by case_match|]. symmetry. apply map_lookup_filter_None. by left.
  - intros p Hp. rewrite Hf2 by done. rewrite <- Hsame. apply Hfiles.
  - intros He. destruct (Hc He) as [[_ ->]%app_nil Hcons]. split; [|done].
    intros p Hp Hin. rewrite Hf2 by done. by apply Hgone, Hsame.
Qed.

(** ** After a sync *)

(** What a result says of a suite whose index could not be generated. *)
Definition regeneration_error (suite e : string) : string := ("apt metadata regeneration failed for " ++ suite ++ ": " ++ e)%string.

Lemma fold_reports (errs : list (string * string)) r suite : suite ∈ errs.*1 ->
  exists e, regeneration_error suite e ∈
    sr_errors (foldl (fun r '(suite, error) => add_error ("apt metadata regeneration failed for " ++ suite ++ ": " ++ error)%string r) r errs).
Proof.
  revert r. induction errs as [|[s e] errs IH]; intros r Hs; [by apply not_elem_of_nil in Hs|].
  rewrite fmap_cons in Hs. cbn [fst foldl] in *. apply elem_of_cons in Hs as [->|Hs]; [|by apply IH].
  exists e. match goal with |- context [foldl _ ?r0 errs] => destruct (fold_extends errs r0) as [[more ->] _] end.
  apply elem_of_app. left. apply elem_of_app. right. by apply list_elem_of_singleton.
Qed.

(** C26. A sync that got the list of releases leaves every suite's index in step with
    the pool, but for the suites whose regeneration it reports as failed:
    whatever downloads, imports and writes to the disk failed, for every suite
    Packages, Packages.gz and the sums in Release are made of one text that has a
    stanza for each readable package of the pool that belongs to the suite and for
    nothing else, or the result has an error that names the suite. *)
Theorem sync_publishes_pool cfg key existing w :
  wp (run_sync_cycle L cfg key existing) (fun r w' => forall result_, r = Ok result_ -> forall suite, suite ∈ APT_SUITES ->
    apt_consistent (sc_repo_dir cfg) suite w' \/ exists e, regeneration_error suite e ∈ sr_errors result_) w.
Proof.
  unfold run_sync_cycle, bind_ok. apply wp_bind, wp_true. intros [releases|e] w1; [|done].
  apply wp_bind. unfold sync_releases. apply wp_bind, wp_true. intros r1 w2. apply wp_bind, wp_true. intros r2 w3.
  apply wp_bind. eapply wp_mono; [|apply wp_regenerate_all]. intros errors w4 Hc result_ [= <-] suite Hs.
  destruct (Hc suite Hs) as [Hin|?]; [right; by apply fold_reports|by left].
Qed.

(** The manual sync does what the scheduled one does. *)
Lemma manual_sync_scheduled config id Q w :
  wp (run_manual_sync L config id) Q w <-> wp (run_logged_sync L config id) Q w.
Proof.
  assert (forall A (q : repo_prog A) (P P' : A -> repo_world -> Prop) w, (forall a t, P a t <-> P' a t) -> wp q P w <-> wp q P' w) as Hiff.
  { intros A q P P' v HP. split; apply wp_mono; intros a t; apply HP. }
  unfold run_manual_sync, run_logged_sync, fetch_existing_for_sync, fetch_existing_packages, mark_sync_failed, persist_packages.
  rewrite !wp_bind. apply Hiff. intros rows w1. cbn [wp]. rewrite !wp_bind. apply Hiff. intros [r|e] w2; [|by rewrite !wp_bind].
  rewrite !wp_bind. apply Hiff. intros u w3. unfold bind_ok. rewrite wp_bind.
  destruct (sr_errors r); apply Hiff; by intros [[]|e] w4.
Qed.
End IndexFlow.
