(* ===== verification/RepoTypes.v ===== *)
(** * The table of packages is well typed

    What every row of [repo_packages] satisfies, whatever syncs, deletions and
    regenerations have run, and what the operations on a row rely on. *)

From S2P Require Import Prelude Ordering Buffers ApkSign PkgFormats Conc RepoWorld RepoIndex RepoSync RepoWrites RepoFlow.
From S2P Require Import Rbac RepoAdmin IndexFlow.

(** ** Types of rows *)

(** The formats, with the extension of their files, the suites they serve and
    where their files are. *)
Inductive format_of : string -> string -> list string -> string -> Prop :=
| format_apt : format_of "apt" ".deb" APT_SUITES "/apt/pool/"
| format_dnf : format_of "dnf" ".rpm" [DNF_CODENAME] ("/dnf/" ++ DNF_CODENAME ++ "/Packages/")
| format_apk : format_of "apk" ".apk" [APK_CODENAME] ("/apk/" ++ APK_CODENAME ++ "/x86_64/")
| format_pacman : format_of "pacman" ".pkg.tar.zst" ["x86_64"%string] "/pacman/x86_64/".

(** A row is of one of the formats: its file has the extension, its suite is
    one that is served, and only a package of the manager may lack a checksum. *)
Definition row_typed (p : synced_package) : Prop :=
  exists ext suites dir, format_of (sp_distro p) ext suites dir /\
    (exists stem, sp_filename p = stem ++ ext)%string /\
    (forall c, sp_codename p = Some c -> c ∈ suites) /\
    (sp_sha256 p = None -> is_manager_package (sp_filename p) = true) /\
    forall repo_dir, resolve_package_path repo_dir (sp_distro p) (sp_filename p) = Some (repo_dir ++ dir ++ sp_filename p)%string /\
      local_package_path repo_dir (sp_distro p) (sp_filename p) = Some (repo_dir ++ dir ++ sp_filename p)%string.

Definition table_typed (w : repo_world) : Prop :=
  table_ok (rw_packages w) /\ map_Forall (fun _ p => row_typed p) (rw_packages w).

(** What the worker and the routes do with the repository. *)
Inductive repo_op (L : libraries) (config : sync_config) : repo_prog unit -> Prop :=
| op_tick : repo_op L config (package_sync_tick L config)
| op_manual id : repo_op L config (run_manual_sync L config id ;; Ret tt)
| op_regenerate : repo_op L config (regenerate_metadata L config)
| op_delete ids : repo_op L config (delete_packages L config ids ;; Ret tt)
| op_switch auth on : repo_op L config (set_auto_sync auth on ;; Ret tt).

(** ** What a sync records is well typed *)

Lemma detected_codename_served name distro ext suites dir c :
  format_of distro ext suites dir -> detect_codename_from_filename name distro = Some c -> c ∈ suites.
Proof.
  intros Hf. unfold detect_codename_from_filename. destruct Hf; cbn -[APT_SUITES str_contains to_ascii_lowercase].
  - intros Hc. by apply List.find_some in Hc as [Hc%list_elem_of_In _].
  - case_match; [|done]. intros [= <-]. by apply list_elem_of_singleton.
  - case_match; [|done]. intros [= <-]. by apply list_elem_of_singleton.
  - intros [= <-]. by apply list_elem_of_singleton.
Qed.

Lemma well_recorded_typed p : well_recorded p -> row_typed p.
Proof.
  destruct p as [name version distro codename size sha at_]. intros [Hsha Hd Hc]. simpl in *.
  assert (exists ext suites dir, format_of distro ext suites dir /\ exists stem, name = (stem ++ ext)%string) as
    (ext & suites & dir & Hf & Hname).
  { destruct (detect_distro_suffix _ _ Hd) as [[-> ?]|[[-> ?]|[[-> ?]|[-> ?]]]]; eexists _, _, _; (split; [constructor|done]). }
  exists ext, suites, dir. split; [done|]. split; [done|]. split; [|split].
  - simpl. intros c ->. destruct Hc as [Hc|Hc]; [|done]. by eapply detected_codename_served.
  - simpl. intros ->. by destruct Hsha as [[? [=]]|].
  - intros repo_dir. simpl. clear Hname Hd Hc. destruct Hf; split; unfold resolve_package_path, local_package_path; cbn [String.eqb Ascii.eqb Bool.eqb];
      rewrite ?str_app_assoc; done.
Qed.

Lemma upsert_typed id p w : rw_packages w !! id = None -> row_typed p -> table_typed w ->
  table_typed (with_packages (upsert_package id p) w).
Proof.
  intros Hid Hp [Hok Hall]. split; simpl; [by apply upsert_ok|]. intros i q Hq.
  destruct (upsert_lookup id p _ i q Hid Hq) as [[Hi _]|[-> _]]; [by eapply Hall|done].
Qed.

Lemma table_typed_same w w' : rw_packages w' = rw_packages w -> table_typed w -> table_typed w'.
Proof. unfold table_typed. by intros ->. Qed.

(** Every effect but an upsert keeps the table well typed. *)
Definition no_upsert (X : Type) (e : repo_eff X) : Prop :=
  match e with RepoSql (UpsertPackage _) => False | _ => True end.

Lemma no_upsert_typed X (e : repo_eff X) w x w' : no_upsert X e -> table_typed w -> exec e w x w' -> table_typed w'.
Proof.
  intros He Hw Hx. destruct e; cbn [exec repo_sem] in Hx; unfold touched in Hx; try (destruct q; simpl in He, Hx).
  all: repeat match goal with
    | H : _ /\ _ |- _ => destruct H
    | H : exists _, _ |- _ => destruct H
    | H : _ \/ _ |- _ => destruct H
    | H : match ?x with _ => _ end |- _ => destruct x eqn:?
    end; subst; try done.
  all: destruct Hw as [Hok Hall]; split; simpl.
  - intros i j p q [_ Hi]%lookup_delete_Some [_ Hj]%lookup_delete_Some. by eapply Hok.
  - by apply map_Forall_delete.
Qed.

Section Ops.
Context (L : libraries) (config : sync_config).

Lemma quiet_wp {A} (q : repo_prog A) w : issues no_upsert q -> table_typed w -> wp q (fun _ w' => table_typed w') w.
Proof. intros Hq Hw. eapply issues_invariant; [|exact Hq|exact Hw]. intros X e t x t' He Ht. by apply no_upsert_typed. Qed.

Lemma spares_quiet {A} (q : repo_prog A) p : sparing p q -> issues no_upsert q.
Proof. apply issues_mono. intros X e He. destruct e; try done. Qed.

Lemma persist_typed ps w : Forall row_typed ps -> table_typed w -> wp (persist_packages ps) (fun _ w' => table_typed w') w.
Proof.
  unfold persist_packages. intros Hps. revert w. induction Hps as [|p ps Hp _ IH]; intros w Hw; cbn [for_each]; [done|].
  apply wp_bind. intros x w1 (-> & id & Hid & ->). apply IH. by apply upsert_typed.
Qed.

(** The agent's releases are checked only by what the sync records of them. *)
Lemma releases_recorded key existing releases w :
  wp (sync_releases L config key existing releases) (fun r _ => Forall row_typed (sr_packages r)) w.
Proof.
  change (sync_releases L config key existing releases) with
    (bind (sync_assets L config key existing (assets_of releases) no_result) (finish_cycle L config)).
  apply wp_bind. eapply wp_mono; [|apply wp_assets_adds]. intros r1 w1 A1.
  eapply wp_mono; [|apply wp_finish]. intros r2 w2 [_ A2]. apply Forall_forall. intros p Hp.
  destruct (adds_trans _ _ _ A1 A2 p Hp) as [Hn|Hr]; [by apply not_elem_of_nil in Hn|by apply well_recorded_typed].
Qed.

Lemma logged_sync_typed id w : table_typed w -> wp (run_logged_sync L config id) (fun _ w' => table_typed w') w.
Proof.
  intros Hw. unfold run_logged_sync, fetch_existing_packages. apply wp_bind, wp_bind.
  intros rows w1 Hx. assert (table_typed w1) as Hw1 by (by eapply (no_upsert_typed _ (RepoSql SelExisting))).
  cbn [wp]. apply wp_bind. unfold run_sync_cycle, fetch_github_releases, bind_ok. apply wp_bind, wp_bind. intros r w2 ->.
  destruct r as [releases|e].
  - apply wp_bind. destruct (some_kept (sc_repo_dir config)) as [p Hp].
    eapply wp_mono; [|apply wp_conj; [apply releases_recorded|apply quiet_wp; [|exact Hw1]]].
    2:{ apply (spares_quiet _ p). by apply sparing_releases. }
    intros res w3 [Hres Hw3]. cbn [wp]. apply wp_bind. eapply wp_mono; [|by apply persist_typed].
    intros u w4 Hw4 x w5 Hx2. by eapply (no_upsert_typed _ (RepoSql (UpdSyncLog _ _ _ _ _))).
  - cbn [wp]. apply wp_bind. intros x w3 Hx2. by eapply (no_upsert_typed _ (RepoSql (UpdSyncFailed _ _))).
Qed.

Lemma tick_typed w : table_typed w -> wp (package_sync_tick L config) (fun _ w' => table_typed w') w.
Proof.
  intros Hw. unfold package_sync_tick. intros on w1 Hx.
  assert (table_typed w1) as Hw1 by (by eapply (no_upsert_typed _ (RepoSql SelAutoSync))).
  cbn [bind]. destruct (auto_sync_on on); [|done]. apply wp_bind. unfold run_scheduled_sync, bind_ok.
  intros r w2 Hx2. assert (table_typed w2) as Hw2 by (by eapply (no_upsert_typed _ (RepoSql (InsSyncLog _)))).
  destruct r as [id|e]; [|done]. eapply wp_mono; [|by apply logged_sync_typed]. done.
Qed.

Lemma writes_quiet {A} outs dirs (q : repo_prog A) : issues (writes_only outs dirs) q -> issues no_upsert q.
Proof. intros Hq. by eapply (spares_quiet _ ""), writes_spare. Qed.

#[local] Hint Extern 1 (no_upsert _ _) => exact I : issues.
#[local] Hint Extern 2 (issues no_upsert (generate_dnf_metadata _ _)) => eapply writes_quiet, dnf_writes : issues.
#[local] Hint Extern 2 (issues no_upsert (generate_apk_metadata _ _ _)) => eapply writes_quiet, apk_writes : issues.
#[local] Hint Extern 2 (issues no_upsert (generate_pacman_metadata _ _)) => eapply writes_quiet, pacman_writes : issues.
#[local] Hint Extern 2 (issues no_upsert (sign_if_exists _ _ _)) => eapply writes_quiet, sign_writes : issues.
#[local] Hint Extern 2 (issues no_upsert (regenerate_all_apt_metadata _ _)) => apply (spares_quiet _ ""), sparing_regenerate : issues.

Lemma resign_quiet path key : issues no_upsert (resign_apk L path key).
Proof. unfold resign_apk. issues_auto. Qed.
#[local] Hint Resolve resign_quiet : issues.

Lemma regenerate_quiet : issues no_upsert (regenerate_metadata L config).
Proof.
  assert (forall dir key names n e, issues no_upsert (resign_each L dir key names n e)) as Hr.
  { intros dir key names. induction names as [|x names IH]; intros n e; cbn [resign_each]; issues_auto. }
  unfold regenerate_metadata, resign_all, rsa_key_path. issues_auto.
Qed.

Lemma delete_quiet ids : issues no_upsert (delete_packages L config ids).
Proof.
  assert (forall rows n e, issues no_upsert (delete_rows (sc_repo_dir config) rows n e)) as Hr.
  { intros rows. induction rows as [|[id p] rows IH]; intros n e; cbn [delete_rows]; unfold delete_file; issues_auto. }
  unfold delete_packages, or_internal, refresh_indexes, refresh_others, rsa_key_path. issues_auto.
Qed.

Lemma switch_quiet auth on : issues no_upsert (set_auto_sync auth on).
Proof. unfold set_auto_sync, or_internal. issues_auto. Qed.

Lemma op_typed q w : repo_op L config q -> table_typed w -> wp q (fun _ w' => table_typed w') w.
Proof.
  intros Hq Hw. destruct Hq; [by apply tick_typed| |by apply quiet_wp, Hw; apply regenerate_quiet|..].
  - apply wp_bind. eapply wp_mono; [|apply manual_sync_scheduled; by apply logged_sync_typed]. done.
  - apply quiet_wp; [|done]. apply issues_bind; [apply delete_quiet|done].
  - apply quiet_wp; [|done]. apply issues_bind; [apply switch_quiet|done].
Qed.

(** C25. Whatever sequence of syncs, regenerations, deletions and switches runs, the
    table of packages stays well typed: the columns distro and codename of each
    row are of one of the four formats and of a suite it serves, the file has
    the format's extension, only a package of the manager lacks a checksum, no
    two rows have the same file, version and format, and the sync and the
    deletion resolve the row to the same path in the format's directory. *)
Theorem package_table_typed ops w :
  Forall (repo_op L config) ops -> table_typed w ->
  wp (for_each ops (fun op => op)) (fun _ w' => table_typed w') w.
Proof.
  intros Hops. revert w. induction Hops as [|q ops Hq _ IH]; intros w Hw; cbn [for_each]; [done|].
  apply wp_bind. eapply wp_mono; [|by apply op_typed]. intros u w1 Hw1. by apply IH.
Qed.
End Ops.

Lemma package_table_typed_witness :
  wp (for_each [package_sync_tick toy_libs toy_config; delete_packages toy_libs toy_config [1%N] ;; Ret tt] (fun op => op))
    (fun _ w' => table_typed w') empty_repo.
Proof.
  apply (package_table_typed toy_libs toy_config); [repeat constructor|].
  split; [intros i j p q Hi; done|apply map_Forall_empty].
Defined.
