(* ===== verification/DiskUsage.v ===== *)
(** * The measured size of the repository: theorems

    The loop of [scan_dir_size] visits each directory below its argument once and
    adds up the files, so it ends, and what it returns is their size. *)

From S2P Require Import Prelude Ordering Rbac Buffers ApkSign PkgFormats Conc RepoWorld RepoIndex RepoSync RepoAdmin.

(** ** Sums *)

Definition zsum {A} (f : A -> Z) (l : list A) : Z := foldr (fun a n => f a + n) 0 l.
Definition ind (b : bool) : Z := if b then 1 else 0.

Section Sums.
Context {A : Type}.
Implicit Types (f g : A -> Z) (l : list A).

Lemma zsum_app f l1 l2 : zsum f (l1 ++ l2) = zsum f l1 + zsum f l2.
Proof. induction l1 as [|a l1 IH]; simpl; [done|]. rewrite IH. lia. Qed.
Lemma zsum_ext f g l : (forall a, a ∈ l -> f a = g a) -> zsum f l = zsum g l.
Proof.
  induction l as [|a l IH]; intros Hfg; simpl; [done|]. rewrite (Hfg a) by left. rewrite IH; [done|].
  intros b Hb. apply Hfg. by right.
Qed.
Lemma zsum_zero f l : (forall a, a ∈ l -> f a = 0) -> zsum f l = 0.
Proof. intros Hf. rewrite (zsum_ext f (fun _ => 0)) by done. induction l; simpl; [done|]. rewrite IHl; [done|]. intros b Hb. apply Hf. by right. Qed.
Lemma zsum_add f g l : zsum (fun a => f a + g a) l = zsum f l + zsum g l.
Proof. induction l as [|a l IH]; simpl; [done|]. rewrite IH. lia. Qed.
Lemma zsum_scale (c : Z) f l : zsum (fun a => f a * c) l = zsum f l * c.
Proof. induction l as [|a l IH]; simpl; [done|]. rewrite IH. lia. Qed.
#[export] Instance zsum_perm f : Proper ((≡ₚ) ==> (=)) (zsum f).
Proof. induction 1; simpl; lia. Qed.
Lemma zsum_nonneg f l : (forall a, 0 <= f a) -> 0 <= zsum f l.
Proof. intros Hf. induction l as [|a l IH]; simpl; [done|]. specialize (Hf a). lia. Qed.

(** A property that one element has. *)
Lemma zsum_ind_one (P : A -> bool) l x : NoDup l -> x ∈ l -> P x = true ->
  (forall y, y ∈ l -> P y = true -> y = x) -> zsum (fun y => ind (P y)) l = 1.
Proof.
  intros Hnd. induction Hnd as [|a l Ha Hnd IH]; intros Hx HP Huniq; [by apply not_elem_of_nil in Hx|]. simpl.
  apply elem_of_cons in Hx as [->|Hx].
  - rewrite HP, zsum_zero; [done|]. intros y Hy. destruct (P y) eqn:HPy; [|done].
    assert (y = a) as -> by (apply Huniq; [by right|done]). done.
  - rewrite IH; try done; [|by intros y Hy; apply Huniq; right].
    destruct (P a) eqn:HPa; [|done]. assert (a = x) as -> by (apply Huniq; [left|done]). done.
Qed.
Lemma zsum_ind_none (P : A -> bool) l : (forall y, y ∈ l -> P y = false) -> zsum (fun y => ind (P y)) l = 0.
Proof. intros HP. apply zsum_zero. intros y Hy. by rewrite HP. Qed.
End Sums.

Lemma zsum_swap {A B} (f : A -> B -> Z) l k :
  zsum (fun a => zsum (f a) k) l = zsum (fun b => zsum (fun a => f a b) l) k.
Proof.
  induction l as [|a l IH]; simpl; [symmetry; by apply zsum_zero|]. by rewrite IH, zsum_add.
Qed.
Lemma zsum_fmap {A B} (g : A -> B) f l : zsum f (g <$> l) = zsum (fun a => f (g a)) l.
Proof. induction l as [|a l IH]; [done|]. rewrite fmap_cons. simpl. by rewrite IH. Qed.
Lemma zsum_omap {A B} (g : A -> option B) f l :
  zsum f (omap g l) = zsum (fun a => match g a with Some b => f b | None => 0 end) l.
Proof.
  induction l as [|a l IH]; [done|].
  change (omap g (a :: l)) with (match g a with Some b => b :: omap g l | None => omap g l end).
  simpl. destruct (g a); simpl; rewrite IH; lia.
Qed.

(** ** The tree of files *)

(** Every path lies in directories, no part of it is empty, and no file is a directory. *)
Record tree_ok (w : repo_world) : Prop := {
  tree_parents : forall q d rest, (q ∈ dom (rw_files w) \/ q ∈ rw_dirs w) -> q = (d ++ "/" ++ rest)%string -> d <> ""%string ->
    d ∈ rw_dirs w /\ rest <> ""%string /\ starts_with "/" rest = false;
  tree_disjoint : forall q, q ∈ dom (rw_files w) -> q ∉ rw_dirs w
}.

(** An entry of [d]. *)
Definition is_child (d q : string) : bool := match child d q with Some _ => true | None => false end.

Lemma is_child_spec d q : is_child d q = true <-> exists n, q = (d ++ "/" ++ n)%string /\ n <> ""%string /\ contains_char "/" n = false.
Proof.
  unfold is_child. destruct (child d q) as [n|] eqn:Hc.
  - split; [|done]. intros _. exists n. by apply child_spec.
  - split; [done|]. intros (n & Hn). apply child_spec in Hn. congruence.
Qed.

Lemma within_spec d q : within d q = true <-> q = d \/ exists t, q = (d ++ "/" ++ t)%string.
Proof.
  unfold within, starts_with. rewrite orb_true_iff, String.eqb_eq. destruct (strip_prefix (d ++ "/") q) as [t|] eqn:Hs.
  - split; [|by right]. intros _. right. exists t. apply strip_prefix_app in Hs. by rewrite str_app_assoc in Hs.
  - split; [intros [->|?]; [by left|done]|]. intros [->|[t ->]]; [by left|].
    rewrite <- str_app_assoc, (proj2 (strip_prefix_app (d ++ "/") _ t) eq_refl) in Hs. done.
Qed.

(** The first part of a path. *)
Lemma first_part s : contains_char "/" s = false \/ exists a b, s = (a ++ "/" ++ b)%string /\ contains_char "/" a = false.
Proof.
  induction s as [|c s IH]; [by left|]. destruct (Ascii.eqb_spec "/" c) as [<-|Hc].
  - right. by exists ""%string, s.
  - assert (forall a, contains_char "/" (String c a) = contains_char "/" a) as Hcons.
    { intros a. unfold contains_char. cbn [str_forallb]. by destruct (Ascii.eqb_spec c "/") as [->|]. }
    destruct IH as [IH|(a & b & -> & Ha)]; [left; by rewrite Hcons|right]. exists (String c a), b. split; [done|]. by rewrite Hcons.
Qed.

Lemma no_slash_prefix a b a' b' : contains_char "/" a = false -> contains_char "/" a' = false ->
  (a ++ "/" ++ b)%string = (a' ++ "/" ++ b')%string -> a = a'.
Proof.
  revert a'. induction a as [|c a IH]; intros [|c' a'] Ha Ha' Heq; [done|..].
  - change ("" ++ "/" ++ b)%string with (String "/" b) in Heq. injection Heq as <- _. discriminate Ha'.
  - change ("" ++ "/" ++ b')%string with (String "/" b') in Heq. injection Heq as -> _. discriminate Ha.
  - change (String c a ++ "/" ++ b)%string with (String c (a ++ "/" ++ b)) in Heq.
    change (String c' a' ++ "/" ++ b')%string with (String c' (a' ++ "/" ++ b')) in Heq.
    injection Heq as -> Heq. unfold contains_char in *. cbn [str_forallb] in *.
    destruct (negb (Ascii.eqb c' "/")); [|done]. f_equal. by apply IH.
Qed.

Lemma slash_inside a b : contains_char "/" (a ++ "/" ++ b) = true.
Proof. unfold contains_char. rewrite str_forallb_app. simpl. by rewrite andb_false_r. Qed.
Lemma slash_not_inside a b : contains_char "/" (a ++ "/" ++ b) = false -> False.
Proof. by rewrite slash_inside. Qed.

(** A path below [d] is an entry that is no directory, or lies in exactly one of
    the directories in [d]. *)
Lemma below_once w d q : tree_ok w -> d <> ""%string -> (q ∈ dom (rw_files w) \/ q ∈ rw_dirs w) ->
  ind (within d q && negb (String.eqb q d)) =
  ind (negb (bool_decide (q ∈ rw_dirs w)) && is_child d q) +
  zsum (fun q' => ind (is_child d q' && within q' q)) (elements (rw_dirs w)).
Proof.
  intros Hok Hd Hq.
  assert (forall q', is_child d q' = true -> within q' q = true -> exists n t, n <> ""%string /\ contains_char "/" n = false /\
    q' = (d ++ "/" ++ n)%string /\ (q = q' /\ t = ""%string \/ q = (d ++ "/" ++ n ++ "/" ++ t)%string)) as Hin.
  { intros q' (n & -> & Hn & Hs)%is_child_spec [->|[t ->]]%within_spec.
    - exists n, ""%string. split_and!; try done. by left.
    - exists n, t. split_and!; try done. right. by rewrite !str_app_assoc. }
  destruct (within d q && negb (String.eqb q d)) eqn:Hbelow.
  2:{ assert (within d q = false \/ q = d) as Hcase.
      { apply andb_false_iff in Hbelow as [?|Hb]; [by left|right]. by apply negb_false_iff, String.eqb_eq in Hb. }
      assert (forall t, q <> (d ++ "/" ++ t)%string) as Hno.
      { intros t ->. destruct Hcase as [Hw|Heq].
        - rewrite (proj2 (within_spec d _)) in Hw; [done|right; by exists t].
        - rewrite <- (str_app_nil_r d) in Heq at 2. by apply str_app_inj in Heq. }
      rewrite zsum_ind_none.
      - destruct (is_child d q) eqn:Hc; [|by rewrite andb_false_r]. apply is_child_spec in Hc as (n & -> & _). by destruct (Hno n).
      - intros q' _. destruct (is_child d q') eqn:Hc; [|done]. destruct (within q' q) eqn:Hw; [|done].
        destruct (Hin q' Hc Hw) as (n & t & _ & _ & -> & [[-> _]| ->]); exfalso; by eapply Hno. }
  apply andb_true_iff in Hbelow as [Hw Hne]. apply negb_true_iff, String.eqb_neq in Hne.
  apply within_spec in Hw as [->|[rest ->]]; [done|].
  destruct (tree_parents w Hok _ d rest Hq eq_refl Hd) as (Hdd & Hrest & Hslash).
  destruct (first_part rest) as [Hs|(n & t & -> & Hs)].
  - (* an entry of [d] *)
    assert (is_child d (d ++ "/" ++ rest) = true) as Hc by (apply is_child_spec; by exists rest). rewrite Hc, andb_true_r.
    assert (forall q', is_child d q' = true -> within q' (d ++ "/" ++ rest) = true -> q' = (d ++ "/" ++ rest)%string) as Hself.
    { intros q' Hc' Hw'. destruct (Hin q' Hc' Hw') as (n & t & _ & _ & -> & [[-> _]|Heq]); [done|].
      apply str_app_inj, str_app_inj in Heq as ->. by apply slash_not_inside in Hs. }
    case_bool_decide as Hdir; simpl.
    + rewrite (zsum_ind_one _ _ (d ++ "/" ++ rest)%string); [done|apply NoDup_elements|by apply elem_of_elements|..].
      * rewrite Hc. by apply within_spec; left.
      * intros y _. rewrite andb_true_iff. intros [??]. by apply Hself.
    + rewrite zsum_ind_none; [done|]. intros q' Hq'. destruct (is_child d q') eqn:Hc'; [|done].
      destruct (within q' _) eqn:Hw'; [|done]. apply Hself in Hw' as ->; [|done]. by apply elem_of_elements in Hq'.
  - (* below the directory [d/n] *)
    assert (n <> ""%string) as Hn by (intros ->; done).
    destruct (tree_parents w Hok (d ++ "/" ++ n ++ "/" ++ t) (d ++ "/" ++ n) t Hq) as (Hdir & _ & _).
    { by rewrite !str_app_assoc. } { by destruct d. }
    assert (is_child d (d ++ "/" ++ n ++ "/" ++ t) = false) as ->.
    { apply not_true_iff_false. intros (m & Heq & _ & Hm)%is_child_spec. apply str_app_inj in Heq. injection Heq as <-.
      by apply slash_not_inside in Hm. }
    rewrite andb_false_r. rewrite (zsum_ind_one _ _ (d ++ "/" ++ n)%string); [done|apply NoDup_elements|by apply elem_of_elements|..].
    + apply andb_true_iff. split; [apply is_child_spec; by exists n|]. apply within_spec. right. exists t. by rewrite !str_app_assoc.
    + intros y _ [Hc' Hw']%andb_true_iff. destruct (Hin y Hc' Hw') as (m & t' & Hm & Hms & -> & [[Heq _]|Heq]).
      * apply str_app_inj, str_app_inj in Heq as <-. by apply slash_not_inside in Hms.
      * apply str_app_inj, str_app_inj in Heq. by rewrite (no_slash_prefix n t m t').
Qed.

(** ** What lies below a directory *)

Definition below (d q : string) : bool := within d q && negb (String.eqb q d).

(** The bytes of the files below [d], and the directories it is made of. *)
Definition size_below (w : repo_world) (d : string) : Z :=
  zsum (fun kv => ind (below d kv.1) * vlen kv.2) (map_to_list (rw_files w)).
Definition dirs_below (w : repo_world) (d : string) : Z := zsum (fun q => ind (within d q)) (elements (rw_dirs w)).

Lemma ind_and a b : ind (a && b) = ind a * ind b.
Proof. by destruct a, b. Qed.

Lemma size_below_split w d : tree_ok w -> d <> ""%string -> size_below w d =
  zsum (fun kv => ind (is_child d kv.1) * vlen kv.2) (map_to_list (rw_files w)) +
  zsum (fun q' => ind (is_child d q') * size_below w q') (elements (rw_dirs w)).
Proof.
  intros Hok Hd. unfold size_below.
  rewrite (zsum_ext _ (fun q' => zsum (fun kv => ind (is_child d q' && within q' kv.1) * vlen kv.2) (map_to_list (rw_files w)))
             (elements (rw_dirs w))).
  2:{ intros q' Hq'%elem_of_elements. cbv beta. rewrite Z.mul_comm, <- zsum_scale. apply zsum_ext. intros [q v] Hq%elem_of_map_to_list. simpl.
      assert (q <> q') as Hne by (intros ->; eapply tree_disjoint; [done|by eapply elem_of_dom_2|done]).
      unfold below. rewrite (proj2 (String.eqb_neq q q') Hne), !ind_and. simpl. lia. }
  rewrite zsum_swap, <- zsum_add. apply zsum_ext. intros [q v] Hq%elem_of_map_to_list. simpl.
  apply elem_of_dom_2 in Hq as Hdom. unfold below. rewrite (below_once w d q Hok Hd) by auto.
  rewrite bool_decide_false by (by eapply tree_disjoint). simpl. rewrite zsum_scale. lia.
Qed.

Lemma dirs_below_split w d : tree_ok w -> d <> ""%string -> d ∈ rw_dirs w ->
  dirs_below w d = 1 + zsum (fun q' => ind (is_child d q') * dirs_below w q') (elements (rw_dirs w)).
Proof.
  intros Hok Hd Hdir. unfold dirs_below.
  rewrite <- (zsum_ind_one (fun q => String.eqb q d) (elements (rw_dirs w)) d);
    [|apply NoDup_elements|by apply elem_of_elements|by apply String.eqb_eq|by intros y _ ?%String.eqb_eq].
  rewrite (zsum_ext (fun q' => ind (is_child d q') * zsum (fun q => ind (within q' q)) (elements (rw_dirs w)))
    (fun q' => zsum (fun q => ind (is_child d q' && within q' q)) (elements (rw_dirs w))) (elements (rw_dirs w))).
  2:{ intros q' _. cbv beta. rewrite Z.mul_comm, <- zsum_scale. apply zsum_ext. intros q _. rewrite ind_and. lia. }
  rewrite zsum_swap, <- zsum_add. apply zsum_ext. intros q Hq%elem_of_elements.
  pose proof (below_once w d q Hok Hd (or_intror Hq)) as Hb. rewrite bool_decide_true in Hb by done. cbn [negb andb ind] in Hb.
  rewrite Z.add_0_l in Hb. rewrite <- Hb. destruct (String.eqb_spec q d) as [->|]; simpl.
  - rewrite andb_false_r. unfold within. by rewrite String.eqb_refl.
  - by rewrite andb_true_r.
Qed.

(** How often the loop takes a directory from its stack. *)
Definition pops (w : repo_world) (d : string) : Z := if bool_decide (d ∈ rw_dirs w) then dirs_below w d else 1.

Lemma dirs_below_nonneg w d : 0 <= dirs_below w d.
Proof. apply zsum_nonneg. intros q. by destruct (within d q). Qed.

Lemma pops_pos w d : 1 <= pops w d.
Proof.
  unfold pops. case_bool_decide as Hd; [|done]. unfold dirs_below. rewrite <- elem_of_elements in Hd.
  apply elem_of_Permutation in Hd as [l Hl]. rewrite Hl. simpl. unfold within at 1. rewrite String.eqb_refl. simpl.
  pose proof (zsum_nonneg (fun q => ind (within d q)) l). assert (0 <= zsum (fun q => ind (within d q)) l); [|lia].
  apply zsum_nonneg. intros q. by destruct (within d q).
Qed.

(** A path that is no directory has nothing below it. *)
Lemma nothing_below w d : tree_ok w -> d <> ""%string -> d ∉ rw_dirs w -> size_below w d = 0.
Proof.
  intros Hok Hd Hdir. apply zsum_zero. intros [q v] Hq%elem_of_map_to_list. simpl. destruct (below d q) eqn:Hb; [|done].
  unfold below in Hb. apply andb_true_iff in Hb as [[->|[t ->]]%within_spec Hne]; [by rewrite String.eqb_refl in Hne|].
  exfalso. apply Hdir. by apply (tree_parents w Hok _ d t (or_introl (elem_of_dom_2 _ _ _ Hq)) eq_refl Hd).
Qed.

(** ** The loop *)

Definition entry_len (w : repo_world) (d : string) (e : string * bool) : Z :=
  if e.2 then 0 else match rw_files w !! (d ++ "/" ++ e.1)%string with Some v => vlen v | None => 0 end.
Definition subdirs (d : string) (entries : list (string * bool)) : list string :=
  (fun e => (d ++ "/" ++ e.1)%string) <$> List.filter snd entries.

Lemma wp_len {B} p (f : result Z string -> repo_prog B) Q (w : repo_world) :
  match rw_files w !! p with Some d => wp (f (Ok (vlen d))) Q w | None => forall e, wp (f (Err e)) Q w end ->
  wp (bind (trigger (FsLen p)) f) Q w.
Proof. intros Hf x w' [-> Hx]. destruct (rw_files w !! p); [by subst|]. destruct Hx as [e ->]. apply Hf. Qed.

Lemma wp_scan_entries d entries stack total w : 0 <= total < 2 ^ 64 ->
  wp (scan_entries d entries stack total) (fun r w' => w' = w /\ 0 <= r.2 < 2 ^ 64 /\
    r.2 = (total + zsum (entry_len w d) entries) mod 2 ^ 64 /\ r.1 ≡ₚ subdirs d entries ++ stack) w.
Proof.
  revert stack total. induction entries as [|[n b] entries IH]; intros stack total Ht; cbn [scan_entries].
  { simpl. rewrite Z.add_0_r, Z.mod_small by done. done. }
  destruct b.
  - eapply wp_mono; [|by apply IH]. intros r w' (-> & H1 & H2 & H3). split; [done|]. split; [done|]. split.
    + by rewrite H2.
    + rewrite H3. unfold subdirs. simpl. by rewrite Permutation_middle.
  - assert (forall v, 0 <= add_u64 total v < 2 ^ 64) as Hadd by (intros v; unfold add_u64; by apply Z.mod_pos_bound).
    assert (forall x z, (add_u64 total x + z) mod 2 ^ 64 = (total + (x + z)) mod 2 ^ 64) as Hmod.
    { intros x z. unfold add_u64. rewrite Zplus_mod_idemp_l. f_equal. lia. }
    apply wp_len. cbn [zsum foldr entry_len fst snd]. destruct (rw_files w !! (d ++ "/" ++ n)%string) as [v|].
    + eapply wp_mono; [|by apply IH]. intros r w' (-> & H1 & H2 & H3). split; [done|]. split; [done|]. split; [by rewrite H2, Hmod|done].
    + intros e. eapply wp_mono; [|by apply IH]. intros r w' (-> & H1 & H2 & H3). split; [done|]. split; [done|]. split; [by rewrite H2|done].
Qed.

Lemma listing_lens w d : zsum (entry_len w d) (listing d w) =
  zsum (fun kv => ind (is_child d kv.1) * vlen kv.2) (map_to_list (rw_files w)).
Proof.
  unfold listing. rewrite zsum_app, !zsum_omap. rewrite (zsum_zero _ (elements (rw_dirs w))).
  2:{ intros q _. by destruct (child d q). }
  rewrite Z.add_0_r. apply zsum_ext. intros [q v] Hq%elem_of_map_to_list. unfold is_child. simpl.
  destruct (child d q) as [n|] eqn:Hc; [|done]. apply child_spec in Hc as (-> & _). unfold entry_len. cbn [snd fst fmap option_fmap option_map].
  rewrite Hq. simpl. by destruct (vlen v).
Qed.

Lemma listing_subdirs (f : string -> Z) w d : zsum f (subdirs d (listing d w)) =
  zsum (fun q => ind (is_child d q) * f q) (elements (rw_dirs w)).
Proof.
  unfold listing, subdirs. rewrite zsum_fmap, List.filter_app, zsum_app.
  assert (forall (l : list (string * vec_u8)), List.filter snd (omap (fun kv => (fun n => (n, false)) <$> child d kv.1) l) = []) as ->.
  { induction l as [|kv l IH]; [done|]. simpl. by destruct (child d kv.1). }
  change (zsum (fun e : string * bool => f (d ++ "/" ++ e.1)%string) []) with 0. rewrite Z.add_0_l.
  assert (forall l, List.filter snd (omap (fun q => (fun n => (n, true)) <$> child d q) l) =
    omap (fun q => (fun n => (n, true)) <$> child d q) l) as ->.
  { induction l as [|q l IH]; [done|]. simpl. destruct (child d q); simpl; [f_equal|]; exact IH. }
  rewrite zsum_omap. apply zsum_ext. intros q _. unfold is_child. destruct (child d q) as [n|] eqn:Hc; [|done].
  apply child_spec in Hc as (-> & _). cbn [fmap option_fmap option_map fst]. unfold ind. lia.
Qed.

Lemma scan_stack_ok w fuel stack total : tree_ok w -> Forall (fun d => d <> ""%string) stack -> 0 <= total < 2 ^ 64 ->
  zsum (pops w) stack <= Z.of_nat fuel ->
  wp (scan_stack fuel stack total) (fun r w' =>
    r = Some ((total + zsum (size_below w) stack) mod 2 ^ 64) /\ w' = w) w.
Proof.
  intros Hok. revert stack total. induction fuel as [|fuel IH]; intros [|d stack] total Hne Ht Hfuel; cbn [scan_stack].
  1,3: simpl; by rewrite Z.add_0_r, Z.mod_small by done.
  { exfalso. cbn [zsum foldr] in Hfuel. pose proof (pops_pos w d). assert (0 <= zsum (pops w) stack); [|unfold zsum in *; lia].
    apply zsum_nonneg. intros q. pose proof (pops_pos w q). lia. }
  apply Forall_cons in Hne as [Hd Hne]. cbn [zsum foldr] in Hfuel. fold (zsum (pops w) stack) in Hfuel.
  intros x w0 [-> Hx]. case_bool_decide as Hdir.
  - destruct Hx as (l & Hl & ->). cbn [bind]. apply wp_bind. eapply wp_mono; [|by apply wp_scan_entries].
    intros [stack' total'] w1 (-> & Ht' & Htot & Hst). cbn [fst snd] in *.
    assert (forall f, zsum f stack' = zsum (fun q => ind (is_child d q) * f q) (elements (rw_dirs w)) + zsum f stack) as Hsum.
    { intros f. rewrite Hst, zsum_app. f_equal. rewrite <- listing_subdirs. apply zsum_perm. unfold subdirs.
      apply fmap_Permutation. clear -Hl. induction Hl as [|[? []] l1 l2 _ IH|[? []] [? []] l1|l1 l2 l3 _ IH1 _ IH2]; simpl;
        try done; [by constructor|by constructor|by etrans]. }
    eapply wp_mono; [|apply IH; [|done|]].
    + intros r w1 [-> ->]. split; [|done]. f_equal. cbn [zsum foldr]. fold (zsum (size_below w) stack).
      rewrite Hsum, (size_below_split w d) by done. rewrite Htot, Zplus_mod_idemp_l, Hl, listing_lens. f_equal. lia.
    + rewrite Hst, Forall_app. split; [|done]. apply Forall_forall. intros q Hq. unfold subdirs in Hq.
      apply list_elem_of_fmap in Hq as (e & -> & _). by destruct d.
    + rewrite Hsum. unfold pops in Hfuel at 1. rewrite bool_decide_true in Hfuel by done.
      rewrite (dirs_below_split w d) in Hfuel by done.
      rewrite (zsum_ext (fun q => ind (is_child d q) * pops w q) (fun q => ind (is_child d q) * dirs_below w q)); [lia|].
      intros q Hq%elem_of_elements. unfold pops. by rewrite bool_decide_true.
  - destruct Hx as [e ->]. cbn [bind]. eapply wp_mono; [|apply IH; try done].
    + intros r w1 [-> ->]. cbn [zsum foldr]. by rewrite (nothing_below w d).
    + pose proof (pops_pos w d). lia.
Qed.

Lemma pops_bound w d : pops w d <= 1 + Z.of_nat (size (rw_dirs w)).
Proof.
  unfold pops. case_bool_decide; [|lia]. unfold dirs_below, size, set_size. simpl.
  induction (elements (rw_dirs w)) as [|q l IH]; simpl; [lia|]. destruct (within d q); simpl ind; lia.
Qed.

(** The walk over the directories ends, after at most one turn per directory of
    the disk, and returns the size of all files below the path (to 64 bits),
    whatever the order in which directories are listed. *)
Theorem scan_dir_size_total w path fuel : tree_ok w -> path <> ""%string -> (size (rw_dirs w) < fuel)%nat ->
  wp (scan_dir_size fuel path) (fun r w' =>
    r = Some (zsum (fun kv => ind (below path kv.1) * vlen kv.2) (map_to_list (rw_files w)) mod 2 ^ 64) /\ w' = w) w.
Proof.
  intros Hok Hp Hfuel. eapply wp_mono; [|apply scan_stack_ok; try done].
  - intros r w' [-> ->]. simpl. unfold size_below. by rewrite Z.add_0_r.
  - by constructor.
  - simpl. pose proof (pops_bound w path). lia.
Qed.

(** ** Witness *)

Definition toy_tree : repo_world :=
  RepoWorld (list_to_map [("/r/apt/pool/a.deb"%string, as_bytes "12345"); ("/r/apt/Release"%string, as_bytes "12"); ("/r/x"%string, as_bytes "1")])
            {["/r"%string; "/r/apt"%string; "/r/apt/pool"%string]} ∅ ∅ None.

Lemma toy_tree_ok : tree_ok toy_tree.
Proof.
  assert (forall q, q ∈ dom (rw_files toy_tree) \/ q ∈ rw_dirs toy_tree ->
    q ∈ ["/r/apt/pool/a.deb"; "/r/apt/Release"; "/r/x"; "/r"; "/r/apt"; "/r/apt/pool"]%string) as Hpaths.
  { intros q [Hq|Hq]; [cbn [toy_tree rw_files] in Hq; rewrite dom_list_to_map in Hq|]; set_solver. }
  split.
  - assert (Forall (fun q => forall d rest, q = (d ++ "/" ++ rest)%string -> d <> ""%string ->
      d ∈ rw_dirs toy_tree /\ rest <> ""%string /\ starts_with "/" rest = false)
      ["/r/apt/pool/a.deb"; "/r/apt/Release"; "/r/x"; "/r"; "/r/apt"; "/r/apt/pool"]%string) as Hall.
    { rewrite !Forall_cons, Forall_nil. split_and!; [intros d rest Heq Hd..|done].
      all: repeat (destruct d as [|? d]; [first [done | discriminate Heq | injection Heq as <-; split_and!; [set_solver|done|done]]
                                        |first [discriminate Heq | injection Heq as <- Heq]]). }
    intros q d rest Hq. rewrite Forall_forall in Hall. apply Hall. by apply Hpaths.
  - intros q Hq Hd. cbn [toy_tree rw_files] in Hq; rewrite dom_list_to_map in Hq. set_solver.
Qed.

Lemma scan_dir_size_total_witness :
  wp (scan_dir_size 4 "/r/apt") (fun r w' => r = Some 7 /\ w' = toy_tree) toy_tree.
Proof.
  apply (scan_dir_size_total toy_tree "/r/apt" 4); [apply toy_tree_ok|done|vm_compute; lia].
Defined.
