(* ===== verification/PkiConfig.v ===== *)
(** * Repository configuration of the agents (pm-core/src/models.rs, pm-web/src/routes/enrollment.rs, pki.rs)

    What an agent is told of the manager's package repository: the distribution
    and suite read off its description, the text for its package manager, and the
    public key; once with the enrolment, once on its own request.  And what the
    repository's server ([build_repo_router], pm-web/src/lib.rs) serves.  Reading
    the key files is an effect. *)

From S2P Require Import Prelude Buffers Conc Rbac Enrollment ApkSign PkgFormats RepoWorld RepoIndex RepoWrites.

Local Open Scope string_scope.

(** ** Data *)

Record agent_repo_config : Type := AgentRepoConfig {
  ar_gpg_public_key : string; ar_sources_config : string; ar_distro_id : string; ar_keyring_path : string; ar_apk_rsa_public_key : option string
}.
(** What of [RepoServerConfig] is used. *)
Record repo_server_config : Type := RepoServerConfig {
  rs_url_base : string; rs_gpg_public_key_path : string; rs_apk_rsa_public_key_path : string
}.

(** [std::fs::read_to_string] and its asynchronous twin. *)
Inductive key_file_eff : Type -> Type :=
| ReadToString (path : string) : key_file_eff (result string string).

(** ** Distribution and suite *)

Definition detect_distro_id (os_family os_name : option string) : option string :=
  let os := to_ascii_lowercase (default "" os_family) in
  let name := to_ascii_lowercase (default "" os_name) in
  let has s := str_contains s os || str_contains s name in
  if has "ubuntu" then Some "ubuntu"
  else if has "debian" then Some "debian"
  else if has "fedora" then Some "fedora"
  else if has "alma" then Some "almalinux"
  else if has "alpine" then Some "alpine"
  else if has "arch" then Some "arch"
  else None.

Definition detect_apt_suite (os_version : option string) : option string :=
  let ver := to_ascii_lowercase (default "" os_version) in
  if String.eqb ver "24.04" || str_contains "24.04" ver then Some "u2404"
  else if String.eqb ver "22.04" || str_contains "22.04" ver then Some "u2204"
  else if String.eqb ver "26.04" || str_contains "26.04" ver then Some "u2604"
  else if String.eqb ver "12" || starts_with "12." ver then Some "debian12"
  else if String.eqb ver "13" || starts_with "13." ver then Some "debian13"
  else None.

Definition is_apt (distro_id : string) : bool := String.eqb distro_id "ubuntu" || String.eqb distro_id "debian".
Definition is_dnf (distro_id : string) : bool := String.eqb distro_id "fedora" || String.eqb distro_id "almalinux".

Definition default_suite (distro_id : string) (suite : option string) : string :=
  match suite with
  | Some s => s
  | None => if String.eqb distro_id "debian" then "debian12" else "u2404"
  end.

(** The text and the path of the keyring. *)
Definition generate_distro_config (distro_id repo_url_base : string) (suite : option string) : option (string * string) :=
  let base := trim_end_matches "/" repo_url_base in
  if is_apt distro_id then
    Some ("deb [signed-by=/etc/apt/keyrings/lpa-repo.gpg] " ++ base ++ "/apt " ++ default_suite distro_id suite ++ " main",
          "/etc/apt/keyrings/lpa-repo.gpg")
  else if is_dnf distro_id then
    Some ("[lpa-repo]" ++ nl ++ "name=Linux Patch API Repo" ++ nl ++ "baseurl=" ++ base ++ "/dnf/" ++ DNF_CODENAME ++ "/" ++ nl ++
          "enabled=1" ++ nl ++ "repo_gpgcheck=1" ++ nl ++ "gpgcheck=0" ++ nl ++ "gpgkey=file:///etc/pki/rpm-gpg/lpa-repo.gpg" ++ nl,
          "/etc/pki/rpm-gpg/lpa-repo.gpg")
  else if String.eqb distro_id "alpine" then Some (base ++ "/apk/" ++ APK_CODENAME, "/etc/apk/keys/lpa-repo.rsa.pub")
  else if String.eqb distro_id "arch" then
    Some ("[lpa-repo]" ++ nl ++ "Server = " ++ base ++ "/pacman/$repo" ++ nl ++ "SigLevel = Required DatabaseOptional" ++ nl,
          "/etc/pacman.d/gnupg/lpa-repo.gpg")
  else None.

(** ** With the enrolment *)

(** The block [repo_config] of approve_enrollment. *)
Definition enrollment_repo_config (cfg : repo_server_config) (req : enrollment_request) : prog key_file_eff (option agent_repo_config) :=
  match detect_distro_id (detail "distro" req) (detail "name" req) with
  | None => Ret None
  | Some distro_id =>
      let codename := match detail "codename" req with
                      | Some c => Some c
                      | None => detect_apt_suite (detail "version" req)
                      end in
      match generate_distro_config distro_id (rs_url_base cfg) codename with
      | None => Ret None
      | Some (sources_config, keyring_path) =>
          let is_alpine := String.eqb distro_id "alpine" in
          let! rsa :=
            if is_alpine then
              let! r := trigger (ReadToString (rs_apk_rsa_public_key_path cfg)) in
              Ret (match r with Ok k => Some k | Err _ => None end)
            else Ret None in
          let! gpg :=
            if is_alpine then Ret ""
            else
              let! r := trigger (ReadToString (rs_gpg_public_key_path cfg)) in
              Ret (match r with Ok k => k | Err _ => "" end) in
          Ret (if negb is_alpine && String.eqb gpg "" then None
               else Some (AgentRepoConfig gpg sources_config distro_id keyring_path rsa))
      end
  end.

(** ** On request *)

Definition get_repo_config (cfg : repo_server_config) (distro_id : string) (codename : option string)
    : prog key_file_eff (result agent_repo_config api_err) :=
  if String.eqb distro_id "" then Ret (Err (ApiErr 400 "missing_param"))
  else
    let is_alpine := String.eqb distro_id "alpine" in
    let!? rsa :=
      if is_alpine then
        let! r := trigger (ReadToString (rs_apk_rsa_public_key_path cfg)) in
        Ret (match r with Ok k => Ok (Some k) | Err _ => Err (ApiErr 404 "repo_not_configured") end)
      else Ret (Ok None) in
    let!? gpg :=
      if is_alpine then Ret (Ok "")
      else
        let! r := trigger (ReadToString (rs_gpg_public_key_path cfg)) in
        Ret (match r with Ok k => Ok k | Err _ => Err (ApiErr 404 "repo_not_configured") end) in
    Ret (match generate_distro_config distro_id (rs_url_base cfg) codename with
         | Some (sources_config, keyring_path) => Ok (AgentRepoConfig gpg sources_config distro_id keyring_path rsa)
         | None => Err (ApiErr 400 "unsupported_distro")
         end).

(** ** The repository's server *)

(** The file that is served under a path of the address. *)
Definition served_file (repo_dir path : string) : option string :=
  if existsb (fun p => starts_with p path) ["/apt/"; "/dnf/"; "/apk/"; "/pacman/"]%string then Some (repo_dir ++ path)%string else None.

(** ** The two configurations agree *)

Definition read_files (files : string -> result string string) (X : Type) (e : key_file_eff X) (u : unit) : X * unit :=
  match e in key_file_eff Y return Y * unit with ReadToString path => (files path, u) end.
Definition answered {A} (files : string -> result string string) (p : prog key_file_eff A) : A := (run (read_files files) p tt).1.

Lemma detected_distros family name d :
  detect_distro_id family name = Some d -> d ∈ ["ubuntu"; "debian"; "fedora"; "almalinux"; "alpine"; "arch"].
Proof. unfold detect_distro_id. intros Hd. repeat case_match; simplify_eq; repeat (try (left; reflexivity); right). Qed.

Lemma generated_distros d base suite :
  is_Some (generate_distro_config d base suite) <-> d ∈ ["ubuntu"; "debian"; "fedora"; "almalinux"; "alpine"; "arch"].
Proof.
  unfold generate_distro_config, is_apt, is_dnf. rewrite !elem_of_cons, elem_of_nil.
  destruct (String.eqb_spec d "ubuntu"), (String.eqb_spec d "debian"), (String.eqb_spec d "fedora"), (String.eqb_spec d "almalinux"),
    (String.eqb_spec d "alpine"), (String.eqb_spec d "arch"); cbn [orb]; rewrite ?is_Some_alt; naive_solver.
Qed.

(** The suite that an enrolment takes, and the distribution. *)
Definition suite_of_request (req : enrollment_request) : option string :=
  match detail "codename" req with Some c => Some c | None => detect_apt_suite (detail "version" req) end.
Definition distro_of_request (req : enrollment_request) : option string := detect_distro_id (detail "distro" req) (detail "name" req).

(** The configuration that an enrolment computes is the one that the host's own request
    for the same distribution and suite is answered with, but for two cases: a public key that is empty
    leaves an enrolment without a configuration, and an unreadable key of Alpine
    leaves one without the key, where the request is refused.  For a
    distribution that is not recognised there is none.  The answer to an enrolment
    has no field for it (enrollment.rs:113): what is computed is never sent, and
    only the request counts. *)
Theorem enrollment_matches_request cfg req files :
  match distro_of_request req with
  | None => answered files (enrollment_repo_config cfg req) = None
  | Some d =>
      match answered files (get_repo_config cfg d (suite_of_request req)) with
      | Ok c =>
          answered files (enrollment_repo_config cfg req) = Some c \/
          ar_gpg_public_key c = "" /\ d <> "alpine" /\ answered files (enrollment_repo_config cfg req) = None
      | Err e =>
          e = ApiErr 404 "repo_not_configured" /\
          (if String.eqb d "alpine"
           then exists c, answered files (enrollment_repo_config cfg req) = Some c /\ ar_apk_rsa_public_key c = None
           else answered files (enrollment_repo_config cfg req) = None)
      end
  end.
Proof.
  unfold enrollment_repo_config. fold (distro_of_request req) (suite_of_request req).
  destruct (distro_of_request req) as [d|] eqn:Hd; [|done]. apply detected_distros in Hd as Hin.
  destruct (proj2 (generated_distros d (rs_url_base cfg) (suite_of_request req)) Hin) as [[sources keyring] Hg].
  unfold get_repo_config, answered. rewrite Hg. assert (String.eqb d "" = false) as ->.
  { apply String.eqb_neq. intros ->. by repeat (apply elem_of_cons in Hin as [?|Hin]; [done|]). }
  destruct (String.eqb_spec d "alpine") as [->|Ha]; cbn -[nl].
  - destruct (files (rs_apk_rsa_public_key_path cfg)); cbn; [by left|]. split; [done|]. by eexists.
  - destruct (files (rs_gpg_public_key_path cfg)) as [k|]; cbn; [|done].
    destruct (String.eqb_spec k "") as [->|Hk]; [by right|by left].
Qed.

(** ** Where the configuration points *)

(** Where a package manager asks for the index of a repository, as sources.list(5),
    dnf.conf(5), apk-repositories(5) and pacman.conf(5) say. *)
Inductive asks : string -> string -> string -> Prop :=
| asks_apt d options uri suite :
    is_apt d = true -> asks d ("deb [" ++ options ++ "] " ++ uri ++ " " ++ suite ++ " main") (uri ++ "/dists/" ++ suite ++ "/Release")
| asks_dnf d before url after :
    is_dnf d = true -> asks d (before ++ "baseurl=" ++ url ++ nl ++ after) (url ++ "repodata/repomd.xml")
| asks_apk url : asks "alpine" url (url ++ "/x86_64/APKINDEX.tar.gz")
| asks_pacman name server after :
    asks "arch" ("[" ++ name ++ "]" ++ nl ++ "Server = " ++ server ++ "/$repo" ++ nl ++ after) (server ++ "/" ++ name ++ "/" ++ name ++ ".db").

Section Published.
Context (L : libraries) (repo_dir : string) (rsa_key : option string).

(** The generator of a distribution's index. *)
Definition publish (d suite : string) : repo_prog (result unit string) :=
  if is_apt d then generate_apt_metadata L repo_dir suite
  else if is_dnf d then generate_dnf_metadata L repo_dir
  else if String.eqb d "alpine" then generate_apk_metadata L repo_dir rsa_key
  else generate_pacman_metadata L repo_dir.

Definition leaves (file : string) (r : result unit string) (w : repo_world) : Prop := r = Ok tt -> is_Some (rw_files w !! file).

Lemma wp_any {A B} (p : repo_prog A) (f : A -> repo_prog B) Q w : (forall a t, wp (f a) Q t) -> wp (bind p f) Q w.
Proof using Type. intros Hf. apply wp_bind, wp_true, Hf. Qed.

Lemma wp_any_ok {A} (p : repo_prog (result A string)) (f : A -> repo_prog (result unit string)) file w :
  (forall a t, wp (f a) (leaves file) t) -> wp (bind_ok p f) (leaves file) w.
Proof using Type. intros Hf. apply wp_any. intros [a|e] t; [apply Hf|done]. Qed.

Lemma leaves_written {A} (e : repo_eff A) file w : 
  is_Some (rw_files w !! file) ->
  (match e with GpgClearsign _ _ | GpgDetached _ _ _ => True | _ => False end) ->
  wp (trigger e) (fun _ w' => is_Some (rw_files w' !! file)) w.
Proof using Type.
  intros Hs He x w' Hx. destruct e; try done; destruct x as [[]|m]; cbn in Hx |- *.
  - destruct Hx as [sig ->]. apply lookup_insert_is_Some'. by right.
  - destruct Hx as [->|[part ->]]; [done|]. apply lookup_insert_is_Some'. by right.
  - destruct Hx as [sig ->]. apply lookup_insert_is_Some'. by right.
  - destruct Hx as [->|[part ->]]; [done|]. apply lookup_insert_is_Some'. by right.
Qed.

Lemma apt_published suite w : wp (generate_apt_metadata L repo_dir suite) (leaves (apt_dists repo_dir suite ++ "/Release")) w.
Proof using Type.
  unfold generate_apt_metadata. cbv zeta. apply wp_any_ok. intros _ t. apply wp_any. intros debs t1. do 4 (apply wp_any_ok; intros ? ?).
  apply wp_write; [|by intros e w' _]. apply wp_bind. eapply wp_mono; [|apply (leaves_written _ (apt_dists repo_dir suite ++ "/Release")); [|done]].
  2:{ cbn. rewrite lookup_insert_eq. by eexists. }
  intros ? t8 H8. apply wp_bind. eapply wp_mono; [|apply (leaves_written _ (apt_dists repo_dir suite ++ "/Release")); [exact H8|done]]. by intros ? t9 H9 ?.
Qed.

Lemma dnf_published w : wp (generate_dnf_metadata L repo_dir) (leaves (repo_dir ++ "/dnf/el9/repodata/repomd.xml")) w.
Proof using Type.
  unfold generate_dnf_metadata. cbv zeta. apply wp_any_ok. intros _ t. apply wp_any. intros rpms t1. do 3 (apply wp_any_ok; intros ? ?).
  apply wp_any. intros now t5. apply wp_write; [|by intros e w' _]. intros _. cbn. rewrite !str_app_assoc. cbn. rewrite lookup_insert_eq. by eexists.
Qed.

Lemma apk_published w : wp (generate_apk_metadata L repo_dir rsa_key) (leaves (apk_repo repo_dir ++ "/APKINDEX.tar.gz")) w.
Proof using Type.
  unfold generate_apk_metadata. cbv zeta. apply wp_any_ok. intros _ t. do 2 (apply wp_any; intros ? ?). do 3 (apply wp_any_ok; intros ? ?).
  intros x w' Hx ->. cbn in Hx. subst. cbn [with_files rw_files]. rewrite lookup_insert_eq. by eexists.
Qed.

(** C38. The index is there: where a host's package manager asks with the text that
    it was given, the repository's server serves the file that the generator of
    the index for its distribution and suite has written whenever it succeeds;
    for every supported distribution but Arch. *)
Theorem configured_index_published d base suite sources keyring :
  generate_distro_config d base suite = Some (sources, keyring) -> d <> "arch" ->
  exists path file,
    asks d sources (trim_end_matches "/" base ++ path) /\ served_file repo_dir path = Some file /\
    forall w, wp (publish d (default_suite d suite)) (fun r w' => r = Ok tt -> is_Some (rw_files w' !! file)) w.
Proof using Type.
  intros Hg Hd. pose proof (proj1 (generated_distros d base suite) (ex_intro _ _ Hg)) as Hin.
  unfold generate_distro_config in Hg. cbv zeta in Hg. unfold publish. set (b := trim_end_matches "/" base) in *. set (s := default_suite d suite) in *.
  destruct (is_apt d) eqn:Ha; [|destruct (is_dnf d) eqn:Hn; [|destruct (String.eqb_spec d "alpine") as [->|Hal]]].
  - injection Hg as <- <-. exists ("/apt/dists/" ++ s ++ "/Release"), (repo_dir ++ "/apt/dists/" ++ s ++ "/Release"). split_and!; [|done|].
    + pose proof (asks_apt d "signed-by=/etc/apt/keyrings/lpa-repo.gpg" (b ++ "/apt") s Ha) as H. rewrite !str_app_assoc in H. exact H.
    + intros w. eapply wp_mono; [|apply apt_published]. unfold leaves, apt_dists. rewrite !str_app_assoc. cbn. by intros a t.
  - injection Hg as <- <-. exists "/dnf/el9/repodata/repomd.xml", (repo_dir ++ "/dnf/el9/repodata/repomd.xml"). split_and!; [|done|apply dnf_published].
    pose proof (asks_dnf d ("[lpa-repo]" ++ nl ++ "name=Linux Patch API Repo" ++ nl) (b ++ "/dnf/el9/")
      ("enabled=1" ++ nl ++ "repo_gpgcheck=1" ++ nl ++ "gpgcheck=0" ++ nl ++ "gpgkey=file:///etc/pki/rpm-gpg/lpa-repo.gpg" ++ nl) Hn) as H.
    rewrite !str_app_assoc in H. exact H.
  - injection Hg as <- <-. exists "/apk/v3.21/x86_64/APKINDEX.tar.gz", (repo_dir ++ "/apk/v3.21/x86_64/APKINDEX.tar.gz"). split_and!; [|done|].
    + pose proof (asks_apk (b ++ "/apk/v3.21")) as H. rewrite !str_app_assoc in H. exact H.
    + intros w. eapply wp_mono; [|apply apk_published]. unfold leaves, apk_repo. rewrite !str_app_assoc. cbn. by intros a t.
  - destruct (String.eqb_spec d "arch"); [done|]. discriminate.
Qed.

(** Arch is told of a directory that its index is not in: pacman puts the name of
    the repository for [$repo], and the generator writes elsewhere. *)
Theorem arch_database_missed base suite sources keyring :
  generate_distro_config "arch" base suite = Some (sources, keyring) ->
  exists path file,
    asks "arch" sources (trim_end_matches "/" base ++ path) /\ served_file repo_dir path = Some file /\
    forall w, wp (publish "arch" (default_suite "arch" suite)) (fun _ w' => rw_files w' !! file = rw_files w !! file) w.
Proof using Type.
  intros [= <- <-]. set (b := trim_end_matches "/" base).
  exists "/pacman/lpa-repo/lpa-repo.db", (repo_dir ++ "/pacman/lpa-repo/lpa-repo.db"). split_and!; [|done|].
  - pose proof (asks_pacman "lpa-repo" (b ++ "/pacman") ("SigLevel = Required DatabaseOptional" ++ nl)) as H. rewrite !str_app_assoc in H. exact H.
  - intros w. eapply wp_mono; [|apply wp_writes_only, pacman_writes]. intros r w' Hk. apply (kept_files _ _ _ _ Hk).
    unfold pacman_outputs. rewrite !elem_of_cons, elem_of_nil. intros [H|[H|[]]]; by apply str_app_inj in H.
Qed.
End Published.

(** ** At work *)

Definition config_host (distro version : string) : enrollment_request :=
  EnrollmentRequest "m" "h.example" "10.0.0.1" (JObj [("distro", JStr distro); ("version", JStr version)]) "t" None 0.
Definition demo_config : repo_server_config := RepoServerConfig "http://manager/" "/gpg" "/rsa".
Definition demo_files (path : string) : result string string := if String.eqb path "/gpg" then Ok "KEY" else Err "not found".

(** Ubuntu 24.04 gets its suite and key, Alpine without a key file none. *)
Lemma demo_enrollments :
  answered demo_files (enrollment_repo_config demo_config (config_host "Ubuntu" "24.04.1")) =
    Some (AgentRepoConfig "KEY" "deb [signed-by=/etc/apt/keyrings/lpa-repo.gpg] http://manager/apt u2404 main" "ubuntu"
            "/etc/apt/keyrings/lpa-repo.gpg" None) /\
  answered demo_files (enrollment_repo_config demo_config (config_host "Alpine" "3.21")) =
    Some (AgentRepoConfig "" "http://manager/apk/v3.21" "alpine" "/etc/apk/keys/lpa-repo.rsa.pub" None) /\
  answered demo_files (get_repo_config demo_config "alpine" None) = Err (ApiErr 404 "repo_not_configured").
Proof. split_and!; by vm_compute. Qed.

Lemma configured_index_published_witness :
  exists path file,
    asks "fedora" (("[lpa-repo]" ++ nl ++ "name=Linux Patch API Repo" ++ nl ++ "baseurl=http://manager/dnf/el9/" ++ nl ++
          "enabled=1" ++ nl ++ "repo_gpgcheck=1" ++ nl ++ "gpgcheck=0" ++ nl ++ "gpgkey=file:///etc/pki/rpm-gpg/lpa-repo.gpg" ++ nl))
      ("http://manager" ++ path) /\ served_file "/r" path = Some file /\
    forall w, wp (publish toy_libs "/r" None "fedora" "u2404") (fun r w' => r = Ok tt -> is_Some (rw_files w' !! file)) w.
Proof.
  apply (configured_index_published toy_libs "/r" None "fedora" "http://manager//" None _ "/etc/pki/rpm-gpg/lpa-repo.gpg"); [by vm_compute|discriminate].
Defined.
