(* ===== verification/Migration.v ===== *)
(** * Migration of the secrets (migrate-secrets/src/main.rs)

    The tool that encrypts the secrets of an older database: the client secret of
    the identity provider, the password of the mail server and the second factors
    of the users; and what it leaves for the settings and the worker. *)

From stdpp Require Import fin_maps.
From S2P Require Import Prelude Conc Buffers Rbac AuditLog Settings SettingsFlow.

(** ** Data *)

(** A secret in its old and its new columns. *)
Record mig_secret : Type := MigSecret { ms_plain : option string; ms_encrypted : option (vec_u8 * vec_u8) }.

(** Whether the old and the new columns are there; [oidc_config], [system_config],
    [users]. *)
Record mig_db : Type := MigDb {
  mg_old : bool; mg_new : bool; mg_oidc : option mig_secret; mg_config : gmap string string; mg_users : gmap uuid mig_secret
}.
Definition set_encrypted (c n : vec_u8) (t : mig_secret) : mig_secret := MigSecret (ms_plain t) (Some (c, n)).

Inductive mig_stmt : Type -> Type :=
| SelOidcPlain : mig_stmt (option (option string))
| UpdOidcSecret (c n : vec_u8) : mig_stmt unit
| SelMailPassword : mig_stmt (option string)
| DelMailPassword : mig_stmt unit
| InsConfig (key value : string) : mig_stmt unit
| SelTotp : mig_stmt (list (uuid * string))
| UpdTotp (id : uuid) (c n : vec_u8) : mig_stmt unit.

Definition with_mail (m : gmap string string) (d : mig_db) : mig_db := MigDb (mg_old d) (mg_new d) (mg_oidc d) m (mg_users d).

Definition no_column {A} : result A string := Err "column does not exist"%string.

Definition exec_mig_stmt {X} (q : mig_stmt X) (d : mig_db) : result X string * mig_db :=
  match q in mig_stmt Y return result Y string * mig_db with
  | SelOidcPlain => (if mg_old d then Ok (ms_plain <$> mg_oidc d) else no_column, d)
  | UpdOidcSecret c n =>
      if mg_new d then (Ok tt, MigDb (mg_old d) (mg_new d) (set_encrypted c n <$> mg_oidc d) (mg_config d) (mg_users d)) else (no_column, d)
  | SelMailPassword => (Ok (mg_config d !! "smtp_password"%string), d)
  | DelMailPassword => (Ok tt, with_mail (delete "smtp_password"%string (mg_config d)) d)
  | InsConfig key value =>
      match mg_config d !! key with
      | Some _ => (Err "duplicate key value violates unique constraint"%string, d)
      | None => (Ok tt, with_mail (<[key := value]> (mg_config d)) d)
      end
  | SelTotp =>
      (if mg_old d then Ok (omap (fun kv : uuid * mig_secret => (kv.1,.) <$> ms_plain kv.2) (map_to_list (mg_users d))) else no_column, d)
  | UpdTotp id c n =>
      if mg_new d then (Ok tt, MigDb (mg_old d) (mg_new d) (mg_oidc d) (mg_config d) (alter (set_encrypted c n) id (mg_users d))) else (no_column, d)
  end.

(** The schema migration 020: new columns, old columns and the old row dropped. *)
Definition drop_plain (t : mig_secret) : mig_secret := MigSecret None (ms_encrypted t).
Definition schema_020 (d : mig_db) : mig_db :=
  MigDb false true (drop_plain <$> mg_oidc d) (delete "smtp_password"%string (mg_config d)) (drop_plain <$> mg_users d).

Inductive mig_eff : Type -> Type :=
| MigSql {X} (q : mig_stmt X) : mig_eff (result X string)
(** [crypto::load_or_create_key] *)
| MigKey : mig_eff (result vec_u8 string)
| MigRandom (n : nat) : mig_eff vec_u8.

(** ** The tool *)

Section Tool.
Context (aes_encrypt aes_decrypt : vec_u8 -> vec_u8 -> vec_u8 -> option vec_u8).

Definition msql {X} (q : mig_stmt X) : prog mig_eff (result X string) := trigger (MigSql q).

(** [crypto::encrypt], and the comparison of what decrypts from it. *)
Definition encrypt_verified (plaintext : string) (key : vec_u8) : prog mig_eff (result (vec_u8 * vec_u8) string) :=
  let! nonce := trigger (MigRandom 12) in
  Ret (match aes_encrypt key nonce (as_bytes plaintext) with
       | None => Err "Encryption failed"%string
       | Some c =>
           match decrypt aes_decrypt c nonce key with
           | Some (Ok recovered) => if String.eqb recovered plaintext then Ok (c, nonce) else Err "round-trip failed"%string
           | Some (Err e) => Err e
           | None => Err "panic"%string
           end
       end).

(** A failing query is taken for a column that is gone. *)
Definition read_oidc_client_secret : prog mig_eff (result (option string) string) :=
  let! row := msql SelOidcPlain in
  Ret (match row with Ok (Some secret) => Ok secret | _ => Ok None end).
Definition write_oidc_client_secret (plaintext : string) (key : vec_u8) : prog mig_eff (result unit string) :=
  let!? e := encrypt_verified plaintext key in msql (UpdOidcSecret e.1 e.2).

Definition read_smtp_password : prog mig_eff (result (option string) string) := msql SelMailPassword.
Definition write_smtp_password (plaintext : string) (key : vec_u8) : prog mig_eff (result unit string) :=
  let!? e := encrypt_verified plaintext key in
  let!? _ := msql DelMailPassword in
  let!? _ := msql (InsConfig "smtp_password_encrypted" (hex_encode e.1)) in
  msql (InsConfig "smtp_password_nonce" (hex_encode e.2)).

Fixpoint migrate_users (users : list (uuid * string)) (key : vec_u8) : prog mig_eff (result unit string) :=
  match users with
  | [] => Ret (Ok tt)
  | (id, plaintext) :: rest =>
      let!? e := encrypt_verified plaintext key in
      let!? _ := msql (UpdTotp id e.1 e.2) in
      migrate_users rest key
  end.
Definition migrate_totp_secrets (key : vec_u8) : prog mig_eff (result Z string) :=
  let!? users := msql SelTotp in
  let!? _ := migrate_users users key in
  Ret (Ok (Z.of_nat (length users))).

(** A secret that is read and not empty is written; the two counts. *)
Definition migrate_one (read : prog mig_eff (result (option string) string)) (write : string -> prog mig_eff (result unit string))
    : prog mig_eff (result (Z * Z) string) :=
  let!? secret := read in
  match secret with
  | Some plaintext => if String.eqb plaintext "" then Ret (Ok (0, 1)) else let!? _ := write plaintext in Ret (Ok (1, 0))
  | None => Ret (Ok (0, 1))
  end.

(** The secrets encrypted and skipped. *)
Definition migrate : prog mig_eff (result (Z * Z) string) :=
  let!? key := trigger MigKey in
  let!? a := migrate_one read_oidc_client_secret (fun p => write_oidc_client_secret p key) in
  let!? b := migrate_one read_smtp_password (fun p => write_smtp_password p key) in
  let!? n := migrate_totp_secrets key in
  Ret (Ok (a.1 + b.1 + n, a.2 + b.2)).
End Tool.

(** ** Theorems *)

Section World.
Context (aes_encrypt aes_decrypt : vec_u8 -> vec_u8 -> vec_u8 -> option vec_u8) (secret_key : vec_u8).
Context (Htag : forall key nonce text c, aes_encrypt key nonce text = Some c -> c <> []).

(** The tool alone on the database; and with statements that fail. *)
Definition mig_step (faulty : Prop) : EffectSem mig_eff mig_db := fun X e d x d' =>
  match e in mig_eff Y return Y -> Prop with
  | MigSql q => fun x => (x = (exec_mig_stmt q d).1 /\ d' = (exec_mig_stmt q d).2) \/
                         (faulty /\ exists m, x = Err m /\ (d' = d \/ d' = (exec_mig_stmt q d).2))
  | MigKey => fun x => x = Ok secret_key /\ d' = d
  | MigRandom n => fun x => length x = n /\ d' = d
  end x.
Definition mig_alone : EffectSem mig_eff mig_db := mig_step False.
#[local] Notation mwp := (@wp _ _ mig_alone _).

(** The new columns open to the text. *)
Definition opens (text : string) (e : option (vec_u8 * vec_u8)) : Prop :=
  exists c n, e = Some (c, n) /\ decrypt aes_decrypt c n secret_key = Some (Ok text).

Lemma mwp_msql {X} (q : mig_stmt X) Q d : Q (exec_mig_stmt q d).1 (exec_mig_stmt q d).2 -> mwp (msql q) Q d.
Proof using Type. intros HQ x d' [[-> ->]|[[] _]]. exact HQ. Qed.

Lemma mwp_bind_ok {A B} (p : prog mig_eff (result A string)) (f : A -> prog mig_eff (result B string)) Q d :
  mwp p (fun r t => match r with Ok a => mwp (f a) Q t | Err e => Q (Err e) t end) d -> mwp (bind_ok p f) Q d.
Proof using Type. intros Hp. apply wp_bind. eapply wp_mono; [|exact Hp]. by intros [a|e] t. Qed.

Lemma encrypt_verified_spec faulty text d :
  @wp _ _ (mig_step faulty) _ (encrypt_verified aes_encrypt aes_decrypt text secret_key) (fun r d' => d' = d /\ forall c n, r = Ok (c, n) ->
    length n = 12%nat /\ c <> [] /\ decrypt aes_decrypt c n secret_key = Some (Ok text)) d.
Proof using Htag.
  intros nonce d' [Hl ->]. cbn. split; [done|]. destruct (aes_encrypt _ _ _) as [c|] eqn:Hc; [|done].
  destruct (decrypt _ _ _ _) as [[r|e]|] eqn:Hd; try done. destruct (String.eqb_spec r text) as [->|]; [|done].
  intros c' n' [= <- <-]. split_and!; [done|by eapply Htag|done].
Qed.

(** What decrypts to a text does so from its bytes. *)
Lemma decrypt_bytes c n text : decrypt aes_decrypt c n secret_key = Some (Ok text) -> aes_decrypt secret_key n c = Some (as_bytes text).
Proof using Type.
  unfold decrypt. destruct (negb _); [done|]. destruct (aes_decrypt _ _ _) as [v|]; [|done]. destruct (is_utf8 v); [|done].
  intros [= <-]. by rewrite as_of_bytes.
Qed.

(** The rest of the tables. *)
Definition oidc_done (d d' : mig_db) : Prop :=
  forall t p, mg_old d = true -> mg_oidc d = Some t -> ms_plain t = Some p -> p <> ""%string ->
    exists t', mg_oidc d' = Some t' /\ opens p (ms_encrypted t').
Definition mail_done (d d' : mig_db) : Prop :=
  forall p, mg_config d !! "smtp_password"%string = Some p -> p <> ""%string ->
    holds_password aes_decrypt secret_key p (mg_config d') /\ mg_config d' !! "smtp_password"%string = None.
Definition users_done (d d' : mig_db) : Prop :=
  forall id t p, mg_users d !! id = Some t -> ms_plain t = Some p -> exists t', mg_users d' !! id = Some t' /\ opens p (ms_encrypted t').

Lemma migrate_oidc_spec d :
  mwp (migrate_one read_oidc_client_secret (fun p => write_oidc_client_secret aes_encrypt aes_decrypt p secret_key))
    (fun r d' => mg_config d' = mg_config d /\ mg_users d' = mg_users d /\ (forall v, r = Ok v -> oidc_done d d')) d.
Proof using Htag.
  unfold migrate_one, read_oidc_client_secret. apply mwp_bind_ok, wp_bind, mwp_msql. cbn [exec_mig_stmt fst snd wp].
  destruct (mg_old d) eqn:Hcol; [|cbn; split_and!; try done; intros v _ t p Hc; congruence].
  destruct (mg_oidc d) as [t|] eqn:Ht; cbn [fmap option_fmap option_map]; [|by split_and!; try done; intros v _ t' p' _ Hn; congruence].
  destruct (ms_plain t) as [p|] eqn:Hp; [|by split_and!; try done; intros v _ t' p' _ Hn ?; simplify_eq].
  destruct (String.eqb_spec p ""%string) as [->|Hne]; [split_and!; try done; intros v _ t' p' _ Hn ?; simplify_eq; congruence|].
  apply mwp_bind_ok. unfold write_oidc_client_secret. apply mwp_bind_ok. eapply wp_mono; [|apply encrypt_verified_spec].
  intros r d1 [-> Hr]. destruct r as [[c n]|e]; [|by split_and!]. apply mwp_msql. cbn [exec_mig_stmt].
  destruct (mg_new d); cbn; split_and!; try done. intros v _ t' p' _ Ht' Hp' _. simplify_eq. rewrite Ht. eexists. split; [done|]. exists c, n. split; [done|]. by apply Hr.
Qed.

Lemma migrate_mail_spec d :
  mwp (migrate_one read_smtp_password (fun p => write_smtp_password aes_encrypt aes_decrypt p secret_key))
    (fun r d' => mg_oidc d' = mg_oidc d /\ mg_users d' = mg_users d /\ (forall v, r = Ok v -> mail_done d d')) d.
Proof using Htag.
  unfold migrate_one, read_smtp_password, write_smtp_password. apply mwp_bind_ok, mwp_msql. cbn [exec_mig_stmt fst snd].
  destruct (mg_config d !! "smtp_password"%string) as [p|] eqn:Hp; [|by split_and!; try done; intros v _ p' Hn; congruence].
  destruct (String.eqb_spec p ""%string) as [->|Hne]; [cbn; split_and!; try done; intros v _ p' Hn; congruence|].
  apply mwp_bind_ok, mwp_bind_ok. eapply wp_mono; [|apply encrypt_verified_spec]. intros r d1 [-> Hr]. destruct r as [[c n]|e]; [|by split_and!].
  destruct (Hr c n eq_refl) as (Hl & Hc & Hd). apply mwp_bind_ok, mwp_msql. cbn [exec_mig_stmt fst snd].
  apply mwp_bind_ok, mwp_msql. cbn [exec_mig_stmt with_mail mg_config]. rewrite lookup_delete_ne by done.
  destruct (mg_config d !! "smtp_password_encrypted"%string) eqn:He; [by split_and!|]. cbn [fst snd].
  apply mwp_msql. cbn [exec_mig_stmt with_mail mg_config]. rewrite lookup_insert_ne, lookup_delete_ne by done.
  destruct (mg_config d !! "smtp_password_nonce"%string) eqn:Hn; [by split_and!|]. cbn. split_and!; [done|done|].
  intros v _ p' Hp' _. rewrite Hp in Hp'. injection Hp' as <-. unfold with_mail. cbn [mg_config fst snd]. split.
  - exists c, n. rewrite lookup_insert_ne, !lookup_insert_eq by done. split_and!; try done. by apply decrypt_bytes.
  - by rewrite !lookup_insert_ne, lookup_delete_eq by done.
Qed.

Lemma migrate_users_spec users d :
  (forall id p, (id, p) ∈ users -> is_Some (mg_users d !! id)) -> (forall id p q, (id, p) ∈ users -> (id, q) ∈ users -> p = q) ->
  mwp (migrate_users aes_encrypt aes_decrypt users secret_key) (fun r d' =>
    mg_oidc d' = mg_oidc d /\ mg_config d' = mg_config d /\
    (r = Ok tt ->
      (forall id p, (id, p) ∈ users -> exists t, mg_users d' !! id = Some t /\ opens p (ms_encrypted t)) /\
      (forall id, id ∉ users.*1 -> mg_users d' !! id = mg_users d !! id))) d.
Proof using Htag.
  revert d. induction users as [|[id p] users IH]; intros d Hin Heq.
  { split_and!; [done|done|]. intros _. split; [|done]. by intros id p ?%elem_of_nil. }
  cbn [migrate_users]. apply mwp_bind_ok. eapply wp_mono; [|apply encrypt_verified_spec]. intros r d1 [-> Hr]. destruct r as [[c n]|e]; [|by split_and!].
  destruct (Hr c n eq_refl) as (_ & _ & Hd). apply mwp_bind_ok, mwp_msql. cbn [exec_mig_stmt]. destruct (mg_new d); cbn [fst snd]; [|by split_and!].
  eapply wp_mono; [|apply IH].
  - intros r d' (Ho & Hc & Hok). cbn [mg_oidc mg_config mg_users] in *. split_and!; [done|done|]. intros [Hall Hrest]%Hok. split.
    + intros id' p' [[= -> ->]|Hin']%elem_of_cons; [|by apply Hall].
      destruct (decide (id ∈ users.*1)) as [[[i q] [-> Hq]]%list_elem_of_fmap|Hn].
      * cbn in *. rewrite (Heq i p q) by (by left || by right). by apply Hall.
      * rewrite Hrest, lookup_alter_eq by done. destruct (Hin id p) as [t ->]; [by left|]. eexists. split; [done|]. by exists c, n.
    + intros id' Hid. cbn in Hid. apply not_elem_of_cons in Hid as [Hne Hid]. rewrite Hrest by done. by rewrite lookup_alter_ne.
  - intros id' p' Hin'. cbn [mg_users]. apply lookup_alter_is_Some. apply (Hin id' p'). by right.
  - intros id' p' q' H1 H2. apply (Heq id'); by right.
Qed.

Lemma migrate_totp_spec d :
  mwp (migrate_totp_secrets aes_encrypt aes_decrypt secret_key)
    (fun r d' => mg_oidc d' = mg_oidc d /\ mg_config d' = mg_config d /\ (forall v, r = Ok v -> users_done d d')) d.
Proof using Htag.
  unfold migrate_totp_secrets. apply mwp_bind_ok, mwp_msql. cbn [exec_mig_stmt fst snd]. destruct (mg_old d); [|by split_and!]. set (users := omap _ _).
  assert (forall id p, (id, p) ∈ users <-> exists t, mg_users d !! id = Some t /\ ms_plain t = Some p) as Hu.
  { intros id p. unfold users. rewrite list_elem_of_omap. split.
    - intros ([i t] & Ht & Hp). apply elem_of_map_to_list in Ht. cbn in Hp. destruct (ms_plain t) eqn:E; simplify_eq/=. by exists t.
    - intros (t & Ht & Hp). exists (id, t). rewrite elem_of_map_to_list. cbn. by rewrite Hp. }
  apply mwp_bind_ok. eapply wp_mono; [|apply migrate_users_spec].
  - intros r d' (Ho & Hc & Hok). destruct r as [[]|e]; cbn [wp]; split_and!; try done. intros v _ id t p Ht Hp.
    apply (proj1 (Hok eq_refl)). apply Hu. by exists t.
  - intros id p (t & -> & _)%Hu. by eexists.
  - intros id p q (t & Ht & Hp)%Hu (t' & Ht' & Hq)%Hu. congruence.
Qed.

(** Were there the old columns and the new ones, a migration that ends well would
    have lost nothing: the new columns of the identity provider and of every user
    open to the old text, the worker finds the password of the mail server
    encrypted, and its plaintext is gone. *)
Theorem migration_with_both_columns d :
  mwp (migrate aes_encrypt aes_decrypt) (fun r d' => forall counts, r = Ok counts -> oidc_done d d' /\ mail_done d d' /\ users_done d d') d.
Proof using Htag.
  unfold migrate. apply mwp_bind_ok. intros k d0 [-> ->]. cbn [wp].
  apply mwp_bind_ok. eapply wp_mono; [|apply migrate_oidc_spec]. intros [a|e] d1 (Hc1 & Hu1 & H1); [|by intros ?].
  apply mwp_bind_ok. eapply wp_mono; [|apply migrate_mail_spec]. intros [b|e] d2 (Ho2 & Hu2 & H2); [|by intros ?].
  apply mwp_bind_ok. eapply wp_mono; [|apply migrate_totp_spec]. intros [n|e] d3 (Ho3 & Hc3 & H3); [|by intros ?].
  intros counts _. specialize (H1 _ eq_refl). specialize (H2 _ eq_refl). specialize (H3 _ eq_refl). split_and!.
  - intros t p Hcol Ht Hp Hne. rewrite Ho3, Ho2. by apply (H1 t p).
  - intros p Hp Hne. rewrite Hc3. apply H2; [by rewrite Hc1|done].
  - intros id t p Ht Hp. rewrite <- Hu1, <- Hu2 in Ht. by apply (H3 id t p).
Qed.

(** But no schema has both: before migration 020 there are no new columns, so
    that a migration that ends well has found neither a client secret nor a second
    factor; after it there are no old columns, so that none ends well, and the
    plaintexts are dropped. *)
Theorem migration_fits_no_schema d :
  mg_old d = true -> mg_new d = false ->
  mwp (migrate aes_encrypt aes_decrypt) (fun r d' => forall counts, r = Ok counts ->
    (forall t p, mg_oidc d = Some t -> ms_plain t = Some p -> p = ""%string) /\
    (forall id t p, mg_users d !! id = Some t -> ms_plain t <> Some p)) d /\
  mwp (migrate aes_encrypt aes_decrypt) (fun r d' => exists e, r = Err e) (schema_020 d).
Proof using Htag.
  intros Hold Hnew. split.
  - unfold migrate. apply mwp_bind_ok. intros k d0 [-> ->]. cbn [wp]. apply mwp_bind_ok.
    apply (wp_mono _ (fun r d1 => mg_users d1 = mg_users d /\ mg_old d1 = true /\ mg_new d1 = false /\
             forall v, r = Ok v -> forall t p, mg_oidc d = Some t -> ms_plain t = Some p -> p = ""%string)).
    2:{ unfold migrate_one, read_oidc_client_secret. apply mwp_bind_ok, wp_bind, mwp_msql. cbn [exec_mig_stmt fst snd wp]. rewrite Hold.
        destruct (mg_oidc d) as [t|] eqn:Ht; cbn [fmap option_fmap option_map]; [|done].
        destruct (ms_plain t) as [p|] eqn:Hp; [|by split_and!; try done; intros v _ t' p' ??; simplify_eq].
        destruct (String.eqb_spec p ""%string) as [->|Hne]; [by split_and!; try done; intros v _ t' p' ??; simplify_eq|].
        apply mwp_bind_ok. unfold write_oidc_client_secret. apply mwp_bind_ok. eapply wp_mono; [|apply encrypt_verified_spec].
        intros r d1 [-> Hr]. destruct r as [[c n]|e]; [|by split_and!]. apply mwp_msql. cbn [exec_mig_stmt]. rewrite Hnew. by split_and!. }
    intros [a|e] d1 (Hu1 & Ho1 & Hn1 & H1); [|by intros ??]. specialize (H1 a eq_refl). apply mwp_bind_ok.
    apply (wp_mono _ (fun r d2 => mg_users d2 = mg_users d /\ mg_old d2 = true /\ mg_new d2 = false)).
    2:{ rewrite <- Hu1, <- Ho1, <- Hn1. unfold migrate_one, read_smtp_password, write_smtp_password. apply mwp_bind_ok, mwp_msql. cbn [exec_mig_stmt fst snd].
        destruct (mg_config d1 !! _) as [p|]; [|done]. destruct (String.eqb p ""); [done|]. apply mwp_bind_ok, mwp_bind_ok.
        eapply wp_mono; [|apply encrypt_verified_spec]. intros r d2 [-> _]. destruct r as [[c n]|e]; [|done].
        apply mwp_bind_ok, mwp_msql. cbn [exec_mig_stmt fst snd]. apply mwp_bind_ok, mwp_msql. cbn [exec_mig_stmt].
        destruct (mg_config _ !! _); [done|]. cbn [fst snd]. apply mwp_msql. cbn [exec_mig_stmt]. by destruct (mg_config _ !! _). }
    intros [b|e] d2 (Hu2 & Ho2 & Hn2); [|by intros ??]. unfold migrate_totp_secrets. apply mwp_bind_ok, mwp_bind_ok, mwp_msql.
    cbn [exec_mig_stmt fst snd]. rewrite Ho2. set (users := omap _ _). apply mwp_bind_ok. destruct users as [|[uid text] rest] eqn:Hus.
    + cbn [migrate_users wp]. intros counts _. split; [done|]. intros id t p Ht Hp. rewrite <- Hu2 in Ht.
      assert ((id, p) ∈ users) as Hin by (apply list_elem_of_omap; exists (id, t); split; [by apply elem_of_map_to_list|cbn; by rewrite Hp]).
      rewrite Hus in Hin. by apply elem_of_nil in Hin.
    + cbn [migrate_users]. apply mwp_bind_ok. eapply wp_mono; [|apply encrypt_verified_spec]. intros r d3 [-> _]. destruct r as [[c n]|e]; [|by intros ??].
      apply mwp_bind_ok, mwp_msql. cbn [exec_mig_stmt]. rewrite Hn2. by intros ??.
  - unfold migrate. apply mwp_bind_ok. intros k d0 [-> ->]. cbn [wp]. apply mwp_bind_ok. unfold migrate_one at 1, read_oidc_client_secret.
    apply mwp_bind_ok, wp_bind, mwp_msql. cbn [exec_mig_stmt fst snd wp schema_020 mg_old].
    apply mwp_bind_ok. unfold migrate_one, read_smtp_password. apply mwp_bind_ok, mwp_msql. cbn [exec_mig_stmt fst snd schema_020 mg_config].
    rewrite lookup_delete_eq. cbn [wp]. unfold migrate_totp_secrets. apply mwp_bind_ok, mwp_bind_ok, mwp_msql. cbn [exec_mig_stmt fst snd schema_020 mg_old].
    by eexists.
Qed.

(** *** With statements that fail *)

#[local] Notation fwp := (@wp _ _ (mig_step True) _).

Lemma fwp_msql {X} (q : mig_stmt X) Q d :
  Q (exec_mig_stmt q d).1 (exec_mig_stmt q d).2 -> (forall m, Q (Err m) d /\ Q (Err m) (exec_mig_stmt q d).2) -> fwp (msql q) Q d.
Proof using Type. intros HQ He x d' [[-> ->]|(_ & m & -> & [-> | ->])]; [exact HQ|apply He..]. Qed.

Lemma fwp_bind_ok {A B} (p : prog mig_eff (result A string)) (f : A -> prog mig_eff (result B string)) Q d :
  fwp p (fun r t => match r with Ok a => fwp (f a) Q t | Err e => Q (Err e) t end) d -> fwp (bind_ok p f) Q d.
Proof using Type. intros Hp. apply wp_bind. eapply wp_mono; [|exact Hp]. by intros [a|e] t. Qed.

(** The columns of the schemas: the old ones before migration 020, the new ones after it. *)
Definition real_schema (d : mig_db) : Prop := mg_old d = negb (mg_new d).

(** All but the table [system_config]. *)
Definition same_columns (d d' : mig_db) : Prop :=
  mg_old d' = mg_old d /\ mg_new d' = mg_new d /\ mg_oidc d' = mg_oidc d /\ mg_users d' = mg_users d.

Lemma real_oidc d : real_schema d ->
  fwp (migrate_one read_oidc_client_secret (fun p => write_oidc_client_secret aes_encrypt aes_decrypt p secret_key)) (fun _ d' => d' = d) d.
Proof using Htag.
  intros Hreal. unfold migrate_one, read_oidc_client_secret. apply fwp_bind_ok, wp_bind. apply fwp_msql; cbn [exec_mig_stmt fst snd]; [|by intros m].
  destruct (mg_old d) eqn:Hold; [|done]. unfold real_schema in Hreal. rewrite Hold in Hreal. symmetry in Hreal. apply negb_true_iff in Hreal.
  destruct (mg_oidc d) as [t|]; cbn [fmap option_fmap option_map wp]; [|done]. destruct (ms_plain t) as [p|]; [|done].
  destruct (String.eqb p ""); [done|]. apply fwp_bind_ok. unfold write_oidc_client_secret. apply fwp_bind_ok.
  eapply wp_mono; [|apply encrypt_verified_spec]. intros [[c n]|e] d1 [-> _]; [|done].
  apply fwp_msql; cbn [exec_mig_stmt]; rewrite Hreal; [done|by intros m].
Qed.

Lemma real_totp d : real_schema d ->
  fwp (migrate_totp_secrets aes_encrypt aes_decrypt secret_key) (fun r d' => d' = d /\ forall n, r = Ok n ->
    mg_old d = true /\ forall id t, mg_users d !! id = Some t -> ms_plain t = None) d.
Proof using Htag.
  intros Hreal. unfold migrate_totp_secrets. apply fwp_bind_ok. apply fwp_msql; cbn [exec_mig_stmt fst snd]; [|by intros m].
  destruct (mg_old d) eqn:Hold; [|done]. unfold real_schema in Hreal. rewrite Hold in Hreal. symmetry in Hreal. apply negb_true_iff in Hreal.
  set (users := omap _ _). apply fwp_bind_ok. destruct users as [|[uid text] rest] eqn:Hus; cbn [migrate_users wp].
  - split; [done|]. intros n _. split; [done|]. intros id t Ht. destruct (ms_plain t) as [p|] eqn:Hp; [|done]. exfalso.
    assert ((id, p) ∈ users) as Hin by (apply list_elem_of_omap; exists (id, t); split; [by apply elem_of_map_to_list|cbn; by rewrite Hp]).
    rewrite Hus in Hin. by apply elem_of_nil in Hin.
  - apply fwp_bind_ok. eapply wp_mono; [|apply encrypt_verified_spec]. intros [[c n]|e] d1 [-> _]; [|done].
    apply fwp_bind_ok. apply fwp_msql; cbn [exec_mig_stmt]; rewrite Hreal; [done|by intros m].
Qed.

Lemma real_mail d :
  fwp (migrate_one read_smtp_password (fun p => write_smtp_password aes_encrypt aes_decrypt p secret_key))
    (fun r d' => same_columns d d' /\ forall v, r = Ok v -> mail_done d d') d.
Proof using Htag.
  unfold migrate_one, read_smtp_password, write_smtp_password. apply fwp_bind_ok, fwp_msql; cbn [exec_mig_stmt fst snd]; [|by intros m].
  destruct (mg_config d !! "smtp_password"%string) as [p|] eqn:Hp; [|by split; [|intros v _ p' Hn; congruence]].
  destruct (String.eqb_spec p ""%string) as [->|Hne]; [split; [done|]; intros v _ p' Hn; congruence|].
  apply fwp_bind_ok, fwp_bind_ok. eapply wp_mono; [|apply encrypt_verified_spec]. intros r d1 [-> Hr]. destruct r as [[c n]|e]; [|by split].
  destruct (Hr c n eq_refl) as (Hl & Hc & Hd). apply fwp_bind_ok, fwp_msql; cbn [exec_mig_stmt fst snd]; [|by intros m].
  apply fwp_bind_ok. apply fwp_msql; cbn [exec_mig_stmt with_mail mg_config]; rewrite lookup_delete_ne by done;
    destruct (mg_config d !! "smtp_password_encrypted"%string) eqn:He; cbn [fst snd]; try (by split); [].
  apply fwp_msql; cbn [exec_mig_stmt with_mail mg_config]; rewrite lookup_insert_ne, lookup_delete_ne by done;
    destruct (mg_config d !! "smtp_password_nonce"%string) eqn:Hn; cbn [fst snd]; try (by split); [].
  split; [done|]. intros v _ p' Hp' _. rewrite Hp in Hp'. injection Hp' as <-. unfold with_mail. cbn [mg_config fst snd]. split.
  - exists c, n. rewrite lookup_insert_ne, !lookup_insert_eq by done. split_and!; try done. by apply decrypt_bytes.
  - by rewrite !lookup_insert_ne, lookup_delete_eq by done.
Qed.

(** C37. On the tables as they are before schema migration 020 or after it, and
    whatever statements fail (a failing read of the client secret goes unnoticed):
    the tool leaves the client secret and the second factors as they were, and it
    ends well only before the migration, with no second factor set; then the
    worker finds the password of the mail server encrypted, and its plaintext is
    gone.  The cipher is not trusted: a ciphertext is opened before it is stored. *)
Theorem migration_keeps_secrets d :
  real_schema d ->
  fwp (migrate aes_encrypt aes_decrypt) (fun r d' => same_columns d d' /\ forall counts, r = Ok counts ->
    mg_old d = true /\ (forall id t, mg_users d !! id = Some t -> ms_plain t = None) /\ mail_done d d') d.
Proof using Htag.
  intros Hreal. unfold migrate. apply fwp_bind_ok. intros k d0 [-> ->]. cbn [wp].
  apply fwp_bind_ok. eapply wp_mono; [|by apply real_oidc]. intros [a|e] d1 ->; [|by split].
  apply fwp_bind_ok. eapply wp_mono; [|apply real_mail]. intros [b|e] d2 [Hs Hm]; [|by split].
  pose proof Hs as (Ho & Hn & _ & Hu).
  apply fwp_bind_ok. eapply wp_mono; [|apply real_totp; unfold real_schema; by rewrite Ho, Hn].
  intros [n|e] d3 [-> Ht]; [|by split]. cbn [wp]. split; [done|]. intros counts _. destruct (Ht n eq_refl) as [Hold Hnone].
  rewrite Ho in Hold. rewrite Hu in Hnone. split_and!; [done|done|by eapply Hm].
Qed.

(** *** What goes wrong *)

(** A migration that is cut off between two statements may have lost the
    password of the mail server, which is deleted before it is stored. *)
Theorem migration_may_lose_password d p c n :
  mg_old d = false -> mg_config d !! "smtp_password"%string = Some p -> p <> ""%string ->
  length n = 12%nat -> aes_encrypt secret_key n (as_bytes p) = Some c -> aes_decrypt secret_key n c = Some (as_bytes p) -> is_utf8 (as_bytes p) = true ->
  @may _ _ (mig_step True) _ (migrate aes_encrypt aes_decrypt) (fun r d' => (exists e, r = Err e) /\
    mg_config d' = delete "smtp_password"%string (mg_config d)) d.
Proof using Type.
  intros Hcol Hp Hne Hl Hc Hd Hu. exists (Ok secret_key), d. split; [done|]. cbn [bind].
  exists (Err "column does not exist"%string), d. split; [left; cbn; by rewrite Hcol|]. cbn [bind].
  exists (Ok (Some p)), d. split; [left; cbn; by rewrite Hp|]. cbn [bind]. rewrite (proj2 (String.eqb_neq _ _) Hne).
  exists n, d. split; [done|]. cbn [bind]. rewrite Hc. unfold decrypt. rewrite Hl. cbn [Nat.eqb negb]. rewrite Hd, Hu, of_as_bytes, String.eqb_refl. cbn [bind].
  exists (Ok tt), (with_mail (delete "smtp_password"%string (mg_config d)) d). split; [by left|]. cbn [bind].
  exists (Err "connection lost"%string), (with_mail (delete "smtp_password"%string (mg_config d)) d).
  split; [right; split; [done|]; eexists; split; [done|by left]|]. cbn. split; [by eexists|done].
Qed.
End World.

(** ** At work *)

Definition demo_old : mig_db := MigDb true true (Some (MigSecret (Some "oidc"%string) None))
  {["smtp_password"%string := "mail"%string]} {[7%N := MigSecret (Some "totp"%string) None; 8%N := MigSecret None None]}.

Definition mig_answers (X : Type) (e : mig_eff X) (d : mig_db) : X * mig_db :=
  match e in mig_eff Y return Y * mig_db with
  | MigSql q => exec_mig_stmt q d
  | MigKey => (Ok [], d)
  | MigRandom n => (replicate n "r"%char, d)
  end.

Lemma demo_migration : (run mig_answers (migrate demo_encrypt demo_decrypt) demo_old).1 = Ok (3, 0).
Proof. by vm_compute. Qed.

(** Before migration 020, with a password of the mail server. *)
Definition demo_before : mig_db := MigDb true false (Some (MigSecret None None)) {["smtp_password"%string := "mail"%string]} {[8%N := MigSecret None None]}.

Lemma migration_keeps_secrets_witness :
  (run mig_answers (migrate demo_encrypt demo_decrypt) demo_before).1 = Ok (1, 1) /\
  @wp _ _ (mig_step [] True) _ (migrate demo_encrypt demo_decrypt) (fun r d' => same_columns demo_before d' /\ forall counts, r = Ok counts ->
    mg_old demo_before = true /\ (forall id t, mg_users demo_before !! id = Some t -> ms_plain t = None) /\ mail_done demo_decrypt [] demo_before d') demo_before.
Proof.
  split; [by vm_compute|]. apply (migration_keeps_secrets demo_encrypt demo_decrypt []); [|reflexivity].
  intros key nonce text c [= <-]. discriminate.
Defined.
