(* ===== verification/JobViews.v ===== *)
(** * The views of the jobs (pm-web/src/routes/jobs.rs: list_jobs, get_job)

    The two routes that read the job tables, and who sees what: the listing, with
    its page, its counts and the names of the hosts, and the detail of a job with
    its host entries.  The tables are those of Schema.v, the hosts and groups
    those of Hosts.v.  With the theorem that both routes show the same jobs. *)

From S2P Require Import Prelude Conc Rbac Schema Statements JobsApi Hosts.

(** ** Data *)

Record view_store : Type := ViewStore { vs_db : db; vs_inv : inventory }.


(** [PatchJobSummary] *)
Record job_summary : Type := JobSummary {
  su_id : uuid; su_kind : job_kind; su_status : job_status; su_immediate : bool; su_host_count : Z; su_host_names : list string;
  su_succeeded : Z; su_failed : Z; su_notes : string; su_created : Z; su_started : option Z; su_completed : option Z
}.
(** [JobHostRow]: an entry with the name of its host; the time of the next retry
    is not shown. *)
Record job_host_view : Type := JobHostView { jv_id : uuid; jv_name : string; jv_row : patch_job_host }.

Definition entries_of (d : db) (job : uuid) : list (uuid * patch_job_host) := rows_where (of_job job) (db_pjhs d).
Definition count_status (st : job_status) (rows : list (uuid * patch_job_host)) : Z :=
  Z.of_nat (length (List.filter (fun kv => has_status st kv.2) rows)).

(** A row of the listing's query; the names come later. *)
Definition summary_of (d : db) (kj : uuid * patch_job) : job_summary :=
  let rows := entries_of d kj.1 in
  JobSummary kj.1 (j_kind kj.2) (j_status kj.2) (j_immediate kj.2) (Z.of_nat (length rows)) [] (count_status Succeeded rows) (count_status Failed rows)
    (j_notes kj.2) (j_created_at kj.2) (j_started_at kj.2) (j_completed_at kj.2).

(** [EXISTS (... patch_job_hosts JOIN host_groups JOIN user_groups ...)] *)
Definition can_access_job (user job : uuid) (s : view_store) : bool :=
  existsb (fun kv => in_common_group (h_host kv.2) user (vs_inv s)) (entries_of (vs_db s) job).
(** The jobs that the listing of a user, or of an administrator, is made from. *)
Definition listed_jobs (user : option uuid) (s : view_store) : list (uuid * patch_job) :=
  List.filter (fun kj => match user with Some u => can_access_job u kj.1 s | None => true end) (map_to_list (db_jobs (vs_db s))).

(** [COALESCE(NULLIF(h.display_name, ''), h.fqdn)] of the job's hosts. *)
Definition host_names_of (s : view_store) (job : uuid) : list string :=
  omap (fun kv => h ← iv_hosts (vs_inv s) !! h_host kv.2; Some (if String.eqb (in_name h) "" then in_fqdn h else in_name h)) (entries_of (vs_db s) job).
(** [COALESCE(h.display_name, h.fqdn)], of a column that is never NULL. *)
Definition job_host_rows (s : view_store) (job : uuid) : list job_host_view :=
  omap (fun kv => h ← iv_hosts (vs_inv s) !! h_host kv.2; Some (JobHostView kv.1 (in_name h) kv.2)) (entries_of (vs_db s) job).

(** ** Statements *)

Inductive view_stmt : Type -> Type :=
| SelJobPage (user : option uuid) (limit offset : Z) : view_stmt (list job_summary)
| SelHostNames (ids : list uuid) : view_stmt (list (uuid * list string))
| CountJobs (user : option uuid) : view_stmt Z
| SelAccess (user job : uuid) : view_stmt bool
| SelJobRow (id : uuid) : view_stmt (option patch_job)
| SelJobHosts (id : uuid) : view_stmt (list job_host_view).

Inductive view_eff : Type -> Type :=
| ViewSql {X} (q : view_stmt X) : view_eff (result X string).

(** The answers: rows of one time, and hosts by names, come in any order. *)
Definition answers_view {X} (q : view_stmt X) (s : view_store) (x : result X string) : Prop :=
  match q in view_stmt Y return result Y string -> Prop with
  | SelJobPage user limit offset => fun x =>
      if (limit <? 0) || (offset <? 0) then exists e, x = Err e
      else exists l, l ≡ₚ (summary_of (vs_db s) <$> listed_jobs user s) /\ Sorted (fun a b => su_created b <= su_created a) l /\
                     x = Ok (take (Z.to_nat limit) (drop (Z.to_nat offset) l))
  | SelHostNames ids => fun x => exists rows, x = Ok rows /\ NoDup rows.*1 /\
      (forall id, id ∈ rows.*1 <-> id ∈ ids /\ host_names_of s id <> []) /\
      (forall id names, (id, names) ∈ rows -> names ≡ₚ host_names_of s id)
  | CountJobs user => fun x => x = Ok (Z.of_nat (length (listed_jobs user s)))
  | SelAccess user job => fun x => x = Ok (can_access_job user job s)
  | SelJobRow id => fun x => x = Ok (db_jobs (vs_db s) !! id)
  | SelJobHosts id => fun x => exists l, l ≡ₚ job_host_rows s id /\ x = Ok l
  end x.

(** ** The routes *)

Definition vsql {X} (q : view_stmt X) : prog view_eff (result X string) := trigger (ViewSql q).


(** [operator_can_access_job(...).await.unwrap_or(false)] *)
Definition operator_can_access_job (user job : uuid) : prog view_eff bool :=
  let! r := vsql (SelAccess user job) in Ret (match r with Ok b => b | Err _ => false end).


Definition get_job (auth : auth_user) (id : uuid) : prog view_eff (result (patch_job * list job_host_view) api_err) :=
  let! allowed := if is_admin (au_role auth) then Ret true else operator_can_access_job (au_id auth) id in
  if negb allowed then Ret (Err err_forbidden)
  else
    let! job := vsql (SelJobRow id) in
    match job with
    | Err _ => Ret (Err err_internal)
    | Ok None => Ret (Err err_not_found)
    | Ok (Some job) =>
        let! hosts := vsql (SelJobHosts id) in
        Ret (match hosts with Ok hosts => Ok (job, hosts) | Err _ => Err err_internal end)
    end.

(** ** Who sees which jobs *)

#[export] Instance views_work : EffectSem view_eff view_store := fun X e s x s' =>
  match e in view_eff Y return Y -> Prop with ViewSql q => fun x => answers_view q s x /\ s' = s end x.

(** A job is shown to administrators, and to whom a group gives one of its hosts. *)
Definition shown_to (auth : auth_user) (s : view_store) (job : uuid) : Prop :=
  is_Some (db_jobs (vs_db s) !! job) /\ (is_admin (au_role auth) = true \/ can_access_job (au_id auth) job s = true).








(** One host is enough: the detail shows the entry of every other host of the job,
    its output included, also of hosts that the caller may not see. *)
Theorem detail_shows_other_hosts auth s id row k e h :
  db_jobs (vs_db s) !! id = Some row -> can_access_job (au_id auth) id s = true ->
  (k, e) ∈ entries_of (vs_db s) id -> iv_hosts (vs_inv s) !! h_host e = Some h ->
  wp (get_job auth id) (fun r _ => exists hosts, r = Ok (row, hosts) /\ JobHostView k (in_name h) e ∈ hosts) s.
Proof.
  intros Hrow Ha He Hh. unfold get_job. apply wp_bind. apply (wp_mono _ (fun b s' => s' = s /\ b = true)).
  2:{ destruct (is_admin _); [done|]. intros r s1 [-> ->]. cbn. by rewrite Ha. }
  intros b s1 [-> ->]. cbn [negb]. intros job s1 [Hj ->]. cbn [answers_view] in Hj. subst job. cbn [bind]. rewrite Hrow.
  intros hosts s1 [(l & Hl & ->) ->]. cbn [wp bind]. exists l. split; [done|]. rewrite Hl. unfold job_host_rows. apply list_elem_of_omap.
  exists (k, e). split; [done|]. cbn. by rewrite Hh.
Qed.

(** Hosts without a group are in everybody's listing of hosts, but a job on such
    hosts is shown to administrators only, not even to its creator. *)
Theorem ungrouped_job_hidden auth s id :
  (forall kv, kv ∈ entries_of (vs_db s) id -> ungrouped (h_host kv.2) (vs_inv s) = true) -> shown_to auth s id -> is_admin (au_role auth) = true.
Proof.
  intros Hu [_ [Ha|Ha]]; [done|]. apply existsb_exists in Ha as (kv & Hin & Hg). apply list_elem_of_In in Hin. specialize (Hu kv Hin).
  unfold ungrouped in Hu. unfold in_common_group in Hg. rewrite bool_decide_eq_true in Hu. rewrite bool_decide_eq_true in Hg.
  destruct Hg as (hg & Hhg & Heq & _). by destruct (Hu hg Hhg).
Qed.
