(* ===== verification/FleetStatus.v ===== *)
(** * The state of the fleet (pm-web/src/routes/status.rs)

    The one route of the dashboard: what it counts in the tables of the pollers
    and of the health checks, query by query; that its numbers fit together, and
    how its failed checks relate to the gate of the job executor. *)

From S2P Require Import Prelude Conc Rbac Health Pollers HealthChecks Schema Windows Statements HealthFlow.

(** The tables it reads. *)
Record fleet_view : Type := FleetView { fv_fleet : fleet_db; fv_checks : checks_db }.

(** [FleetStatus]; the percentage in tenths. *)
Record fleet_status_answer : Type := FleetStatus {
  fs_total : Z; fs_healthy : Z; fs_degraded : Z; fs_unreachable : Z; fs_pending : Z;
  fs_pending_patches : Z; fs_reboot : Z; fs_compliance_tenths : Z;
  fs_crl_valid : Z; fs_crl_expired : Z; fs_crl_missing : Z; fs_crl_invalid : Z; fs_crl_not_reporting : Z;
  fs_failed_checks : Z
}.

Inductive status_stmt : Type -> Type :=
| CountHealth : status_stmt (Z * Z * Z * Z * Z)
| SumPatches : status_stmt Z
| CountReboot : status_stmt Z
| CountCompliant : status_stmt (Z * Z)
| CountCrl : status_stmt (Z * Z * Z * Z * Z)
| CountFailed : status_stmt Z.
Inductive status_eff : Type -> Type :=
| StatusSql {X} (q : status_stmt X) : status_eff (result X string).

Definition with_health (st : host_health_status) (h : fleet_host) : bool := bool_decide (hc_status (fh_cols h) = st).
Definition with_crl (st : option string) (h : fleet_host) : bool := bool_decide (hc_crl_status (fh_cols h) = st).
(** [hc.enabled = TRUE AND lr.healthy = FALSE] of the latest result. *)
Definition failed_check (d : checks_db) (kv : uuid * check_row) : bool :=
  ck_enabled kv.2 && bool_decide (cr_healthy <$> latest_of kv.1 (cd_results d) = Some false).

(** A host has at most one row of patches, so the latest is its only one. *)
Definition exec_status_stmt {X} (q : status_stmt X) (v : fleet_view) : X :=
  let hosts := fd_hosts (fv_fleet v) in
  let patches := fd_patches (fv_fleet v) in
  match q in status_stmt Y return Y with
  | CountHealth => (count_where (fun _ => true) hosts, count_where (with_health Healthy) hosts, count_where (with_health Degraded) hosts,
                    count_where (with_health Unreachable) hosts, count_where (with_health PendingHealth) hosts)
  | SumPatches => List.fold_right Z.add 0 (pw_patch_count ∘ snd <$> map_to_list patches)
  | CountReboot => count_where (fun h => hc_pending_reboot (fh_cols h)) hosts
  | CountCompliant => (count_where (fun r => pw_patch_count r =? 0) patches, count_where (fun _ => true) patches)
  | CountCrl => (count_where (with_crl (Some "valid"%string)) hosts, count_where (with_crl (Some "expired"%string)) hosts,
                 count_where (with_crl (Some "missing"%string)) hosts, count_where (with_crl (Some "invalid"%string)) hosts, count_where (with_crl None) hosts)
  | CountFailed => Z.of_nat (length (List.filter (failed_check (fv_checks v)) (map_to_list (cd_checks (fv_checks v)))))
  end.

Section Route.
(** The floating-point percentage of two counts, in tenths. *)
Context (percent_tenths : Z -> Z -> Z).

Definition status_sql {X} (q : status_stmt X) : prog status_eff (result X api_err) :=
  let! r := trigger (StatusSql q) in Ret (match r with Ok x => Ok x | Err _ => Err (ApiErr 500 "internal_error") end).

Definition fleet_status : prog status_eff (result fleet_status_answer api_err) :=
  let!? health := status_sql CountHealth in
  let '(total, healthy, degraded, unreachable, pending) := health in
  let!? pending_patches := status_sql SumPatches in
  let!? reboot := status_sql CountReboot in
  let!? compliant := status_sql CountCompliant in
  let compliance := if compliant.2 =? 0 then 1000 else percent_tenths compliant.1 compliant.2 in
  let!? crl := status_sql CountCrl in
  let '(valid, expired, missing, invalid, none) := crl in
  let!? failed := status_sql CountFailed in
  Ret (Ok (FleetStatus total healthy degraded unreachable pending pending_patches reboot compliance valid expired missing invalid none failed)).
End Route.

(** ** Theorems *)

#[export] Instance status_works : EffectSem status_eff fleet_view := fun X e v x v' =>
  match e in status_eff Y return Y -> Prop with StatusSql q => fun x => x = Ok (exec_status_stmt q v) /\ v' = v end x.

Lemma wp_status_sql {X A} (q : status_stmt X) (f : X -> prog status_eff (result A api_err)) Q v :
  wp (f (exec_status_stmt q v)) Q v -> wp (bind_ok (status_sql q) f) Q v.
Proof. intros Hf x v' [-> ->]. exact Hf. Qed.

Lemma count_where_add {A} (f g h : A -> bool) (m : gmap uuid A) :
  (forall a, (f a = true /\ g a = false \/ f a = false /\ g a = true) /\ h a = true \/ f a = false /\ g a = false /\ h a = false) ->
  count_where f m + count_where g m = count_where h m.
Proof.
  intros Hfg. unfold count_where, rows_where. induction (map_to_list m) as [|[k a] l IH]; [done|]. cbn [List.filter snd].
  destruct (Hfg a) as [[[[-> ->]|[-> ->]] ->]|(-> & -> & ->)]; cbn [length]; lia.
Qed.

(** The numbers of the dashboard fit together: every host has one of the four
    states of health; no more hosts report one of the four states of their
    revocation list, or none, than there are; and, with a percentage that is one,
    the share of compliant hosts is between 0 and 100 per cent. *)
Theorem fleet_status_adds_up percent v :
  (forall a b, 0 <= a <= b -> 0 < b -> 0 <= percent a b <= 1000) ->
  wp (fleet_status percent) (fun r v' => v' = v /\ exists s, r = Ok s /\
    fs_total s = Z.of_nat (size (fd_hosts (fv_fleet v))) /\
    fs_healthy s + fs_degraded s + fs_unreachable s + fs_pending s = fs_total s /\
    fs_crl_valid s + fs_crl_expired s + fs_crl_missing s + fs_crl_invalid s + fs_crl_not_reporting s <= fs_total s /\
    0 <= fs_compliance_tenths s <= 1000 /\ fs_reboot s <= fs_total s) v.
Proof.
  intros Hpct. unfold fleet_status. do 4 apply wp_status_sql. cbn [exec_status_stmt fst snd]. cbv zeta. do 2 apply wp_status_sql.
  cbn [exec_status_stmt wp]. split; [done|]. eexists. split; [done|].
  cbn [fs_total fs_healthy fs_degraded fs_unreachable fs_pending fs_crl_valid fs_crl_expired fs_crl_missing fs_crl_invalid fs_crl_not_reporting fs_compliance_tenths fs_reboot].
  set (hosts := fd_hosts (fv_fleet v)). set (share := if _ =? 0 then _ else _).
  assert (0 <= share <= 1000) as Hshare.
  { unfold share. destruct (Z.eqb_spec (count_where (fun _ : patch_row => true) (fd_patches (fv_fleet v))) 0) as [|Hne]; [lia|].
    pose proof (count_where_nonneg (fun _ : patch_row => true) (fd_patches (fv_fleet v))).
    apply Hpct; [|lia]. split; [apply count_where_nonneg|by apply count_where_le]. }
  split_and!.
  - unfold count_where, rows_where. rewrite <- length_map_to_list. f_equal. induction (map_to_list hosts) as [|kv l IH]; [done|]. cbn. by rewrite IH.
  - rewrite (count_where_add (with_health Healthy) (with_health Degraded) (fun h => with_health Healthy h || with_health Degraded h)).
    2:{ intros h. unfold with_health. destruct (hc_status (fh_cols h)); cbn; tauto. }
    rewrite (count_where_add (fun h => with_health Healthy h || with_health Degraded h) (with_health Unreachable)
               (fun h => with_health Healthy h || with_health Degraded h || with_health Unreachable h)).
    2:{ intros h. unfold with_health. destruct (hc_status (fh_cols h)); cbn; tauto. }
    apply count_where_add. intros h. unfold with_health. destruct (hc_status (fh_cols h)); cbn; tauto.
  - unfold count_where, rows_where, with_crl. induction (map_to_list hosts) as [|[k h] l IH]; [done|]. cbn [List.filter snd length].
    repeat case_bool_decide; cbn [length]; try congruence; lia.
  - apply Hshare.
  - apply Hshare.
  - by apply count_where_le.
Qed.

(** The dashboard shows no failed check and every enabled check has a result
    exactly if the gate of the executor is open for every host; without the second
    the gate may be closed while the dashboard shows no failed check. *)
Theorem no_failed_check_iff_gates_open v d :
  db_checks d = stored_checks (fv_checks v) ->
  (exec_status_stmt CountFailed v = 0 /\
   (forall id r, cd_checks (fv_checks v) !! id = Some r -> ck_enabled r = true -> latest_of id (cd_results (fv_checks v)) <> None)) <->
  forall host, sel_unhealthy_count host d = 0.
Proof.
  intros Hd. set (c := fv_checks v) in *.
  assert (forall host, sel_unhealthy_count host d = 0 <-> forall id r, cd_checks c !! id = Some r -> ck_host r = host -> ck_enabled r = true ->
            cr_healthy <$> latest_of id (cd_results c) = Some true) as Hgate.
  { intros host. unfold sel_unhealthy_count. rewrite Hd. set (g := fun h : health_check => _).
    assert (0 < count_where g (stored_checks c) <-> exists id h, stored_checks c !! id = Some h /\ g h = true) as Hpos by apply count_where_pos.
    assert (0 <= count_where g (stored_checks c)) by (unfold count_where; lia). split.
    - intros H0 id r Hr Hh He. destruct (decide (cr_healthy <$> latest_of id (cd_results c) = Some true)) as [|Hn]; [done|exfalso].
      enough (0 < count_where g (stored_checks c)) by lia. apply Hpos. exists id. eexists. unfold stored_checks. rewrite map_lookup_imap, Hr. split; [done|].
      unfold g. cbn. by rewrite bool_decide_true, He, bool_decide_false.
    - intros Hall. enough (~ 0 < count_where g (stored_checks c)) by lia. intros (id & h & Hid & Hg)%Hpos.
      unfold stored_checks in Hid. rewrite map_lookup_imap in Hid. destruct (cd_checks c !! id) as [r|] eqn:Hr; [|done]. cbn in Hid. injection Hid as <-.
      unfold g in Hg. cbn in Hg. apply andb_true_iff in Hg as [[Hh He]%andb_true_iff Hl]. apply bool_decide_eq_true in Hh.
      rewrite (Hall id r Hr Hh He) in Hl. by rewrite bool_decide_true in Hl. }
  assert (exec_status_stmt CountFailed v = 0 <-> forall id r, cd_checks c !! id = Some r -> failed_check c (id, r) = false) as Hfailed.
  { cbn [exec_status_stmt]. fold c. split.
    - intros H0 id r Hr. destruct (failed_check c (id, r)) eqn:Hf; [|done]. exfalso.
      assert ((id, r) ∈ List.filter (failed_check c) (map_to_list (cd_checks c))) as Hin
        by (apply list_elem_of_In, filter_In; rewrite <- list_elem_of_In; by rewrite elem_of_map_to_list).
      destruct (List.filter _ _); [by apply elem_of_nil in Hin|cbn in H0; lia].
    - intros Hall. enough (List.filter (failed_check c) (map_to_list (cd_checks c)) = []) as -> by done.
      destruct (List.filter _ _) as [|[id r] l] eqn:Hl; [done|exfalso]. assert ((id, r) ∈ List.filter (failed_check c) (map_to_list (cd_checks c))) as Hin by (rewrite Hl; by left).
      apply list_elem_of_In, filter_In in Hin as [Hin Hf]. apply list_elem_of_In, elem_of_map_to_list in Hin. by rewrite (Hall id r Hin) in Hf. }
  rewrite Hfailed. unfold failed_check. cbn [fst snd]. split.
  - intros [H1 H2] host. apply Hgate. intros id r Hr _ He. specialize (H1 id r Hr). specialize (H2 id r Hr He). rewrite He in H1. cbn in H1.
    destruct (latest_of id (cd_results c)) as [res|]; [|done]. cbn in *. apply bool_decide_eq_false in H1. destruct (cr_healthy res); [done|by destruct H1].
  - intros Hall. split.
    + intros id r Hr. destruct (ck_enabled r) eqn:He; [|done]. rewrite (proj1 (Hgate (ck_host r)) (Hall _) id r Hr eq_refl He). done.
    + intros id r Hr He Hn. pose proof (proj1 (Hgate (ck_host r)) (Hall _) id r Hr eq_refl He) as H. by rewrite Hn in H.
Qed.
