(* ===== verification/Reports.v ===== *)
(** * Reports (pm-reports/src/csv.rs, pdf.rs, pm-web/src/routes/reports.rs)

    The four reports in both formats: what each query reads in the tables, how a
    row is decoded into the cells of a record, and the lay-out of the pages of a
    PDF.  The decoding of columns is an interface of the database driver with its
    documented laws; the CSV and PDF writers, the plotting library and the texts
    of times and addresses are parameters.  A panic is [None]. *)

From S2P Require Import Prelude Ordering Buffers Conc Schema AuditLog Health Hosts Pollers.

(** ** Data *)

Inductive report_type : Type := Compliance | PatchHistory | Vulnerability | AuditTrail.
Inductive report_format : Type := Csv | Pdf.

Record report_params : Type := ReportParams {
  rp_type : report_type; rp_from : option Z; rp_to : option Z; rp_group : option uuid
}.

(** The tables that the reports read; of [users], the names. *)
Record report_store : Type := ReportStore {
  rs_jobs : db; rs_inv : inventory; rs_fleet : fleet_db; rs_users : gmap uuid string; rs_audit : list audit_row
}.

(** A column with its type in the database, and a row by column names. *)
Inductive pg_value : Type :=
| PgText (v : option string) | PgInt4 (n : Z) | PgInt8 (n : option Z)
(** a percentage of one decimal place, in tenths *)
| PgFloat8 (tenths : Z)
| PgTime (t : option Z).
Definition pg_row : Type := list (string * pg_value).

(** [row.try_get] of the driver, for the types that the reports ask for. *)
Class Sqlx : Type := {
  get_string : pg_value -> option string;
  get_i64 : pg_value -> option Z;
  get_opt_i64 : pg_value -> option (option Z);
  get_f64 : pg_value -> option Z;
  get_opt_time : pg_value -> option (option Z)
}.
(** Its table of types: String is TEXT, i64 is INT8 and no other type, f64 FLOAT8
    and DateTime TIMESTAMPTZ; a column of another type is an error, and so is NULL
    where no Option is asked for. *)
Class SqlxLaws `{Sqlx} : Prop := {
  get_string_text v : get_string (PgText v) = v;
  get_string_other v : (forall t, v <> PgText t) -> get_string v = None;
  get_i64_int8 n : get_i64 (PgInt8 n) = n;
  get_i64_int4 n : get_i64 (PgInt4 n) = None;
  get_opt_i64_int8 n : get_opt_i64 (PgInt8 n) = Some n;
  get_f64_float8 x : get_f64 (PgFloat8 x) = Some x;
  get_opt_time_time t : get_opt_time (PgTime t) = Some t
}.

(** ** Queries *)

Inductive report_stmt : Type :=
| SelCompliance (fmt : report_format) (group : option uuid)
| SelHistory (fmt : report_format) (from to : option Z)
| SelVulnerability (fmt : report_format) (from to : option Z)
| SelAudit (from to : option Z).

Inductive report_eff : Type -> Type :=
| ReportSql (q : report_stmt) : report_eff (result (list pg_row) string)
| ReportClock : report_eff Z.

(** [($1 IS NULL OR t >= $1) AND ($2 IS NULL OR t <= $2)]: no time is in no range. *)
Definition in_report_range (from to t : option Z) : bool :=
  match from with None => true | Some a => match t with Some t => a <=? t | None => false end end &&
  match to with None => true | Some b => match t with Some t => t <=? b | None => false end end.

(** Columns that only one of the two formats selects. *)
Definition cols_of (f g : report_format) (cols : pg_row) : pg_row :=
  match f, g with Csv, Csv | Pdf, Pdf => cols | _, _ => [] end.

Definition kind_str (k : job_kind) : string :=
  match k with
  | PatchApply => "patch_apply" | PatchRemove => "patch_remove" | Reboot => "reboot"
  | Rollback => "rollback" | SelfUpgrade => "self_upgrade"
  end.

(** [jsonb_array_length(COALESCE(patch_selection->'packages', '[]'))], an error of
    the query on what is no array. *)
Definition package_count (selection : json) : option Z :=
  match json_get "packages" selection with
  | None => Some 0
  | Some (JArr l) => Some (Z.of_nat (length l))
  | Some _ => None
  end.

Definition severity_rank (s : string) : Z :=
  if String.eqb s "critical" then 1 else if String.eqb s "high" then 2 else if String.eqb s "medium" then 3 else 4.

(** A vulnerability of a host: a patch that is missing and one of its CVEs. *)
Record exposure : Type := Exposure { ex_id : uuid; ex_host : host_rec; ex_seen : Z; ex_patch : patch; ex_cve : string }.

Section Reports.
(** The rounded share of up-to-date packages of so many missing of so many; the
    seconds of an interval; the text of an address. *)
Context (share_tenths : Z -> Z -> Z) (epoch_seconds : Z -> Z) (inet_text : string -> string).

(** *** Compliance *)

Definition total_packages (s : report_store) (id : uuid) : Z :=
  match fd_patches (rs_fleet s) !! id with Some r => Z.of_nat (length (pw_packages r)) | None => 0 end.
Definition pending_patches (s : report_store) (id : uuid) : Z :=
  match fd_patches (rs_fleet s) !! id with Some r => pw_patch_count r | None => 0 end.
Definition compliance_tenths (s : report_store) (id : uuid) : Z :=
  if total_packages s id =? 0 then 1000 else share_tenths (pending_patches s id) (total_packages s id).

(** The hosts of a group, or all; the names of the groups of a host. *)
Definition report_hosts (group : option uuid) (s : report_store) : list (uuid * host_rec) :=
  List.filter (fun kv => match group with Some g => bool_decide ((kv.1, g) ∈ iv_host_groups (rs_inv s)) | None => true end)
    (map_to_list (iv_hosts (rs_inv s))).
Definition group_names (s : report_store) (id : uuid) : list string :=
  omap (fun hg : uuid * uuid => if bool_decide (hg.1 = id) then gr_name <$> iv_groups (rs_inv s) !! hg.2 else None)
    (elements (iv_host_groups (rs_inv s))).

Definition compliance_row (fmt : report_format) (s : report_store) (groups : uuid -> string) (kv : uuid * host_rec) : pg_row :=
  cols_of Csv fmt [("host_id", PgText (Some (uuid_str kv.1)))] ++
  [("display_name", PgText (Some (in_name kv.2))); ("fqdn", PgText (Some (in_fqdn kv.2)));
   ("health_status", PgText (Some (in_health kv.2)));
   ("total_packages", PgInt4 (total_packages s kv.1)); ("pending_patches", PgInt4 (pending_patches s kv.1));
   ("compliance_pct", PgFloat8 (compliance_tenths s kv.1))] ++
  cols_of Csv fmt [("last_patch_at", PgTime (fd_hosts (rs_fleet s) !! kv.1 ≫= fh_last_patch_at));
                ("group_names", PgText (Some (groups kv.1)))].

(** [string_agg(DISTINCT g.name, ', ')]: each name once. *)
Definition names_joined (s : report_store) (groups : uuid -> string) : Prop :=
  forall id, exists l, NoDup l /\ (forall n, n ∈ l <-> n ∈ group_names s id) /\ groups id = join ", " l.

(** *** Patch history *)

Definition history_join (s : report_store) (e : patch_job_host) : option (patch_job * host_rec) :=
  j ← db_jobs (rs_jobs s) !! h_job e; h ← iv_hosts (rs_inv s) !! h_host e; Some (j, h).
Definition history_entries (from to : option Z) (s : report_store) : list (patch_job_host * patch_job * host_rec) :=
  omap (fun kv => if in_report_range from to (h_started_at kv.2) then (fun jh => (kv.2, jh.1, jh.2)) <$> history_join s kv.2 else None)
    (map_to_list (db_pjhs (rs_jobs s))).
Definition duration_seconds (e : patch_job_host) : option Z :=
  match h_started_at e, h_completed_at e with Some a, Some b => Some (epoch_seconds (b - a)) | _, _ => None end.
(** [COALESCE(u.username, 'system')] *)
Definition operator_name (s : report_store) (j : patch_job) : string := default "system" (j_created_by j ≫= fun u => rs_users s !! u).

Definition history_row (fmt : report_format) (s : report_store) (x : patch_job_host * patch_job * host_rec) : option pg_row :=
  let '(e, j, h) := x in
  n ← match fmt with Csv => package_count (j_selection j) | Pdf => Some 0 end;
  Some (cols_of Csv fmt [("job_id", PgText (Some (uuid_str (h_job e))))] ++
        [("job_kind", PgText (Some (kind_str (j_kind j)))); ("job_status", PgText (Some (status_str (j_status j))));
         ("display_name", PgText (Some (in_name h))); ("fqdn", PgText (Some (in_fqdn h)))] ++
        cols_of Csv fmt [("package_count", PgInt4 n)] ++
        [("started_at", PgTime (h_started_at e)); ("completed_at", PgTime (h_completed_at e));
         ("duration_seconds", PgInt8 (duration_seconds e)); ("operator", PgText (Some (operator_name s j)))]).

(** [ORDER BY started_at DESC], where NULL comes first. *)
Definition started_later (x y : patch_job_host * patch_job * host_rec) : Prop :=
  match h_started_at x.1.1, h_started_at y.1.1 with Some a, Some b => b <= a | None, _ => True | Some _, None => False end.

(** *** Vulnerabilities *)

Definition exposures_of (from to : option Z) (s : report_store) (kv : uuid * host_rec) : list exposure :=
  match fd_patches (rs_fleet s) !! kv.1 with
  | Some r =>
      if in_report_range from to (Some (pw_polled_at r))
      then concat ((fun p => Exposure kv.1 kv.2 (pw_polled_at r) p <$> pt_cve_ids p) <$> pw_patches r) else []
  | None => []
  end.
Definition exposures (from to : option Z) (s : report_store) : list exposure :=
  concat (exposures_of from to s <$> map_to_list (iv_hosts (rs_inv s))).

Definition exposure_row (fmt : report_format) (x : exposure) : pg_row :=
  cols_of Csv fmt [("host_id", PgText (Some (uuid_str (ex_id x))))] ++
  [("display_name", PgText (Some (in_name (ex_host x)))); ("fqdn", PgText (Some (in_fqdn (ex_host x))));
   ("cve_id", PgText (Some (ex_cve x))); ("package_name", PgText (Some (pt_name (ex_patch x))));
   ("severity", PgText (Some (pt_severity (ex_patch x)))); ("available_version", PgText (Some (pt_available (ex_patch x))));
   ("last_seen_at", PgTime (Some (ex_seen x)))].

(** *** Audit trail *)

Definition audit_row_cols (r : audit_row) : pg_row :=
  let e := a_event r in
  [("id", PgText (Some (dec (a_id r)))); ("created_at", PgTime (Some (ev_time e))); ("action", PgText (Some (action_str (ev_action e))));
   ("actor_username", PgText (ev_username e)); ("target_type", PgText (ev_target_type e)); ("target_id", PgText (ev_target_id e));
   ("ip_address", PgText (inet_text <$> ev_ip e)); ("request_id", PgText (ev_request e))].
Definition audit_in_range (from to : option Z) (s : report_store) : list audit_row :=
  List.filter (fun r => in_report_range from to (Some (ev_time (a_event r)))) (rs_audit s).

(** What a query answers; rows of one rank come in any order. *)
Definition answers_report (q : report_stmt) (s : report_store) (x : result (list pg_row) string) : Prop :=
  match q with
  | SelCompliance fmt group =>
      exists groups hosts, names_joined s groups /\ hosts ≡ₚ report_hosts group s /\
        Sorted (fun a b => compliance_tenths s a.1 <= compliance_tenths s b.1) hosts /\ x = Ok (compliance_row fmt s groups <$> hosts)
  | SelHistory fmt from to =>
      match mapM (history_row fmt s) (history_entries from to s) with
      | None => exists e, x = Err e
      | Some _ => exists l rows, l ≡ₚ history_entries from to s /\ Sorted started_later l /\
                    mapM (history_row fmt s) l = Some rows /\ x = Ok rows
      end
  | SelVulnerability fmt from to =>
      exists l, l ≡ₚ exposures from to s /\
        Sorted (fun a b => severity_rank (pt_severity (ex_patch a)) <= severity_rank (pt_severity (ex_patch b))) l /\ x = Ok (exposure_row fmt <$> l)
  | SelAudit from to =>
      exists l, l ≡ₚ audit_in_range from to s /\ Sorted (fun a b => ev_time (a_event b) <= ev_time (a_event a)) l /\
        x = Ok (audit_row_cols <$> take (Z.to_nat 10000) l)
  end.
End Reports.

Definition rsql (q : report_stmt) : prog report_eff (result (list pg_row) string) := trigger (ReportSql q).

(** ** Decoding: [row.try_get(col).unwrap_or_default()] and the like. *)

Definition col (name : string) (row : pg_row) : option pg_value := snd <$> List.find (fun kv => String.eqb kv.1 name) row.

Section Decode.
Context `{Sqlx}.
Definition text (name : string) (row : pg_row) : string := default "" (col name row ≫= get_string).
Definition int (name : string) (row : pg_row) : Z := default 0 (col name row ≫= get_i64).
Definition opt_int (name : string) (row : pg_row) : option Z := default None (col name row ≫= get_opt_i64).
Definition real (name : string) (row : pg_row) : Z := default 0 (col name row ≫= get_f64).
Definition time (name : string) (row : pg_row) : option Z := default None (col name row ≫= get_opt_time).
End Decode.

(** [format!('{:.1}', x)] of a number of tenths. *)
Definition show_tenths (x : Z) : string :=
  ((if (x <? 0)%Z then "-" else "") ++ dec (Z.abs x / 10) ++ "." ++ dec (Z.abs x mod 10))%string.

(** ** CSV *)

Section Csv.
Context `{Sqlx} (rfc3339 : Z -> string) (csv_write : list (list string) -> result string string).

Definition opt_time (t : option Z) : string := from_option rfc3339 "" t.

Definition compliance_header : list string :=
  ["host_id"; "display_name"; "fqdn"; "group_names"; "total_packages"; "pending_patches"; "compliance_pct"; "last_patch_at"; "health_status"].
Definition compliance_record (row : pg_row) : list string :=
  [text "host_id" row; text "display_name" row; text "fqdn" row; text "group_names" row; dec (int "total_packages" row);
   dec (int "pending_patches" row); show_tenths (real "compliance_pct" row); opt_time (time "last_patch_at" row); text "health_status" row].

Definition history_header : list string :=
  ["job_id"; "job_kind"; "job_status"; "host_display_name"; "host_fqdn"; "package_count"; "started_at"; "completed_at";
   "duration_seconds"; "operator"].
Definition history_record (row : pg_row) : list string :=
  [text "job_id" row; text "job_kind" row; text "job_status" row; text "display_name" row; text "fqdn" row; dec (int "package_count" row);
   opt_time (time "started_at" row); opt_time (time "completed_at" row); dec (default 0 (opt_int "duration_seconds" row)); text "operator" row].

Definition vulnerability_header : list string :=
  ["host_id"; "display_name"; "fqdn"; "cve_id"; "package_name"; "severity"; "available_version"; "last_seen_at"].
Definition vulnerability_record (row : pg_row) : list string :=
  [text "host_id" row; text "display_name" row; text "fqdn" row; text "cve_id" row; text "package_name" row; text "severity" row;
   text "available_version" row; opt_time (time "last_seen_at" row)].

Definition audit_header : list string :=
  ["id"; "created_at"; "action"; "actor_username"; "target_type"; "target_id"; "ip_address"; "request_id"].
Definition audit_record (row : pg_row) : list string :=
  [text "id" row; opt_time (time "created_at" row); text "action" row; text "actor_username" row; text "target_type" row;
   text "target_id" row; text "ip_address" row; text "request_id" row].

(** The query with the message that a failure is reported with. *)
Definition with_context (q : report_stmt) (msg : string) : prog report_eff (result (list pg_row) string) :=
  let! r := rsql q in Ret (match r with Ok rows => Ok rows | Err _ => Err msg end).

Definition compliance_csv (params : report_params) : prog report_eff (result string string) :=
  let!? rows := with_context (SelCompliance Csv (rp_group params))
    (match rp_group params with Some _ => "compliance query (group filter) failed" | None => "compliance query failed" end) in
  Ret (csv_write (compliance_header :: (compliance_record <$> rows))).
Definition patch_history_csv (params : report_params) : prog report_eff (result string string) :=
  let!? rows := with_context (SelHistory Csv (rp_from params) (rp_to params)) "patch history query failed" in
  Ret (csv_write (history_header :: (history_record <$> rows))).
(** A failed query leaves the header alone. *)
Definition vulnerability_csv (params : report_params) : prog report_eff (result string string) :=
  let! result := rsql (SelVulnerability Csv (rp_from params) (rp_to params)) in
  Ret (csv_write (vulnerability_header :: match result with Ok rows => vulnerability_record <$> rows | Err _ => [] end)).
Definition audit_csv (params : report_params) : prog report_eff (result string string) :=
  let!? rows := with_context (SelAudit (rp_from params) (rp_to params)) "audit query failed" in
  Ret (csv_write (audit_header :: (audit_record <$> rows))).

Definition generate_csv (params : report_params) : prog report_eff (result string string) :=
  match rp_type params with
  | Compliance => compliance_csv params
  | PatchHistory => patch_history_csv params
  | Vulnerability => vulnerability_csv params
  | AuditTrail => audit_csv params
  end.
End Csv.

(** ** PDF

    Millimetres and sizes are whole numbers, which 32-bit floats hold exactly. *)

Definition MARGIN : Z := 10.
Definition ROW_H : Z := 6.
Definition HEADER_Y_START : Z := 190.
Definition NEW_PAGE_THRESHOLD : Z := 20.

Inductive pdf_item : Type :=
| PdfText (s : string) (font_size x y : Z) (bold : bool)
(** a picture of so many pixels, with its scale in hundredths *)
| PdfImage (rgb : string) (w h x y scale_x scale_y : Z).
Definition pdf_page : Type := list pdf_item.

(** [PdfBuilder]: the pages before the current one, that one, and the height of
    the next row on it. *)
Record pdf_builder : Type := PdfBuilder { pb_title : string; pb_done : list pdf_page; pb_page : pdf_page; current_y : Z }.

Definition add_item (i : pdf_item) (b : pdf_builder) : pdf_builder := PdfBuilder (pb_title b) (pb_done b) (pb_page b ++ [i]) (current_y b).
Definition write_text (s : string) (font_size x y : Z) (bold : bool) (b : pdf_builder) : pdf_builder := add_item (PdfText s font_size x y bold) b.
Definition new_page (b : pdf_builder) : pdf_builder := PdfBuilder (pb_title b) (pb_done b ++ [pb_page b]) [] HEADER_Y_START.
Definition ensure_space (needed : Z) (b : pdf_builder) : pdf_builder := if current_y b - needed <? NEW_PAGE_THRESHOLD then new_page b else b.

(** [&s[..n]]: a panic where byte [n] continues a character. *)
Fixpoint str_prefix (n : nat) (s : string) : option string :=
  match n, s with
  | O, EmptyString => Some ""%string
  | O, String c _ => if (128 <=? code c) && (code c <? 192) then None else Some ""%string
  | S n', String c s' => String c <$> str_prefix n' s'
  | S _, EmptyString => None
  end.
(** [if s.len() > n { &s[..n] } else { s }] *)
Definition cut_text (n : nat) (s : string) : option string := if (n <? String.length s)%nat then str_prefix n s else Some s.

Fixpoint write_cells (i : nat) (cells : list string) (col_x : list Z) (font_size y : Z) (bold : bool) (b : pdf_builder) : option pdf_builder :=
  match cells with
  | [] => Some b
  | cell :: cells' =>
      s ← cut_text 30 cell;
      write_cells (S i) cells' col_x font_size y bold (write_text s font_size (default MARGIN (col_x !! i)) y bold b)
  end.
Definition table_row (cells : list string) (col_x : list Z) (font_size : Z) (bold : bool) (b : pdf_builder) : option pdf_builder :=
  let b := ensure_space ROW_H b in
  b' ← write_cells 0 cells col_x font_size (current_y b) bold b;
  Some (PdfBuilder (pb_title b') (pb_done b') (pb_page b') (current_y b' - ROW_H)).
(** The loop over the rows of a report. *)
Fixpoint table_rows (rows : list (list string)) (col_x : list Z) (b : pdf_builder) : option pdf_builder :=
  match rows with [] => Some b | cells :: rows' => b' ← table_row cells col_x 8 false b; table_rows rows' col_x b' end.

Definition embed_image (rgb : string) (img_w img_h x y scale_x scale_y : Z) (b : pdf_builder) : result pdf_builder string :=
  if negb (Z.of_nat (String.length rgb) =? img_w * img_h * 3) || (img_w =? 0) || (img_h =? 0) then Err "image buffer size mismatch"%string
  else if (scale_x <=? 0) || (scale_y <=? 0) then Err "invalid image scale factors"%string
  else Ok (add_item (PdfImage rgb img_w img_h x y scale_x scale_y) b).

(** A result that may be a panic. *)
Definition may_panic (A : Type) : Type := option (result A string).
Definition panic_bind {A B} (r : may_panic A) (f : A -> may_panic B) : may_panic B :=
  match r with None => None | Some (Err e) => Some (Err e) | Some (Ok a) => f a end.
#[local] Notation "'let??' x ':=' r 'in' k" := (panic_bind r (fun x => k)) (at level 10, x binder, r at level 100, k at level 200).

Section Pdf.
Context `{Sqlx}.
(** The built-in fonts, the plotting library, which is given the labels by their
    position, the bytes of the document, and the formats of times. *)
Context (builtin_fonts : result unit string) (plot : (nat -> option string) -> list Z -> string -> may_panic string)
  (save : pdf_builder -> result string string) (fmt_now fmt_day fmt_minute : Z -> string).

Definition pdf_new (title : string) : result pdf_builder string :=
  let? _ := builtin_fonts in Ok (PdfBuilder title [] [] HEADER_Y_START).

Definition write_title_page (title : string) (params : report_params) (now : Z) (b : pdf_builder) : pdf_builder :=
  let b := write_text title 24 MARGIN 160 true b in
  let b := write_text ("Generated: " ++ fmt_now now) 11 MARGIN 148 false b in
  let b := match rp_from params with Some from => write_text ("From: " ++ fmt_day from) 10 MARGIN 140 false b | None => b end in
  let b := match rp_to params with Some to => write_text ("To:   " ++ fmt_day to) 10 MARGIN 134 false b | None => b end in
  let b := match rp_group params with Some gid => write_text ("Group: " ++ uuid_str gid) 10 MARGIN 128 false b | None => b end in
  new_page b.

Definition chart_label (labels : list string) (idx : nat) : option string :=
  match labels !! idx with Some s => cut_text 12 s | None => Some ""%string end.
(** The values, in tenths, are rounded percentages or counts, and so finite. *)
Definition render_bar_chart (labels : list string) (values : list Z) (title : string) : may_panic (string * Z * Z) :=
  if bool_decide (labels = []) || bool_decide (values = []) || negb (length labels =? length values)%nat
  then Some (Err "cannot render bar chart with empty or mismatched data"%string)
  else let?? rgb := plot (chart_label labels) values title in Some (Ok (rgb, 800, 400)).

(** The page with the chart; a chart that fails is left out, with its page where
    it does not fit in it. *)
Definition chart_page (labels : list string) (values : list Z) (title caption : string) (b : pdf_builder) : option pdf_builder :=
  if bool_decide (labels = []) then Some b else
  match render_bar_chart labels values title with
  | None => None
  | Some (Err _) => Some b
  | Some (Ok (raw, w, h)) =>
      let b := write_text caption 16 MARGIN 200 true (new_page b) in
      Some (match embed_image raw w h MARGIN 10 28 28 b with Ok b' => b' | Err _ => b end)
  end.

(** A document: title page, table with its head, and then the rest. *)
Definition document (name title : string) (params : report_params) (now : Z) (col_x : list Z) (head : list string)
    (rows : list (list string)) (rest : pdf_builder -> option pdf_builder) : may_panic string :=
  let?? b := Some (pdf_new name) in
  match (b ← table_row head col_x 9 true (write_title_page title params now b); b ← table_rows rows col_x b; rest b) with
  | None => None
  | Some b => Some (save b)
  end.

Definition compliance_cells (row : pg_row) : list string :=
  [text "display_name" row; text "fqdn" row; dec (int "total_packages" row); dec (int "pending_patches" row);
   (show_tenths (real "compliance_pct" row) ++ "%")%string; text "health_status" row].
Definition compliance_document (params : report_params) (now : Z) (rows : list pg_row) : may_panic string :=
  document "Compliance Report" "Compliance Report" params now [MARGIN; 65; 130; 165; 200; 235]
    ["Host"; "FQDN"; "Total Pkgs"; "Pending"; "Compliance %"; "Status"] (compliance_cells <$> rows)
    (chart_page (text "display_name" <$> rows) (real "compliance_pct" <$> rows) "Compliance % by Host" "Compliance Chart").
Definition compliance_pdf (params : report_params) : prog report_eff (may_panic string) :=
  let! rows := with_context (SelCompliance Pdf (rp_group params))
    (match rp_group params with Some _ => "compliance PDF query (group) failed" | None => "compliance PDF query failed" end) in
  match rows with
  | Err e => Ret (Some (Err e))
  | Ok rows => let! now := trigger ReportClock in Ret (compliance_document params now rows)
  end.

(** The days that jobs started on, with their number. *)
Definition jobs_per_day (rows : list pg_row) : btree string Z :=
  foldl (fun dc row =>
    match time "started_at" row with
    | Some s => bt_insert (fmt_day s) (default 0 (bt_get (fmt_day s) dc) + 1) dc
    | None => dc
    end) [] rows.
Definition minute (t : option Z) : string := from_option fmt_minute "" t.
Definition history_cells (row : pg_row) : list string :=
  [text "job_kind" row; text "job_status" row; text "display_name" row; text "fqdn" row; minute (time "started_at" row);
   minute (time "completed_at" row); dec (int "duration_seconds" row); text "operator" row].
Definition history_document (params : report_params) (now : Z) (rows : list pg_row) : may_panic string :=
  let dc := jobs_per_day rows in
  document "Patch History Report" "Patch History Report" params now [MARGIN; 45; 80; 115; 155; 200; 245; 270]
    ["Kind"; "Status"; "Host"; "FQDN"; "Started"; "Completed"; "Dur(s)"; "Operator"] (history_cells <$> rows)
    (chart_page dc.*1 (Z.mul 10 <$> dc.*2) "Jobs per Day" "Patch Activity Chart").
Definition patch_history_pdf (params : report_params) : prog report_eff (may_panic string) :=
  let! rows := with_context (SelHistory Pdf (rp_from params) (rp_to params)) "patch history PDF query failed" in
  match rows with
  | Err e => Ret (Some (Err e))
  | Ok rows => let! now := trigger ReportClock in Ret (history_document params now rows)
  end.

Definition vulnerability_cells (row : pg_row) : list string :=
  [text "display_name" row; text "fqdn" row; text "cve_id" row; text "package_name" row; text "severity" row;
   text "available_version" row; from_option fmt_day "" (time "last_seen_at" row)].
(** A failed query is written below the head of the table. *)
Definition vulnerability_document (params : report_params) (now : Z) (query_result : result (list pg_row) string) : may_panic string :=
  document "Vulnerability Report" "Vulnerability Exposure Report" params now [MARGIN; 55; 100; 130; 175; 215; 255]
    ["Host"; "FQDN"; "CVE ID"; "Package"; "Severity"; "Fix Version"; "Last Seen"]
    (match query_result with Ok rows => vulnerability_cells <$> rows | Err _ => [] end)
    (fun b => Some (match query_result with Ok _ => b | Err e => write_text ("No data: " ++ e) 10 MARGIN (current_y b) false b end)).
Definition vulnerability_pdf (params : report_params) : prog report_eff (may_panic string) :=
  let! query_result := rsql (SelVulnerability Pdf (rp_from params) (rp_to params)) in
  let! now := trigger ReportClock in
  Ret (vulnerability_document params now query_result).

Definition audit_cells (row : pg_row) : list string :=
  [minute (time "created_at" row); text "action" row; text "actor_username" row; text "target_type" row; text "target_id" row;
   text "ip_address" row; text "request_id" row].
Definition audit_document (params : report_params) (now : Z) (rows : list pg_row) : may_panic string :=
  document "Audit Trail Report" "Audit Trail Report" params now [MARGIN; 50; 95; 135; 175; 215; 255]
    ["Timestamp"; "Action"; "Actor"; "Target Type"; "Target ID"; "IP"; "Request ID"] (audit_cells <$> rows) Some.
Definition audit_pdf (params : report_params) : prog report_eff (may_panic string) :=
  let! rows := with_context (SelAudit (rp_from params) (rp_to params)) "audit PDF query failed" in
  match rows with
  | Err e => Ret (Some (Err e))
  | Ok rows => let! now := trigger ReportClock in Ret (audit_document params now rows)
  end.

Definition generate_pdf (params : report_params) : prog report_eff (may_panic string) :=
  match rp_type params with
  | Compliance => compliance_pdf params
  | PatchHistory => patch_history_pdf params
  | Vulnerability => vulnerability_pdf params
  | AuditTrail => audit_pdf params
  end.

(** ** The routes: no answer after a panic. *)

Context (rfc3339 : Z -> string) (csv_write : list (list string) -> result string string).

Record report_query : Type := ReportQuery { rq_format : option string; rq_from : option Z; rq_to : option Z; rq_group : option uuid }.
Record report_reply : Type := ReportReply { rr_status : Z; rr_content_type : string; rr_disposition : string; rr_body : string }.

Definition quoted (s : string) : string := String "034" (s ++ String "034" "")%string.

(** The names are printable, so that the header value is always accepted. *)
Definition run_report (params : report_params) (use_pdf : bool) (csv_name pdf_name : string) : prog report_eff (option report_reply) :=
  let! data := if use_pdf then generate_pdf params else let! r := generate_csv rfc3339 csv_write params in Ret (Some r) in
  let '(ct, name) := if use_pdf then ("application/pdf", pdf_name)%string else ("text/csv; charset=utf-8", csv_name)%string in
  Ret (match data with
       | None => None
       | Some (Ok body) => Some (ReportReply 200 ct ("attachment; filename=" ++ quoted name) body)
       | Some (Err e) => Some (ReportReply 500 "text/plain; charset=utf-8" "" ("Report error: " ++ e))
       end).

Definition wants_pdf (q : report_query) : bool := bool_decide (rq_format q = Some "pdf"%string).
Definition compliance_report (q : report_query) : prog report_eff (option report_reply) :=
  run_report (ReportParams Compliance (rq_from q) (rq_to q) (rq_group q)) (wants_pdf q) "compliance-report.csv" "compliance-report.pdf".
Definition patch_history_report (q : report_query) : prog report_eff (option report_reply) :=
  run_report (ReportParams PatchHistory (rq_from q) (rq_to q) (rq_group q)) (wants_pdf q) "patch-history-report.csv" "patch-history-report.pdf".
Definition vulnerability_report (q : report_query) : prog report_eff (option report_reply) :=
  run_report (ReportParams Vulnerability (rq_from q) (rq_to q) (rq_group q)) (wants_pdf q) "vulnerability-report.csv" "vulnerability-report.pdf".
Definition audit_report (q : report_query) : prog report_eff (option report_reply) :=
  run_report (ReportParams AuditTrail (rq_from q) (rq_to q) (rq_group q)) (wants_pdf q) "audit-report.csv" "audit-report.pdf".
End Pdf.
