(* ===== verification/ReportFlow.v ===== *)
(** * Reports: theorems (Reports.v)

    The lay-out of a PDF, when one is answered, what the reports list, and the
    numbers that they lose. *)

From S2P Require Import Prelude Ordering Buffers Conc Schema AuditLog Health Hosts Pollers Reports.

(** ** Cutting text *)

Lemma cut_ascii n s : str_forallb is_ascii s = true -> is_Some (cut_text n s).
Proof.
  intros Hs. unfold cut_text. destruct (Nat.ltb_spec n (String.length s)) as [Hn|]; [|eauto].
  revert n Hn. induction s as [|c s IH]; intros n Hn; cbn in Hn; [lia|]. cbn [str_forallb] in Hs.
  apply andb_true_iff in Hs as [Hc Hs]. unfold is_ascii in Hc. apply Z.ltb_lt in Hc. destruct n as [|n]; cbn [str_prefix].
  - rewrite (proj2 (Z.leb_gt 128 (code c))) by lia. eauto.
  - destruct (IH Hs n ltac:(lia)) as [t Ht]. rewrite Ht. by eexists.
Qed.

Lemma dec_ascii n : str_forallb is_ascii (dec n) = true.
Proof.
  assert (forall f m, 0 <= m -> str_forallb is_ascii (dec_digits f m "") = true) as Hd.
  { intros f m Hm. eapply str_forallb_impl; [|by apply dec_digits_forallb]. intros c. unfold is_ascii_digit, is_ascii.
    intros [_ Hc%Z.leb_le]%andb_true_iff. apply Z.ltb_lt. lia. }
  unfold dec. destruct (Z.ltb_spec n 0); [|by apply Hd]. cbn [append str_forallb]. rewrite (Hd _ (- n)) by lia. done.
Qed.
Lemma show_tenths_ascii x : str_forallb is_ascii (show_tenths x) = true.
Proof. unfold show_tenths. rewrite !str_forallb_app, !dec_ascii. by destruct (x <? 0). Qed.

(** ** The lay-out of a table *)

(** Line [k] of a table, with the head as line 0, has its cells, cut to 30 bytes,
    on page [k / 28] of the table at height [190 - 6 (k mod 28)]. *)
Definition line : Type := list string * Z * bool.
Definition line_items (col_x : list Z) (k : nat) (l : line) : pdf_page :=
  imap (fun i c => PdfText (default c (cut_text 30 c)) l.1.2 (default MARGIN (col_x !! i)) (HEADER_Y_START - ROW_H * Z.of_nat (k mod 28)) l.2) l.1.1.
Definition table_page (col_x : list Z) (lines : list line) (p : nat) : pdf_page :=
  concat (imap (fun k l => if (k / 28 =? p)%nat then line_items col_x k l else []) lines).
Definition cuttable (l : line) : Prop := Forall (fun c => is_Some (cut_text 30 c)) l.1.1.

Definition place_line (col_x : list Z) (b : option pdf_builder) (l : line) : option pdf_builder :=
  b ← b; table_row l.1.1 col_x l.1.2 l.2 b.
Definition body_line (cells : list string) : line := (cells, 8, false).

Lemma table_rows_lines rows col_x b : table_rows rows col_x b = foldl (place_line col_x) (Some b) (body_line <$> rows).
Proof.
  revert b. induction rows as [|r rows IH]; intros b; [done|]. cbn [table_rows fmap list_fmap foldl].
  unfold place_line at 2. cbn [body_line fst snd mbind option_bind]. destruct (table_row r col_x 8 false b) as [b'|]; cbn [mbind option_bind];
    [by rewrite IH|].
  clear. induction rows; cbn; [done|]. done.
Qed.

#[export] Instance cuttable_dec l : Decision (cuttable l).
Proof. unfold cuttable. apply _. Defined.

Lemma write_cells_spec i cells col_x size y bold b :
  write_cells i cells col_x size y bold b =
  if decide (Forall (fun c => is_Some (cut_text 30 c)) cells)
  then Some (PdfBuilder (pb_title b) (pb_done b)
         (pb_page b ++ imap (fun j c => PdfText (default c (cut_text 30 c)) size (default MARGIN (col_x !! (i + j)%nat)) y bold) cells) (current_y b))
  else None.
Proof.
  revert i b. induction cells as [|c cells IH]; intros i b; cbn [write_cells imap].
  - rewrite app_nil_r. destruct b. by rewrite decide_True by done.
  - destruct (cut_text 30 c) as [s|] eqn:Hc; cbn [mbind option_bind].
    + rewrite IH. destruct (decide (Forall _ cells)) as [Hall|Hnot].
      * rewrite decide_True by (constructor; [by rewrite Hc|done]). unfold write_text, add_item. cbn [pb_title pb_done pb_page current_y].
        rewrite <- app_assoc. cbn [app]. rewrite Nat.add_0_r. cbn [default]. do 4 f_equal.
        apply imap_ext. intros j x _. cbn. by rewrite Nat.add_succ_r.
      * rewrite decide_False; [done|]. intros Hall. by inversion Hall.
    + rewrite decide_False; [done|]. intros Hall. inversion Hall as [|? ? Hsome]. rewrite Hc in Hsome. by destruct Hsome.
Qed.

Definition laid_out (col_x : list Z) (lines : list line) (b : pdf_builder) : pdf_builder :=
  let last := ((length lines - 1) / 28)%nat in
  PdfBuilder (pb_title b) (pb_done b ++ (table_page col_x lines <$> seq 0 last)) (table_page col_x lines last)
    (HEADER_Y_START - ROW_H * (Z.of_nat (length lines) - 28 * Z.of_nat last)).

Lemma table_page_snoc col_x lines l p :
  table_page col_x (lines ++ [l]) p =
  table_page col_x lines p ++ (if (length lines / 28 =? p)%nat then line_items col_x (length lines) l else []).
Proof.
  unfold table_page. rewrite imap_app, concat_app. cbn [imap concat]. by rewrite Nat.add_0_r, app_nil_r.
Qed.
Lemma table_page_beyond col_x lines p : (length lines <= 28 * p)%nat -> table_page col_x lines p = [].
Proof.
  induction lines as [|l lines IH] using rev_ind; [done|]. rewrite length_app. cbn [length]. intros Hp.
  rewrite table_page_snoc, IH by lia. destruct (Nat.eqb_spec (length lines / 28) p) as [<-|]; [|done].
  pose proof (Nat.div_mod_eq (length lines) 28). lia.
Qed.

Lemma table_row_laid_out col_x lines b l : pb_page b = [] -> current_y b = HEADER_Y_START ->
  table_row l.1.1 col_x l.1.2 l.2 (laid_out col_x lines b) =
  if decide (cuttable l) then Some (laid_out col_x (lines ++ [l]) b) else None.
Proof.
  intros Hpage Hy. set (n := length lines). set (last := ((n - 1) / 28)%nat). set (next := (n / 28)%nat).
  pose proof (Nat.div_mod_eq (n - 1) 28) as Hlast. pose proof (Nat.mod_upper_bound (n - 1) 28 ltac:(lia)).
  pose proof (Nat.div_mod_eq n 28) as Hnext. pose proof (Nat.mod_upper_bound n 28 ltac:(lia)). fold last in Hlast. fold next in Hnext.
  assert (ensure_space ROW_H (laid_out col_x lines b) =
    PdfBuilder (pb_title b) (pb_done b ++ (table_page col_x lines <$> seq 0 next)) (table_page col_x lines next)
      (HEADER_Y_START - ROW_H * Z.of_nat (n mod 28))) as Hspace.
  { unfold ensure_space, laid_out. cbn [current_y]. fold n last. unfold HEADER_Y_START, ROW_H, NEW_PAGE_THRESHOLD in *.
    destruct (Z.ltb_spec (190 - 6 * (Z.of_nat n - 28 * Z.of_nat last) - 6) 20).
    - assert (next = S last) as Hn by lia. unfold new_page. cbn [pb_title pb_done pb_page]. rewrite Hn, seq_S, fmap_app, app_assoc. cbn [fmap list_fmap Nat.add].
      rewrite (table_page_beyond col_x lines (S last)) by (fold n; lia). do 2 f_equal. unfold HEADER_Y_START. lia.
    - assert (next = last) as Hn by lia. rewrite Hn. f_equal. lia. }
  unfold table_row. rewrite Hspace, write_cells_spec. cbn [current_y pb_title pb_done pb_page].
  change (Forall (fun c => is_Some (cut_text 30 c)) l.1.1) with (cuttable l). destruct (decide (cuttable l)); [|done].
  cbn [mbind option_bind pb_title pb_done pb_page current_y]. f_equal. unfold laid_out. rewrite length_app. cbn [length]. fold n. replace (n + 1 - 1)%nat with n by lia. fold next. f_equal.
  - f_equal. apply list_fmap_ext. intros i p Hp. apply lookup_seq in Hp as [-> Hp]. rewrite table_page_snoc. fold n. fold next.
    destruct (Nat.eqb_spec next (0 + i)); [lia|]. by rewrite app_nil_r.
  - rewrite table_page_snoc. fold n. fold next. by rewrite Nat.eqb_refl.
  - unfold ROW_H, HEADER_Y_START in *. lia.
Qed.

Lemma place_lines col_x lines b : pb_page b = [] -> current_y b = HEADER_Y_START ->
  foldl (place_line col_x) (Some b) lines =
  if decide (Forall cuttable lines) then Some (laid_out col_x lines b) else None.
Proof.
  intros Hpage Hy. induction lines as [|l lines IH] using rev_ind.
  - rewrite decide_True by constructor. destruct b; cbn in *. subst. unfold laid_out. cbn. by rewrite app_nil_r.
  - rewrite foldl_snoc, IH. destruct (decide (Forall cuttable lines)) as [Hall|Hnot]; cbn [place_line mbind option_bind].
    + rewrite table_row_laid_out by done. destruct (decide (cuttable l)) as [Hl|Hl].
      * by rewrite decide_True by (apply Forall_app; auto).
      * rewrite decide_False; [done|]. intros [_ Hsnd]%Forall_app. by inversion Hsnd.
    + rewrite decide_False; [done|]. by intros [? _]%Forall_app.
Qed.

(** ** When a report is answered *)

Definition plain (s : string) : Prop := str_forallb is_ascii s = true.
Definition plain_row (row : pg_row) : Prop :=
  Forall (fun c => match c.2 with PgText (Some s) => plain s | _ => True end) row.

(** Every text that a report may show is plain ASCII. *)
Record ascii_store (s : report_store) : Prop := {
  ascii_hosts id h : iv_hosts (rs_inv s) !! id = Some h -> plain (in_name h) /\ plain (in_fqdn h) /\ plain (in_health h);
  ascii_users id n : rs_users s !! id = Some n -> plain n;
  ascii_patches id r p : fd_patches (rs_fleet s) !! id = Some r -> p ∈ pw_patches r ->
    plain (pt_name p) /\ plain (pt_severity p) /\ plain (pt_available p) /\ Forall plain (pt_cve_ids p);
  ascii_events r t : r ∈ rs_audit s ->
    t ∈ [ev_username (a_event r); ev_target_type (a_event r); ev_target_id (a_event r); ev_request (a_event r)] -> from_option plain True t
}.

Lemma cuttable_ascii l : Forall plain l.1.1 -> cuttable l.
Proof. intros Hl. eapply Forall_impl; [exact Hl|]. intros c. apply cut_ascii. Qed.

Section Answered.
Context `{SqlxLaws} (share_tenths : Z -> Z -> Z) (epoch_seconds : Z -> Z) (inet_text : string -> string).
Context (builtin_fonts : result unit string) (plot : (nat -> option string) -> list Z -> string -> may_panic string)
  (save : pdf_builder -> result string string) (fmt_now fmt_day fmt_minute : Z -> string).

(** The queries answer or fail; nothing is written. *)
Definition report_world : EffectSem report_eff report_store := fun X e s x s' =>
  match e in report_eff Y return Y -> Prop with
  | ReportSql q => fun x => s' = s /\ (answers_report share_tenths epoch_seconds inet_text q s x \/ exists e, x = Err e)
  | ReportClock => fun _ => s' = s
  end x.
#[local] Existing Instance report_world.
Local Notation rwp := (@wp report_eff report_store report_world _).

Lemma text_plain name row : plain_row row -> plain (text name row).
Proof using Type*.
  intros Hrow. unfold text, col. destruct (List.find _ row) as [[n v]|] eqn:Hfind; [|done]. apply find_some in Hfind as [Hin _].
  apply list_elem_of_In in Hin. unfold plain_row in Hrow. rewrite Forall_forall in Hrow. specialize (Hrow _ Hin). cbn [snd fmap option_fmap option_map mbind option_bind] in *.
  destruct v as [[v|]| | | |]; cbn [mbind option_bind]; rewrite ?get_string_text; [done|done|rewrite get_string_other; done..].
Qed.

(** The four documents abort in no other way than at a cell or at the chart. *)
Lemma document_layout name title params now col_x head rows rest :
  document builtin_fonts save fmt_now fmt_day name title params now col_x head rows rest =
  match builtin_fonts with
  | Err e => Some (Err e)
  | Ok _ =>
      let lines := (head, 9, true) :: (body_line <$> rows) in
      if decide (Forall cuttable lines)
      then save <$> rest (laid_out col_x lines (write_title_page fmt_now fmt_day title params now (PdfBuilder name [] [] HEADER_Y_START)))
      else None
  end.
Proof using Type.
  unfold document, pdf_new. case builtin_fonts; [intros u|done]. cbn [result_bind panic_bind]. cbv zeta.
  set (b := write_title_page _ _ _ _ _ _). pose proof (place_lines col_x ((head, 9, true) :: (body_line <$> rows)) b eq_refl eq_refl) as Hplace.
  cbn [foldl] in Hplace. unfold place_line at 2 in Hplace. cbn [fst snd mbind option_bind] in Hplace.
  destruct (table_row head col_x 9 true b) as [b'|]; cbn [mbind option_bind].
  - rewrite table_rows_lines, Hplace. destruct (decide _); [|done]. cbn [mbind option_bind]. by destruct (rest _).
  - destruct (decide _); [exfalso|done]. revert Hplace. generalize (body_line <$> rows). intros ls. generalize (laid_out col_x ((head, 9, true) :: ls) b).
    induction ls as [|l ls IH]; [done|]. exact IH.
Qed.

Lemma rwp_query {A} q (f : result (list pg_row) string -> prog report_eff A) Q s :
  (forall e, rwp (f (Err e)) Q s) ->
  (forall rows, answers_report share_tenths epoch_seconds inet_text q s (Ok rows) -> rwp (f (Ok rows)) Q s) ->
  rwp (bind (rsql q) f) Q s.
Proof using Type.
  intros Herr Hok x s' [-> [Hx|[e ->]]]; [|apply Herr]. destruct x as [rows|e]; [by apply Hok|apply Herr].
Qed.
Lemma rwp_context {A} q msg (f : result (list pg_row) string -> prog report_eff A) Q s :
  rwp (f (Err msg)) Q s ->
  (forall rows, answers_report share_tenths epoch_seconds inet_text q s (Ok rows) -> rwp (f (Ok rows)) Q s) ->
  rwp (bind (with_context q msg) f) Q s.
Proof using Type. intros Herr Hok. apply wp_bind. unfold with_context. apply rwp_query; [done|exact Hok]. Qed.

Lemma report_hosts_in group s kv : kv ∈ report_hosts group s -> iv_hosts (rs_inv s) !! kv.1 = Some kv.2.
Proof using Type.
  unfold report_hosts. intros [Hin _]%list_elem_of_In%filter_In. apply list_elem_of_In in Hin. destruct kv. by apply elem_of_map_to_list.
Qed.

Lemma exposures_in from to s x : x ∈ exposures from to s <->
  iv_hosts (rs_inv s) !! ex_id x = Some (ex_host x) /\
  exists r, fd_patches (rs_fleet s) !! ex_id x = Some r /\ ex_seen x = pw_polled_at r /\ in_report_range from to (Some (pw_polled_at r)) = true /\
    ex_patch x ∈ pw_patches r /\ ex_cve x ∈ pt_cve_ids (ex_patch x).
Proof using Type.
  unfold exposures. rewrite elem_of_concat. setoid_rewrite list_elem_of_fmap. split.
  - intros (ls & ([id h] & -> & Hin%elem_of_map_to_list) & Hx). unfold exposures_of in Hx. cbn [fst snd] in Hx.
    destruct (fd_patches (rs_fleet s) !! id) as [r|] eqn:Hr; [|by apply not_elem_of_nil in Hx].
    destruct (in_report_range _ _ _) eqn:Hrange; [|by apply not_elem_of_nil in Hx].
    apply elem_of_concat in Hx as (l & (p & -> & Hp)%list_elem_of_fmap & (c & -> & Hc)%list_elem_of_fmap). cbn. split; [done|]. by exists r.
  - intros (Hh & r & Hr & Hseen & Hrange & Hp & Hc). eexists. split; [exists (ex_id x, ex_host x); split; [done|by apply elem_of_map_to_list]|].
    unfold exposures_of. cbn [fst snd]. rewrite Hr, Hrange. apply elem_of_concat. eexists.
    split; [apply list_elem_of_fmap; by exists (ex_patch x)|]. apply list_elem_of_fmap. exists (ex_cve x). split; [|done]. destruct x. cbn in *. by subst.
Qed.

Context (rfc3339 : Z -> string) (csv_write : list (list string) -> result string string).

(** ** What the reports list *)

Definition exposure_record (x : exposure) : list string :=
  [uuid_str (ex_id x); in_name (ex_host x); in_fqdn (ex_host x); ex_cve x; pt_name (ex_patch x); pt_severity (ex_patch x);
   pt_available (ex_patch x); rfc3339 (ex_seen x)].

(** The vulnerability report in CSV has one record for each CVE of each missing
    patch of each host whose patches were polled in the range, and no other, the
    critical ones first; but a query that fails is reported as no vulnerability. *)
Theorem vulnerability_report_spec from to g s :
  rwp (generate_csv rfc3339 csv_write (ReportParams Vulnerability from to g)) (fun r s' => s' = s /\
    (r = csv_write [vulnerability_header] \/
     exists l, r = csv_write (vulnerability_header :: (exposure_record <$> l)) /\ l ≡ₚ exposures from to s /\
       Sorted (fun a b => severity_rank (pt_severity (ex_patch a)) <= severity_rank (pt_severity (ex_patch b))) l /\
       forall x, x ∈ l <->
         iv_hosts (rs_inv s) !! ex_id x = Some (ex_host x) /\
         exists r, fd_patches (rs_fleet s) !! ex_id x = Some r /\ ex_seen x = pw_polled_at r /\ in_report_range from to (Some (pw_polled_at r)) = true /\
           ex_patch x ∈ pw_patches r /\ ex_cve x ∈ pt_cve_ids (ex_patch x))) s.
Proof using H0.
  cbn [generate_csv rp_type]. unfold vulnerability_csv. apply rwp_query; [intros e|intros rows (l & Hperm & Hsort & [= ->])]; cbn [wp]; (split; [done|]); [by left|].
  right. exists l. split_and!; [|done|done|intros x; by rewrite Hperm, exposures_in]. do 2 f_equal. rewrite <- list_fmap_compose.
  apply list_fmap_ext. intros i x _. unfold compose, vulnerability_record, exposure_record, text, time, col. cbn.
  rewrite !get_string_text, get_opt_time_time. done.
Qed.

(** The numbers of packages do not arrive: the columns are 32-bit integers and are
    read as 64-bit ones, so that every compliance report says that every host has
    no packages and misses no patches, and every patch history that every job had
    no packages. *)
Theorem package_numbers_lost params s : rp_type params = Compliance \/ rp_type params = PatchHistory ->
  rwp (generate_csv rfc3339 csv_write params) (fun r s' => s' = s /\
    ((exists e, r = Err e) \/
     exists header records, r = csv_write (header :: records) /\
       Forall (fun rec : list string => forall i c, header !! i = Some c ->
         c = "total_packages"%string \/ c = "pending_patches"%string \/ c = "package_count"%string -> rec !! i = Some "0"%string) records)) s.
Proof using H0.
  intros Hty. destruct params as [ty from to g]. cbn [rp_type] in Hty. destruct Hty as [-> | ->]; cbn [generate_csv rp_type rp_group rp_from rp_to];
    unfold compliance_csv, patch_history_csv, bind_ok; apply rwp_context; try (cbn [wp]; split; [done|]; left; by eexists); intros rows Hrows; cbn [wp]; (split; [done|]); right; do 2 eexists; (split; [done|]).
  - destruct Hrows as (groups & hosts & _ & _ & _ & [= ->]). rewrite !Forall_fmap. apply Forall_forall. intros kv _ i c Hi Hc.
    unfold compose, compliance_record, int, col. cbn. rewrite !get_i64_int4. cbn.
    do 9 (destruct i as [|i]; [cbn in Hi; destruct_or! Hc; subst c; first [discriminate Hi|reflexivity]|]). done.
  - cbn [answers_report] in Hrows. destruct (mapM _ (history_entries _ _ _)) as [all|]; [|by destruct Hrows].
    destruct Hrows as (l & rows' & _ & _ & Hmap%mapM_Some & [= ->]). rewrite Forall_fmap. apply Forall_forall. intros row Hrow i c Hi Hc.
    apply list_elem_of_lookup in Hrow as [k Hk]. destruct (Forall2_lookup_r _ _ _ _ _ Hmap Hk) as ([[e j] h] & _ & Hx). cbn [history_row] in Hx.
    destruct (package_count _) as [n|]; [|done]. cbn in Hx. simplify_eq. unfold history_record, int, col. cbn. rewrite !get_i64_int4. cbn.
    do 10 (destruct i as [|i]; [cbn in Hi; destruct_or! Hc; subst c; first [discriminate Hi|reflexivity]|]). done.
Qed.
(** ** ASCII reports *)

(** The plotting library panics only where a label does; times are written in
    ASCII, and addresses too. *)
Context (Hplot : forall f vs t, (forall i, is_Some (f i)) -> plot f vs t <> None).
Context (Hday : forall t, plain (fmt_day t)) (Hminute : forall t, plain (fmt_minute t)) (Hinet : forall s, plain (inet_text s)).

Lemma chart_page_answered labels values title caption b : Forall plain labels -> chart_page plot labels values title caption b <> None.
Proof using Hplot.
  intros Hlabels. unfold chart_page. case_bool_decide; [done|]. unfold render_bar_chart. destruct (_ || _); [done|].
  destruct (plot (chart_label labels) values title) as [[raw|e]|] eqn:Hp; cbn [panic_bind]; [done..|].
  exfalso. revert Hp. apply Hplot. intros i. unfold chart_label. destruct (labels !! i) as [s|] eqn:Hs; [|eauto].
  apply cut_ascii. exact (Forall_lookup_1 _ _ _ _ Hlabels Hs).
Qed.

Lemma document_answered name title params now col_x head rows rest :
  forallb (str_forallb is_ascii) head = true -> Forall (Forall plain) rows -> (forall b, rest b <> None) ->
  document builtin_fonts save fmt_now fmt_day name title params now col_x head rows rest <> None.
Proof using Type.
  intros Hhead Hrows Hrest. rewrite document_layout. case builtin_fonts; [intros u|done]. cbv zeta. rewrite decide_True.
  - specialize (Hrest (laid_out col_x ((head, 9, true) :: (body_line <$> rows)) (write_title_page fmt_now fmt_day title params now (PdfBuilder name [] [] HEADER_Y_START)))).
    by destruct (rest _).
  - constructor.
    + apply cuttable_ascii, Forall_forall. intros c Hc%list_elem_of_In. rewrite forallb_forall in Hhead. by apply Hhead.
    + apply Forall_fmap. eapply Forall_impl; [exact Hrows|]. intros cells Hcells. by apply (cuttable_ascii (body_line cells)).
Qed.

Lemma from_option_ascii f (o : option Z) : (forall t, plain (f t)) -> plain (from_option f ""%string o).
Proof using Type. intros Hf. destruct o; [apply Hf|done]. Qed.

Lemma jobs_per_day_keys rows : Forall (fun kv => plain kv.1) (jobs_per_day fmt_day rows).
Proof using Hday.
  unfold jobs_per_day. assert (Forall (fun kv : string * Z => plain kv.1) []) as Hnil by constructor. revert Hnil.
  generalize (@nil (string * Z)). induction rows as [|row rows IH]; intros dc Hdc; [done|]. cbn [foldl]. apply IH.
  destruct (time "started_at" row); [|done]. apply bt_insert_forall; [apply Hday|done].
Qed.

(** Rows of plain texts give a document. *)
Lemma documents_answered params now rows : Forall plain_row rows ->
  compliance_document builtin_fonts plot save fmt_now fmt_day params now rows <> None /\
  history_document builtin_fonts plot save fmt_now fmt_day fmt_minute params now rows <> None /\
  (forall r, r = Ok rows \/ is_ok r = false -> vulnerability_document builtin_fonts save fmt_now fmt_day params now r <> None) /\
  audit_document builtin_fonts save fmt_now fmt_day fmt_minute params now rows <> None.
Proof using All.
  intros Hrows. assert (forall f : pg_row -> list string, (forall row, plain_row row -> Forall plain (f row)) -> Forall (Forall plain) (f <$> rows)) as Hcells.
  { intros f Hf. apply Forall_fmap. eapply Forall_impl; [exact Hrows|]. exact Hf. }
  split_and!.
  - apply document_answered; [vm_compute; reflexivity| |].
    + apply Hcells. intros row Hrow. repeat constructor; try by apply text_plain. all: try apply dec_ascii.
      unfold plain. by rewrite str_forallb_app, show_tenths_ascii.
    + intros b. apply chart_page_answered, Forall_fmap. eapply Forall_impl; [exact Hrows|]. intros row. apply text_plain.
  - apply document_answered; [vm_compute; reflexivity| |].
    + apply Hcells. intros row Hrow. repeat constructor; try by apply text_plain. all: first [apply dec_ascii|by apply from_option_ascii].
    + intros b. apply chart_page_answered, Forall_fmap, jobs_per_day_keys.
  - intros r Hr. apply document_answered; [vm_compute; reflexivity| |by intros ?].
    destruct r as [rows'|e]; [|constructor]. destruct Hr as [[= ->]|]; [|done].
    apply Hcells. intros row Hrow. repeat constructor; try by apply text_plain. by apply from_option_ascii.
  - apply document_answered; [vm_compute; reflexivity| |done].
    apply Hcells. intros row Hrow. repeat constructor; try by apply text_plain. by apply from_option_ascii.
Qed.

Lemma history_row_plain s x row : ascii_store s -> (exists from to, x ∈ history_entries from to s) ->
  history_row epoch_seconds Pdf s x = Some row -> plain_row row.
Proof using Type.
  intros Hs (from & to & Hx) Hrow. destruct x as [[e j] h]. unfold history_entries in Hx. apply list_elem_of_omap in Hx as ([k e'] & _ & Hx). cbn [snd] in Hx.
  destruct (in_report_range _ _ _); [|done]. destruct (history_join s e') as [[j' h']|] eqn:Hj; [|done]. cbn in Hx. simplify_eq.
  unfold history_join in Hj. destruct (db_jobs (rs_jobs s) !! h_job e); [|done]. cbn [mbind option_bind] in Hj.
  destruct (iv_hosts (rs_inv s) !! h_host e) as [h'|] eqn:Hh; [|done]. cbn [mbind option_bind] in Hj. simplify_eq.
  destruct (ascii_hosts s Hs _ _ Hh) as (Hname & Hfqdn & _). cbn [history_row mbind option_bind cols_of app] in Hrow. simplify_eq.
  repeat constructor; cbn; [by destruct (j_kind j)|by destruct (j_status j)|done|done|]. unfold operator_name.
  destruct (j_created_by j ≫= _) as [n|] eqn:Hn; [|done]. apply bind_Some in Hn as (u & _ & Hu). by apply (ascii_users s Hs u).
Qed.

Definition pdf_query (q : report_stmt) : Prop :=
  match q with SelCompliance f _ | SelHistory f _ _ | SelVulnerability f _ _ => f = Pdf | SelAudit _ _ => True end.
Lemma answers_plain q s rows : ascii_store s -> pdf_query q ->
  answers_report share_tenths epoch_seconds inet_text q s (Ok rows) -> Forall plain_row rows.
Proof using All.
  intros Hs Hq Hans. destruct q as [f g|f from to|f from to|from to]; cbn [pdf_query answers_report] in *; try subst f.
  - destruct Hans as (groups & hosts & _ & Hperm & _ & [= ->]). apply Forall_fmap, Forall_forall. intros kv Hkv. rewrite Hperm in Hkv.
    destruct (ascii_hosts s Hs _ _ (report_hosts_in _ _ _ Hkv)) as (? & ? & ?). by repeat constructor.
  - destruct (mapM _ (history_entries _ _ _)) as [all|]; [|by destruct Hans]. destruct Hans as (l & rows' & Hperm & _ & Hrows & [= ->]).
    apply mapM_Some in Hrows. apply Forall_forall. intros row Hrow. apply list_elem_of_lookup in Hrow as [i Hi].
    destruct (Forall2_lookup_r _ _ _ _ _ Hrows Hi) as (x & Hx & Hxr). eapply history_row_plain; [done| |exact Hxr].
    exists from, to. rewrite <- Hperm. by eapply list_elem_of_lookup_2.
  - destruct Hans as (l & Hperm & _ & [= ->]). apply Forall_fmap, Forall_forall. intros x Hx. rewrite Hperm in Hx.
    apply exposures_in in Hx as (Hh & r & Hr & _ & _ & Hp & Hc). destruct (ascii_hosts s Hs _ _ Hh) as (? & ? & ?).
    destruct (ascii_patches s Hs _ _ _ Hr Hp) as (? & ? & ? & Hcves). rewrite Forall_forall in Hcves. repeat constructor; cbn; auto.
  - destruct Hans as (l & Hperm & _ & [= ->]). apply Forall_fmap, Forall_forall. intros r (i & Hr%list_elem_of_lookup_2 & _)%elem_of_take. rewrite Hperm in Hr.
    unfold audit_in_range in Hr. apply list_elem_of_In, filter_In in Hr as [Hr%list_elem_of_In _]. pose proof (ascii_events s Hs r) as Hev.
    unfold compose, plain_row, audit_row_cols. cbv zeta beta. rewrite !Forall_cons. cbn [snd]. split_and!; [apply dec_ascii|done|by destruct (ev_action (a_event r))|..].
    + specialize (Hev (ev_username (a_event r)) Hr ltac:(set_solver)). by destruct (ev_username _).
    + specialize (Hev (ev_target_type (a_event r)) Hr ltac:(set_solver)). by destruct (ev_target_type _).
    + specialize (Hev (ev_target_id (a_event r)) Hr ltac:(set_solver)). by destruct (ev_target_id _).
    + destruct (ev_ip (a_event r)); cbn; [apply Hinet|done].
    + specialize (Hev (ev_request (a_event r)) Hr ltac:(set_solver)). by destruct (ev_request _).
    + constructor.
Qed.

Lemma generate_pdf_plain params s : ascii_store s ->
  rwp (generate_pdf builtin_fonts plot save fmt_now fmt_day fmt_minute params) (fun r s' => r <> None /\ s' = s) s.
Proof using All.
  intros Hs. destruct params as [[] from to g]; cbn [generate_pdf rp_type]; unfold compliance_pdf, patch_history_pdf, vulnerability_pdf, audit_pdf.
  1,2,4: apply rwp_context; [done|]; intros rows Hrows now s' ->; cbn [wp]; split; [|done];
    eapply documents_answered, answers_plain; [exact Hs| |exact Hrows]; done.
  apply rwp_query; [intros e now s' ->|intros rows Hrows now s' ->]; (split; [|done]).
  - eapply (documents_answered _ _ []); [constructor|]. by right.
  - eapply documents_answered; [eapply answers_plain; [exact Hs| |exact Hrows]; done|]. by left.
Qed.

Lemma compliance_aborts params now s groups kv hosts :
  kv ∈ hosts -> cut_text 30 (in_name kv.2) = None ->
  from_option (fun r => is_ok r = false) True
    (compliance_document builtin_fonts plot save fmt_now fmt_day params now (compliance_row share_tenths Pdf s groups <$> hosts)).
Proof using All.
  intros Hkv Hcut. unfold compliance_document. rewrite document_layout. case builtin_fonts; [intros u|done]. cbv zeta. rewrite decide_False; [done|].
  intros [_ Hall]%Forall_cons. rewrite !Forall_fmap in Hall. rewrite Forall_forall in Hall. specialize (Hall kv Hkv). cbn [compose] in Hall.
  unfold cuttable, body_line, compliance_cells in Hall. cbn [fst] in Hall. apply Forall_cons in Hall as [Hname _].
  unfold text, col in Hname. cbn in Hname. rewrite get_string_text in Hname. cbn in Hname. rewrite Hcut in Hname. by destruct Hname.
Qed.

(** C40. Which reports are answered: with plain ASCII texts in the tables, every report
    is, in both formats; but a host in the compliance report whose name is longer
    than 30 bytes and has a character across its 30th byte takes the answer away
    from every request for it as a PDF, as the builder cuts the name inside that
    character and panics. *)
Theorem reports_answered params use_pdf csv_name pdf_name s :
  (ascii_store s ->
   rwp (run_report builtin_fonts plot save fmt_now fmt_day fmt_minute rfc3339 csv_write params use_pdf csv_name pdf_name)
     (fun r s' => r <> None /\ s' = s) s) /\
  (rp_type params = Compliance -> use_pdf = true ->
   (exists kv, kv ∈ report_hosts (rp_group params) s /\ cut_text 30 (in_name kv.2) = None) ->
   rwp (run_report builtin_fonts plot save fmt_now fmt_day fmt_minute rfc3339 csv_write params use_pdf csv_name pdf_name)
     (fun r _ => match r with None => True | Some reply => rr_status reply = 500 end) s).
Proof using All.
  split.
  - intros Hs. unfold run_report. destruct use_pdf; apply wp_bind.
    + eapply wp_mono; [|by apply generate_pdf_plain]. intros [[?|?]|] s' [? ->]; [done|done|done].
    + apply wp_bind. destruct params as [[] from to g]; cbn [generate_csv rp_type]; unfold compliance_csv, patch_history_csv, vulnerability_csv, audit_csv, bind_ok.
      1,2,4: apply rwp_context; [done|]; intros rows _; cbn [wp]; by destruct (csv_write _).
      apply rwp_query; [intros e|intros rows _]; cbn [wp]; by destruct (csv_write _).
  - intros Hty -> (kv & Hkv & Hcut). destruct params as [ty from to g]. cbn [rp_type rp_group] in *. subst ty. unfold run_report. apply wp_bind.
    cbn [generate_pdf rp_type]. unfold compliance_pdf. apply rwp_context; [done|]. intros rows Hrows now s' ->. cbn [wp].
    destruct Hrows as (groups & hosts & _ & Hperm & _ & [= ->]).
    pose proof (compliance_aborts (ReportParams Compliance from to g) now s groups kv hosts ltac:(by rewrite Hperm) Hcut) as Hno.
    cbn [bind wp]. destruct (compliance_document _ _ _ _ _ _ _ _) as [[body|e]|]; cbn in Hno |- *; done.
Qed.

End Answered.

(** ** A driver, a plotting library and two fleets for the witness *)

#[local] Instance a_driver : Sqlx := {|
  get_string v := match v with PgText t => t | _ => None end;
  get_i64 v := match v with PgInt8 n => n | _ => None end;
  get_opt_i64 v := match v with PgInt8 n => Some n | _ => None end;
  get_f64 v := match v with PgFloat8 x => Some x | _ => None end;
  get_opt_time v := match v with PgTime t => Some t | _ => None end
|}.
#[local] Instance a_driver_laws : SqlxLaws.
Proof. split; try done. by intros [t| | | |] Ht; [destruct (Ht t)|..]. Qed.

(** Asks for the label of its first bar. *)
Definition a_plot (label : nat -> option string) (values : list Z) (title : string) : may_panic string :=
  match label 0%nat with Some _ => Some (Err "no backend"%string) | None => None end.

Definition named_fleet (name : string) : report_store :=
  ReportStore (Db 0 ∅ ∅ ∅ ∅ ∅ ∅ [])
    (Inventory {[7%N := HostRec "web1.example.org" "10.0.0.1" name 8443 "" false None None "healthy" None]} ∅ ∅ ∅ ∅ ∅)
    (FleetDb 0 ∅ [] ∅ []) ∅ [].
(** 29 letters and a character of two bytes. *)
Definition accented_name : string := ("aaaaaaaaaaaaaaaaaaaaaaaaaaaaa" ++ bytes [195; 169]%N)%string.

Lemma named_fleet_ascii : ascii_store (named_fleet "web1").
Proof.
  split; cbn.
  - intros id h [<- <-]%lookup_singleton_Some. done.
  - intros id n Hn. by rewrite lookup_empty in Hn.
  - intros id r p Hr. by rewrite lookup_empty in Hr.
  - intros r t Hr. by apply not_elem_of_nil in Hr.
Qed.

#[local] Instance a_world : EffectSem report_eff report_store := report_world (fun _ _ => 1000) (fun x => x) (fun _ => "ip"%string).
Definition a_report : prog report_eff (option report_reply) :=
  run_report (Ok tt) a_plot (fun _ => Ok "%PDF"%string) (fun _ => "now"%string) (fun _ => "day"%string) (fun _ => "minute"%string)
    (fun _ => "time"%string) (fun _ => Ok ""%string) (ReportParams Compliance None None None) true "compliance-report.csv" "compliance-report.pdf".

Lemma reports_answered_witness :
  wp a_report (fun r s' => r <> None /\ s' = named_fleet "web1") (named_fleet "web1") /\
  wp a_report (fun r _ => match r with None => True | Some reply => rr_status reply = 500 end) (named_fleet accented_name).
Proof.
  split; [apply (reports_answered (fun _ _ => 1000)); [|done..|apply named_fleet_ascii]|apply (reports_answered (fun _ _ => 1000)); [|done..|]].
  - intros f vs t Hf. unfold a_plot. destruct (Hf 0%nat) as [x ->]. done.
  - intros f vs t Hf. unfold a_plot. destruct (Hf 0%nat) as [x ->]. done.
  - eexists (7%N, _). split; [apply list_elem_of_In; left; reflexivity|]. vm_compute. reflexivity.
Defined.
