(* ===== verification/SigningKeys.v ===== *)
(** * The signing keys of the repository (pm-core/src/gpg.rs, rsa_signing.rs, pm-web/src/main.rs)

    What a start of the server does about the two key pairs that the indexes are
    signed with: the GPG key in a keyring with its exported files, and the RSA pair
    for Alpine.  A start may be cut off at any step.  The gpg program, the
    generation of RSA keys and their encodings are effects and parameters. *)

From S2P Require Import Prelude Conc.

(** ** Data and effects *)

Definition GPG_KEY_NAME : string := "Linux Patch API Repo".
Definition GPG_KEY_EMAIL : string := "lpa-repo@localhost".
Definition GPG_KEY_EXPIRY : string := "2y".
Definition RSA_KEY_BITS : Z := 2048.

Record gpg_key_info : Type := GpgKeyInfo {
  gk_key_id : string; gk_public_key_path : string; gk_private_key_path : string; gk_newly_generated : bool
}.
Record rsa_key_info : Type := RsaKeyInfo { rk_public_key_path : string; rk_private_key_path : string; rk_newly_generated : bool }.

(** What a run of gpg ends with. *)
Record gpg_output : Type := GpgOutput { go_success : bool; go_stdout : string; go_stderr : string }.

(** A key of either kind is a number. *)
Definition key : Type := N.

Inductive sign_eff : Type -> Type :=
| PathExists (path : string) : sign_eff bool
(** [create_dir_all] of the parent of a path *)
| MakeDirs (path : string) : sign_eff unit
(** [gpg --batch --gen-key]: start, script on stdin, end *)
| GpgSpawn : sign_eff (result unit string)
| GpgScript (script : string) : sign_eff (result unit string)
| GpgWait : sign_eff (result gpg_output string)
| GpgExport (secret : bool) (email : string) : sign_eff (result gpg_output string)
| GpgListKeys (email : string) : sign_eff (result gpg_output string)
| GpgImport (path : string) : sign_eff unit
| Chmod0600 (path : string) : sign_eff unit
| RsaNew (bits : Z) : sign_eff (result key string)
| WriteFile (path contents : string) : sign_eff (result unit string)
| SetMode (path : string) (mode : Z) : sign_eff (result unit string)
| RenameFile (from to : string) : sign_eff (result unit string).

Definition kdo {X} (e : sign_eff X) : prog sign_eff X := trigger e.
(** [map_err(...)?] *)
Definition or_failed {X} (msg : string) (e : sign_eff (result X string)) : prog sign_eff (result X string) :=
  let! r := kdo e in Ret (match r with Ok x => Ok x | Err e => Err (msg ++ e)%string end).
(** The same for a run of gpg, which must end with success. *)
Definition gpg_run (what : string) (e : sign_eff (result gpg_output string)) : prog sign_eff (result string string) :=
  let!? out := or_failed (what ++ " failed: ") e in
  Ret (if go_success out then Ok (go_stdout out) else Err (what ++ " failed: " ++ go_stderr out)%string).

(** ** The GPG key *)

Definition newline : string := String "010" "".
Definition gen_key_script : string :=
  ("Key-Type: RSA" ++ newline ++ "Key-Length: 4096" ++ newline ++ "Key-Usage: sign" ++ newline ++ "Name-Real: " ++ GPG_KEY_NAME ++ newline ++
   "Name-Email: " ++ GPG_KEY_EMAIL ++ newline ++ "Expire-Date: " ++ GPG_KEY_EXPIRY ++ newline ++ "%no-protection" ++ newline ++ "%commit" ++ newline)%string.

(** The last [n] bytes of an identifier. *)
Definition last_bytes (n : nat) (s : string) : string := String.substring (String.length s - n) n s.
(** The identifier in the fifth field of the first line for a public key. *)
Definition pub_line (line : string) : option string :=
  if starts_with "pub:" line
  then f ← split_by (Ascii.eqb ":") line !! 4%nat; Some (if (16 <=? String.length f)%nat then last_bytes 16 f else f)
  else None.
Definition parse_key_id (stdout : string) : option string := head (omap pub_line (split_by (Ascii.eqb "010") stdout)).

Definition get_key_id (email : string) : prog sign_eff (result string string) :=
  let!? stdout := gpg_run "gpg --list-keys" (GpgListKeys email) in
  Ret (match parse_key_id stdout with
       | Some id => Ok id
       | None => Err ("Could not find key ID for " ++ email ++ " in gpg output")%string
       end).

Definition export_public_key (email path : string) : prog sign_eff (result unit string) :=
  let!? stdout := gpg_run "gpg --export" (GpgExport false email) in or_failed "Failed to write public key: " (WriteFile path stdout).
Definition export_private_key (email path : string) : prog sign_eff (result unit string) :=
  let!? stdout := gpg_run "gpg --export-secret-keys" (GpgExport true email) in or_failed "Failed to write private key: " (WriteFile path stdout).

Definition extract_key_id_from_private_key (path : string) : prog sign_eff (result string string) :=
  kdo (GpgImport path) ;; get_key_id GPG_KEY_EMAIL.

Definition generate_key : prog sign_eff (result string string) :=
  let!? _ := or_failed "Failed to spawn gpg --gen-key: " GpgSpawn in
  let!? _ := or_failed "Failed to write to gpg stdin: " (GpgScript gen_key_script) in
  gpg_run "gpg --gen-key" GpgWait.

Definition ensure_signing_key (public_key_path private_key_path : string) : prog sign_eff (result gpg_key_info string) :=
  let! there := kdo (PathExists private_key_path) in
  if there : bool then
    let!? key_id := extract_key_id_from_private_key private_key_path in
    Ret (Ok (GpgKeyInfo key_id public_key_path private_key_path false))
  else
    kdo (MakeDirs private_key_path) ;;
    let!? _ := generate_key in
    let!? _ := export_public_key GPG_KEY_EMAIL public_key_path in
    let!? _ := export_private_key GPG_KEY_EMAIL private_key_path in
    kdo (Chmod0600 private_key_path) ;;
    let!? key_id := get_key_id GPG_KEY_EMAIL in
    Ret (Ok (GpgKeyInfo key_id public_key_path private_key_path true)).

(** ** The RSA pair *)

Definition tmp_of (path : string) : string := (path ++ ".tmp")%string.
(** [write_private_key] and [write_public_key], with their modes. *)
Definition write_key_file (mode : Z) (path contents : string) : prog sign_eff (result unit string) :=
  let!? _ := or_failed "IO error: " (WriteFile (tmp_of path) contents) in
  let!? _ := or_failed "IO error: " (SetMode (tmp_of path) mode) in
  or_failed "IO error: " (RenameFile (tmp_of path) path).
Definition write_private_key : string -> string -> prog sign_eff (result unit string) := write_key_file 384.
Definition write_public_key : string -> string -> prog sign_eff (result unit string) := write_key_file 420.

Section Keys.
(** The texts of the two files of a pair. *)
Context (private_pem public_pem : key -> string).

Definition ensure_rsa_keypair (public_key_path private_key_path : string) : prog sign_eff (result rsa_key_info string) :=
  let! pub_exists := kdo (PathExists public_key_path) in
  let! priv_exists := kdo (PathExists private_key_path) in
  if pub_exists && priv_exists then Ret (Ok (RsaKeyInfo public_key_path private_key_path false))
  else
    let!? private_key := or_failed "RSA key error: " (RsaNew RSA_KEY_BITS) in
    let!? _ := write_private_key private_key_path (private_pem private_key) in
    let!? _ := write_public_key public_key_path (public_pem private_key) in
    Ret (Ok (RsaKeyInfo public_key_path private_key_path true)).

(** [RepoConfig], the paths of the keys. *)
Record key_paths : Type := KeyPaths { kp_gpg_public : string; kp_gpg_private : string; kp_rsa_public : string; kp_rsa_private : string }.

(** The part of [main] on the keys; the flag tells whether the directories of the
    repository are set up then. *)
Definition start_keys (c : key_paths) : prog sign_eff (gpg_key_info * rsa_key_info * bool) :=
  let! g := ensure_signing_key (kp_gpg_public c) (kp_gpg_private c) in
  let gpg := match g with Ok i => i | Err _ => GpgKeyInfo "" (kp_gpg_public c) (kp_gpg_private c) false end in
  let! r := ensure_rsa_keypair (kp_rsa_public c) (kp_rsa_private c) in
  let rsa := match r with Ok i => i | Err _ => RsaKeyInfo (kp_rsa_public c) (kp_rsa_private c) false end in
  Ret (gpg, rsa, negb (String.eqb (gk_key_id gpg) "")).
End Keys.

(** ** Starts that may be cut off *)

(** The files, and the keys of the keyring, the first of which signs. *)
Record key_world : Type := KeyWorld { kw_files : gmap string string; kw_ring : list key }.

(** A run of a program that stops anywhere. *)
Inductive cut_run `{EffectSem sign_eff key_world} {A} : prog sign_eff A -> key_world -> key_world -> Prop :=
| cut_here p w : cut_run p w w
| cut_later X (e : sign_eff X) k x w w' w'' : exec e w x w' -> cut_run (k x) w' w'' -> cut_run (Vis e k) w w''.

Section Rules.
Context `{EffectSem sign_eff key_world} (J : key_world -> Prop).

(** [J] at every point of a run, and [Q] at its end. *)
Fixpoint along {A} (p : prog sign_eff A) (Q : A -> key_world -> Prop) (w : key_world) : Prop :=
  J w /\ match p with Ret a => Q a w | Vis e k => forall x w', exec e w x w' -> along (k x) Q w' end.

Lemma along_cut {A} (p : prog sign_eff A) Q w w' : along p Q w -> cut_run p w w' -> J w'.
Proof. intros Hp Hrun. induction Hrun as [p w|X e k x w w' w'' Hx Hrun IH]; [by destruct p, Hp|]. apply IH. by apply Hp. Qed.
Lemma along_wp {A} (p : prog sign_eff A) Q w : along p Q w -> wp p Q w.
Proof. revert w. induction p as [a|X e k IH]; intros w [_ Hp]; [done|]. intros x w' Hx. by apply IH, Hp. Qed.
Lemma along_mono {A} (p : prog sign_eff A) (Q Q' : A -> key_world -> Prop) w :
  (forall a w', J w' -> Q a w' -> Q' a w') -> along p Q w -> along p Q' w.
Proof. intros HQ. revert w. induction p as [a|X e k IH]; intros w [HJ Hp]; split; auto. Qed.
Lemma along_bind {A B} (p : prog sign_eff A) (f : A -> prog sign_eff B) Q w :
  along p (fun a w' => along (f a) Q w') w -> along (bind p f) Q w.
Proof. revert w. induction p as [a|X e k IH]; intros w [HJ Hp]; [exact Hp|]. split; [done|]. intros x w' Hx. by apply IH, Hp. Qed.
Lemma along_bind_ok {A B Er} (p : prog sign_eff (result A Er)) (f : A -> prog sign_eff (result B Er)) Q w :
  along p (fun r w' => match r with Ok a => along (f a) Q w' | Err e => Q (Err e) w' end) w -> along (bind_ok p f) Q w.
Proof. intros Hp. apply along_bind. eapply along_mono; [|exact Hp]. intros [a|e] w' HJ HQ; [done|]. by split. Qed.
Lemma along_kdo {X} (e : sign_eff X) Q w : J w -> (forall x w', exec e w x w' -> J w' /\ Q x w') -> along (kdo e) Q w.
Proof. intros HJ He. split; [done|]. intros x w' Hx. cbn [along]. by apply He. Qed.
Lemma along_or_failed {X} msg (e : sign_eff (result X string)) Q w : J w ->
  (forall x w', exec e w x w' -> J w' /\ match x with Ok v => Q (Ok v) w' | Err m => forall m', Q (Err m') w' end) -> along (or_failed msg e) Q w.
Proof.
  intros HJ He. apply along_bind, along_kdo; [done|]. intros x w' Hx. destruct (He x w' Hx) as [HJ' HQ]. split; [done|]. split; [done|]. destruct x; [done|apply HQ].
Qed.
Lemma along_gpg_run what e Q w : J w ->
  (forall x w', exec e w x w' -> J w' /\ (forall m, Q (Err m) w') /\ forall out, x = Ok out -> go_success out = true -> Q (Ok (go_stdout out)) w') ->
  along (gpg_run what e) Q w.
Proof.
  intros HJ He. apply along_bind_ok, along_or_failed; [done|]. intros x w' Hx. destruct (He x w' Hx) as (HJ' & Herr & Hok). split; [done|].
  destruct x as [out|m]; [|done]. split; [done|]. destruct (go_success out) eqn:Hout; [by apply Hok|apply Herr].
Qed.
End Rules.

(** ** What the outside does *)

Section Theorems.
(** The export of a keyring, its listing, the identifier of a key, and the texts
    of an RSA pair. *)
Context (armor : bool -> list key -> string) (listing : list key -> string) (key_id : key -> string) (private_pem public_pem : key -> string).

(** Any call may fail; keys are only ever added to the keyring, by a generation
    from the moment that it has its script; a write that fails may leave anything. *)
Definition keys_work : EffectSem sign_eff key_world := fun X e w x w' =>
  let grown := exists new, w' = KeyWorld (kw_files w) (kw_ring w ++ new) in
  match e in sign_eff Y return Y -> Prop with
  | PathExists path => fun x => w' = w /\ x = bool_decide (is_Some (kw_files w !! path))
  | MakeDirs _ | Chmod0600 _ => fun _ => w' = w
  | GpgSpawn | SetMode _ _ => fun _ => w' = w
  | RsaNew _ => fun _ => w' = w
  | GpgScript _ => fun _ => grown
  | GpgWait => fun x => grown /\ forall out, x = Ok out -> go_success out = true -> kw_ring w' <> []
  | GpgExport secret _ => fun x => w' = w /\ forall out, x = Ok out -> go_success out = true -> go_stdout out = armor secret (kw_ring w)
  | GpgListKeys _ => fun x => w' = w /\ forall out, x = Ok out -> go_success out = true -> go_stdout out = listing (kw_ring w)
  | GpgImport _ => fun _ => grown
  | WriteFile path c => fun x => kw_ring w' = kw_ring w /\
      match x with Ok _ => kw_files w' = <[path := c]> (kw_files w) | Err _ => exists o, kw_files w' = partial_alter (fun _ => o) path (kw_files w) end
  | RenameFile a b => fun x => kw_ring w' = kw_ring w /\
      match x with
      | Ok _ => exists c, kw_files w !! a = Some c /\ kw_files w' = <[b := c]> (delete a (kw_files w))
      | Err _ => kw_files w' = kw_files w
      end
  end x.
#[local] Existing Instance keys_work.

Context (c : key_paths).
(** The paths of the four files and of the temporary ones are different. *)
Definition distinct_paths : Prop :=
  NoDup [kp_gpg_public c; kp_gpg_private c; kp_rsa_public c; kp_rsa_private c; tmp_of (kp_rsa_public c); tmp_of (kp_rsa_private c)].

(** The public key file holds an export that begins with the key that signs. *)
Definition gpg_published (w : key_world) : Prop := exists k ks,
  kw_files w !! kp_gpg_public c = Some (armor false (k :: ks)) /\ head (kw_ring w) = Some k.
Definition gpg_kept (w : key_world) : Prop := is_Some (kw_files w !! kp_gpg_private c) -> gpg_published w.
(** The files of the RSA pair belong together. *)
Definition rsa_kept (w : key_world) : Prop := is_Some (kw_files w !! kp_rsa_public c) -> exists k,
  kw_files w !! kp_rsa_private c = Some (private_pem k) /\ kw_files w !! kp_rsa_public c = Some (public_pem k).
Definition keys_kept (w : key_world) : Prop := gpg_kept w /\ rsa_kept w.

(** Only the files at some paths differ. *)
Definition same_but (ps : list string) (w w' : key_world) : Prop := forall p, p ∉ ps -> kw_files w' !! p = kw_files w !! p.

Lemma gpg_published_grows w new fs : kw_files w = fs -> gpg_published w -> gpg_published (KeyWorld fs (kw_ring w ++ new)).
Proof using Type. intros <- (k & ks & Hf & Hk). exists k, ks. split; [done|]. cbn. by destruct (kw_ring w). Qed.
Lemma keys_kept_grows w w' : (exists new, w' = KeyWorld (kw_files w) (kw_ring w ++ new)) -> keys_kept w -> keys_kept w'.
Proof using Type.
  intros [new ->] [Hg Hr]. split; [|exact Hr]. intros Hs. by apply gpg_published_grows; [|apply Hg].
Qed.
Lemma keys_kept_same ps w w' : same_but ps w w' -> kw_ring w' = kw_ring w ->
  kp_gpg_private c ∉ ps -> kp_gpg_public c ∉ ps -> kp_rsa_public c ∉ ps -> kp_rsa_private c ∉ ps -> keys_kept w -> keys_kept w'.
Proof using Type.
  intros Hsame Hring H1 H2 H3 H4. unfold keys_kept, gpg_kept, rsa_kept, gpg_published. by rewrite Hring, !Hsame.
Qed.

(** A public key that was lost is not exported again, and the start says that all
    is well. *)
Lemma lost_public_key_stays_lost w : is_Some (kw_files w !! kp_gpg_private c) -> kw_files w !! kp_gpg_public c = None ->
  wp (ensure_signing_key (kp_gpg_public c) (kp_gpg_private c)) (fun _ w' => kw_files w' !! kp_gpg_public c = None) w.
Proof using Type.
  intros Hs Hnone. unfold ensure_signing_key. apply wp_bind. intros there w' [-> ->]. rewrite (bool_decide_eq_true_2 _ Hs). cbn [wp].
  unfold extract_key_id_from_private_key, bind_ok. apply wp_bind, wp_bind. intros [] w' [new ->]. cbn [wp].
  unfold get_key_id, gpg_run, or_failed, bind_ok. do 4 apply wp_bind. intros x w' [-> _]. cbn [wp].
  destruct x as [out|e]; [|exact Hnone]. cbn. destruct (go_success out); [|exact Hnone]. cbn. by destruct (parse_key_id _).
Qed.

(** And two RSA files that do not belong together are kept: a start that was cut
    off between the two, where an old public file was there, leaves such a pair. *)
Lemma mismatched_pair_kept w k old : distinct_paths -> kw_files w !! kp_rsa_private c = None -> kw_files w !! kp_rsa_public c = Some old ->
  exists w', cut_run (ensure_rsa_keypair private_pem public_pem (kp_rsa_public c) (kp_rsa_private c)) w w' /\
    kw_files w' !! kp_rsa_private c = Some (private_pem k) /\ kw_files w' !! kp_rsa_public c = Some old /\
    wp (ensure_rsa_keypair private_pem public_pem (kp_rsa_public c) (kp_rsa_private c)) (fun r w'' => is_ok r = true /\ w'' = w') w'.
Proof using key_id.
  intros Hd Hpriv Hpub. unfold distinct_paths in Hd. rewrite !NoDup_cons in Hd.
  set (w1 := KeyWorld (<[tmp_of (kp_rsa_private c) := private_pem k]> (kw_files w)) (kw_ring w)).
  set (w2 := KeyWorld (<[kp_rsa_private c := private_pem k]> (delete (tmp_of (kp_rsa_private c)) (kw_files w1))) (kw_ring w)).
  assert (kw_files w2 !! kp_rsa_private c = Some (private_pem k)) as Hp2 by apply lookup_insert_eq.
  assert (kw_files w2 !! kp_rsa_public c = Some old) as Hq2.
  { unfold w2, w1. cbn [kw_files]. rewrite lookup_insert_ne, lookup_delete_ne, lookup_insert_ne by set_solver. done. }
  exists w2. split_and!; [|done|done|].
  - eapply cut_later; [split; [done|reflexivity]|]. eapply cut_later; [split; [done|reflexivity]|].
    rewrite Hpriv, (bool_decide_eq_false_2 (is_Some None)), andb_false_r by (by intros [? [=]]).
    eapply cut_later with (x := Ok k); [reflexivity|]. eapply cut_later with (x := Ok tt) (w' := w1); [done|]. eapply cut_later with (x := Ok tt) (w' := w1); [done|].
    eapply cut_later with (x := Ok tt) (w' := w2); [|constructor]. split; [done|]. exists (private_pem k). split; [apply lookup_insert_eq|done].
  - intros x w' [-> ->]. intros x w' [-> ->]. rewrite !bool_decide_eq_true_2 by (by rewrite ?Hp2, ?Hq2). done.
Qed.
(** A listing begins with the first key. *)
Context (Hlisting : forall k ks, parse_key_id (listing (k :: ks)) = Some (key_id k)).

Lemma get_key_id_along email w : keys_kept w -> gpg_published w ->
  along keys_kept (get_key_id email) (fun r w' => gpg_published w' /\ forall id, r = Ok id -> exists k, head (kw_ring w') = Some k /\ id = key_id k) w.
Proof using All.
  intros HJ Hp. apply along_bind_ok, along_gpg_run; [done|]. intros x w' [-> Hx]. split; [done|]. split; [by intros m|].
  intros out -> Hout. rewrite (Hx out eq_refl Hout). split; [done|]. split; [done|].
  destruct Hp as (k & ks & _ & Hk). destruct (kw_ring w) as [|k' ring]; [done|]. rewrite Hlisting. intros id [= <-]. by exists k'.
Qed.

Lemma same_but_write path w w' o : kw_files w' = partial_alter (fun _ => o) path (kw_files w) -> same_but [path] w w'.
Proof using All. intros Hf p Hp. rewrite Hf. apply lookup_partial_alter_ne. set_solver. Qed.
Lemma insert_alter path (x : string) (m : gmap string string) : <[path := x]> m = partial_alter (fun _ => Some x) path m.
Proof using All. done. Qed.

(** While there is no file of the private key, anything may happen to the public one. *)
Lemma keys_kept_no_private w w' : kw_files w !! kp_gpg_private c = None -> kp_gpg_public c ∉ [kp_rsa_public c; kp_rsa_private c; kp_gpg_private c] ->
  same_but [kp_gpg_public c] w w' -> keys_kept w -> keys_kept w'.
Proof using All.
  intros Hnone Hdiff Hsame [_ Hr]. split; [intros Hs; exfalso|].
  - rewrite Hsame, Hnone in Hs by set_solver. by destruct Hs.
  - unfold rsa_kept. rewrite !Hsame by set_solver. exact Hr.
Qed.

Lemma generate_key_along w : keys_kept w -> kw_files w !! kp_gpg_private c = None ->
  along keys_kept generate_key (fun r w' => kw_files w' !! kp_gpg_private c = None /\ (is_ok r = true -> kw_ring w' <> [])) w.
Proof using All.
  intros HJ Hnone. apply along_bind_ok, along_or_failed; [done|]. intros x w' Hx. assert (w' = w) as -> by exact Hx. clear Hx. split; [done|].
  destruct x as [u|m]; [|intros m'; by split]. apply along_bind_ok, along_or_failed; [done|]. intros x w' Hgrown.
  pose proof (keys_kept_grows w w' Hgrown HJ) as HJ'. split; [done|]. destruct Hgrown as [new ->]. destruct x as [u'|m]; [|intros m'; by split].
  apply along_gpg_run; [done|]. intros x w'' [Hgrown Hx]. split; [by eapply keys_kept_grows|]. destruct Hgrown as [new' ->].
  split; [intros m; by split|]. intros out -> Hout. split; [done|]. intros _. by apply (Hx out).
Qed.

Lemma export_public_along email w : distinct_paths -> keys_kept w -> kw_files w !! kp_gpg_private c = None -> kw_ring w <> [] ->
  along keys_kept (export_public_key email (kp_gpg_public c))
    (fun r w' => kw_files w' !! kp_gpg_private c = None /\ (is_ok r = true -> gpg_published w')) w.
Proof using All.
  intros Hd HJ Hnone Hring. unfold distinct_paths in Hd. rewrite !NoDup_cons in Hd. destruct Hd as (Hgp & Hgs & _).
  apply along_bind_ok, along_gpg_run; [done|]. intros x w' [-> Hx]. split; [done|]. split; [intros m; by split|].
  intros out -> Hout. rewrite (Hx out eq_refl Hout). apply along_or_failed; [done|]. intros r w' [Hring' Hr].
  assert (exists o, kw_files w' = partial_alter (fun _ => o) (kp_gpg_public c) (kw_files w)) as [o Hf] by (destruct r; [by eexists|done]).
  assert (same_but [kp_gpg_public c] w w') as Hsame by (by eapply same_but_write).
  split; [eapply keys_kept_no_private; [exact Hnone| |exact Hsame|done]; set_solver|].
  assert (kw_files w' !! kp_gpg_private c = None) as Hnone' by (rewrite Hsame by set_solver; done).
  destruct r as [u|m]; [|intros m'; by split]. split; [done|]. intros _. destruct (kw_ring w) as [|k ks] eqn:Hw; [done|].
  exists k, ks. by rewrite Hr, lookup_insert_eq, Hring'.
Qed.

Lemma export_private_along email w : distinct_paths -> keys_kept w -> gpg_published w ->
  along keys_kept (export_private_key email (kp_gpg_private c)) (fun r w' => gpg_published w') w.
Proof using All.
  intros Hd HJ Hpub. unfold distinct_paths in Hd. rewrite !NoDup_cons in Hd. destruct Hd as (Hgp & Hgs & _).
  apply along_bind_ok, along_gpg_run; [done|]. intros x w' [-> Hx]. split; [done|]. split; [by intros m|].
  intros out -> Hout. apply along_or_failed; [done|]. intros r w' [Hring' Hr].
  assert (exists o, kw_files w' = partial_alter (fun _ => o) (kp_gpg_private c) (kw_files w)) as [o Hf] by (destruct r; [by eexists|done]).
  assert (same_but [kp_gpg_private c] w w') as Hsame by (by eapply same_but_write).
  assert (gpg_published w') as Hpub' by (destruct Hpub as (k & ks & Hk); exists k, ks; rewrite Hsame, Hring' by set_solver; done).
  split; [split; [by intros _|]|by destruct r].
  destruct HJ as [_ HJ]. unfold rsa_kept. rewrite !Hsame by set_solver. exact HJ.
Qed.

Lemma ensure_signing_along w : distinct_paths -> keys_kept w ->
  along keys_kept (ensure_signing_key (kp_gpg_public c) (kp_gpg_private c))
    (fun r w' => forall i, r = Ok i -> gpg_published w' /\ exists k, head (kw_ring w') = Some k /\ gk_key_id i = key_id k) w.
Proof using All.
  intros Hd HJ. apply along_bind, along_kdo; [done|]. intros there w' [-> ->]. split; [done|]. case_bool_decide as Hthere.
  - apply along_bind_ok, along_bind, along_kdo; [done|]. intros [] w' Hgrown. pose proof (keys_kept_grows w w' Hgrown HJ) as HJ'. split; [done|].
    assert (gpg_published w') as Hpub by (destruct Hgrown as [new ->]; apply gpg_published_grows; [done|by apply HJ]).
    eapply along_mono; [|by apply get_key_id_along]. intros [id|e] w'' HJ'' [Hpub' Hid]; [|done]. split; [done|]. intros i [= <-]. by split; [|apply Hid].
  - rewrite <- eq_None_not_Some in Hthere. apply along_bind, along_kdo; [done|]. intros [] w' Hx. assert (w' = w) as -> by exact Hx. split; [done|].
    apply along_bind_ok. eapply along_mono; [|by apply generate_key_along]. intros [u|e] w1 HJ1 [Hnone Hring]; [|done].
    apply along_bind_ok. eapply along_mono; [|by apply export_public_along; auto]. intros [u1|e] w2 HJ2 [_ Hpub]; [|done].
    apply along_bind_ok. eapply along_mono; [|by apply export_private_along; auto]. intros [u2|e] w3 HJ3 Hpub3; [|done].
    apply along_bind, along_kdo; [done|]. intros [] w4 Hx4. assert (w4 = w3) as -> by exact Hx4. split; [done|].
    apply along_bind_ok. eapply along_mono; [|by apply get_key_id_along]. intros [id|e] w5 HJ5 [Hpub5 Hid]; [|done]. split; [done|]. intros i [= <-]. by split; [|apply Hid].
Qed.

Lemma write_key_file_along mode path contents w : distinct_paths -> path = kp_rsa_public c \/ path = kp_rsa_private c -> keys_kept w ->
  (forall w', same_but [tmp_of path; path] w w' -> kw_ring w' = kw_ring w -> kw_files w' !! path = Some contents -> keys_kept w') ->
  along keys_kept (write_key_file mode path contents) (fun r w' => same_but [tmp_of path; path] w w' /\ kw_ring w' = kw_ring w /\
    kw_files w' !! path = if is_ok r then Some contents else kw_files w !! path) w.
Proof using All.
  intros Hd Hpath HJ Hkept. unfold distinct_paths in Hd. rewrite !NoDup_cons in Hd.
  assert (tmp_of path ∉ [kp_gpg_public c; kp_gpg_private c; kp_rsa_public c; kp_rsa_private c]) as Htmp by (destruct Hpath as [-> | ->]; set_solver).
  apply along_bind_ok, along_or_failed; [done|]. intros x w1 [Hring1 Hx1].
  assert (exists o, kw_files w1 = partial_alter (fun _ => o) (tmp_of path) (kw_files w)) as [o Hf] by (destruct x; [by eexists|done]).
  assert (same_but [tmp_of path] w w1) as Hsame1 by (by eapply same_but_write).
  assert (keys_kept w1) as HJ1 by (eapply keys_kept_same; [exact Hsame1|done|..|done]; set_solver). split; [done|].
  assert (path <> tmp_of path) as Hne by (destruct Hpath as [-> | ->]; set_solver).
  assert (kw_files w1 !! path = kw_files w !! path) as Hold by (apply Hsame1; set_solver).
  assert (same_but [tmp_of path; path] w w1) as Hsame1' by (intros p Hp; apply Hsame1; set_solver).
  destruct x as [u|m]; [|intros m'; by split_and!].
  apply along_bind_ok, along_or_failed; [done|]. intros x w2 Hx. assert (w2 = w1) as -> by exact Hx. clear Hx. split; [done|].
  destruct x as [u'|m]; [|intros m'; by split_and!].
  apply along_or_failed; [done|]. intros x w3 [Hring3 Hx3]. destruct x as [u''|m].
  - destruct Hx3 as (c' & Hc' & Hf3). rewrite Hx1, lookup_insert_eq in Hc'. injection Hc' as <-.
    assert (kw_files w3 !! path = Some contents) as Hnew by (by rewrite Hf3, lookup_insert_eq).
    assert (same_but [tmp_of path; path] w w3) as Hsame3.
    { intros p Hp. rewrite Hf3, lookup_insert_ne, lookup_delete_ne by set_solver. apply Hsame1'. set_solver. }
    split; [apply Hkept; [done|congruence|done]|]. split_and!; [done|congruence|done].
  - assert (keys_kept w3) as HJ3 by (eapply (keys_kept_same [] w1); [intros p _; by rewrite Hx3|done|..|done]; set_solver).
    split; [done|]. intros m'. split_and!; [intros p Hp; rewrite Hx3; by apply Hsame1'|congruence|by rewrite Hx3].
Qed.

Lemma ensure_rsa_along w : distinct_paths -> keys_kept w ->
  along keys_kept (ensure_rsa_keypair private_pem public_pem (kp_rsa_public c) (kp_rsa_private c))
    (fun _ w' => kw_ring w' = kw_ring w /\ kw_files w' !! kp_gpg_public c = kw_files w !! kp_gpg_public c) w.
Proof using All.
  intros Hd HJ. pose proof Hd as Hd'. unfold distinct_paths in Hd'. rewrite !NoDup_cons in Hd'.
  apply along_bind, along_kdo; [done|]. intros pub w' [-> ->]. split; [done|].
  apply along_bind, along_kdo; [done|]. intros priv w' [-> ->]. split; [done|]. destruct (_ && _) eqn:Hboth; [done|].
  assert (kw_files w !! kp_rsa_public c = None) as Hnone.
  { apply eq_None_not_Some. intros Hpub. destruct HJ as [_ HJ]. destruct (HJ Hpub) as (k & Hk & _).
    rewrite !bool_decide_eq_true_2 in Hboth by (by rewrite ?Hk). done. }
  apply along_bind_ok, along_or_failed; [done|]. intros x w1 Hx. assert (w1 = w) as -> by exact Hx. clear Hx. split; [done|]. destruct x as [k|m]; [|done].
  apply along_bind_ok. eapply along_mono; [|apply write_key_file_along; [done|by right|done|]].
  2:{ intros w' Hsame Hring _. destruct HJ as [Hg Hr]. split.
      - unfold gpg_kept, gpg_published. rewrite Hring, !Hsame by set_solver. exact Hg.
      - intros Hpub. rewrite Hsame, Hnone in Hpub by set_solver. by destruct Hpub. }
  intros [u|e] w2 HJ2 (Hsame2 & Hring2 & Hnew2); [|split; [done|apply Hsame2; set_solver]]. cbn [is_ok] in Hnew2.
  apply along_bind_ok. eapply along_mono; [|apply write_key_file_along; [done|by left|done|]].
  2:{ intros w' Hsame Hring Hpub. destruct HJ2 as [Hg Hr]. split.
      - unfold gpg_kept, gpg_published. rewrite Hring, !Hsame by set_solver. exact Hg.
      - intros _. exists k. split; [|done]. rewrite Hsame by set_solver. exact Hnew2. }
  intros r w3 HJ3 (Hsame3 & Hring3 & _).
  assert (kw_ring w3 = kw_ring w /\ kw_files w3 !! kp_gpg_public c = kw_files w !! kp_gpg_public c) as Hpost.
  { split; [congruence|]. rewrite Hsame3, Hsame2 by set_solver. done. }
  by destruct r.
Qed.

Lemma start_keys_along w : distinct_paths -> keys_kept w ->
  along keys_kept (start_keys private_pem public_pem c) (fun o w' =>
    gk_key_id o.1.1 <> ""%string -> gpg_published w' /\ exists k, head (kw_ring w') = Some k /\ gk_key_id o.1.1 = key_id k) w.
Proof using All.
  intros Hd HJ. apply along_bind. eapply along_mono; [|by apply ensure_signing_along]. intros g w1 HJ1 Hg.
  apply along_bind. eapply along_mono; [|by apply ensure_rsa_along]. intros r w2 HJ2 [Hring Hpub]. split; [done|]. cbn [fst].
  destruct g as [i|e]; [|done]. intros _. destruct (Hg i eq_refl) as [(k & ks & Hf & Hk) Hid]. split; [|by rewrite Hring].
  exists k, ks. by rewrite Hring, Hpub.
Qed.

(** C36. The keys that hosts are given are those that sign: from a directory without
    the GPG private-key file and the RSA public-key file (the two files that
    decide whether keys are generated), whatever starts of the server were cut
    off or had failing steps, a start that has a key id at its end leaves an
    exported public key that begins with the key that signs, whose id it is; and
    whenever the public RSA file is there, the two RSA files belong together. *)
Theorem published_keys_sign w0 w : distinct_paths ->
  kw_files w0 !! kp_gpg_private c = None -> kw_files w0 !! kp_rsa_public c = None ->
  rtc (cut_run (start_keys private_pem public_pem c)) w0 w ->
  wp (start_keys private_pem public_pem c) (fun o w' =>
    (gk_key_id o.1.1 <> ""%string -> exists k ks, kw_files w' !! kp_gpg_public c = Some (armor false (k :: ks)) /\
       head (kw_ring w') = Some k /\ gk_key_id o.1.1 = key_id k) /\
    (is_Some (kw_files w' !! kp_rsa_public c) -> exists k,
       kw_files w' !! kp_rsa_private c = Some (private_pem k) /\ kw_files w' !! kp_rsa_public c = Some (public_pem k))) w.
Proof using All.
  intros Hd Hgpg Hrsa Hruns. assert (keys_kept w0) as HJ0.
  { split; [intros Hs; rewrite Hgpg in Hs|intros Hs; rewrite Hrsa in Hs]; by destruct Hs. }
  assert (keys_kept w) as HJ.
  { clear Hgpg Hrsa. induction Hruns as [w|w0 w1 w Hrun _ IH]; [done|]. apply IH. eapply along_cut; [by apply start_keys_along|exact Hrun]. }
  apply along_wp with (J := keys_kept). eapply along_mono; [|by apply start_keys_along]. intros o w' [_ HJr] Ho. split; [|exact HJr].
  intros Hid. destruct (Ho Hid) as [(k & ks & Hf & Hk) (k' & Hk' & Hi)]. exists k, ks. split_and!; [done|done|]. congruence.
Qed.

End Theorems.

(** ** The configured paths and a gpg for the witness *)

Definition default_paths : key_paths :=
  KeyPaths "/etc/patch-manager/ca/lpa-repo-public-key.asc" "/etc/patch-manager/ca/lpa-repo-private-key.asc"
    "/etc/patch-manager/ca/lpa-repo-rsa.pub" "/etc/patch-manager/ca/lpa-repo-rsa.pem".
Definition a_listing (ring : list key) : string :=
  ("tru::1:1700000000:0:3:1:5" ++ newline ++ "pub:u:4096:1:ABCDEF0123456789:1700000000:1763072000::u:::sc::::::23::0:" ++ newline)%string.

Lemma published_keys_sign_witness :
  let c := default_paths in let w := KeyWorld ∅ [] in
  wp (H := keys_work (fun _ _ => "armor"%string) a_listing) (start_keys (fun _ => "pem"%string) (fun _ => "pub"%string) c) (fun o w' =>
    (gk_key_id o.1.1 <> ""%string -> exists k, kw_files w' !! kp_gpg_public c = Some "armor"%string /\
       head (kw_ring w') = Some k /\ gk_key_id o.1.1 = "ABCDEF0123456789"%string) /\
    (is_Some (kw_files w' !! kp_rsa_public c) -> exists k : key,
       kw_files w' !! kp_rsa_private c = Some "pem"%string /\ kw_files w' !! kp_rsa_public c = Some "pub"%string)) w.
Proof.
  cbv zeta. eapply wp_mono; [|apply (published_keys_sign (fun _ _ => "armor"%string) a_listing (fun _ => "ABCDEF0123456789"%string)
    (fun _ => "pem"%string) (fun _ => "pub"%string)) with (w0 := KeyWorld ∅ [])].
  - intros o w' [Hg Hr]. split; [|exact Hr]. intros Hid. destruct (Hg Hid) as (k & ks & Hk). by exists k.
  - reflexivity.
  - apply (bool_decide_unpack _). vm_compute. reflexivity.
  - reflexivity.
  - reflexivity.
  - reflexivity.
Defined.
